(** * drilling: SSH tunnel manager -- a shallow embedding of its core

    The development follows the Go sources:
    - [GoStrings]: the few functions of Go's [strings], [strconv] and [fmt]
      packages the program calls, on byte strings;
    - [Clash]: [sanitizeName], [GetActiveSocks5Tunnels] and
      [GenerateClashConfig] of the Clash exporter;
    - [Base64], [CFB] and [HostService]: the secret store of
      [internal/service/host_service.go];
    - [Socks5]: [handleAuth] and [handleRequest] of the SOCKS5 server;
    - [Engine]: the tunnel service of [internal/service/tunnel_service.go]
      over an in-memory model of the repository;
    - [HostServiceOps]: the operations of the host service that write the
      store or reach the host;
    - [Traffic]: the counters of the traffic service;
    - [Socks5Tunnel]: the handler of one SOCKS5 connection of a dynamic
      tunnel.

    A Go [string] and a Go [[]byte] are both modelled as [list ascii]: an
    [ascii] is one byte. *)

From Stdlib Require Import ZArith NArith List Ascii String Bool Lia.
From Stdlib Require Import Sorting.Sorted Sorting.Permutation.
From Stdlib Require Import DecimalString.
From Stdlib Require DecimalPos DecimalZ.
From stdpp Require Import base option list gmap.

Import ListNotations.
Local Open Scope list_scope.
Local Open Scope char_scope.

Abbreviation bytes := (list ascii).

(** A Go string literal. *)
Definition str (s : string) : bytes := list_ascii_of_string s.
Arguments str : simpl never.

(** The error values of Go are modelled by their message ([err.Error()]). *)
Abbreviation error := (list ascii) (only parsing).

Inductive result (A : Type) : Type :=
| Ok (a : A)
| Err (e : error).
Arguments Ok {A} a.
Arguments Err {A} e.

Definition is_Ok {A} (r : result A) : bool :=
  match r with Ok _ => true | Err _ => false end.

(* ================================================================== *)
(** * The Go library functions the program uses *)

Module GoStrings.

Definition byte_eqb (a b : ascii) : bool := Ascii.eqb a b.
Arguments byte_eqb : simpl never.

Fixpoint bytes_eqb (s t : bytes) : bool :=
  match s, t with
  | [], [] => true
  | a :: s', b :: t' => byte_eqb a b && bytes_eqb s' t'
  | _, _ => false
  end.

(** [strings.HasPrefix(s, prefix)] *)
Fixpoint HasPrefix (s prefix : bytes) {struct prefix} : bool :=
  match prefix, s with
  | [], _ => true
  | p :: prefix', c :: s' => byte_eqb p c && HasPrefix s' prefix'
  | _ :: _, [] => false
  end.

(** [strings.Contains(s, substr)] *)
Fixpoint Contains (s substr : bytes) : bool :=
  HasPrefix s substr ||
  match s with
  | [] => false
  | _ :: s' => Contains s' substr
  end.

(** [strings.ReplaceAll(s, old, new)] for a non-empty [old]: the
    occurrences of [old] are replaced from left to right, without
    overlap.  [skip] counts the bytes of the occurrence being skipped. *)
Fixpoint replaceAll_from (old new : bytes) (skip : nat) (s : bytes) : bytes :=
  match s with
  | [] => []
  | c :: s' =>
      match skip with
      | S k => replaceAll_from old new k s'
      | O =>
          if HasPrefix s old
          then new ++ replaceAll_from old new (length old - 1) s'
          else c :: replaceAll_from old new 0 s'
      end
  end.

Definition ReplaceAll (s old new : bytes) : bytes :=
  replaceAll_from old new 0 s.

(** [strings.NewReplacer(oldnew...).Replace(s)] when every old string is
    a single byte: each byte is looked up in the table. *)
Fixpoint replacer_lookup (oldnew : list (ascii * bytes)) (c : ascii) : option bytes :=
  match oldnew with
  | [] => None
  | (o, n) :: rest => if byte_eqb o c then Some n else replacer_lookup rest c
  end.

Definition Replacer_Replace (oldnew : list (ascii * bytes)) (s : bytes) : bytes :=
  flat_map (fun c => match replacer_lookup oldnew c with
                     | Some n => n
                     | None => [c]
                     end) s.

Definition in_cutset (cutset : bytes) (c : ascii) : bool :=
  existsb (byte_eqb c) cutset.

(** [strings.TrimLeft(s, cutset)] for an ASCII cutset *)
Fixpoint TrimLeft (s cutset : bytes) : bytes :=
  match s with
  | [] => []
  | c :: s' => if in_cutset cutset c then TrimLeft s' cutset else s
  end.

(** [strings.TrimRight(s, cutset)] for an ASCII cutset *)
Fixpoint TrimRight (s cutset : bytes) : bytes :=
  match s with
  | [] => []
  | c :: s' =>
      match TrimRight s' cutset with
      | [] => if in_cutset cutset c then [] else [c]
      | t => c :: t
      end
  end.

(** [strings.Trim(s, cutset)]: [trimLeftByte(trimRightByte(s, c), c)] *)
Definition Trim (s cutset : bytes) : bytes :=
  TrimLeft (TrimRight s cutset) cutset.

(** [strconv.Itoa(n)], also the verb [%d] of [fmt.Sprintf] *)
Definition Itoa (n : Z) : bytes :=
  str (NilZero.string_of_int (Z.to_int n)).

(** [strings.Join(elems, sep)] *)
Fixpoint Join (elems : list bytes) (sep : bytes) : bytes :=
  match elems with
  | [] => []
  | [e] => e
  | e :: rest => e ++ sep ++ Join rest sep
  end.

End GoStrings.
Import GoStrings.

(* ================================================================== *)
(** * The Clash exporter: name sanitiser *)

Module Sanitize.

Definition dquote : ascii := ascii_of_nat 34.
Definition backslash : ascii := ascii_of_nat 92.

(** The table given to [strings.NewReplacer] in [sanitizeName]. *)
Definition replacer : list (ascii * bytes) :=
  [ (" ", str "-"); ("_", str "-"); (".", str "-"); (":", str "-");
    ("/", str "-"); (backslash, str "-"); ("|", str "-"); ("*", str "-");
    ("?", str "-");
    (dquote, []); ("'", []); ("<", []); (">", []) ].

(** [for strings.Contains(result, "--") { result = strings.ReplaceAll(result, "--", "-") }];
    every turn of the loop shortens [result], so [length result] turns
    are enough (lemma [collapse_dashes_done]). *)
Fixpoint collapse_loop (fuel : nat) (result : bytes) : bytes :=
  match fuel with
  | O => result
  | S fuel' =>
      if Contains result (str "--")
      then collapse_loop fuel' (ReplaceAll result (str "--") (str "-"))
      else result
  end.

Definition collapse_dashes (result : bytes) : bytes :=
  collapse_loop (length result) result.

Definition sanitizeName (name : bytes) : bytes :=
  let result := Replacer_Replace replacer name in
  let result := collapse_dashes result in
  let result := Trim result (str "-") in
  match result with
  | [] => str "proxy"
  | _ => result
  end.

(** The characters the sanitiser removes or replaces. *)
Definition forbidden : bytes := map fst replacer.

(** [result] before the last step of [sanitizeName]. *)
Definition trimmed (name : bytes) : bytes :=
  Trim (collapse_dashes (Replacer_Replace replacer name)) (str "-").

End Sanitize.

(* ================================================================== *)
(** * The persisted records ([internal/models]) *)

Module models.

Definition TunnelTypeLocalForward : bytes := str "local_forward".
Definition TunnelTypeRemoteForward : bytes := str "remote_forward".
Definition TunnelTypeDynamic : bytes := str "dynamic".

Definition TunnelStatusActive : bytes := str "active".
Definition TunnelStatusInactive : bytes := str "inactive".
Definition TunnelStatusError : bytes := str "error".

Definition LogEventConnect : bytes := str "connect".
Definition LogEventDisconnect : bytes := str "disconnect".
Definition LogEventError : bytes := str "error".
Definition LogEventStart : bytes := str "start".
Definition LogEventStop : bytes := str "stop".

Definition AuthTypePassword : bytes := str "password".
Definition AuthTypeKey : bytes := str "key".
Definition AuthTypeKeyPassword : bytes := str "key_password".

Definition HostStatusInactive : bytes := str "inactive".
Definition HostStatusActive : bytes := str "active".
Definition HostStatusError : bytes := str "error".

(** [models.Tunnel]; [DeletedAt] is [true] for a soft-deleted row.  The
    timestamps and the preloaded associations are left out. *)
Module Tunnel.
Record t : Type := mk {
  ID : N;
  HostID : N;
  Name : bytes;
  Type_ : bytes;
  LocalAddress : bytes;
  LocalPort : Z;
  RemoteAddress : bytes;
  RemotePort : Z;
  Description : bytes;
  Status : bytes;
  AutoStart : bool;
  DeletedAt : bool
}.

Definition set_ID (x : t) (v : N) : t :=
  mk v (HostID x) (Name x) (Type_ x) (LocalAddress x) (LocalPort x)
     (RemoteAddress x) (RemotePort x) (Description x) (Status x)
     (AutoStart x) (DeletedAt x).
Definition set_LocalAddress (x : t) (v : bytes) : t :=
  mk (ID x) (HostID x) (Name x) (Type_ x) v (LocalPort x)
     (RemoteAddress x) (RemotePort x) (Description x) (Status x)
     (AutoStart x) (DeletedAt x).
Definition set_RemoteAddress (x : t) (v : bytes) : t :=
  mk (ID x) (HostID x) (Name x) (Type_ x) (LocalAddress x) (LocalPort x)
     v (RemotePort x) (Description x) (Status x)
     (AutoStart x) (DeletedAt x).
Definition set_Status (x : t) (v : bytes) : t :=
  mk (ID x) (HostID x) (Name x) (Type_ x) (LocalAddress x) (LocalPort x)
     (RemoteAddress x) (RemotePort x) (Description x) v
     (AutoStart x) (DeletedAt x).
Definition set_DeletedAt (x : t) (v : bool) : t :=
  mk (ID x) (HostID x) (Name x) (Type_ x) (LocalAddress x) (LocalPort x)
     (RemoteAddress x) (RemotePort x) (Description x) (Status x)
     (AutoStart x) v.
End Tunnel.

(** [models.Host] *)
Module Host.
Record t : Type := mk {
  ID : N;
  Name : bytes;
  Hostname : bytes;
  Port : Z;
  Username : bytes;
  AuthType : bytes;
  Password : bytes;
  PrivateKey : bytes;
  KeyPath : bytes;
  Passphrase : bytes;
  Status : bytes
}.

Definition set_Password (x : t) (v : bytes) : t :=
  mk (ID x) (Name x) (Hostname x) (Port x) (Username x) (AuthType x)
     v (PrivateKey x) (KeyPath x) (Passphrase x) (Status x).
Definition set_PrivateKey (x : t) (v : bytes) : t :=
  mk (ID x) (Name x) (Hostname x) (Port x) (Username x) (AuthType x)
     (Password x) v (KeyPath x) (Passphrase x) (Status x).
Definition set_Passphrase (x : t) (v : bytes) : t :=
  mk (ID x) (Name x) (Hostname x) (Port x) (Username x) (AuthType x)
     (Password x) (PrivateKey x) (KeyPath x) v (Status x).
Definition set_Status (x : t) (v : bytes) : t :=
  mk (ID x) (Name x) (Hostname x) (Port x) (Username x) (AuthType x)
     (Password x) (PrivateKey x) (KeyPath x) (Passphrase x) v.
Definition set_ID (x : t) (v : N) : t :=
  mk v (Name x) (Hostname x) (Port x) (Username x) (AuthType x)
     (Password x) (PrivateKey x) (KeyPath x) (Passphrase x) (Status x).
Definition set_Port (x : t) (v : Z) : t :=
  mk (ID x) (Name x) (Hostname x) v (Username x) (AuthType x)
     (Password x) (PrivateKey x) (KeyPath x) (Passphrase x) (Status x).
End Host.

(** A host named [home], for the examples. *)
Definition example_host : Host.t :=
  Host.mk 1 (str "home") (str "example.org") 22 (str "root")
          (str "password") (str "secret") [] [] [] (str "inactive").

(** [models.ConnectionLog], without its timestamp *)
Module ConnectionLog.
Record t : Type := mk {
  TunnelID : N;
  EventType : bytes;
  Message : bytes
}.
End ConnectionLog.

End models.
Import models.

(* ================================================================== *)
(** * The repositories ([internal/repository]) over in-memory tables

    The gorm-backed repositories are modelled by the rows of their tables,
    in insertion order.  The store itself never fails. *)

Module repository.

Definition record_not_found : error := str "record not found".

(** ** [HostRepository]: hosts are deleted for good ([Unscoped]). *)
Module HostRepository.
Definition t : Type := list Host.t.

Definition GetByID (r : t) (id : N) : result Host.t :=
  match find (fun h => N.eqb (Host.ID h) id) r with
  | Some h => Ok h
  | None => Err record_not_found
  end.

Definition GetAll (r : t) : list Host.t := r.

(** [Where("name = ?", name).First(&host)]; the index on [name] is
    unique, so at most one row matches. *)
Definition GetByName (r : t) (name : bytes) : result Host.t :=
  match find (fun h => bytes_eqb (Host.Name h) name) r with
  | Some h => Ok h
  | None => Err record_not_found
  end.

Definition has_id (r : t) (id : N) : bool :=
  existsb (fun h => N.eqb (Host.ID h) id) r.

(** A row other than [id] has the name. *)
Definition name_taken (r : t) (name : bytes) (id : N) : bool :=
  existsb (fun h => bytes_eqb (Host.Name h) name &&
                    negb (N.eqb (Host.ID h) id)) r.

(** The column defaults of the model ([port default:22],
    [status default:inactive]), written for the zero-valued fields
    of an inserted row. *)
Definition with_defaults (h : Host.t) : Host.t :=
  let h := if Z.eqb (Host.Port h) 0 then Host.set_Port h 22 else h in
  match Host.Status h with
  | [] => Host.set_Status h HostStatusInactive
  | _ :: _ => h
  end.

(** The [INSERT] of [db.Create(host)] and of [db.Save(host)]: the
    name is unique, a zero primary key is assigned by the table
    ([newID]), a given one must be unused.  Returns the row as
    written back. *)
Definition insert (r : t) (newID : N) (host : Host.t) : result Host.t * t :=
  let host := with_defaults host in
  let host := if N.eqb (Host.ID host) 0 then Host.set_ID host newID else host in
  if name_taken r (Host.Name host) (Host.ID host)
  then (Err (str "UNIQUE constraint failed: hosts.name"), r)
  else if has_id r (Host.ID host)
  then (Err (str "UNIQUE constraint failed: hosts.id"), r)
  else (Ok host, r ++ [host]).

Definition Create (r : t) (newID : N) (host : Host.t) : result Host.t * t :=
  insert r newID host.

(** [db.Save(host)]: an insert for a zero primary key, else an
    update of every column of the row; when there is no such row,
    an insert. *)
Definition Update (r : t) (newID : N) (host : Host.t) : option error * t :=
  if negb (N.eqb (Host.ID host) 0) && has_id r (Host.ID host) then
    if name_taken r (Host.Name host) (Host.ID host)
    then (Some (str "UNIQUE constraint failed: hosts.name"), r)
    else (None, map (fun h => if N.eqb (Host.ID h) (Host.ID host)
                              then host else h) r)
  else
    match insert r newID host with
    | (Ok _, r') => (None, r')
    | (Err e, r') => (Some e, r')
    end.

(** [Update("status", status)] on the row [id] *)
Definition UpdateStatus (r : t) (id : N) (status : bytes) : t :=
  map (fun h => if N.eqb (Host.ID h) id then Host.set_Status h status else h) r.

(** [Delete]: the tunnels of the host that are not deleted are
    counted first; [tunnels] are the rows of the tunnels table. *)
Definition Delete (r : t) (tunnels : list Tunnel.t) (id : N)
  : option error * t :=
  let count :=
    length (List.filter (fun x => N.eqb (Tunnel.HostID x) id &&
                                  negb (Tunnel.DeletedAt x)) tunnels) in
  if (0 <? count)%nat
  then (Some (str "cannot delete host with active tunnels"), r)
  else (None, List.filter (fun h => negb (N.eqb (Host.ID h) id)) r).
End HostRepository.

(** ** [TunnelRepository]: tunnels are soft-deleted. *)
Module TunnelRepository.
Record t : Type := mk {
  tunnels : list Tunnel.t;
  connection_logs : list ConnectionLog.t
}.

Definition live (x : Tunnel.t) : bool := negb (Tunnel.DeletedAt x).

Definition GetAll (r : t) : list Tunnel.t := List.filter live (tunnels r).

Definition GetByID (r : t) (id : N) : result Tunnel.t :=
  match find (fun x => N.eqb (Tunnel.ID x) id) (GetAll r) with
  | Some x => Ok x
  | None => Err record_not_found
  end.

Definition GetAutoStartTunnels (r : t) : list Tunnel.t :=
  List.filter Tunnel.AutoStart (GetAll r).

Definition has_row (r : t) (id : N) : bool :=
  existsb (fun x => N.eqb (Tunnel.ID x) id) (tunnels r).

(** The next value of the auto-increment primary key. *)
Definition next_id (r : t) : N :=
  N.succ (fold_right N.max 0%N (map Tunnel.ID (tunnels r))).

(** gorm writes the column defaults of the model
    ([local_address default:127.0.0.1], [status default:inactive])
    for the zero-valued fields of an inserted row. *)
Definition with_defaults (x : Tunnel.t) : Tunnel.t :=
  let x := match Tunnel.LocalAddress x with
           | [] => Tunnel.set_LocalAddress x (str "127.0.0.1")
           | _ => x
           end in
  match Tunnel.Status x with
  | [] => Tunnel.set_Status x TunnelStatusInactive
  | _ => x
  end.

(** [db.Create(tunnel)]: a zero primary key is assigned by the table,
    a given one must be unused. Returns the row as written back. *)
Definition Create (r : t) (x : Tunnel.t) : result Tunnel.t * t :=
  let x := with_defaults x in
  if N.eqb (Tunnel.ID x) 0 then
    let x := Tunnel.set_ID x (next_id r) in
    (Ok x, mk (tunnels r ++ [x]) (connection_logs r))
  else if has_row r (Tunnel.ID x) then
    (Err (str "UNIQUE constraint failed: tunnels.id"), r)
  else (Ok x, mk (tunnels r ++ [x]) (connection_logs r)).

Definition replace_row (x : Tunnel.t) (rows : list Tunnel.t) : list Tunnel.t :=
  map (fun y => if N.eqb (Tunnel.ID y) (Tunnel.ID x) then x else y) rows.

Definition has_live_row (r : t) (id : N) : bool :=
  existsb (fun x => N.eqb (Tunnel.ID x) id) (GetAll r).

(** [db.Save(tunnel)]: an insert for a zero primary key, else an update
    of every column of the live row; when no live row has the key, an
    insert that overwrites the row on conflict. *)
Definition Update (r : t) (x : Tunnel.t) : option error * t :=
  if N.eqb (Tunnel.ID x) 0 then
    match Create r x with
    | (Ok _, r') => (None, r')
    | (Err e, r') => (Some e, r')
    end
  else if has_live_row r (Tunnel.ID x) then
    (None, mk (replace_row x (tunnels r)) (connection_logs r))
  else if has_row r (Tunnel.ID x) then
    (None, mk (replace_row (with_defaults x) (tunnels r)) (connection_logs r))
  else (None, mk (tunnels r ++ [with_defaults x]) (connection_logs r)).

(** [Update("status", status)] on the live row [id] *)
Definition UpdateStatus (r : t) (id : N) (status : bytes) : t :=
  mk (map (fun y => if N.eqb (Tunnel.ID y) id && live y
                    then Tunnel.set_Status y status else y) (tunnels r))
     (connection_logs r).

(** [Delete]: the logs of the tunnel go, the row is soft-deleted. *)
Definition Delete (r : t) (id : N) : t :=
  mk (map (fun y => if N.eqb (Tunnel.ID y) id && live y
                    then Tunnel.set_DeletedAt y true else y) (tunnels r))
     (List.filter (fun l => negb (N.eqb (ConnectionLog.TunnelID l) id))
             (connection_logs r)).

Definition AddConnectionLog (r : t) (l : ConnectionLog.t) : t :=
  mk (tunnels r) (connection_logs r ++ [l]).
End TunnelRepository.

End repository.
Import repository.

(* ================================================================== *)
(** * The Clash exporter *)

Module Clash.
Import Sanitize.

Record ClashProxy : Type := mkProxy {
  proxy_Name : bytes;
  proxy_Type : bytes;
  proxy_Server : bytes;
  proxy_Port : Z
}.

Record ClashProxyGroup : Type := mkGroup {
  group_Name : bytes;
  group_Type : bytes;
  group_Proxies : list bytes;
  group_URL : bytes;
  group_Interval : Z
}.

Record ClashDNS : Type := mkDNS {
  dns_Enable : bool;
  dns_Listen : bytes;
  dns_NameServer : list bytes;
  dns_EnhancedMode : bytes;
  dns_FakeIPRange : bytes;
  dns_UseHosts : bool;
  dns_FakeIPFilter : list bytes
}.

Record ClashConfig : Type := mkConfig {
  Port : Z;
  SocksPort : Z;
  AllowLan : bool;
  Mode : bytes;
  LogLevel : bytes;
  ExternalUI : bytes;
  ExternalController : bytes;
  Proxies : list ClashProxy;
  ProxyGroups : list ClashProxyGroup;
  Rules : list bytes;
  DNS : ClashDNS
}.

Record clashExportService : Type := mkService {
  tunnelRepo : TunnelRepository.t;
  hostRepo : HostRepository.t
}.

(** [sort.Slice(x, less)], as an insertion sort.  Go does not fix the
    order of elements that compare equal; nothing below depends on it. *)
Fixpoint sort_insert {A} (less : A -> A -> bool) (x : A) (l : list A) : list A :=
  match l with
  | [] => [x]
  | y :: l' => if less y x then y :: sort_insert less x l' else x :: l
  end.

Definition sort_Slice {A} (less : A -> A -> bool) (l : list A) : list A :=
  fold_right (sort_insert less) [] l.

Definition is_active_socks5 (tunnel : Tunnel.t) : bool :=
  bytes_eqb (Tunnel.Type_ tunnel) (str "dynamic") &&
  bytes_eqb (Tunnel.Status tunnel) (str "active").

(** The [less] function given to [sort.Slice]. *)
Definition port_less (a b : Tunnel.t) : bool :=
  Z.ltb (Tunnel.LocalPort a) (Tunnel.LocalPort b).

Definition GetActiveSocks5Tunnels (s : clashExportService) : result (list Tunnel.t) :=
  let allTunnels := TunnelRepository.GetAll (tunnelRepo s) in
  let socks5Tunnels := List.filter is_active_socks5 allTunnels in
  Ok (sort_Slice port_less socks5Tunnels).

Definition proxy_name (host : Host.t) (tunnel : Tunnel.t) : bytes :=
  str "drilling-" ++ sanitizeName (Host.Name host) ++ str "-" ++
  Itoa (Tunnel.LocalPort tunnel).

(** The loop over [socks5Tunnels]: a tunnel whose host cannot be read is
    skipped. *)
Fixpoint make_proxies (s : clashExportService) (socks5Tunnels : list Tunnel.t)
  : list ClashProxy :=
  match socks5Tunnels with
  | [] => []
  | tunnel :: rest =>
      match HostRepository.GetByID (hostRepo s) (Tunnel.HostID tunnel) with
      | Err _ => make_proxies s rest
      | Ok host =>
          mkProxy (proxy_name host tunnel) (str "socks5")
                  (Tunnel.LocalAddress tunnel) (Tunnel.LocalPort tunnel)
          :: make_proxies s rest
      end
  end.

Definition test_url : bytes := str "http://www.gstatic.com/generate_204".

Definition make_groups (proxyNames : list bytes) : list ClashProxyGroup :=
  if (0 <? length proxyNames)%nat then
    let autoGroup := mkGroup (str "Auto") (str "url-test") proxyNames test_url 300 in
    let selectGroup :=
      mkGroup (str "Proxy") (str "select")
              ([str "Auto"; str "DIRECT"] ++ proxyNames) [] 0 in
    if (1 <? length proxyNames)%nat then
      let loadBalanceGroup :=
        mkGroup (str "LoadBalance") (str "load-balance") proxyNames test_url 300 in
      let selectGroup :=
        mkGroup (str "Proxy") (str "select")
                ([str "Auto"; str "LoadBalance"; str "DIRECT"] ++ proxyNames) [] 0 in
      [autoGroup; selectGroup; loadBalanceGroup]
    else [autoGroup; selectGroup]
  else [].

Definition rules : list bytes :=
  [ str "DOMAIN-SUFFIX,local,DIRECT"; str "DOMAIN-SUFFIX,localhost,DIRECT";
    str "DOMAIN-SUFFIX,lan,DIRECT"; str "IP-CIDR,127.0.0.0/8,DIRECT";
    str "IP-CIDR,169.254.0.0/16,DIRECT"; str "IP-CIDR,192.168.0.0/16,DIRECT";
    str "IP-CIDR,10.0.0.0/8,DIRECT"; str "IP-CIDR,172.16.0.0/12,DIRECT";
    str "IP-CIDR,224.0.0.0/4,DIRECT"; str "IP-CIDR,240.0.0.0/4,DIRECT";
    str "GEOIP,CN,DIRECT"; str "MATCH,Proxy" ].

Definition dns : ClashDNS :=
  mkDNS true (str "0.0.0.0:53") [str "223.5.5.5"; str "1.1.1.1"]
        (str "fake-ip") (str "198.18.0.1/16") true
        [ str "*.lan"; str "localhost.ptlogin2.qq.com"; str "dns.msftncsi.com";
          str "www.msftncsi.com"; str "www.msftconnecttest.com" ].

Definition no_active_socks5 : error := str "no active SOCKS5 tunnels found".

Definition GenerateClashConfig (s : clashExportService) : result ClashConfig :=
  match GetActiveSocks5Tunnels s with
  | Err err => Err (str "failed to get SOCKS5 tunnels: " ++ err)
  | Ok socks5Tunnels =>
      if (length socks5Tunnels =? 0)%nat then Err no_active_socks5
      else
        let proxies := make_proxies s socks5Tunnels in
        let proxyNames := map proxy_Name proxies in
        Ok (mkConfig 7890 7891 false (str "rule") (str "info") []
                     (str "127.0.0.1:9090")
                     proxies (make_groups proxyNames) rules dns)
  end.

(** The group of a configuration with a given name, if any. *)
Definition group_named (name : bytes) (c : ClashConfig) : option ClashProxyGroup :=
  find (fun g => bytes_eqb (group_Name g) name) (ProxyGroups c).

(** The members of the [Proxy] group as the code builds them for
    [n] proxies called [proxyNames]. *)
Definition select_members (proxyNames : list bytes) : list bytes :=
  (if (1 <? length proxyNames)%nat
   then [str "Auto"; str "LoadBalance"; str "DIRECT"]
   else [str "Auto"; str "DIRECT"]) ++ proxyNames.

(** The members of the [Proxy] group in the words of the specification:
    [Auto], [DIRECT], then [LoadBalance] when that group is present,
    then all proxies. *)
Definition spec_select_members (c : ClashConfig) : list bytes :=
  [str "Auto"; str "DIRECT"] ++
  (match group_named (str "LoadBalance") c with
   | Some _ => [str "LoadBalance"]
   | None => []
   end) ++
  map proxy_Name (Proxies c).

(** What the proxy of a tunnel must be. *)
Definition proxy_for (s : clashExportService) (tunnel : Tunnel.t) (p : ClashProxy)
  : Prop :=
  exists host,
    HostRepository.GetByID (hostRepo s) (Tunnel.HostID tunnel) = Ok host /\
    proxy_Name p = str "drilling-" ++ sanitizeName (Host.Name host) ++ str "-" ++
                   Itoa (Tunnel.LocalPort tunnel) /\
    proxy_Type p = str "socks5" /\
    proxy_Server p = Tunnel.LocalAddress tunnel /\
    proxy_Port p = Tunnel.LocalPort tunnel.

Definition port_le (a b : Tunnel.t) : Prop :=
  (Tunnel.LocalPort a <= Tunnel.LocalPort b)%Z.

(** Stores with the host [example_host] and active dynamic tunnels. *)
Definition example_tunnel (id : N) (port : Z) : Tunnel.t :=
  Tunnel.mk id 1 (str "socks") (str "dynamic") (str "127.0.0.1") port
            [] 0 [] (str "active") false false.

Definition example_one : clashExportService :=
  mkService (TunnelRepository.mk [example_tunnel 1 1080] []) [example_host].

Definition example_two : clashExportService :=
  mkService (TunnelRepository.mk [example_tunnel 1 1081; example_tunnel 2 1080] [])
            [example_host].

End Clash.

(* ================================================================== *)
(** * [encoding/base64]: the padded URL-safe encoding

    A 6-bit group is kept as its six bits, most significant first. *)

Module Base64.

Definition sextet : Type := (bool * bool * bool * bool * bool * bool)%type.

Definition encodeURL : bytes :=
  str "ABCDEFGHIJKLMNOPQRSTUVWXYZabcdefghijklmnopqrstuvwxyz0123456789-_".

Definition padChar : ascii := "=".

Definition bit (b : bool) (w : nat) : nat := if b then w else 0%nat.

Definition sextet_index (s : sextet) : nat :=
  let '(b5, b4, b3, b2, b1, b0) := s in
  (bit b5 32 + bit b4 16 + bit b3 8 + bit b2 4 + bit b1 2 + bit b0 1)%nat.

Definition sextet_of_index (i : nat) : sextet :=
  (Nat.testbit i 5, Nat.testbit i 4, Nat.testbit i 3,
   Nat.testbit i 2, Nat.testbit i 1, Nat.testbit i 0).

(** [enc.encode[v & 0x3F]] *)
Definition encode_sextet (s : sextet) : ascii :=
  nth (sextet_index s) encodeURL padChar.

Fixpoint index_of (c : ascii) (l : bytes) : option nat :=
  match l with
  | [] => None
  | x :: l' => if byte_eqb x c then Some 0%nat
               else match index_of c l' with
                    | Some i => Some (S i)
                    | None => None
                    end
  end.

(** [enc.decodeMap[c]]; [None] stands for [0xff]. *)
Definition decodeMap (c : ascii) : option sextet :=
  match index_of c encodeURL with
  | Some i => Some (sextet_of_index i)
  | None => None
  end.

(** The four 6-bit groups of [val := b0<<16 | b1<<8 | b2]. *)
Definition split3 (x y z : ascii) : sextet * sextet * sextet * sextet :=
  let '(Ascii x0 x1 x2 x3 x4 x5 x6 x7) := x in
  let '(Ascii y0 y1 y2 y3 y4 y5 y6 y7) := y in
  let '(Ascii z0 z1 z2 z3 z4 z5 z6 z7) := z in
  ((x7, x6, x5, x4, x3, x2), (x1, x0, y7, y6, y5, y4),
   (y3, y2, y1, y0, z7, z6), (z5, z4, z3, z2, z1, z0)).

(** [EncodeToString] *)
Fixpoint EncodeToString (src : bytes) : bytes :=
  match src with
  | [] => []
  | x :: src1 =>
      match src1 with
      | [] =>
          let '(s0, s1, _, _) := split3 x zero zero in
          [encode_sextet s0; encode_sextet s1; padChar; padChar]
      | y :: src2 =>
          match src2 with
          | [] =>
              let '(s0, s1, s2, _) := split3 x y zero in
              [encode_sextet s0; encode_sextet s1; encode_sextet s2; padChar]
          | z :: rest =>
              let '(s0, s1, s2, s3) := split3 x y z in
              encode_sextet s0 :: encode_sextet s1 :: encode_sextet s2
                :: encode_sextet s3 :: EncodeToString rest
          end
      end
  end.

(** The bytes [val>>16], [val>>8], [val] of
    [val := d0<<18 | d1<<12 | d2<<6 | d3]. *)
Definition byte0 (s0 s1 : sextet) : ascii :=
  let '(a5, a4, a3, a2, a1, a0) := s0 in
  let '(b5, b4, _, _, _, _) := s1 in
  Ascii b4 b5 a0 a1 a2 a3 a4 a5.

Definition byte1 (s1 s2 : sextet) : ascii :=
  let '(_, _, b3, b2, b1, b0) := s1 in
  let '(c5, c4, c3, c2, _, _) := s2 in
  Ascii c2 c3 c4 c5 b0 b1 b2 b3.

Definition byte2 (s2 s3 : sextet) : ascii :=
  let '(_, _, _, _, c1, c0) := s2 in
  let '(d5, d4, d3, d2, d1, d0) := s3 in
  Ascii d0 d1 d2 d3 d4 d5 c0 c1.

(** The [dlen - 1] bytes of a quantum of [dlen] characters. *)
Definition bytes_of_sextets (dbuf : list sextet) : bytes :=
  match dbuf with
  | [s0; s1; s2; s3] => [byte0 s0 s1; byte1 s1 s2; byte2 s2 s3]
  | [s0; s1; s2] => [byte0 s0 s1; byte1 s1 s2]
  | [s0; s1] => [byte0 s0 s1]
  | _ => []
  end.

Definition is_newline (c : ascii) : bool :=
  byte_eqb c "010" || byte_eqb c "013".

Fixpoint skip_newlines (src : bytes) (si : nat) : bytes * nat :=
  match src with
  | [] => ([], si)
  | c :: rest => if is_newline c then skip_newlines rest (S si) else (src, si)
  end.

(** [CorruptInputError(n).Error()] *)
Definition CorruptInputError (n : nat) : error :=
  str "illegal base64 data at input byte " ++ Itoa (Z.of_nat n).

(** After the padding of the last quantum only newlines may follow. *)
Definition finish_padded (rest : bytes) (si : nat) (dbuf : list sextet)
           (out : bytes) : result bytes :=
  let '(rest', si') := skip_newlines rest si in
  match rest' with
  | [] => Ok (out ++ bytes_of_sextets dbuf)
  | _ :: _ => Err (CorruptInputError si')
  end.

(** [Decode], quantum by quantum as in [decodeQuantum]: [si] is the
    index of the next input byte, [dbuf] holds the groups read so far
    for the current quantum, [out] the bytes decoded so far and [total]
    is [len(src)]. *)
Fixpoint decode_from (total : nat) (src : bytes) (si : nat)
         (dbuf : list sextet) (out : bytes) : result bytes :=
  match src with
  | [] =>
      match dbuf with
      | [] => Ok out
      | _ :: _ => Err (CorruptInputError (si - length dbuf))
      end
  | c :: rest =>
      match decodeMap c with
      | Some s =>
          if (length dbuf =? 3)%nat
          then decode_from total rest (S si) []
                           (out ++ bytes_of_sextets (dbuf ++ [s]))
          else decode_from total rest (S si) (dbuf ++ [s]) out
      | None =>
          if is_newline c then decode_from total rest (S si) dbuf out
          else if negb (byte_eqb c padChar) then Err (CorruptInputError si)
          else
            match length dbuf with
            | 0%nat | 1%nat => Err (CorruptInputError si)
            | 2%nat =>
                let '(rest', si') := skip_newlines rest (S si) in
                match rest' with
                | [] => Err (CorruptInputError total)
                | c2 :: rest'' =>
                    if negb (byte_eqb c2 padChar)
                    then Err (CorruptInputError (si' - 1))
                    else finish_padded rest'' (S si') dbuf out
                end
            | _ => finish_padded rest (S si) dbuf out
            end
      end
  end.

(** [base64.URLEncoding.DecodeString(s)] *)
Definition DecodeString (s : bytes) : result bytes :=
  decode_from (length s) s 0 [] [].

(** A character of the encoding: of the alphabet, or the padding. *)
Definition base64_char (c : ascii) : Prop := In c encodeURL \/ c = padChar.

End Base64.

(* ================================================================== *)
(** * [crypto/cipher]: CFB mode over a block cipher *)

Module CFB.

Definition BlockSize : nat := 16.

Definition xor_byte (a b : ascii) : ascii :=
  let '(Ascii a0 a1 a2 a3 a4 a5 a6 a7) := a in
  let '(Ascii b0 b1 b2 b3 b4 b5 b6 b7) := b in
  Ascii (xorb a0 b0) (xorb a1 b1) (xorb a2 b2) (xorb a3 b3)
        (xorb a4 b4) (xorb a5 b5) (xorb a6 b6) (xorb a7 b7).

(** The state of a [cfb] stream: [b] is [Block.Encrypt] under the key. *)
Record cfb : Type := mk {
  b : bytes -> bytes;
  next : bytes;
  out : bytes;
  outUsed : nat;
  decrypt : bool
}.

Definition newCFB (block : bytes -> bytes) (iv : bytes) (decrypt : bool) : cfb :=
  mk block iv (repeat zero BlockSize) BlockSize decrypt.

Definition NewCFBEncrypter (block : bytes -> bytes) (iv : bytes) : cfb :=
  newCFB block iv false.
Definition NewCFBDecrypter (block : bytes -> bytes) (iv : bytes) : cfb :=
  newCFB block iv true.

(** [XORKeyStream(dst, src)], one byte of [src] at a time; the result is
    [dst].  Go moves [min(len(src), len(out) - outUsed)] bytes per turn
    of its loop, which is the same as moving them one by one. *)
Fixpoint XORKeyStream (x : cfb) (src : bytes) : bytes :=
  match src with
  | [] => []
  | s :: src' =>
      let x :=
        if (outUsed x =? length (out x))%nat
        then mk (b x) (next x) (b x (next x)) 0 (decrypt x)
        else x in
      let d := xor_byte s (nth (outUsed x) (out x) zero) in
      let next' := <[outUsed x := if decrypt x then s else d]> (next x) in
      d :: XORKeyStream (mk (b x) next' (out x) (S (outUsed x)) (decrypt x)) src'
  end.

End CFB.

(* ================================================================== *)
(** * The host service ([internal/service/host_service.go]) *)

Module HostService.
Import Base64 CFB.

Section WithAES.

(** [aes_Encrypt key block]: one block of AES under [key]
    ([crypto/aes], not part of the program). *)
Variable aes_Encrypt : bytes -> bytes -> bytes.

Record hostService : Type := mkService {
  hostRepo : HostRepository.t;
  encryptKey : bytes
}.

(** [make([]byte, 32)] with [copy(extendedKey, key)], or [key[:32]] *)
Definition NewHostService (hostRepo : HostRepository.t) (encryptKey : bytes)
  : hostService :=
  let key := encryptKey in
  let key :=
    if (length key <? 32)%nat then key ++ repeat zero (32 - length key)
    else if (32 <? length key)%nat then firstn 32 key
    else key in
  mkService hostRepo key.

(** [aes.NewCipher(key)] *)
Definition aes_NewCipher (key : bytes) : result (bytes -> bytes) :=
  let k := length key in
  if (k =? 16)%nat || (k =? 24)%nat || (k =? 32)%nat
  then Ok (aes_Encrypt key)
  else Err (str "crypto/aes: invalid key size " ++ Itoa (Z.of_nat k)).

(** [encrypt]; [iv] is what [io.ReadFull(rand.Reader, iv)] wrote. *)
Definition encrypt (s : hostService) (iv : bytes) (plaintext : bytes)
  : result bytes :=
  match aes_NewCipher (encryptKey s) with
  | Err err => Err err
  | Ok block =>
      let stream := NewCFBEncrypter block iv in
      let ciphertext := iv ++ XORKeyStream stream plaintext in
      Ok (EncodeToString ciphertext)
  end.

Definition decrypt (s : hostService) (ciphertext : bytes) : result bytes :=
  match DecodeString ciphertext with
  | Err err => Err err
  | Ok ciphertextBytes =>
      match aes_NewCipher (encryptKey s) with
      | Err err => Err err
      | Ok block =>
          if (length ciphertextBytes <? BlockSize)%nat
          then Err (str "ciphertext too short")
          else
            let iv := firstn BlockSize ciphertextBytes in
            let ciphertextBytes := skipn BlockSize ciphertextBytes in
            let stream := NewCFBDecrypter block iv in
            Ok (XORKeyStream stream ciphertextBytes)
      end
  end.

(** One of the three blocks of [DecryptSensitiveData]: [Ok] is the new
    value of the field, [Err] the error the function returns. *)
Definition decrypt_field (s : hostService) (what : bytes) (value : bytes)
  : result bytes :=
  match value with
  | [] => Ok value
  | _ :: _ =>
      match decrypt s value with
      | Ok decrypted => Ok decrypted
      | Err err =>
          if Contains err (str "illegal base64 data")
          then Ok value
          else Err (str "failed to decrypt " ++ what ++ str ": " ++ err)
      end
  end.

(** [DecryptSensitiveData(host)]: the host as the call leaves it, and
    the error returned, if any. *)
Definition DecryptSensitiveData (s : hostService) (host : Host.t)
  : Host.t * option error :=
  match decrypt_field s (str "password") (Host.Password host) with
  | Err err => (host, Some err)
  | Ok v =>
      let host := Host.set_Password host v in
      match decrypt_field s (str "private key") (Host.PrivateKey host) with
      | Err err => (host, Some err)
      | Ok v =>
          let host := Host.set_PrivateKey host v in
          match decrypt_field s (str "passphrase") (Host.Passphrase host) with
          | Err err => (host, Some err)
          | Ok v => (Host.set_Passphrase host v, None)
          end
      end
  end.

(** [EncryptSensitiveData(host)], with the three IVs drawn. *)
Definition encrypt_field (s : hostService) (iv : bytes) (value : bytes)
  : result bytes :=
  match value with
  | [] => Ok value
  | _ :: _ => encrypt s iv value
  end.

Definition EncryptSensitiveData (s : hostService) (iv1 iv2 iv3 : bytes)
           (host : Host.t) : Host.t * option error :=
  match encrypt_field s iv1 (Host.Password host) with
  | Err err => (host, Some err)
  | Ok v =>
      let host := Host.set_Password host v in
      match encrypt_field s iv2 (Host.PrivateKey host) with
      | Err err => (host, Some err)
      | Ok v =>
          let host := Host.set_PrivateKey host v in
          match encrypt_field s iv3 (Host.Passphrase host) with
          | Err err => (host, Some err)
          | Ok v => (Host.set_Passphrase host v, None)
          end
      end
  end.

Definition GetHost (s : hostService) (id : N) : result Host.t :=
  match HostRepository.GetByID (hostRepo s) id with
  | Err err => Err err
  | Ok host =>
      match DecryptSensitiveData s host with
      | (_, Some err) => Err (str "failed to decrypt sensitive data: " ++ err)
      | (host, None) => Ok host
      end
  end.

(** [GetAllHosts]: a host whose decryption fails stays in the slice as
    [DecryptSensitiveData] left it ([continue]). *)
Definition GetAllHosts (s : hostService) : result (list Host.t) :=
  let hosts := HostRepository.GetAll (hostRepo s) in
  Ok (map (fun host => fst (DecryptSensitiveData s host)) hosts).

(** How a stored secret field reads: empty, refused by the base64
    decoder (a legacy plaintext), decoded to fewer bytes than an IV,
    or a ciphertext. *)
Inductive field_state : Type := Empty | Legacy | TooShort | Cipher.

Definition classify (value : bytes) : field_state :=
  match value with
  | [] => Empty
  | _ :: _ =>
      match DecodeString value with
      | Err _ => Legacy
      | Ok ciphertextBytes =>
          if (length ciphertextBytes <? BlockSize)%nat then TooShort else Cipher
      end
  end.

Definition secret_fields (host : Host.t) : list bytes :=
  [Host.Password host; Host.PrivateKey host; Host.Passphrase host].

Definition is_short (value : bytes) : bool :=
  match classify value with TooShort => true | _ => false end.

Definition has_too_short (host : Host.t) : bool :=
  existsb is_short (secret_fields host).

(** The legacy fields of [stored] are the same in [returned]. *)
Definition legacy_kept (stored returned : Host.t) : Prop :=
  (classify (Host.Password stored) = Legacy ->
   Host.Password returned = Host.Password stored) /\
  (classify (Host.PrivateKey stored) = Legacy ->
   Host.PrivateKey returned = Host.PrivateKey stored) /\
  (classify (Host.Passphrase stored) = Legacy ->
   Host.Passphrase returned = Host.Passphrase stored).

(** What a stored field is returned as when its decryption does not
    fail: the plaintext of a ciphertext, and the field itself when it
    is empty or a legacy plaintext. *)
Definition read_field (s : hostService) (value : bytes) : bytes :=
  match classify value with
  | Cipher =>
      match decrypt s value with
      | Ok plaintext => plaintext
      | Err _ => value
      end
  | _ => value
  end.

(** A stored host as the decryption leaves it: the password, the
    private key and the passphrase are read in this order, and the
    first field that is too short stops the decryption: that field
    and the fields after it stay as they are stored. *)
Definition as_decryption_leaves (s : hostService) (stored : Host.t) : Host.t :=
  if is_short (Host.Password stored) then stored
  else
    let host := Host.set_Password stored (read_field s (Host.Password stored)) in
    if is_short (Host.PrivateKey stored) then host
    else
      let host := Host.set_PrivateKey host (read_field s (Host.PrivateKey stored)) in
      if is_short (Host.Passphrase stored) then host
      else Host.set_Passphrase host (read_field s (Host.Passphrase stored)).

End WithAES.

(** A stand-in for the AES block function in the examples. *)
Definition toy_block (key block : bytes) : bytes := rev block.

(** A host whose stored password is valid base64 of three bytes. *)
Definition short_host : Host.t :=
  Host.mk 1 (str "home") (str "example.org") 22 (str "root")
          (str "password") (str "AAAA") [] [] [] (str "inactive").

(** A host whose stored password is a legacy plaintext. *)
Definition legacy_host : Host.t :=
  Host.mk 2 (str "old") (str "example.org") 22 (str "root")
          (str "password") (str "$$$$") [] [] [] (str "inactive").

End HostService.

(* ================================================================== *)
(** * The SOCKS5 server ([internal/socks5]) *)

Module Socks5.

Definition Socks5Version : ascii := ascii_of_nat 5.
Definition AuthMethodNoAuth : ascii := ascii_of_nat 0.
Definition AuthMethodNoAcceptable : ascii := ascii_of_nat 255.
Definition CmdConnect : ascii := ascii_of_nat 1.
Definition AtypIPV4 : ascii := ascii_of_nat 1.
Definition AtypDomain : ascii := ascii_of_nat 3.
Definition AtypIPV6 : ascii := ascii_of_nat 4.
Definition RepSuccess : ascii := ascii_of_nat 0.
Definition RepHostUnreachable : ascii := ascii_of_nat 4.
Definition RepCommandNotSupported : ascii := ascii_of_nat 7.
Definition RepAddressNotSupported : ascii := ascii_of_nat 8.

(** What the server does on its two connections, in order. *)
Inductive event : Type :=
| Write (data : bytes)               (* conn.Write(data) *)
| Dial (network target : bytes)      (* s.sshClient.Dial(network, target) *)
| Relay                              (* s.relay(ctx, conn, remoteConn) *)
| RemoteClose                        (* remoteConn.Close() *)
| Close.                             (* conn.Close() *)

(** The client side of [net.Conn]: what the next calls of [Read] and
    [Write] return, and the events so far. *)
Record Conn : Type := mkConn {
  to_read : list (result bytes);
  write_results : list (option error);
  events : list event
}.

Definition EOF : error := str "EOF".

(** [n, err := conn.Read(buf)] with [buf := make([]byte, 256)]: the
    buffer after the call, and [n]. *)
Definition conn_Read (conn : Conn) : result (bytes * nat) * Conn :=
  match to_read conn with
  | [] => (Err EOF, conn)
  | r :: rest =>
      let conn := mkConn rest (write_results conn) (events conn) in
      match r with
      | Err err => (Err err, conn)
      | Ok data =>
          let data := firstn 256 data in
          (Ok (data ++ repeat zero (256 - length data), length data), conn)
      end
  end.

Definition conn_Write (conn : Conn) (data : bytes) : option error * Conn :=
  match write_results conn with
  | [] => (None, mkConn (to_read conn) [] (events conn ++ [Write data]))
  | r :: rest => (r, mkConn (to_read conn) rest (events conn ++ [Write data]))
  end.

Definition emit (conn : Conn) (e : event) : Conn :=
  mkConn (to_read conn) (write_results conn) (events conn ++ [e]).

(** [buf[i]] *)
Definition at_ (buf : bytes) (i : nat) : ascii := nth i buf zero.

(** [buf[i:j]] *)
Definition slice (buf : bytes) (i j : nat) : bytes := firstn (j - i) (skipn i buf).

Definition byte_val (c : ascii) : Z := Z.of_N (N_of_ascii c).

(** [binary.BigEndian.Uint16(b)]: [uint16(b[1]) | uint16(b[0])<<8] *)
Definition BigEndian_Uint16 (b : bytes) : Z :=
  Z.lor (byte_val (at_ b 1)) (Z.shiftl (byte_val (at_ b 0)) 8).

(** [net.JoinHostPort(host, port)] *)
Definition JoinHostPort (host port : bytes) : bytes :=
  if existsb (byte_eqb ":") host
  then str "[" ++ host ++ str "]:" ++ port
  else host ++ str ":" ++ port.

Definition v4InV6Prefix : bytes :=
  repeat zero 10 ++ [ascii_of_nat 255; ascii_of_nat 255].

(** [net.IPv4(a, b, c, d)] *)
Definition net_IPv4 (a b c d : ascii) : bytes := v4InV6Prefix ++ [a; b; c; d].

(** The server: [Dial] of its SSH client and what [relay] returns. *)
Record SOCKS5Server : Type := mkServer {
  sshClient_Dial : bytes -> bytes -> option error;
  relay_result : option error
}.

Definition reply (rep : ascii) : bytes :=
  [Socks5Version; rep; zero; AtypIPV4; zero; zero; zero; zero; zero; zero].

Definition handleAuth (conn : Conn) : option error * Conn :=
  match conn_Read conn with
  | (Err err, conn) => (Some err, conn)
  | (Ok (buf, n), conn) =>
      if (n <? 2)%nat || negb (byte_eqb (at_ buf 0) Socks5Version)
      then (Some (str "invalid SOCKS5 version"), conn)
      else
        let nMethods := nat_of_ascii (at_ buf 1) in
        if (n <? 2 + nMethods)%nat
        then (Some (str "invalid authentication request"), conn)
        else
          let supportNoAuth :=
            existsb (fun i => byte_eqb (at_ buf (2 + i)) AuthMethodNoAuth)
                    (seq 0 nMethods) in
          let response :=
            if supportNoAuth then [Socks5Version; AuthMethodNoAuth]
            else [Socks5Version; AuthMethodNoAcceptable] in
          match conn_Write conn response with
          | (Some err, conn) => (Some err, conn)
          | (None, conn) =>
              if negb supportNoAuth
              then (Some (str "no acceptable authentication method"), conn)
              else (None, conn)
          end
  end.

Section WithIP.

(** [net.IP.String()] *)
Variable IP_String : bytes -> bytes.

(** The [switch atyp] of [handleRequest]: the destination, or how the
    request is refused ([inl true]: with the reply 0x08, [inl false]:
    without a reply). *)
Definition parse_dest (buf : bytes) (n : nat) (atyp : ascii)
  : (bool * error) + (bytes * Z) :=
  let offset := 4%nat in
  if byte_eqb atyp AtypIPV4 then
    if (n <? offset + 6)%nat then inl (false, str "incomplete IPv4 address")
    else
      let ip := net_IPv4 (at_ buf offset) (at_ buf (offset + 1))
                         (at_ buf (offset + 2)) (at_ buf (offset + 3)) in
      inr (IP_String ip, BigEndian_Uint16 (slice buf (offset + 4) (offset + 6)))
  else if byte_eqb atyp AtypDomain then
    if (n <? offset + 1)%nat then inl (false, str "incomplete domain length")
    else
      let domainLen := nat_of_ascii (at_ buf offset) in
      if (n <? offset + 1 + domainLen + 2)%nat
      then inl (false, str "incomplete domain address")
      else
        inr (slice buf (offset + 1) (offset + 1 + domainLen),
             BigEndian_Uint16 (slice buf (offset + 1 + domainLen)
                                     (offset + 1 + domainLen + 2)))
  else if byte_eqb atyp AtypIPV6 then
    if (n <? offset + 18)%nat then inl (false, str "incomplete IPv6 address")
    else
      let ip := slice buf offset (offset + 16) in
      inr (IP_String ip, BigEndian_Uint16 (slice buf (offset + 16) (offset + 18)))
  else
    inl (true, str "unsupported address type: " ++ Itoa (byte_val atyp)).

Definition handleRequest (s : SOCKS5Server) (conn : Conn) : option error * Conn :=
  match conn_Read conn with
  | (Err err, conn) => (Some err, conn)
  | (Ok (buf, n), conn) =>
      if (n <? 4)%nat || negb (byte_eqb (at_ buf 0) Socks5Version)
      then (Some (str "invalid request"), conn)
      else
        let cmd := at_ buf 1 in
        let atyp := at_ buf 3 in
        if negb (byte_eqb cmd CmdConnect) then
          let (_, conn) := conn_Write conn (reply RepCommandNotSupported) in
          (Some (str "unsupported command: " ++ Itoa (byte_val cmd)), conn)
        else
          match parse_dest buf n atyp with
          | inl (true, err) =>
              let (_, conn) := conn_Write conn (reply RepAddressNotSupported) in
              (Some err, conn)
          | inl (false, err) => (Some err, conn)
          | inr (destAddr, destPort) =>
              let target := JoinHostPort destAddr (Itoa destPort) in
              let conn := emit conn (Dial (str "tcp") target) in
              match sshClient_Dial s (str "tcp") target with
              | Some err =>
                  let (_, conn) := conn_Write conn (reply RepHostUnreachable) in
                  (Some (str "failed to connect to " ++ target ++ str ": " ++ err),
                   conn)
              | None =>
                  match conn_Write conn (reply RepSuccess) with
                  | (Some err, conn) => (Some err, emit conn RemoteClose)
                  | (None, conn) =>
                      let conn := emit conn Relay in
                      (relay_result s, emit conn RemoteClose)
                  end
              end
          end
  end.

Definition HandleConnection (s : SOCKS5Server) (conn : Conn) : option error * Conn :=
  match handleAuth conn with
  | (Some err, conn) =>
      (Some (str "authentication failed: " ++ err), emit conn Close)
  | (None, conn) =>
      match handleRequest s conn with
      | (Some err, conn) =>
          (Some (str "request handling failed: " ++ err), emit conn Close)
      | (None, conn) => (None, emit conn Close)
      end
  end.

End WithIP.

(** A read of [data] is a complete method-selection message:
    [VER = 5], [NMETHODS], and at least [NMETHODS] methods. *)
Definition wf_method_selection (data : bytes) : Prop :=
  (2 <= length data <= 256)%nat /\ at_ data 0 = Socks5Version /\
  (2 + nat_of_ascii (at_ data 1) <= length data)%nat.

(** The methods the message offers. *)
Definition offered_methods (data : bytes) : bytes :=
  slice data 2 (2 + nat_of_ascii (at_ data 1)).

(** A read of [data] has the four leading bytes of a request,
    [VER = 5 | CMD | RSV | ATYP]. *)
Definition wf_request_head (data : bytes) : Prop :=
  (4 <= length data <= 256)%nat /\ at_ data 0 = Socks5Version.

(** The destination of a complete CONNECT request, as RFC 1928 lays it
    out: the address bytes and the two bytes of the port. *)
Inductive destination : Type :=
| DestIPv4 (a b c d : ascii)
| DestDomain (name : bytes)
| DestIPv6 (ip : bytes).

Definition request_bytes (dst : destination) (hi lo : ascii) : bytes :=
  match dst with
  | DestIPv4 a b c d =>
      [Socks5Version; CmdConnect; zero; AtypIPV4; a; b; c; d; hi; lo]
  | DestDomain name =>
      [Socks5Version; CmdConnect; zero; AtypDomain; ascii_of_nat (length name)]
        ++ name ++ [hi; lo]
  | DestIPv6 ip =>
      [Socks5Version; CmdConnect; zero; AtypIPV6] ++ ip ++ [hi; lo]
  end.

Definition wf_destination (dst : destination) : Prop :=
  match dst with
  | DestIPv4 _ _ _ _ => True
  | DestDomain name => (length name <= 249)%nat
  | DestIPv6 ip => length ip = 16%nat
  end.

(** What the next [conn.Write] returns. *)
Definition next_write (write_results : list (option error)) : option error :=
  match write_results with
  | [] => None
  | r :: _ => r
  end.

(** [net.IP.String()] on the 16-byte form of an IPv4 address: dotted
    decimal.  Used in the examples. *)
Definition IPv4_String (ip : bytes) : bytes :=
  match skipn 12 ip with
  | [a; b; c; d] =>
      Itoa (byte_val a) ++ str "." ++ Itoa (byte_val b) ++ str "." ++
      Itoa (byte_val c) ++ str "." ++ Itoa (byte_val d)
  | _ => str "?"
  end.

Section Targets.
Variable IP_String : bytes -> bytes.

Definition dest_host (dst : destination) : bytes :=
  match dst with
  | DestIPv4 a b c d => IP_String (net_IPv4 a b c d)
  | DestDomain name => name
  | DestIPv6 ip => IP_String ip
  end.

(** The address the server dials for [dst] and the port [hi lo]. *)
Definition dest_target (dst : destination) (hi lo : ascii) : bytes :=
  JoinHostPort (dest_host dst) (Itoa (256 * byte_val hi + byte_val lo)).
End Targets.

End Socks5.

(* ================================================================== *)
(** * The tunnel service ([internal/service/tunnel_service.go])

    Every exported operation is one function from the service to a result
    and the service after the call: the calls are taken one at a time. *)

Module Engine.

Abbreviation SSHClient := N.

(** A bound listener: [net.Listen("tcp", addr)] or
    [sshClient.Listen("tcp", addr)]. *)
Inductive Listener : Type :=
| LocalListener (addr : bytes)
| RemoteListener (client : SSHClient) (addr : bytes).

Inductive AuthMethod : Type :=
| Password (password : bytes)
| PublicKeys (signer : bytes).

Record ClientConfig : Type := mkConfig {
  User : bytes;
  Auth : list AuthMethod;
  Timeout : Z                       (* seconds *)
}.

(** What lies outside the service during one call: the host service
    (an interface of the service), the ssh package and the network. *)
Record World : Type := mkWorld {
  hostService_GetHost : N -> result Host.t;
  hostService_DecryptSensitiveData : Host.t -> Host.t * option error;
  ssh_ParsePrivateKey : bytes -> result bytes;
  ssh_ParsePrivateKeyWithPassphrase : bytes -> bytes -> result bytes;
  ssh_Dial : bytes -> ClientConfig -> result SSHClient;
  net_Listen : bytes -> result Listener;
  sshClient_Listen : SSHClient -> bytes -> result Listener
}.

(** The effects of the service on the outside, in program order. *)
Inductive effect : Type :=
| EListenerClose (l : Listener)                (* listener.Close() *)
| ECancel (id : N)                             (* cancel() of the tunnel's context *)
| ESSHClose (c : SSHClient)                    (* sshClient.Close() *)
| ESleep (ms : Z)                              (* time.Sleep *)
| EUpdateStatus (id : N) (status : bytes)      (* tunnelRepo.UpdateStatus *)
| EAddConnectionLog (id : N) (eventType message : bytes)
| EGoAccept (id : N) (l : Listener).           (* go func() { accept loop }() *)

(** [activeTunnel]: the context and its [cancel] are known by the id of
    the tunnel, the start time is left out. *)
Record activeTunnel : Type := mkActive {
  tunnel : Tunnel.t;
  sshClient : option SSHClient;
  listener : option Listener
}.

Record tunnelService : Type := mkService {
  tunnelRepo : TunnelRepository.t;
  activeTunnels : gmap N activeTunnel;
  effects : list effect
}.

Definition NewTunnelService (tunnelRepo : TunnelRepository.t) : tunnelService :=
  mkService tunnelRepo ∅ [].

Definition set_repo (s : tunnelService) (r : TunnelRepository.t) : tunnelService :=
  mkService r (activeTunnels s) (effects s).
Definition set_active (s : tunnelService) (m : gmap N activeTunnel) : tunnelService :=
  mkService (tunnelRepo s) m (effects s).
Definition do_effect (e : effect) (s : tunnelService) : tunnelService :=
  mkService (tunnelRepo s) (activeTunnels s) (effects s ++ [e]).

(** [s.tunnelRepo.UpdateStatus(id, status)] *)
Definition UpdateStatus (id : N) (status : bytes) (s : tunnelService) : tunnelService :=
  do_effect (EUpdateStatus id status)
            (set_repo s (TunnelRepository.UpdateStatus (tunnelRepo s) id status)).

Definition addConnectionLog (tunnelID : N) (eventType message : bytes)
           (s : tunnelService) : tunnelService :=
  do_effect (EAddConnectionLog tunnelID eventType message)
            (set_repo s (TunnelRepository.AddConnectionLog (tunnelRepo s)
                           (ConnectionLog.mk tunnelID eventType message))).

Definition validateTunnelConfig (tunnel : Tunnel.t) : result Tunnel.t :=
  match Tunnel.Name tunnel with
  | [] => Err (str "tunnel name is required")
  | _ :: _ =>
  if N.eqb (Tunnel.HostID tunnel) 0 then Err (str "host ID is required")
  else if Z.eqb (Tunnel.LocalPort tunnel) 0 then Err (str "local port is required")
  else if bytes_eqb (Tunnel.Type_ tunnel) TunnelTypeLocalForward then
    match Tunnel.RemoteAddress tunnel with
    | [] => Err (str "remote address is required for local forward")
    | _ :: _ =>
        if Z.eqb (Tunnel.RemotePort tunnel) 0
        then Err (str "remote port is required for local forward")
        else Ok tunnel
    end
  else if bytes_eqb (Tunnel.Type_ tunnel) TunnelTypeRemoteForward then
    let tunnel := match Tunnel.RemoteAddress tunnel with
                  | [] => Tunnel.set_RemoteAddress tunnel (str "0.0.0.0")
                  | _ :: _ => tunnel
                  end in
    if Z.eqb (Tunnel.RemotePort tunnel) 0
    then Err (str "remote port is required for remote forward")
    else Ok tunnel
  else if bytes_eqb (Tunnel.Type_ tunnel) TunnelTypeDynamic then Ok tunnel
  else Err (str "invalid tunnel type")
  end.

(** [fmt.Sprintf("%s:%d", address, port)] *)
Definition addr_port (address : bytes) (port : Z) : bytes :=
  address ++ str ":" ++ Itoa port.

(** The loop of [checkPortAvailability] over the existing tunnels. *)
Fixpoint check_conflicts (tunnel : Tunnel.t) (existingTunnels : list Tunnel.t)
  : option error :=
  match existingTunnels with
  | [] => None
  | existing :: rest =>
      if N.eqb (Tunnel.ID existing) (Tunnel.ID tunnel) then check_conflicts tunnel rest
      else if Z.eqb (Tunnel.LocalPort existing) (Tunnel.LocalPort tunnel) &&
              bytes_eqb (Tunnel.LocalAddress existing) (Tunnel.LocalAddress tunnel)
      then Some (str "local port " ++ Itoa (Tunnel.LocalPort tunnel) ++ str ":" ++
                 Itoa (Tunnel.LocalPort tunnel) ++ str " already in use by tunnel " ++
                 Itoa (Z.of_N (Tunnel.ID existing)))
      else if bytes_eqb (Tunnel.Type_ tunnel) TunnelTypeRemoteForward &&
              bytes_eqb (Tunnel.Type_ existing) TunnelTypeRemoteForward &&
              N.eqb (Tunnel.HostID existing) (Tunnel.HostID tunnel) &&
              Z.eqb (Tunnel.RemotePort existing) (Tunnel.RemotePort tunnel) &&
              bytes_eqb (Tunnel.RemoteAddress existing) (Tunnel.RemoteAddress tunnel)
      then Some (str "remote port " ++ Tunnel.RemoteAddress tunnel ++ str ":" ++
                 Itoa (Tunnel.RemotePort tunnel) ++ str " already in use by tunnel " ++
                 Itoa (Z.of_N (Tunnel.ID existing)))
      else check_conflicts tunnel rest
  end.

Definition checkPortAvailability (w : World) (tunnel : Tunnel.t) (s : tunnelService)
  : option error * tunnelService :=
  let localAddr := addr_port (Tunnel.LocalAddress tunnel) (Tunnel.LocalPort tunnel) in
  match net_Listen w localAddr with
  | Err err =>
      (Some (str "local port " ++ Itoa (Tunnel.LocalPort tunnel) ++
             str " is not available: " ++ err), s)
  | Ok listener =>
      let s := do_effect (EListenerClose listener) s in
      (check_conflicts tunnel (TunnelRepository.GetAll (tunnelRepo s)), s)
  end.

(** [CreateTunnel(tunnel)]: the error, or the tunnel as the call leaves
    it (with its status and its new ID). *)
Definition CreateTunnel (w : World) (tunnel : Tunnel.t) (s : tunnelService)
  : result Tunnel.t * tunnelService :=
  match validateTunnelConfig tunnel with
  | Err err => (Err err, s)
  | Ok tunnel =>
      match checkPortAvailability w tunnel s with
      | (Some err, s) => (Err err, s)
      | (None, s) =>
          let tunnel := Tunnel.set_Status tunnel TunnelStatusInactive in
          let (r, repo) := TunnelRepository.Create (tunnelRepo s) tunnel in
          (r, set_repo s repo)
      end
  end.

Record LocalServiceMapping : Type := mkMapping {
  svc_Name : bytes;
  svc_LocalAddress : bytes;
  svc_LocalPort : Z;
  svc_RemoteAddress : bytes;
  svc_RemotePort : Z;
  svc_AutoStart : bool;
  svc_Description : bytes
}.

(** The loop of [CreateMultipleLocalForwards]: the tunnels created and the
    messages of the failures. *)
Fixpoint create_each (w : World) (hostID : N) (localServices : list LocalServiceMapping)
         (s : tunnelService) : (list Tunnel.t * list bytes) * tunnelService :=
  match localServices with
  | [] => (([], []), s)
  | service :: rest =>
      let tunnel :=
        Tunnel.mk 0 hostID (svc_Name service) TunnelTypeRemoteForward
                  (svc_LocalAddress service) (svc_LocalPort service)
                  (svc_RemoteAddress service) (svc_RemotePort service)
                  (svc_Description service) [] (svc_AutoStart service) false in
      match CreateTunnel w tunnel s with
      | (Err err, s) =>
          let '((created, errors), s) := create_each w hostID rest s in
          ((created,
            (str "Failed to create tunnel for " ++
             addr_port (svc_LocalAddress service) (svc_LocalPort service) ++
             str " - " ++ err) :: errors), s)
      | (Ok tunnel, s) =>
          let '((created, errors), s) := create_each w hostID rest s in
          ((tunnel :: created, errors), s)
      end
  end.

Definition CreateMultipleLocalForwards (w : World) (hostID : N)
           (localServices : list LocalServiceMapping) (s : tunnelService)
  : (list Tunnel.t * option error) * tunnelService :=
  let '((createdTunnels, errors), s) := create_each w hostID localServices s in
  if (0 <? length errors)%nat
  then ((createdTunnels,
         Some (str "some tunnels failed to create: " ++ Join errors (str "; "))), s)
  else ((createdTunnels, None), s).


(** The loop [for port := startPort; port <= endPort; port++] of
    [FindAvailablePort], with [count] ports left to try.  The counter
    of the Go loop cannot wrap around when [endPort < MaxInt]. *)
Fixpoint scan_ports (w : World) (address : bytes) (port : Z) (count : nat)
  : option Z :=
  match count with
  | O => None
  | S count' =>
      match net_Listen w (addr_port address port) with
      | Ok _ => Some port
      | Err _ => scan_ports w address (port + 1) count'
      end
  end.

Definition FindAvailablePort (w : World) (startPort endPort : Z) (address : bytes)
  : result Z :=
  let address := match address with [] => str "localhost" | _ :: _ => address end in
  match scan_ports w address startPort (Z.to_nat (endPort - startPort + 1)) with
  | Some port => Ok port
  | None => Err (str "no available port found in range " ++ Itoa startPort ++
                 str "-" ++ Itoa endPort)
  end.

(** The port search of [CreateDynamicSOCKS5Tunnel]. *)
Definition find_socks_port (w : World) : result Z :=
  match FindAvailablePort w 1080 1090 (str "localhost") with
  | Ok localPort => Ok localPort
  | Err _ =>
      match FindAvailablePort w 8080 8090 (str "localhost") with
      | Ok localPort => Ok localPort
      | Err err => Err (str "failed to find available port: " ++ err)
      end
  end.

Definition CreateDynamicSOCKS5Tunnel (w : World) (hostID : N) (name description : bytes)
           (autoStart : bool) (s : tunnelService) : result Tunnel.t * tunnelService :=
  match find_socks_port w with
  | Err err => (Err err, s)
  | Ok localPort =>
      let tunnel :=
        Tunnel.mk 0 hostID name TunnelTypeDynamic (str "localhost") localPort
                  [] 0 description [] autoStart false in
      match CreateTunnel w tunnel s with
      | (Err err, s) => (Err (str "failed to create tunnel: " ++ err), s)
      | (Ok tunnel, s) => (Ok tunnel, s)
      end
  end.

Definition createSSHConfig (w : World) (host : Host.t) : result ClientConfig :=
  let config := mkConfig (Host.Username host) [] 30 in
  if bytes_eqb (Host.AuthType host) AuthTypePassword then
    Ok (mkConfig (User config) [Password (Host.Password host)] (Timeout config))
  else if bytes_eqb (Host.AuthType host) AuthTypeKey ||
          bytes_eqb (Host.AuthType host) AuthTypeKeyPassword then
    match Host.PrivateKey host with
    | [] => Err (str "private key is required")
    | _ :: _ =>
        let parsed :=
          if bytes_eqb (Host.AuthType host) AuthTypeKeyPassword &&
             negb (bytes_eqb (Host.Passphrase host) [])
          then ssh_ParsePrivateKeyWithPassphrase w (Host.PrivateKey host)
                                                 (Host.Passphrase host)
          else ssh_ParsePrivateKey w (Host.PrivateKey host) in
        match parsed with
        | Err err => Err (str "failed to parse private key: " ++ err)
        | Ok signer => Ok (mkConfig (User config) [PublicKeys signer] (Timeout config))
        end
    end
  else Ok config.

Definition createSSHConnection (w : World) (host : Host.t) : result SSHClient :=
  match hostService_DecryptSensitiveData w host with
  | (_, Some err) => Err (str "failed to decrypt host data: " ++ err)
  | (host, None) =>
      match createSSHConfig w host with
      | Err err => Err err
      | Ok config =>
          let address := addr_port (Host.Hostname host) (Host.Port host) in
          ssh_Dial w address config
      end
  end.

(** The block of the three start routines that stores the listener:
    [if activeTunnel := s.activeTunnels[tunnel.ID]; activeTunnel != nil
     { activeTunnel.listener = listener }] *)
Definition save_listener (id : N) (l : Listener) (s : tunnelService) : tunnelService :=
  match activeTunnels s !! id with
  | Some a =>
      set_active s (<[id := mkActive (tunnel a) (sshClient a) (Some l)]> (activeTunnels s))
  | None => s
  end.

Definition startLocalForward (w : World) (tunnel : Tunnel.t) (sshClient : SSHClient)
           (s : tunnelService) : option error * tunnelService :=
  let localAddr := addr_port (Tunnel.LocalAddress tunnel) (Tunnel.LocalPort tunnel) in
  match net_Listen w localAddr with
  | Err err => (Some (str "failed to listen on " ++ localAddr ++ str ": " ++ err), s)
  | Ok listener =>
      let s := save_listener (Tunnel.ID tunnel) listener s in
      (None, do_effect (EGoAccept (Tunnel.ID tunnel) listener) s)
  end.

Definition startRemoteForward (w : World) (tunnel : Tunnel.t) (sshClient : SSHClient)
           (s : tunnelService) : option error * tunnelService :=
  let remoteAddr := addr_port (Tunnel.RemoteAddress tunnel) (Tunnel.RemotePort tunnel) in
  match sshClient_Listen w sshClient remoteAddr with
  | Err err =>
      (Some (str "failed to listen on remote " ++ remoteAddr ++ str ": " ++ err), s)
  | Ok listener =>
      let s := save_listener (Tunnel.ID tunnel) listener s in
      (None, do_effect (EGoAccept (Tunnel.ID tunnel) listener) s)
  end.

Definition startDynamicForward (w : World) (tunnel : Tunnel.t) (sshClient : SSHClient)
           (s : tunnelService) : option error * tunnelService :=
  let localAddr := addr_port (Tunnel.LocalAddress tunnel) (Tunnel.LocalPort tunnel) in
  match net_Listen w localAddr with
  | Err err => (Some (str "failed to listen on " ++ localAddr ++ str ": " ++ err), s)
  | Ok listener =>
      let s := save_listener (Tunnel.ID tunnel) listener s in
      (None, do_effect (EGoAccept (Tunnel.ID tunnel) listener) s)
  end.

(** The [switch tunnel.Type] of [StartTunnel]; [None] is its [default]. *)
Definition start_forward (w : World) (tunnel : Tunnel.t) (sshClient : SSHClient)
           (s : tunnelService) : option (option error * tunnelService) :=
  if bytes_eqb (Tunnel.Type_ tunnel) TunnelTypeLocalForward
  then Some (startLocalForward w tunnel sshClient s)
  else if bytes_eqb (Tunnel.Type_ tunnel) TunnelTypeRemoteForward
  then Some (startRemoteForward w tunnel sshClient s)
  else if bytes_eqb (Tunnel.Type_ tunnel) TunnelTypeDynamic
  then Some (startDynamicForward w tunnel sshClient s)
  else None.

Definition StartTunnel (w : World) (id : N) (s : tunnelService)
  : option error * tunnelService :=
  match TunnelRepository.GetByID (tunnelRepo s) id with
  | Err err => (Some (str "failed to get tunnel: " ++ err), s)
  | Ok tunnel =>
      match activeTunnels s !! id with
      | Some _ => (Some (str "tunnel is already running"), s)
      | None =>
          match hostService_GetHost w (Tunnel.HostID tunnel) with
          | Err err => (Some (str "failed to get host: " ++ err), s)
          | Ok host =>
              match createSSHConnection w host with
              | Err err =>
                  let s := addConnectionLog (Tunnel.ID tunnel) LogEventError
                             (str "SSH connection failed: " ++ err) s in
                  let s := UpdateStatus id TunnelStatusError s in
                  (Some (str "failed to create SSH connection: " ++ err), s)
              | Ok sshClient =>
                  match start_forward w tunnel sshClient s with
                  | None =>
                      let s := do_effect (ECancel id) s in
                      let s := do_effect (ESSHClose sshClient) s in
                      (Some (str "unsupported tunnel type"), s)
                  | Some (Some err, s) =>
                      let s := do_effect (ECancel id) s in
                      let s := do_effect (ESSHClose sshClient) s in
                      let s := addConnectionLog (Tunnel.ID tunnel) LogEventError
                                 (str "Failed to start tunnel: " ++ err) s in
                      let s := UpdateStatus id TunnelStatusError s in
                      (Some (str "failed to start tunnel: " ++ err), s)
                  | Some (None, s) =>
                      let activeTunnel := mkActive tunnel (Some sshClient) None in
                      let s := set_active s (<[id := activeTunnel]> (activeTunnels s)) in
                      let s := UpdateStatus id TunnelStatusActive s in
                      let s := addConnectionLog (Tunnel.ID tunnel) LogEventStart
                                 (str "Tunnel started successfully") s in
                      (None, s)
                  end
              end
          end
      end
  end.

Definition StopTunnel (id : N) (s : tunnelService) : option error * tunnelService :=
  match activeTunnels s !! id with
  | None => (Some (str "tunnel is not running"), s)
  | Some activeTunnel =>
      let s := set_active s (delete id (activeTunnels s)) in
      let s := match listener activeTunnel with
               | Some l => do_effect (EListenerClose l) s
               | None => s
               end in
      let s := do_effect (ECancel id) s in
      let s := match sshClient activeTunnel with
               | Some c => do_effect (ESSHClose c) s
               | None => s
               end in
      let s := do_effect (ESleep 200) s in
      let s := UpdateStatus id TunnelStatusInactive s in
      let s := addConnectionLog id LogEventStop
                 (str "Tunnel stopped and port released") s in
      (None, s)
  end.

Definition UpdateTunnel (w : World) (tunnel : Tunnel.t) (s : tunnelService)
  : option error * tunnelService :=
  match validateTunnelConfig tunnel with
  | Err err => (Some err, s)
  | Ok tunnel =>
      match activeTunnels s !! Tunnel.ID tunnel with
      | Some _ =>
          match StopTunnel (Tunnel.ID tunnel) s with
          | (Some err, s) => (Some (str "failed to stop tunnel for update: " ++ err), s)
          | (None, s) =>
              match TunnelRepository.Update (tunnelRepo s) tunnel with
              | (Some err, repo) => (Some err, set_repo s repo)
              | (None, repo) => StartTunnel w (Tunnel.ID tunnel) (set_repo s repo)
              end
          end
      | None =>
          let (err, repo) := TunnelRepository.Update (tunnelRepo s) tunnel in
          (err, set_repo s repo)
      end
  end.

Definition DeleteTunnel (id : N) (s : tunnelService) : option error * tunnelService :=
  let (_, s) := StopTunnel id s in
  (None, set_repo s (TunnelRepository.Delete (tunnelRepo s) id)).

Definition RestartTunnel (w : World) (id : N) (s : tunnelService)
  : option error * tunnelService :=
  match StopTunnel id s with
  | (Some err, s) =>
      if bytes_eqb err (str "tunnel is not running")
      then StartTunnel w id (do_effect (ESleep 1000) s)
      else (Some err, s)
  | (None, s) => StartTunnel w id (do_effect (ESleep 1000) s)
  end.

Definition GetTunnelStatus (id : N) (s : tunnelService) : result bytes :=
  match activeTunnels s !! id with
  | Some _ => Ok TunnelStatusActive
  | None =>
      match TunnelRepository.GetByID (tunnelRepo s) id with
      | Err err => Err err
      | Ok tunnel => Ok (Tunnel.Status tunnel)
      end
  end.

Fixpoint start_each (w : World) (ids : list N) (s : tunnelService) : tunnelService :=
  match ids with
  | [] => s
  | id :: rest => start_each w rest (snd (StartTunnel w id s))
  end.

Definition StartAutoTunnels (w : World) (s : tunnelService)
  : option error * tunnelService :=
  let tunnels := TunnelRepository.GetAutoStartTunnels (tunnelRepo s) in
  (None, start_each w (map Tunnel.ID tunnels) s).

Fixpoint stop_each (ids : list N) (s : tunnelService) : tunnelService :=
  match ids with
  | [] => s
  | id :: rest => stop_each rest (snd (StopTunnel id s))
  end.

Definition StopAllTunnels (s : tunnelService) : option error * tunnelService :=
  let tunnelIDs := map fst (map_to_list (activeTunnels s)) in
  (None, stop_each tunnelIDs s).

(** ** The calls of the service, and the states they lead to *)

Inductive call : Type :=
| CallCreateTunnel (tunnel : Tunnel.t)
| CallCreateMultipleLocalForwards (hostID : N) (localServices : list LocalServiceMapping)
| CallCreateDynamicSOCKS5Tunnel (hostID : N) (name description : bytes) (autoStart : bool)
| CallUpdateTunnel (tunnel : Tunnel.t)
| CallDeleteTunnel (id : N)
| CallStartTunnel (id : N)
| CallStopTunnel (id : N)
| CallRestartTunnel (id : N)
| CallStartAutoTunnels
| CallStopAllTunnels.

Definition run (w : World) (c : call) (s : tunnelService) : tunnelService :=
  match c with
  | CallCreateTunnel tunnel => snd (CreateTunnel w tunnel s)
  | CallCreateMultipleLocalForwards hostID localServices =>
      snd (CreateMultipleLocalForwards w hostID localServices s)
  | CallCreateDynamicSOCKS5Tunnel hostID name description autoStart =>
      snd (CreateDynamicSOCKS5Tunnel w hostID name description autoStart s)
  | CallUpdateTunnel tunnel => snd (UpdateTunnel w tunnel s)
  | CallDeleteTunnel id => snd (DeleteTunnel id s)
  | CallStartTunnel id => snd (StartTunnel w id s)
  | CallStopTunnel id => snd (StopTunnel id s)
  | CallRestartTunnel id => snd (RestartTunnel w id s)
  | CallStartAutoTunnels => snd (StartAutoTunnels w s)
  | CallStopAllTunnels => snd (StopAllTunnels s)
  end.

(** The states of the service when its calls are taken one at a time,
    each from its first line to its last: a new service over any
    repository, then any call in any world.  (The states it has while
    calls overlap are those of [Overlap.reachable].) *)
Inductive reachable : tunnelService -> Prop :=
| reachable_new (repo : TunnelRepository.t) : reachable (NewTunnelService repo)
| reachable_run (w : World) (c : call) (s : tunnelService) :
    reachable s -> reachable (run w c s).

(** ** The invariants of the tunnel table *)

Definition same_local (a b : Tunnel.t) : Prop :=
  Tunnel.LocalAddress a = Tunnel.LocalAddress b /\
  Tunnel.LocalPort a = Tunnel.LocalPort b.

Definition same_remote (a b : Tunnel.t) : Prop :=
  Tunnel.HostID a = Tunnel.HostID b /\
  Tunnel.RemoteAddress a = Tunnel.RemoteAddress b /\
  Tunnel.RemotePort a = Tunnel.RemotePort b.

(** Any two distinct live tunnels differ in the local pair, and any two
    distinct live remote forwards differ in the remote triple. *)
Definition ports_unique (r : TunnelRepository.t) : Prop :=
  forall a b, In a (TunnelRepository.GetAll r) -> In b (TunnelRepository.GetAll r) ->
    Tunnel.ID a <> Tunnel.ID b ->
    ~ same_local a b /\
    (Tunnel.Type_ a = TunnelTypeRemoteForward ->
     Tunnel.Type_ b = TunnelTypeRemoteForward -> ~ same_remote a b).

(** The primary key is a key, and it is not zero. *)
Definition keys_unique (r : TunnelRepository.t) : Prop :=
  List.NoDup (map Tunnel.ID (TunnelRepository.tunnels r)) /\
  ~ In 0%N (map Tunnel.ID (TunnelRepository.tunnels r)).

(** A transient bind of [address:port] succeeds. *)
Definition free (w : World) (address : bytes) (port : Z) : bool :=
  is_Ok (net_Listen w (addr_port address port)).




(** How [db.Create] writes the row [t'] for the tunnel [x]. *)
Definition created_row (r : TunnelRepository.t) (x t' : Tunnel.t) : Prop :=
  let x := TunnelRepository.with_defaults x in
  (Tunnel.ID x = 0%N /\ t' = Tunnel.set_ID x (TunnelRepository.next_id r)) \/
  (Tunnel.ID x <> 0%N /\ TunnelRepository.has_row r (Tunnel.ID x) = false /\ t' = x).


(** The table is well-formed. *)
Definition table_ok (r : TunnelRepository.t) : Prop :=
  keys_unique r /\ ports_unique r.

(** The handles of the registry as [StartTunnel] makes them: without a
    listener, with an SSH client. *)
Definition handle_ok (a : activeTunnel) : Prop :=
  listener a = None /\ is_Some (sshClient a).

Definition registry_ok (s : tunnelService) : Prop :=
  map_Forall (fun _ a => handle_ok a) (activeTunnels s).

(** The effects of [StopTunnel] on a handle, in the order of the code. *)
Definition stop_effects (id : N) (a : activeTunnel) : list effect :=
  match listener a with Some l => [EListenerClose l] | None => [] end ++
  [ECancel id] ++
  match sshClient a with Some c => [ESSHClose c] | None => [] end ++
  [ESleep 200; EUpdateStatus id TunnelStatusInactive;
   EAddConnectionLog id LogEventStop (str "Tunnel stopped and port released")].

(** The events and the statuses of the connection log of a tunnel. *)
Definition logged (s : tunnelService) (id : N) (eventType : bytes) : Prop :=
  exists message,
    In (ConnectionLog.mk id eventType message)
       (TunnelRepository.connection_logs (tunnelRepo s)).

Definition persisted_status (s : tunnelService) (id : N) : option bytes :=
  match TunnelRepository.GetByID (tunnelRepo s) id with
  | Ok tunnel => Some (Tunnel.Status tunnel)
  | Err _ => None
  end.

(** After a failed start that set the tunnel to [error]. *)
Definition start_failed (s : tunnelService) (id : N) : Prop :=
  activeTunnels s !! id = None /\
  persisted_status s id = Some TunnelStatusError /\
  logged s id LogEventError.


(** The effects of a call: what it appended to [effects]. *)
Definition effects_of (before after : tunnelService) : list effect :=
  skipn (length (effects before)) (effects after).

Definition is_listener_close (e : effect) : bool :=
  match e with EListenerClose _ => true | _ => false end.

(** ** A small world for the examples *)

(** Every port is free, every dial succeeds, the host is [example_host]. *)
Definition example_world : World :=
  mkWorld (fun id => if N.eqb id 1 then Ok example_host else Err record_not_found)
          (fun host => (host, None))
          (fun key => Ok key)
          (fun key _ => Ok key)
          (fun _ _ => Ok 7%N)
          (fun addr => Ok (LocalListener addr))
          (fun client addr => Ok (RemoteListener client addr)).



Definition example_forward (id : N) (port : Z) : Tunnel.t :=
  Tunnel.mk id 1 (str "web") TunnelTypeLocalForward (str "127.0.0.1") port
            (str "10.0.0.5") 80 [] TunnelStatusInactive false false.

(** A service over a table of two local forwards, on the ports 9000 and
    9001 of 127.0.0.1. *)
Definition example_service : tunnelService :=
  NewTunnelService
    (TunnelRepository.mk [example_forward 1 9000; example_forward 2 9001] []).

(** A service whose only tunnel names a host that does not exist. *)
Definition example_orphan : tunnelService :=
  NewTunnelService
    (TunnelRepository.mk
       [Tunnel.mk 1 2 (str "web") TunnelTypeLocalForward (str "127.0.0.1") 9000
                  (str "10.0.0.5") 80 [] TunnelStatusInactive false false] []).

(** [example_service] after [StartTunnel(1)]. *)
Definition example_running : tunnelService :=
  snd (StartTunnel example_world 1 example_service).

End Engine.

(* ================================================================== *)
(** * The host service, continued: the operations that write the store
    or reach the host ([CreateHost], [UpdateHost], [DeleteHost],
    [TestConnection]) *)

Module HostServiceOps.
Import HostService.

(** [client.NewSession()] and [session.Output(cmd)] of an SSH client. *)
Record Shell : Type := mkShell {
  client_NewSession : Engine.SSHClient -> result N;
  session_Output : N -> bytes -> result bytes
}.

(** The deferred calls of [TestConnection], in the order they run. *)
Inductive closing : Type :=
| SessionClose (session : N)
| ClientClose (client : Engine.SSHClient).

Definition validateAuthConfig (host : Host.t) : option error :=
  if bytes_eqb (Host.AuthType host) AuthTypePassword then
    match Host.Password host with
    | [] => Some (str "password is required for password authentication")
    | _ :: _ => None
    end
  else if bytes_eqb (Host.AuthType host) AuthTypeKey then
    match Host.PrivateKey host, Host.KeyPath host with
    | [], [] => Some (str "private key or key path is required for key authentication")
    | _, _ => None
    end
  else if bytes_eqb (Host.AuthType host) AuthTypeKeyPassword then
    match Host.PrivateKey host, Host.KeyPath host with
    | [], [] =>
        Some (str "private key or key path is required for key with password authentication")
    | _, _ =>
        match Host.Passphrase host with
        | [] => Some (str "passphrase is required for key with password authentication")
        | _ :: _ => None
        end
    end
  else Some (str "invalid authentication type").

(** [createSSHConfig] of the host service. *)
Definition createSSHConfig (w : Engine.World) (host : Host.t)
  : result Engine.ClientConfig :=
  let config := Engine.mkConfig (Host.Username host) [] 30 in
  if bytes_eqb (Host.AuthType host) AuthTypePassword then
    Ok (Engine.mkConfig (Engine.User config)
                        [Engine.Password (Host.Password host)]
                        (Engine.Timeout config))
  else if bytes_eqb (Host.AuthType host) AuthTypeKey ||
          bytes_eqb (Host.AuthType host) AuthTypeKeyPassword then
    match Host.PrivateKey host, Host.KeyPath host with
    | [], _ :: _ => Err (str "key file reading not implemented yet")
    | privateKey, _ =>
        let parsed :=
          if bytes_eqb (Host.AuthType host) AuthTypeKeyPassword &&
             negb (bytes_eqb (Host.Passphrase host) [])
          then Engine.ssh_ParsePrivateKeyWithPassphrase w privateKey
                                                        (Host.Passphrase host)
          else Engine.ssh_ParsePrivateKey w privateKey in
        match parsed with
        | Err err => Err (str "failed to parse private key: " ++ err)
        | Ok signer =>
            Ok (Engine.mkConfig (Engine.User config)
                                [Engine.PublicKeys signer]
                                (Engine.Timeout config))
        end
    end
  else Ok config.

Section WithAES.

Variable aes_Encrypt : bytes -> bytes -> bytes.

Definition set_repo (s : hostService) (r : HostRepository.t) : hostService :=
  mkService r (encryptKey s).

(** [CreateHost(host)]: the host as the call leaves it, the error
    and the service after the call.  [iv1], [iv2], [iv3] are the
    IVs drawn, [newID] the key the table assigns. *)
Definition CreateHost (s : hostService) (iv1 iv2 iv3 : bytes) (newID : N)
           (host : Host.t) : (Host.t * option error) * hostService :=
  match HostRepository.GetByName (hostRepo s) (Host.Name host) with
  | Ok _ => ((host, Some (str "host name already exists")), s)
  | Err _ =>
      match validateAuthConfig host with
      | Some err => ((host, Some err), s)
      | None =>
          match EncryptSensitiveData aes_Encrypt s iv1 iv2 iv3 host with
          | (host, Some err) =>
              ((host, Some (str "failed to encrypt sensitive data: " ++ err)), s)
          | (host, None) =>
              let host := Host.set_Status host HostStatusInactive in
              match HostRepository.Create (hostRepo s) newID host with
              | (Ok host, r) => ((host, None), set_repo s r)
              | (Err err, r) => ((host, Some err), set_repo s r)
              end
          end
      end
  end.

Definition UpdateHost (s : hostService) (iv1 iv2 iv3 : bytes) (newID : N)
           (host : Host.t) : (Host.t * option error) * hostService :=
  match validateAuthConfig host with
  | Some err => ((host, Some err), s)
  | None =>
      match EncryptSensitiveData aes_Encrypt s iv1 iv2 iv3 host with
      | (host, Some err) =>
          ((host, Some (str "failed to encrypt sensitive data: " ++ err)), s)
      | (host, None) =>
          let (err, r) := HostRepository.Update (hostRepo s) newID host in
          ((host, err), set_repo s r)
      end
  end.

(** [DeleteHost(id)]; [tunnels] are the rows of the tunnels table. *)
Definition DeleteHost (s : hostService) (tunnels : list Tunnel.t) (id : N)
  : option error * hostService :=
  let (err, r) := HostRepository.Delete (hostRepo s) tunnels id in
  (err, set_repo s r).

Definition UpdateStatus (s : hostService) (id : N) (status : bytes) : hostService :=
  set_repo s (HostRepository.UpdateStatus (hostRepo s) id status).

Definition test_command : bytes := str "echo 'connection test'".

(** [TestConnection(id)]: the error, the service after the call and
    the deferred [Close] calls that ran. *)
Definition TestConnection (w : Engine.World) (sh : Shell) (s : hostService) (id : N)
  : (option error * hostService) * list closing :=
  match HostRepository.GetByID (hostRepo s) id with
  | Err err => ((Some err, s), [])
  | Ok host =>
      match DecryptSensitiveData aes_Encrypt s host with
      | (_, Some err) =>
          ((Some (str "failed to decrypt sensitive data: " ++ err), s), [])
      | (host, None) =>
          match createSSHConfig w host with
          | Err err =>
              ((Some (str "failed to create SSH config: " ++ err), s), [])
          | Ok config =>
              let address := Engine.addr_port (Host.Hostname host) (Host.Port host) in
              match Engine.ssh_Dial w address config with
              | Err err =>
                  ((Some (str "SSH connection failed: " ++ err),
                    UpdateStatus s (Host.ID host) HostStatusError), [])
              | Ok client =>
                  match client_NewSession sh client with
                  | Err err =>
                      ((Some (str "failed to create SSH session: " ++ err),
                        UpdateStatus s (Host.ID host) HostStatusError),
                       [ClientClose client])
                  | Ok session =>
                      match session_Output sh session test_command with
                      | Err err =>
                          ((Some (str "command execution failed: " ++ err),
                            UpdateStatus s (Host.ID host) HostStatusError),
                           [SessionClose session; ClientClose client])
                      | Ok output =>
                          match output with
                          | [] =>
                              ((Some (str "empty command output"),
                                UpdateStatus s (Host.ID host) HostStatusError),
                               [SessionClose session; ClientClose client])
                          | _ :: _ =>
                              ((None,
                                UpdateStatus s (Host.ID host) HostStatusActive),
                               [SessionClose session; ClientClose client])
                          end
                      end
                  end
              end
          end
      end
  end.


Definition CheckHostStatus (w : Engine.World) (sh : Shell) (s : hostService) (id : N)
  : (option error * hostService) * list closing :=
  TestConnection w sh s id.

(** The tunnel service as [main] builds it: its host service is
    [s]; the ssh package and the network are those of [w]. *)
Definition world_of (s : hostService) (w : Engine.World) : Engine.World :=
  Engine.mkWorld (GetHost aes_Encrypt s)
                 (DecryptSensitiveData aes_Encrypt s)
                 (Engine.ssh_ParsePrivateKey w)
                 (Engine.ssh_ParsePrivateKeyWithPassphrase w)
                 (Engine.ssh_Dial w)
                 (Engine.net_Listen w)
                 (Engine.sshClient_Listen w).


End WithAES.

(** The host a successful [CreateHost] of [host] leaves behind, before
    its secrets are encrypted: the key is [newID], the status
    [inactive], a zero port is 22. *)
Definition row_of (newID : N) (host : Host.t) : Host.t :=
  Host.mk newID (Host.Name host) (Host.Hostname host)
          (if Z.eqb (Host.Port host) 0 then 22%Z else Host.Port host)
          (Host.Username host) (Host.AuthType host)
          (Host.Password host) (Host.PrivateKey host)
          (Host.KeyPath host) (Host.Passphrase host)
          HostStatusInactive.

(** ** Hosts for the examples *)

Definition example_iv : bytes := repeat "i"%char 16.

(** An empty store under the key [key]. *)
Definition empty_service : hostService := NewHostService [] (str "key").

(** A host as a client submits it, with the password [password]. *)
Definition new_host : Host.t :=
  Host.mk 0 (str "home") (str "example.org") 0 (str "root")
          AuthTypePassword (str "password") [] [] [] [].

(** A host with key authentication that names a key file only. *)
Definition key_path_host : Host.t :=
  Host.mk 0 (str "vault") (str "example.org") 22 (str "root")
          AuthTypeKey [] [] (str "/root/.ssh/id_ed25519") [] [].

(** The store after [CreateHost(new_host)], with the stand-in for
    the AES block function. *)
Definition home_service : hostService :=
  snd (CreateHost toy_block empty_service example_iv example_iv example_iv 1 new_host).

Definition vault_service : hostService :=
  snd (CreateHost toy_block empty_service example_iv example_iv example_iv 1
                  key_path_host).

(** A shell whose sessions answer every command with [ok]. *)
Definition example_shell : Shell :=
  mkShell (fun _ => Ok 1%N) (fun _ _ => Ok (str "ok")).

(** The primary key and the name are keys of the hosts table. *)
Definition hosts_ok (r : HostRepository.t) : Prop :=
  List.NoDup (map Host.ID r) /\ List.NoDup (map Host.Name r) /\
  ~ In 0%N (map Host.ID r).

End HostServiceOps.

(* ================================================================== *)
(** * The tunnel service, continued: what its states have in common *)

Module EngineStates.
Import Engine.

(** Every tunnel of the registry is [active] in the table. *)
Definition running_is_active (s : tunnelService) : Prop :=
  forall id, is_Some (activeTunnels s !! id) ->
    persisted_status s id = Some TunnelStatusActive.

(** A call leaves the tunnel [id] alone: its handle, and its row if
    it had one. *)
Definition untouched (s s' : tunnelService) (id : N) : Prop :=
  activeTunnels s' !! id = activeTunnels s !! id /\
  forall x, TunnelRepository.GetByID (tunnelRepo s) id = Ok x ->
            TunnelRepository.GetByID (tunnelRepo s') id = Ok x.

(** The connection log of the tunnel [id]. *)
Definition logs_of (s : tunnelService) (id : N) : list ConnectionLog.t :=
  List.filter (fun l => N.eqb (ConnectionLog.TunnelID l) id)
              (TunnelRepository.connection_logs (tunnelRepo s)).

(** The three kinds of tunnel. *)
Definition known_type (type : bytes) : Prop :=
  type = TunnelTypeLocalForward \/ type = TunnelTypeRemoteForward \/
  type = TunnelTypeDynamic.

(** A table with an auto-start tunnel and one that is not. *)
Definition example_auto : tunnelService :=
  NewTunnelService
    (TunnelRepository.mk
       [Tunnel.mk 1 1 (str "web") TunnelTypeLocalForward (str "127.0.0.1") 9000
                  (str "10.0.0.5") 80 [] TunnelStatusInactive true false;
        Tunnel.mk 2 1 (str "db") TunnelTypeLocalForward (str "127.0.0.1") 9001
                  (str "10.0.0.6") 5432 [] TunnelStatusInactive false false] []).

Definition example_mappings : list LocalServiceMapping :=
  [mkMapping (str "web") (str "127.0.0.1") 3000 [] 8080 false [];
   mkMapping (str "bad") (str "127.0.0.1") 3001 [] 0 false []].

End EngineStates.

(* ================================================================== *)
(** * The tunnel service under overlapping calls

    The service answers its requests on goroutines of their own, and
    [StartTunnel] holds the mutex of the service only while it looks
    the handle up, while its start routine stores the listener and while
    it writes the handle.  Here a call of [StartTunnel] runs from one of
    these points to the next, and the other calls run between them.
    [StopTunnel] takes the handle out of the registry in one critical
    section and writes to the table afterwards; the calls made of
    [StopTunnel], [StartTunnel] and writes to the table
    ([UpdateTunnel], [DeleteTunnel], [RestartTunnel] and the like) run
    whole, or part by part as moves of their own. *)

Module Overlap.
Import Engine.

(** Where a call of [StartTunnel] stands, with its local variables. *)
Inductive start_point : Type :=
| AtRead                      (* at [s.tunnelRepo.GetByID(id)] *)
| AtCheck (tunnel : Tunnel.t) (* at [s.activeTunnels[id] != nil], under the mutex *)
| AtConnect (tunnel : Tunnel.t)
                              (* at [GetHost] and [createSSHConnection] *)
| AtForward (tunnel : Tunnel.t) (sshClient : SSHClient)
                              (* at the start routine of the kind *)
| AtRegister (tunnel : Tunnel.t) (sshClient : SSHClient)
                              (* at [s.activeTunnels[id] = activeTunnel], under the mutex *)
| AtStatus (tunnel : Tunnel.t)
                              (* at [UpdateStatus] and the [start] log *)
| Returned (err : option error).

(** [StartTunnel(id)] from one point to the next. *)
Definition start_step (w : World) (id : N) (p : start_point) (s : tunnelService)
  : start_point * tunnelService :=
  match p with
  | AtRead =>
      match TunnelRepository.GetByID (tunnelRepo s) id with
      | Err err => (Returned (Some (str "failed to get tunnel: " ++ err)), s)
      | Ok tunnel => (AtCheck tunnel, s)
      end
  | AtCheck tunnel =>
      match activeTunnels s !! id with
      | Some _ => (Returned (Some (str "tunnel is already running")), s)
      | None => (AtConnect tunnel, s)
      end
  | AtConnect tunnel =>
      match hostService_GetHost w (Tunnel.HostID tunnel) with
      | Err err => (Returned (Some (str "failed to get host: " ++ err)), s)
      | Ok host =>
          match createSSHConnection w host with
          | Err err =>
              let s := addConnectionLog (Tunnel.ID tunnel) LogEventError
                         (str "SSH connection failed: " ++ err) s in
              let s := UpdateStatus id TunnelStatusError s in
              (Returned (Some (str "failed to create SSH connection: " ++ err)), s)
          | Ok sshClient => (AtForward tunnel sshClient, s)
          end
      end
  | AtForward tunnel sshClient =>
      match start_forward w tunnel sshClient s with
      | None =>
          let s := do_effect (ECancel id) s in
          let s := do_effect (ESSHClose sshClient) s in
          (Returned (Some (str "unsupported tunnel type")), s)
      | Some (Some err, s) =>
          let s := do_effect (ECancel id) s in
          let s := do_effect (ESSHClose sshClient) s in
          let s := addConnectionLog (Tunnel.ID tunnel) LogEventError
                     (str "Failed to start tunnel: " ++ err) s in
          let s := UpdateStatus id TunnelStatusError s in
          (Returned (Some (str "failed to start tunnel: " ++ err)), s)
      | Some (None, s) => (AtRegister tunnel sshClient, s)
      end
  | AtRegister tunnel sshClient =>
      let activeTunnel := mkActive tunnel (Some sshClient) None in
      (AtStatus tunnel, set_active s (<[id := activeTunnel]> (activeTunnels s)))
  | AtStatus tunnel =>
      let s := UpdateStatus id TunnelStatusActive s in
      let s := addConnectionLog (Tunnel.ID tunnel) LogEventStart
                 (str "Tunnel started successfully") s in
      (Returned None, s)
  | Returned err => (Returned err, s)
  end.

(** [n] steps of one call, with nothing between them. *)
Fixpoint start_steps (w : World) (id : N) (n : nat) (p : start_point)
         (s : tunnelService) : start_point * tunnelService :=
  match n with
  | O => (p, s)
  | S n => let (p, s) := start_step w id p s in start_steps w id n p s
  end.

(** The service and the calls of [StartTunnel] that are under way or
    have returned, each with the tunnel it was asked to start. *)
Record machine : Type := mkMachine {
  service : tunnelService;
  starting : list (N * start_point)
}.

Inductive move : Type :=
| Whole (w : World) (c : call)   (* a call that runs from its first line to its last *)
| Enter (id : N)                 (* a request for [StartTunnel(id)] arrives *)
| Advance (w : World) (i : nat)  (* the [i]-th call of [StartTunnel] goes to its next point *)
| Store (repo : TunnelRepository.t).
                                 (* the table is written by a call that is under way *)

Definition do_move (mv : move) (m : machine) : machine :=
  match mv with
  | Whole w c => mkMachine (run w c (service m)) (starting m)
  | Enter id => mkMachine (service m) (starting m ++ [(id, AtRead)])
  | Advance w i =>
      match starting m !! i with
      | None => m
      | Some (id, p) =>
          let (p, s) := start_step w id p (service m) in
          mkMachine s (<[i := (id, p)]> (starting m))
      end
  | Store repo => mkMachine (set_repo (service m) repo) (starting m)
  end.

Definition play (moves : list move) (m : machine) : machine :=
  fold_left (fun m mv => do_move mv m) moves m.

(** The states of the service when its calls overlap. *)
Inductive reachable : machine -> Prop :=
| reachable_new (repo : TunnelRepository.t) :
    reachable (mkMachine (NewTunnelService repo) [])
| reachable_move (mv : move) (m : machine) :
    reachable m -> reachable (do_move mv m).

(** A call of [StartTunnel(id)] has left its start routine and has not
    written its handle yet. *)
Definition registering (m : machine) (id : N) : Prop :=
  exists i tunnel sshClient, starting m !! i = Some (id, AtRegister tunnel sshClient).

(** The tunnel a call has read. *)
Definition point_tunnel (p : start_point) : option Tunnel.t :=
  match p with
  | AtRead | Returned _ => None
  | AtCheck tunnel | AtConnect tunnel | AtForward tunnel _
  | AtRegister tunnel _ | AtStatus tunnel => Some tunnel
  end.

(** Every call has read the tunnel it was asked to start. *)
Definition starts_ok (m : machine) : Prop :=
  forall i id p tunnel,
    starting m !! i = Some (id, p) -> point_tunnel p = Some tunnel ->
    Tunnel.ID tunnel = id.

(** A handle holds a listener only while a call for its tunnel is
    about to write its own handle. *)
Definition listeners_ok (m : machine) : Prop :=
  forall id a,
    activeTunnels (service m) !! id = Some a -> listener a <> None ->
    registering m id.

(** Every handle of [s'] is a handle of [s] or holds no listener. *)
Definition no_new_listener (s s' : tunnelService) : Prop :=
  forall id a,
    activeTunnels s' !! id = Some a ->
    listener a = None \/ activeTunnels s !! id = Some a.

(** ** Two runs of the example service *)

(** As [example_world], with 127.0.0.1:9000 taken. *)
Definition held_world : World :=
  mkWorld (hostService_GetHost example_world)
          (hostService_DecryptSensitiveData example_world)
          (ssh_ParsePrivateKey example_world)
          (ssh_ParsePrivateKeyWithPassphrase example_world)
          (ssh_Dial example_world)
          (fun addr => if bytes_eqb addr (str "127.0.0.1:9000")
                       then Err (str "bind: address already in use")
                       else Ok (LocalListener addr))
          (sshClient_Listen example_world).

(** A call of [StartTunnel(1)] reads the tunnel and finds it stopped;
    the tunnel is moved to the port 9002 and started by two other
    calls; the first call then binds the port 9000 it has read. *)
Definition stale_start : list move :=
  [Enter 1; Advance example_world 0; Advance example_world 0;
   Whole example_world (CallUpdateTunnel (example_forward 1 9002));
   Whole example_world (CallStartTunnel 1);
   Advance example_world 0; Advance example_world 0].

(** Two calls of [StartTunnel(1)] find the tunnel stopped; the second
    starts it; the first cannot bind the port, which is now taken. *)
Definition double_start : list move :=
  [Enter 1; Advance example_world 0; Advance example_world 0;
   Whole example_world (CallStartTunnel 1);
   Advance example_world 0; Advance held_world 0].

End Overlap.

(* ================================================================== *)
(** * The SOCKS5 server, continued: the sessions it can have *)

Module Socks5Sessions.
Import Socks5.

Definition accept : bytes := [Socks5Version; AuthMethodNoAuth].
Definition refuse : bytes := [Socks5Version; AuthMethodNoAcceptable].

(** What [HandleConnection] does on a connection, from its first read
    to [conn.Close()]. *)
Inductive session : list event -> Prop :=
| session_silent :
    session [Close]
| session_no_method :
    session [Write refuse; Close]
| session_dropped :
    session [Write accept; Close]
| session_refused (rep : ascii) :
    rep = RepCommandNotSupported \/ rep = RepAddressNotSupported ->
    session [Write accept; Write (reply rep); Close]
| session_unreachable (target : bytes) :
    session [Write accept; Dial (str "tcp") target;
             Write (reply RepHostUnreachable); Close]
| session_reply_lost (target : bytes) :
    session [Write accept; Dial (str "tcp") target;
             Write (reply RepSuccess); RemoteClose; Close]
| session_relayed (target : bytes) :
    session [Write accept; Dial (str "tcp") target;
             Write (reply RepSuccess); Relay; RemoteClose; Close].

(** A CONNECT request that stops before the end of its address. *)
Definition truncated (data : bytes) : Prop :=
  (at_ data 3 = AtypIPV4 /\ (length data < 10)%nat) \/
  (at_ data 3 = AtypDomain /\
   ((length data < 5)%nat \/ (length data < 7 + nat_of_ascii (at_ data 4))%nat)) \/
  (at_ data 3 = AtypIPV6 /\ (length data < 22)%nat).

End Socks5Sessions.

(* ================================================================== *)
(** * The traffic service ([internal/service/traffic_service.go])

    A [time.Time] is a number of nanoseconds, an [int64] and an [int] are
    integers that wrap around at 64 bits.  The speeds are [float64]
    values: their type and the one division the service does on them
    are parameters. *)

Module Traffic.

(** The value an [int64] holds after an overflow. *)
Definition wrap64 (x : Z) : Z := ((x + 2 ^ 63) mod 2 ^ 64 - 2 ^ 63)%Z.

(** [t.Sub(u)]: the difference, kept within a [Duration]. *)
Definition time_Sub (t u : Z) : Z :=
  Z.max (- 2 ^ 63) (Z.min (2 ^ 63 - 1) (t - u)).

Section WithFloat.

Variable float64 : Type.
Variable float_zero : float64.
(** [float64(n) / d.Seconds()] for a count [n] and a duration [d] *)
Variable per_second : Z -> Z -> float64.

(** [models.RealtimeTrafficStats] *)
Record RealtimeTrafficStats : Type := mkStats {
  TunnelID : N;
  CurrentBytesIn : Z;
  CurrentBytesOut : Z;
  ActiveConnections : Z;
  SpeedIn : float64;
  SpeedOut : float64;
  LastUpdateTime : Z
}.

(** [trafficService]; its repository is never used. *)
Record trafficService : Type := mkTraffic {
  realtimeStats : gmap N RealtimeTrafficStats
}.

Definition NewTrafficService : trafficService := mkTraffic ∅.

(** [LogTraffic]; [t0] and [now] are the two readings of the clock. *)
Definition LogTraffic (tunnelID : N) (bytesIn bytesOut : Z) (t0 now : Z)
           (s : trafficService) : trafficService :=
  let stats :=
    match realtimeStats s !! tunnelID with
    | Some stats => stats
    | None => mkStats tunnelID 0 0 1 float_zero float_zero t0
    end in
  let timeDiff := time_Sub now (LastUpdateTime stats) in
  let moved := (0 <? timeDiff)%Z in
  let stats :=
    mkStats (TunnelID stats)
            (wrap64 (CurrentBytesIn stats + bytesIn))
            (wrap64 (CurrentBytesOut stats + bytesOut))
            (ActiveConnections stats)
            (if moved then per_second bytesIn timeDiff else SpeedIn stats)
            (if moved then per_second bytesOut timeDiff else SpeedOut stats)
            now in
  mkTraffic (<[tunnelID := stats]> (realtimeStats s)).

(** [GetTrafficStats]: not implemented, an empty slice. *)
Definition GetTrafficStats (tunnelID : N) (startTime endTime : Z)
           (s : trafficService) : result (list RealtimeTrafficStats) :=
  Ok [].

Definition GetRealtimeStats (tunnelID : N) (now : Z) (s : trafficService)
  : result RealtimeTrafficStats :=
  match realtimeStats s !! tunnelID with
  | None => Ok (mkStats tunnelID 0 0 0 float_zero float_zero now)
  | Some stats => Ok stats
  end.

Definition GetAllRealtimeStats (s : trafficService)
  : result (gmap N RealtimeTrafficStats) :=
  Ok (realtimeStats s).

Definition IncrementConnection (tunnelID : N) (t0 : Z) (s : trafficService)
  : trafficService :=
  let stats :=
    match realtimeStats s !! tunnelID with
    | Some stats => stats
    | None => mkStats tunnelID 0 0 0 float_zero float_zero t0
    end in
  mkTraffic (<[tunnelID :=
               mkStats (TunnelID stats) (CurrentBytesIn stats)
                       (CurrentBytesOut stats)
                       (wrap64 (ActiveConnections stats + 1))
                       (SpeedIn stats) (SpeedOut stats)
                       (LastUpdateTime stats)]> (realtimeStats s)).

Definition DecrementConnection (tunnelID : N) (s : trafficService)
  : trafficService :=
  match realtimeStats s !! tunnelID with
  | Some stats =>
      if (0 <? ActiveConnections stats)%Z then
        mkTraffic (<[tunnelID :=
                     mkStats (TunnelID stats) (CurrentBytesIn stats)
                             (CurrentBytesOut stats)
                             (wrap64 (ActiveConnections stats - 1))
                             (SpeedIn stats) (SpeedOut stats)
                             (LastUpdateTime stats)]> (realtimeStats s))
      else s
  | None => s
  end.

(** [TunnelTrafficLogger] *)
Record TunnelTrafficLogger : Type := mkLogger { logger_tunnelID : N }.

Definition NewTunnelTrafficLogger (tunnelID : N) : TunnelTrafficLogger :=
  mkLogger tunnelID.

Definition logger_LogTraffic (l : TunnelTrafficLogger) (bytesIn bytesOut : Z)
           (t0 now : Z) (s : trafficService) : trafficService :=
  LogTraffic (logger_tunnelID l) bytesIn bytesOut t0 now s.

(** ** The calls of the service *)

Inductive call : Type :=
| CallLogTraffic (tunnelID : N) (bytesIn bytesOut : Z) (t0 now : Z)
| CallIncrementConnection (tunnelID : N) (t0 : Z)
| CallDecrementConnection (tunnelID : N).

Definition run (c : call) (s : trafficService) : trafficService :=
  match c with
  | CallLogTraffic tunnelID bytesIn bytesOut t0 now =>
      LogTraffic tunnelID bytesIn bytesOut t0 now s
  | CallIncrementConnection tunnelID t0 => IncrementConnection tunnelID t0 s
  | CallDecrementConnection tunnelID => DecrementConnection tunnelID s
  end.

(** The calls [cs], first to last, on a new service. *)
Definition after (cs : list call) : trafficService :=
  fold_left (fun s c => run c s) cs NewTrafficService.

(** The bytes logged for [id] by the calls [cs], inbound and
    outbound. *)
Definition logged_in (id : N) (cs : list call) : Z :=
  fold_right (fun c acc =>
                match c with
                | CallLogTraffic id' bytesIn _ _ _ =>
                    if N.eqb id' id then (bytesIn + acc)%Z else acc
                | _ => acc
                end) 0%Z cs.

Definition logged_out (id : N) (cs : list call) : Z :=
  fold_right (fun c acc =>
                match c with
                | CallLogTraffic id' _ bytesOut _ _ =>
                    if N.eqb id' id then (bytesOut + acc)%Z else acc
                | _ => acc
                end) 0%Z cs.

(** The counters [GetRealtimeStats] reports for [id]. *)
Definition bytes_in (s : trafficService) (id : N) : Z :=
  match realtimeStats s !! id with
  | Some stats => CurrentBytesIn stats
  | None => 0%Z
  end.

Definition bytes_out (s : trafficService) (id : N) : Z :=
  match realtimeStats s !! id with
  | Some stats => CurrentBytesOut stats
  | None => 0%Z
  end.

Definition connections (s : trafficService) (id : N) : Z :=
  match realtimeStats s !! id with
  | Some stats => ActiveConnections stats
  | None => 0%Z
  end.

(** Every entry is stored under its own tunnel, and its connection
    count lies between 0 and [n]. *)
Definition counted (n : Z) (s : trafficService) : Prop :=
  forall id stats,
    realtimeStats s !! id = Some stats ->
    TunnelID stats = id /\ (0 <= ActiveConnections stats <= n)%Z.

End WithFloat.

End Traffic.

(* ================================================================== *)
(** * One SOCKS5 connection of a dynamic tunnel
      ([tunnelService.handleSOCKS5])

    The handler of one accepted connection, run on its own: the log of
    the tunnel service, the traffic service and the connection.  The
    SOCKS5 server is the one of [Socks5]; its [relay] reports the bytes
    it copied to the traffic logger, [bytesIn] and [bytesOut] here. *)

Module Socks5Tunnel.

Section WithOutside.

Variable float64 : Type.
Variable float_zero : float64.
Variable per_second : Z -> Z -> float64.
Variable IP_String : bytes -> bytes.

(** [relay] was reached: it is among the events the server added. *)
Definition relayed (before after : Socks5.Conn) : bool :=
  existsb (fun e => match e with Socks5.Relay => true | _ => false end)
          (skipn (length (Socks5.events before)) (Socks5.events after)).

Definition handleSOCKS5 (tunnel : Tunnel.t) (socksServer : Socks5.SOCKS5Server)
           (remoteAddr : bytes) (bytesIn bytesOut : Z) (t0 t1 now : Z)
           (s : Engine.tunnelService) (ts : Traffic.trafficService float64)
           (conn : Socks5.Conn)
  : Engine.tunnelService * Traffic.trafficService float64 * Socks5.Conn :=
  let id := Tunnel.ID tunnel in
  let s := Engine.addConnectionLog id LogEventConnect
             (str "SOCKS5 connection from " ++ remoteAddr) s in
  let ts := Traffic.IncrementConnection float64 float_zero id t0 ts in
  let trafficLogger := Traffic.NewTunnelTrafficLogger id in
  let (r, conn') := Socks5.HandleConnection IP_String socksServer conn in
  let ts :=
    if relayed conn conn'
    then Traffic.logger_LogTraffic float64 float_zero per_second trafficLogger
           bytesIn bytesOut t1 now ts
    else ts in
  let s :=
    match r with
    | Some err =>
        Engine.addConnectionLog id LogEventError
          (str "SOCKS5 connection error: " ++ err) s
    | None => s
    end in
  let s := Engine.addConnectionLog id LogEventDisconnect
             (str "SOCKS5 connection closed") s in
  (s, Traffic.DecrementConnection float64 id ts, Socks5.emit conn' Socks5.Close).

End WithOutside.

End Socks5Tunnel.
(* ================================================================== *)
(** * Facts about the string functions *)

Module GoStringsFacts.

Lemma firstn_length_app {A} (l r : list A) : firstn (length l) (l ++ r) = l.
Proof. rewrite firstn_app, Nat.sub_diag, firstn_all. simpl. apply app_nil_r. Qed.

Lemma skipn_length_app {A} (l r : list A) : skipn (length l) (l ++ r) = r.
Proof. rewrite skipn_app, Nat.sub_diag, skipn_all. reflexivity. Qed.

Lemma byte_eqb_eq (a b : ascii) : byte_eqb a b = true <-> a = b.
Proof. apply Ascii.eqb_eq. Qed.

Lemma byte_eqb_refl (a : ascii) : byte_eqb a a = true.
Proof. apply Ascii.eqb_refl. Qed.

Lemma byte_eqb_neq (a b : ascii) : byte_eqb a b = false <-> a <> b.
Proof. apply Ascii.eqb_neq. Qed.

Lemma bytes_eqb_eq (s t : bytes) : bytes_eqb s t = true <-> s = t.
Proof.
  revert t; induction s as [|a s IH]; intros [|b t]; simpl; split;
    try congruence; try reflexivity.
  - intros H. apply andb_true_iff in H as [H1 H2].
    apply byte_eqb_eq in H1. apply IH in H2. congruence.
  - intros H. injection H as -> ->.
    rewrite byte_eqb_refl. simpl. apply IH. reflexivity.
Qed.

Lemma bytes_eqb_refl (s : bytes) : bytes_eqb s s = true.
Proof. apply bytes_eqb_eq. reflexivity. Qed.


Lemma HasPrefix_app (sub s : bytes) : HasPrefix (sub ++ s) sub = true.
Proof.
  induction sub as [|p sub IH]; simpl; [reflexivity|].
  rewrite byte_eqb_refl. exact IH.
Qed.

Lemma HasPrefix_app_r (p q sub : bytes) :
  HasPrefix p sub = true -> HasPrefix (p ++ q) sub = true.
Proof.
  revert p; induction sub as [|c sub IH]; intros p; simpl; [reflexivity|].
  destruct p as [|d p]; simpl; [discriminate|].
  intros H. apply andb_true_iff in H as [-> H]. simpl. apply IH, H.
Qed.

Lemma Contains_cons (c : ascii) (s sub : bytes) :
  Contains (c :: s) sub = false -> Contains s sub = false.
Proof. cbn [Contains]. intros H. apply orb_false_iff in H. apply H. Qed.

Lemma Contains_app_l (p q sub : bytes) :
  Contains (p ++ q) sub = false -> Contains p sub = false.
Proof.
  induction p as [|c p IH]; intros H.
  - destruct sub as [|d sub]; [|reflexivity].
    destruct q; discriminate H.
  - cbn [app Contains] in *. apply orb_false_iff in H as [H1 H2].
    apply orb_false_iff. split; [|apply IH, H2].
    destruct (HasPrefix (c :: p) sub) eqn:E; [|reflexivity].
    apply (HasPrefix_app_r _ q) in E. cbn [app] in E. congruence.
Qed.

Lemma in_cutset_In (cutset : bytes) (c : ascii) :
  in_cutset cutset c = true <-> In c cutset.
Proof.
  unfold in_cutset. rewrite existsb_exists. split.
  - intros (x & Hx & E). apply byte_eqb_eq in E. congruence.
  - intros H. exists c. split; [exact H | apply byte_eqb_refl].
Qed.

(** [TrimLeft] keeps a suffix, [TrimRight] a prefix. *)
Lemma TrimLeft_suffix (s cutset : bytes) :
  exists p, s = p ++ TrimLeft s cutset.
Proof.
  induction s as [|c s [p IH]]; simpl.
  - exists []. reflexivity.
  - destruct (in_cutset cutset c).
    + exists (c :: p). simpl. congruence.
    + exists []. reflexivity.
Qed.

Lemma TrimRight_prefix (s cutset : bytes) :
  exists q, s = TrimRight s cutset ++ q.
Proof.
  induction s as [|c s [q IH]]; simpl.
  - exists []. reflexivity.
  - destruct (TrimRight s cutset) as [|d t] eqn:E.
    + destruct (in_cutset cutset c).
      * exists (c :: s). reflexivity.
      * exists s. simpl in IH. simpl. congruence.
    + exists q. simpl. simpl in IH. congruence.
Qed.

Lemma TrimLeft_head (s cutset : bytes) (c : ascii) (t : bytes) :
  TrimLeft s cutset = c :: t -> in_cutset cutset c = false.
Proof.
  induction s as [|d s IH]; simpl; [discriminate|].
  destruct (in_cutset cutset d) eqn:E; [exact IH|].
  intros H. injection H as -> _. exact E.
Qed.

Lemma TrimLeft_fixed (s cutset : bytes) (c : ascii) (t : bytes) :
  s = c :: t -> in_cutset cutset c = false -> TrimLeft s cutset = s.
Proof. intros -> H. simpl. rewrite H. reflexivity. Qed.

Lemma TrimRight_cons (c : ascii) (s cutset : bytes) :
  TrimRight (c :: s) cutset =
  match TrimRight s cutset with
  | [] => if in_cutset cutset c then [] else [c]
  | t => c :: t
  end.
Proof. reflexivity. Qed.

Lemma TrimRight_idem (s cutset : bytes) :
  TrimRight (TrimRight s cutset) cutset = TrimRight s cutset.
Proof.
  induction s as [|c s IH]; [reflexivity|].
  rewrite TrimRight_cons.
  destruct (TrimRight s cutset) as [|d t] eqn:E.
  - destruct (in_cutset cutset c) eqn:Ec; [reflexivity|].
    rewrite TrimRight_cons. simpl. rewrite Ec. reflexivity.
  - rewrite TrimRight_cons, IH. reflexivity.
Qed.

Lemma TrimRight_tail (c : ascii) (t cutset : bytes) :
  TrimRight (c :: t) cutset = c :: t -> TrimRight t cutset = t.
Proof.
  rewrite TrimRight_cons. destruct (TrimRight t cutset) as [|d r] eqn:E.
  - destruct (in_cutset cutset c); [discriminate|].
    intros H. injection H as <-. reflexivity.
  - intros H. injection H as <-. reflexivity.
Qed.

Lemma TrimRight_suffix (p u cutset : bytes) :
  TrimRight (p ++ u) cutset = p ++ u -> TrimRight u cutset = u.
Proof.
  induction p as [|c p IH]; [trivial|].
  cbn [app]. intros H. apply IH. eapply TrimRight_tail. exact H.
Qed.

Lemma TrimLeft_idem (s cutset : bytes) :
  TrimLeft (TrimLeft s cutset) cutset = TrimLeft s cutset.
Proof.
  destruct (TrimLeft s cutset) as [|c t] eqn:E; [reflexivity|].
  apply (TrimLeft_fixed _ _ c t eq_refl).
  eapply TrimLeft_head. exact E.
Qed.

Lemma Trim_idem (s cutset : bytes) :
  Trim (Trim s cutset) cutset = Trim s cutset.
Proof.
  unfold Trim.
  assert (H : TrimRight (TrimLeft (TrimRight s cutset) cutset) cutset
              = TrimLeft (TrimRight s cutset) cutset).
  { destruct (TrimLeft_suffix (TrimRight s cutset) cutset) as [p Hp].
    apply (TrimRight_suffix p). rewrite <- Hp. apply TrimRight_idem. }
  rewrite H. apply TrimLeft_idem.
Qed.

Lemma In_TrimLeft (s cutset : bytes) (c : ascii) :
  In c (TrimLeft s cutset) -> In c s.
Proof.
  destruct (TrimLeft_suffix s cutset) as [p Hp]. intros H.
  rewrite Hp. apply in_or_app. right. exact H.
Qed.

Lemma In_TrimRight (s cutset : bytes) (c : ascii) :
  In c (TrimRight s cutset) -> In c s.
Proof.
  destruct (TrimRight_prefix s cutset) as [q Hq]. intros H.
  rewrite Hq. apply in_or_app. left. exact H.
Qed.

Lemma In_Trim (s cutset : bytes) (c : ascii) : In c (Trim s cutset) -> In c s.
Proof. intros H. apply In_TrimLeft in H. apply In_TrimRight in H. exact H. Qed.

Lemma Contains_TrimLeft (s cutset sub : bytes) :
  Contains s sub = false -> Contains (TrimLeft s cutset) sub = false.
Proof.
  induction s as [|c s IH]; simpl TrimLeft; [trivial|].
  intros H. destruct (in_cutset cutset c); [|exact H].
  apply IH. eapply Contains_cons. exact H.
Qed.

Lemma Contains_TrimRight (s cutset sub : bytes) :
  Contains s sub = false -> Contains (TrimRight s cutset) sub = false.
Proof.
  destruct (TrimRight_prefix s cutset) as [q Hq]. intros H.
  rewrite Hq in H. eapply Contains_app_l. exact H.
Qed.

Lemma Contains_Trim (s cutset sub : bytes) :
  Contains s sub = false -> Contains (Trim s cutset) sub = false.
Proof. intros H. apply Contains_TrimLeft, Contains_TrimRight, H. Qed.

Example Itoa_samples :
  Itoa 1080 = str "1080" /\ Itoa 0 = str "0" /\ Itoa (-5) = str "-5".
Proof. repeat split. Qed.

(** The replacer leaves a byte alone iff the byte is not in its table. *)
Lemma replacer_lookup_None (oldnew : list (ascii * bytes)) (c : ascii) :
  replacer_lookup oldnew c = None <-> ~ In c (map fst oldnew).
Proof.
  induction oldnew as [|[o n] rest IH]; simpl.
  - tauto.
  - destruct (byte_eqb o c) eqn:E.
    + apply byte_eqb_eq in E. split; [discriminate | intros H; exfalso; auto].
    + apply byte_eqb_neq in E. rewrite IH. tauto.
Qed.

Lemma replacer_lookup_Some (oldnew : list (ascii * bytes)) (c : ascii) (n : bytes) :
  replacer_lookup oldnew c = Some n -> In (c, n) oldnew.
Proof.
  induction oldnew as [|[o m] rest IH]; simpl; [discriminate|].
  destruct (byte_eqb o c) eqn:E.
  - apply byte_eqb_eq in E. intros H. left. congruence.
  - intros H. right. auto.
Qed.

Lemma Replacer_Replace_fixed (oldnew : list (ascii * bytes)) (s : bytes) :
  (forall c, In c s -> ~ In c (map fst oldnew)) ->
  Replacer_Replace oldnew s = s.
Proof.
  unfold Replacer_Replace. induction s as [|c s IH]; intros H; simpl;
    [reflexivity|].
  assert (E : replacer_lookup oldnew c = None).
  { apply replacer_lookup_None, H. left. reflexivity. }
  rewrite E. simpl. f_equal. apply IH. intros d Hd. apply H. right. exact Hd.
Qed.

(** A byte of the output is a byte of the input that is not in the
    table, or a byte of a replacement. *)
Lemma In_Replacer_Replace (oldnew : list (ascii * bytes)) (s : bytes) (c : ascii) :
  In c (Replacer_Replace oldnew s) ->
  (In c s /\ ~ In c (map fst oldnew)) \/
  (exists o n, In (o, n) oldnew /\ In c n).
Proof.
  unfold Replacer_Replace. rewrite in_flat_map. intros (x & Hx & Hc).
  destruct (replacer_lookup oldnew x) as [n|] eqn:E.
  - right. exists x, n. split; [apply replacer_lookup_Some, E | exact Hc].
  - left. destruct Hc as [<-|[]]. split; [exact Hx|].
    apply replacer_lookup_None, E.
Qed.

End GoStringsFacts.

(* ================================================================== *)
(** * The name sanitiser *)

Module SanitizeFacts.
Import GoStringsFacts Sanitize.

Abbreviation dd := (str "--").
Abbreviation d := (str "-").

Lemma ReplaceAll_dd_hit (r : bytes) :
  ReplaceAll ("-" :: "-" :: r) dd d = "-" :: ReplaceAll r dd d.
Proof. reflexivity. Qed.

Lemma ReplaceAll_dd_miss (c : ascii) (r : bytes) :
  HasPrefix (c :: r) dd = false ->
  ReplaceAll (c :: r) dd d = c :: ReplaceAll r dd d.
Proof.
  intros H. unfold ReplaceAll. cbn [replaceAll_from]. rewrite H. reflexivity.
Qed.

Lemma HasPrefix_dd (s : bytes) :
  HasPrefix s dd = true -> exists r, s = "-" :: "-" :: r.
Proof.
  unfold str. destruct s as [|a [|b r]]; simpl; try discriminate.
  - rewrite andb_false_r. discriminate.
  - intros H. apply andb_true_iff in H as [Ha H].
    apply andb_true_iff in H as [Hb _].
    apply byte_eqb_eq in Ha, Hb. subst. exists r. reflexivity.
Qed.

(** The induction that follows [ReplaceAll s "--" "-"]. *)
Lemma dd_ind (P : bytes -> Prop) :
  P [] ->
  (forall r, P r -> P ("-" :: "-" :: r)) ->
  (forall c r, HasPrefix (c :: r) dd = false -> P r -> P (c :: r)) ->
  forall s, P s.
Proof.
  intros Hnil Hhit Hmiss s.
  assert (H : forall n (t : bytes), (length t <= n)%nat -> P t).
  { induction n as [|n IH]; intros t Hlen.
    - destruct t; [exact Hnil | simpl in Hlen; lia].
    - destruct t as [|c r]; [exact Hnil|].
      destruct (HasPrefix (c :: r) dd) eqn:E.
      + apply HasPrefix_dd in E as [r' E]. rewrite E.
        apply Hhit, IH. injection E as -> ->. simpl in Hlen. lia.
      + apply Hmiss; [exact E|]. apply IH. simpl in Hlen. lia. }
  apply (H (length s)). lia.
Qed.

Lemma ReplaceAll_dd_length (s : bytes) :
  (length (ReplaceAll s dd d) <= length s)%nat /\
  (Contains s dd = true -> (length (ReplaceAll s dd d) < length s)%nat).
Proof.
  induction s as [| r [IH1 IH2] | c r E [IH1 IH2]] using dd_ind.
  - split; [reflexivity | discriminate].
  - rewrite ReplaceAll_dd_hit. cbn [length]. split; intros; lia.
  - rewrite (ReplaceAll_dd_miss c r E). cbn [length Contains]. rewrite E.
    split; [lia|]. rewrite orb_false_l. intros H. apply IH2 in H. lia.
Qed.

Lemma In_ReplaceAll_dd (s : bytes) (c : ascii) :
  In c (ReplaceAll s dd d) -> In c s.
Proof.
  induction s as [| r IH | x r E IH] using dd_ind.
  - trivial.
  - rewrite ReplaceAll_dd_hit. cbn [In]. intros [H|H]; auto.
  - rewrite (ReplaceAll_dd_miss x r E). cbn [In]. intros [H|H]; auto.
Qed.

(** The loop of [sanitizeName] stops because no [--] is left, not
    because [collapse_loop] has used up its turns. *)
Lemma collapse_loop_done (fuel : nat) (s : bytes) :
  (length s <= fuel)%nat -> Contains (collapse_loop fuel s) dd = false.
Proof.
  revert s; induction fuel as [|fuel IH]; intros s Hlen; simpl.
  - destruct s; [reflexivity | simpl in Hlen; lia].
  - destruct (Contains s dd) eqn:E; [|exact E].
    apply IH. apply (proj2 (ReplaceAll_dd_length s)) in E. lia.
Qed.

Lemma collapse_dashes_done (s : bytes) : Contains (collapse_dashes s) dd = false.
Proof. apply collapse_loop_done. reflexivity. Qed.

Lemma In_collapse_loop (fuel : nat) (s : bytes) (c : ascii) :
  In c (collapse_loop fuel s) -> In c s.
Proof.
  revert s; induction fuel as [|fuel IH]; intros s; simpl; [trivial|].
  destruct (Contains s dd); [|trivial].
  intros H. apply IH in H. apply In_ReplaceAll_dd, H.
Qed.

Lemma collapse_dashes_fixed (s : bytes) :
  Contains s dd = false -> collapse_dashes s = s.
Proof.
  unfold collapse_dashes. intros H. destruct (length s); simpl;
    [reflexivity|]. rewrite H. reflexivity.
Qed.

(** The table replaces by [-] or by nothing. *)
Lemma replacer_new (o : ascii) (n : bytes) (c : ascii) :
  In (o, n) replacer -> In c n -> c = "-".
Proof.
  unfold replacer. simpl.
  intros H Hc.
  repeat (destruct H as [H|H];
          [injection H as <- <-; simpl in Hc; intuition congruence|]).
  destruct H.
Qed.

Lemma dash_allowed : ~ In "-" forbidden.
Proof.
  unfold forbidden, replacer, dquote, backslash. simpl.
  intros H. repeat (destruct H as [H|H]; [discriminate H|]). exact H.
Qed.

Lemma Replace_allowed (name : bytes) (c : ascii) :
  In c (Replacer_Replace replacer name) -> ~ In c forbidden.
Proof.
  intros H. apply In_Replacer_Replace in H as [[_ H]|(o & n & Hon & Hc)].
  - exact H.
  - rewrite (replacer_new o n c Hon Hc). apply dash_allowed.
Qed.

Lemma sanitizeName_trimmed (name : bytes) :
  sanitizeName name = match trimmed name with [] => str "proxy" | r => r end.
Proof. unfold sanitizeName, trimmed. destruct (Trim _ _); reflexivity. Qed.

Lemma trimmed_allowed (name : bytes) (c : ascii) :
  In c (trimmed name) -> ~ In c forbidden.
Proof.
  unfold trimmed. intros H. apply In_Trim in H.
  apply In_collapse_loop in H. apply Replace_allowed in H. exact H.
Qed.

Lemma trimmed_fixed (name : bytes) : trimmed (trimmed name) = trimmed name.
Proof.
  unfold trimmed at 1.
  rewrite Replacer_Replace_fixed by (intros c; apply trimmed_allowed).
  rewrite collapse_dashes_fixed.
  - unfold trimmed. apply Trim_idem.
  - unfold trimmed. apply Contains_Trim, collapse_dashes_done.
Qed.

Lemma sanitizeName_allowed (name : bytes) (c : ascii) :
  In c forbidden -> ~ In c (sanitizeName name).
Proof.
  intros Hc H. rewrite sanitizeName_trimmed in H.
  destruct (trimmed name) as [|x r] eqn:E.
  - revert c Hc H. unfold forbidden, replacer, dquote, backslash. simpl.
    intros c Hc H.
    repeat (destruct Hc as [<-|Hc];
            [repeat (destruct H as [H|H]; [discriminate H|]); exact H|]).
    exact Hc.
  - rewrite <- E in H. exact (trimmed_allowed name c H Hc).
Qed.

Lemma sanitizeName_idem (name : bytes) :
  sanitizeName (sanitizeName name) = sanitizeName name.
Proof.
  rewrite (sanitizeName_trimmed name).
  destruct (trimmed name) as [|x r] eqn:E; [reflexivity|].
  rewrite <- E. rewrite sanitizeName_trimmed, trimmed_fixed, E. reflexivity.
Qed.

Lemma sanitizeName_nonempty (name : bytes) : sanitizeName name <> [].
Proof.
  rewrite sanitizeName_trimmed. destruct (trimmed name); discriminate.
Qed.

(** C8. [sanitizeName] is idempotent, its result holds none of the
    thirteen characters space, [_], [.], [:], [/], backslash, [|], [*],
    [?], double quote, ['], [<], [>], and it is never empty; the three
    sample names are sanitised as the specification says. *)
Theorem sanitizeName_contract :
  (forall x : bytes,
     sanitizeName (sanitizeName x) = sanitizeName x /\
     (forall c, In c [" "; "_"; "."; ":"; "/"; backslash; "|"; "*"; "?";
                      dquote; "'"; "<"; ">"] ->
                ~ In c (sanitizeName x)) /\
     sanitizeName x <> []) /\
  sanitizeName (str "Home  PC_01/dev") = str "Home-PC-01-dev" /\
  sanitizeName (str "***") = str "proxy" /\
  sanitizeName (str "-a--b-") = str "a-b".
Proof.
  split; [|repeat split; reflexivity].
  intros x. split; [apply sanitizeName_idem|].
  split; [|apply sanitizeName_nonempty].
  intros c Hc. apply sanitizeName_allowed. exact Hc.
Qed.

End SanitizeFacts.

(* ================================================================== *)
(** * The Clash exporter *)

Module ClashFacts.
Import GoStringsFacts Sanitize Clash.

Lemma sort_insert_perm (x : Tunnel.t) (l : list Tunnel.t) :
  Permutation (x :: l) (sort_insert port_less x l).
Proof.
  induction l as [|y l IH]; simpl; [reflexivity|].
  destruct (port_less y x); [|reflexivity].
  rewrite perm_swap. apply perm_skip, IH.
Qed.

Lemma sort_Slice_perm (l : list Tunnel.t) :
  Permutation l (sort_Slice port_less l).
Proof.
  induction l as [|x l IH]; simpl; [reflexivity|].
  rewrite <- sort_insert_perm. apply perm_skip, IH.
Qed.

Lemma sort_insert_hd (x y : Tunnel.t) (l : list Tunnel.t) :
  port_le y x -> HdRel port_le y l -> HdRel port_le y (sort_insert port_less x l).
Proof.
  intros Hyx Hl. destruct l as [|z l]; simpl; [constructor; exact Hyx|].
  destruct (port_less z x); constructor; [|exact Hyx].
  inversion Hl; assumption.
Qed.

Lemma sort_insert_sorted (x : Tunnel.t) (l : list Tunnel.t) :
  Sorted port_le l -> Sorted port_le (sort_insert port_less x l).
Proof.
  induction 1 as [|y l Hs IH Hhd]; simpl.
  - repeat constructor.
  - destruct (port_less y x) eqn:E; unfold port_less in E.
    + apply Z.ltb_lt in E. constructor; [exact IH|].
      apply sort_insert_hd; [unfold port_le; lia | exact Hhd].
    + apply Z.ltb_ge in E. constructor; [constructor; assumption|].
      constructor. exact E.
Qed.

Lemma sort_Slice_sorted (l : list Tunnel.t) : Sorted port_le (sort_Slice port_less l).
Proof.
  induction l as [|x l IH]; simpl; [constructor|].
  apply sort_insert_sorted, IH.
Qed.

Lemma GetActiveSocks5Tunnels_spec (s : clashExportService) :
  exists ts,
    GetActiveSocks5Tunnels s = Ok ts /\
    Permutation ts (List.filter is_active_socks5
                                (TunnelRepository.GetAll (tunnelRepo s))) /\
    Sorted port_le ts.
Proof.
  eexists. split; [reflexivity|]. split.
  - symmetry. apply sort_Slice_perm.
  - apply sort_Slice_sorted.
Qed.

Lemma make_proxies_all (s : clashExportService) (ts : list Tunnel.t) :
  (forall t, In t ts ->
     is_Ok (HostRepository.GetByID (hostRepo s) (Tunnel.HostID t)) = true) ->
  Forall2 (proxy_for s) ts (make_proxies s ts).
Proof.
  induction ts as [|t ts IH]; intros H; simpl; [constructor|].
  assert (Ht := H t (or_introl eq_refl)).
  destruct (HostRepository.GetByID (hostRepo s) (Tunnel.HostID t)) as [host|e] eqn:E;
    [|discriminate Ht].
  constructor.
  - exists host. rewrite E. repeat split; reflexivity.
  - apply IH. intros t' Ht'. apply H. right. exact Ht'.
Qed.

Lemma make_groups_select (names : list bytes) (c : ClashConfig) :
  names <> [] -> ProxyGroups c = make_groups names ->
  (exists g, group_named (str "Proxy") c = Some g /\
             group_Type g = str "select" /\
             group_Proxies g = select_members names) /\
  (is_Some (group_named (str "LoadBalance") c) <-> (1 < length names)%nat).
Proof.
  intros Hne Hc. unfold group_named, select_members. rewrite Hc.
  unfold make_groups.
  destruct names as [|n1 [|n2 names]]; [contradiction | |]; simpl.
  - split; [eexists; repeat split; reflexivity|].
    split; [intros [g Hg]; discriminate Hg | lia].
  - split; [eexists; repeat split; reflexivity|].
    split; [lia | intros _; eexists; reflexivity].
Qed.

Lemma no_active_iff (l : list Tunnel.t) :
  List.filter is_active_socks5 l = [] <->
  forall t, In t l -> is_active_socks5 t = false.
Proof.
  induction l as [|x l IH]; simpl.
  - split; [intros _ t [] | reflexivity].
  - destruct (is_active_socks5 x) eqn:E; split.
    + discriminate.
    + intros H. specialize (H x (or_introl eq_refl)). congruence.
    + intros H t [<-|Ht]; [exact E | apply IH; assumption].
    + intros H. apply IH. intros t Ht. apply H. right. exact Ht.
Qed.

(** C7, as the code has it.  Generation fails, and then with the error
    [no active SOCKS5 tunnels found], exactly when no live tunnel is
    dynamic and active.  Otherwise, when the host of every such tunnel
    can be read, the proxies are one [socks5] entry per active dynamic
    tunnel, by ascending local port, named
    [drilling-{sanitised host name}-{local port}], with the tunnel's
    local address and port; the [Proxy] select group lists [Auto],
    [DIRECT] and the proxy names when there is one proxy, and [Auto],
    [LoadBalance], [DIRECT] and the proxy names when there are more
    (the [LoadBalance] group is present exactly then). *)
Theorem GenerateClashConfig_contract (s : clashExportService) :
  let active := List.filter is_active_socks5
                            (TunnelRepository.GetAll (tunnelRepo s)) in
  (GenerateClashConfig s = Err no_active_socks5 <->
   forall t, In t (TunnelRepository.GetAll (tunnelRepo s)) ->
             is_active_socks5 t = false) /\
  (forall e, GenerateClashConfig s = Err e -> e = no_active_socks5) /\
  (active <> [] ->
   (forall t, In t active ->
      is_Ok (HostRepository.GetByID (hostRepo s) (Tunnel.HostID t)) = true) ->
   exists c ts,
     GenerateClashConfig s = Ok c /\
     Permutation ts active /\
     Sorted port_le ts /\
     Forall2 (proxy_for s) ts (Proxies c) /\
     (exists g, group_named (str "Proxy") c = Some g /\
                group_Type g = str "select" /\
                group_Proxies g = select_members (map proxy_Name (Proxies c))) /\
     (is_Some (group_named (str "LoadBalance") c) <->
      (1 < length (Proxies c))%nat)).
Proof.
  intros active.
  destruct (GetActiveSocks5Tunnels_spec s) as (ts & Hts & Hperm & Hsorted).
  assert (Hlen : length ts = length active) by (apply Permutation_length, Hperm).
  unfold GenerateClashConfig. rewrite Hts.
  split; [|split].
  - rewrite <- no_active_iff. fold active.
    destruct active as [|a active']; simpl in Hlen.
    + apply length_zero_iff_nil in Hlen. subst ts. simpl. tauto.
    + destruct ts; [discriminate Hlen|]. simpl. split; discriminate.
  - intros e. destruct (length ts =? 0)%nat; intros H; [|discriminate H].
    injection H as <-. reflexivity.
  - intros Hne Hhosts.
    destruct (length ts =? 0)%nat eqn:E0.
    { apply Nat.eqb_eq in E0. rewrite E0 in Hlen. symmetry in Hlen.
      apply length_zero_iff_nil in Hlen. contradiction. }
    apply Nat.eqb_neq in E0.
    eexists. exists ts. split; [reflexivity|].
    split; [exact Hperm|]. split; [exact Hsorted|].
    assert (Hall : Forall2 (proxy_for s) ts (make_proxies s ts)).
    { apply make_proxies_all. intros x Hx. apply Hhosts.
      eapply Permutation_in; eassumption. }
    split; [exact Hall|]. cbn [Proxies].
    lazymatch goal with
    | |- (exists g, group_named _ ?c = _ /\ _) /\ _ =>
        destruct (make_groups_select (map proxy_Name (make_proxies s ts)) c)
          as [H1 H2]
    end.
    + apply Forall2_length in Hall.
      intros E. apply (f_equal (@length _)) in E.
      rewrite length_map in E. simpl in E. lia.
    + reflexivity.
    + split; [exact H1|]. rewrite length_map in H2. exact H2.
Qed.

(** With the host [home] and one active dynamic tunnel on
    [127.0.0.1:1080], the contract gives a configuration. *)
Lemma GenerateClashConfig_contract_witness :
  exists c ts,
    GenerateClashConfig example_one = Ok c /\
    Permutation ts [example_tunnel 1 1080] /\
    Sorted port_le ts /\
    Forall2 (proxy_for example_one) ts (Proxies c) /\
    (exists g, group_named (str "Proxy") c = Some g /\
               group_Type g = str "select" /\
               group_Proxies g = select_members (map proxy_Name (Proxies c))) /\
    (is_Some (group_named (str "LoadBalance") c) <->
     (1 < length (Proxies c))%nat).
Proof.
  apply (GenerateClashConfig_contract example_one).
  - discriminate.
  - intros t [<-|[]]. reflexivity.
Defined.

Example GenerateClashConfig_home :
  exists c, GenerateClashConfig example_one = Ok c /\
    Proxies c = [mkProxy (str "drilling-home-1080") (str "socks5")
                         (str "127.0.0.1") 1080] /\
    option_map group_Proxies (group_named (str "Proxy") c)
    = Some [str "Auto"; str "DIRECT"; str "drilling-home-1080"].
Proof. eexists. repeat split. Qed.

(** C7 as stated fails with two proxies: the [Proxy] group then starts
    with [Auto], [LoadBalance], and its members are not the list of the
    specification. *)
Lemma select_group_order_counterexample :
  exists c g,
    GenerateClashConfig example_two = Ok c /\
    group_named (str "Proxy") c = Some g /\
    group_Proxies g = [str "Auto"; str "LoadBalance"; str "DIRECT";
                       str "drilling-home-1080"; str "drilling-home-1081"] /\
    firstn 2 (group_Proxies g) <> [str "Auto"; str "DIRECT"] /\
    group_Proxies g <> spec_select_members c.
Proof.
  eexists. eexists. split; [reflexivity|]. split; [reflexivity|].
  split; [reflexivity|]. split; discriminate.
Qed.

End ClashFacts.

(* ================================================================== *)
(** * Base64: decoding is the inverse of encoding *)

Module Base64Facts.
Import GoStringsFacts Base64.

Lemma decodeMap_encode (s : sextet) : decodeMap (encode_sextet s) = Some s.
Proof.
  destruct s as [[[[[b5 b4] b3] b2] b1] b0].
  destruct b5, b4, b3, b2, b1, b0; reflexivity.
Qed.

Lemma split3_bytes (x y z : ascii) :
  let '(s0, s1, s2, s3) := split3 x y z in
  byte0 s0 s1 = x /\ byte1 s1 s2 = y /\ byte2 s2 s3 = z.
Proof. destruct x, y, z. repeat split. Qed.

(** The first byte of a quantum does not depend on the bytes after it,
    nor the second on the third. *)
Lemma split3_first (x y z : ascii) :
  let '(s0, s1, _, _) := split3 x y z in byte0 s0 s1 = x.
Proof. destruct x, y, z. reflexivity. Qed.

Lemma split3_second (x y z : ascii) :
  let '(s0, s1, s2, _) := split3 x y z in
  byte0 s0 s1 = x /\ byte1 s1 s2 = y.
Proof. destruct x, y, z. split; reflexivity. Qed.

(** Induction three bytes at a time, as [EncodeToString] goes. *)
Lemma bytes_ind3 (P : bytes -> Prop) :
  P [] -> (forall x, P [x]) -> (forall x y, P [x; y]) ->
  (forall x y z rest, P rest -> P (x :: y :: z :: rest)) ->
  forall src, P src.
Proof.
  intros H0 H1 H2 H3.
  fix IH 1. intros [|x [|y [|z rest]]].
  - exact H0.
  - apply H1.
  - apply H2.
  - apply H3, IH.
Qed.

Lemma decode_step (total : nat) (s : sextet) (rest : bytes) (si : nat)
      (dbuf : list sextet) (out : bytes) :
  decode_from total (encode_sextet s :: rest) si dbuf out =
  if (length dbuf =? 3)%nat
  then decode_from total rest (S si) [] (out ++ bytes_of_sextets (dbuf ++ [s]))
  else decode_from total rest (S si) (dbuf ++ [s]) out.
Proof. cbn [decode_from]. rewrite decodeMap_encode. reflexivity. Qed.

Lemma decode_pad2 (total si : nat) (s0 s1 : sextet) (out : bytes) :
  decode_from total [padChar; padChar] si [s0; s1] out =
  Ok (out ++ [byte0 s0 s1]).
Proof. reflexivity. Qed.

Lemma decode_pad1 (total si : nat) (s0 s1 s2 : sextet) (out : bytes) :
  decode_from total [padChar] si [s0; s1; s2] out =
  Ok (out ++ [byte0 s0 s1; byte1 s1 s2]).
Proof. reflexivity. Qed.

Lemma decode_from_encode (total : nat) (src : bytes) :
  forall si out,
    decode_from total (EncodeToString src) si [] out = Ok (out ++ src).
Proof.
  induction src as [| x | x y | x y z rest IH] using bytes_ind3; intros si out.
  - simpl. rewrite app_nil_r. reflexivity.
  - cbn [EncodeToString].
    pose proof (split3_first x zero zero) as H.
    destruct (split3 x zero zero) as [[[s0 s1] s2] s3].
    rewrite !decode_step. cbn [length Nat.eqb app].
    rewrite decode_pad2, H. reflexivity.
  - cbn [EncodeToString].
    pose proof (split3_second x y zero) as H.
    destruct (split3 x y zero) as [[[s0 s1] s2] s3]. destruct H as [Hx Hy].
    rewrite !decode_step. cbn [length Nat.eqb app].
    rewrite decode_pad1, Hx, Hy. reflexivity.
  - cbn [EncodeToString].
    pose proof (split3_bytes x y z) as H.
    destruct (split3 x y z) as [[[s0 s1] s2] s3]. destruct H as (Hx & Hy & Hz).
    rewrite !decode_step. cbn [length Nat.eqb app bytes_of_sextets].
    rewrite IH, Hx, Hy, Hz, <- app_assoc. reflexivity.
Qed.

Theorem DecodeString_EncodeToString (src : bytes) :
  DecodeString (EncodeToString src) = Ok src.
Proof. unfold DecodeString. apply decode_from_encode. Qed.

(** Every error of the decoder is a [CorruptInputError]. *)
Lemma finish_padded_error rest si dbuf out e :
  finish_padded rest si dbuf out = Err e -> exists n, e = CorruptInputError n.
Proof.
  unfold finish_padded. destruct (skip_newlines rest si) as [[|c r] si'];
    intros H; [discriminate H|]. injection H as <-. eexists. reflexivity.
Qed.

Lemma decode_from_error (total : nat) (src : bytes) :
  forall si dbuf out e,
    decode_from total src si dbuf out = Err e ->
    exists n, e = CorruptInputError n.
Proof.
  induction src as [|c rest IH]; intros si dbuf out e; cbn [decode_from].
  - destruct dbuf; intros H; [discriminate H|].
    injection H as <-. eexists. reflexivity.
  - destruct (decodeMap c) as [s|].
    + destruct (length dbuf =? 3)%nat; apply IH.
    + destruct (is_newline c); [apply IH|].
      destruct (negb (byte_eqb c padChar)).
      { intros H. injection H as <-. eexists. reflexivity. }
      destruct (length dbuf) as [|[|[|k]]].
      * intros H. injection H as <-. eexists. reflexivity.
      * intros H. injection H as <-. eexists. reflexivity.
      * destruct (skip_newlines rest (S si)) as [[|c2 r2] si'].
        { intros H. injection H as <-. eexists. reflexivity. }
        destruct (negb (byte_eqb c2 padChar)).
        { intros H. injection H as <-. eexists. reflexivity. }
        apply finish_padded_error.
      * apply finish_padded_error.
Qed.

Lemma DecodeString_error (s : bytes) (e : error) :
  DecodeString s = Err e -> Contains e (str "illegal base64 data") = true.
Proof.
  intros H. apply decode_from_error in H as [n ->].
  unfold CorruptInputError.
  change (str "illegal base64 data at input byte ")
    with (str "illegal base64 data" ++ str " at input byte ").
  rewrite <- app_assoc.
  generalize (str " at input byte " ++ Itoa (Z.of_nat n)). intros t.
  destruct t; reflexivity.
Qed.

End Base64Facts.

(* ================================================================== *)
(** * CFB: decryption undoes encryption *)

Module CFBFacts.
Import CFB.

Lemma xor_byte_cancel (s k : ascii) : xor_byte (xor_byte s k) k = s.
Proof.
  destruct s, k. simpl. f_equal;
    match goal with |- xorb (xorb ?a ?b) ?b = ?a => destruct a, b; reflexivity end.
Qed.

(** The encrypter and the decrypter keep the same state: both put the
    ciphertext byte into [next]. *)
Lemma XORKeyStream_roundtrip (block : bytes -> bytes) (src : bytes) :
  forall nxt o used,
    XORKeyStream (mk block nxt o used true)
                 (XORKeyStream (mk block nxt o used false) src) = src.
Proof.
  induction src as [|s src IH]; intros nxt o used; [reflexivity|].
  cbn [XORKeyStream b next out outUsed decrypt].
  destruct (used =? length o)%nat;
    cbn [b next out outUsed decrypt];
    rewrite xor_byte_cancel, IH; reflexivity.
Qed.

Lemma CFB_roundtrip (block : bytes -> bytes) (iv src : bytes) :
  XORKeyStream (NewCFBDecrypter block iv)
               (XORKeyStream (NewCFBEncrypter block iv) src) = src.
Proof. apply XORKeyStream_roundtrip. Qed.

End CFBFacts.

(* ================================================================== *)
(** * The host service: the secret store *)

Module HostServiceFacts.
Import GoStringsFacts Base64 Base64Facts CFB CFBFacts HostService.

Section WithAES.
Variable aes_Encrypt : bytes -> bytes -> bytes.

Abbreviation NewHostService := (HostService.NewHostService).
Abbreviation encrypt := (HostService.encrypt aes_Encrypt).
Abbreviation decrypt := (HostService.decrypt aes_Encrypt).
Abbreviation decrypt_field := (HostService.decrypt_field aes_Encrypt).
Abbreviation DecryptSensitiveData := (HostService.DecryptSensitiveData aes_Encrypt).
Abbreviation GetHost := (HostService.GetHost aes_Encrypt).
Abbreviation GetAllHosts := (HostService.GetAllHosts aes_Encrypt).
Abbreviation read_field := (HostService.read_field aes_Encrypt).
Abbreviation as_decryption_leaves := (HostService.as_decryption_leaves aes_Encrypt).

Lemma NewHostService_key (repo : HostRepository.t) (k : bytes) :
  let key := encryptKey (NewHostService repo k) in
  length key = 32%nat /\
  ((length k <= 32)%nat -> key = k ++ repeat zero (32 - length k)) /\
  ((32 <= length k)%nat -> key = firstn 32 k).
Proof.
  unfold NewHostService. cbn [encryptKey].
  destruct (length k <? 32)%nat eqn:E1; [|destruct (32 <? length k)%nat eqn:E2].
  - apply Nat.ltb_lt in E1. split; [|split].
    + rewrite length_app, repeat_length. lia.
    + reflexivity.
    + lia.
  - apply Nat.ltb_lt in E2. split; [|split].
    + rewrite length_firstn. lia.
    + lia.
    + reflexivity.
  - apply Nat.ltb_ge in E1, E2. assert (E : length k = 32%nat) by lia.
    split; [exact E|]. split; intros _.
    + rewrite E. simpl. rewrite app_nil_r. reflexivity.
    + rewrite <- E, firstn_all. reflexivity.
Qed.

Lemma NewCipher_ok (repo : HostRepository.t) (k : bytes) :
  aes_NewCipher aes_Encrypt (encryptKey (NewHostService repo k)) =
  Ok (aes_Encrypt (encryptKey (NewHostService repo k))).
Proof.
  unfold aes_NewCipher.
  rewrite (proj1 (NewHostService_key repo k)). reflexivity.
Qed.

(** What [decrypt] returns, by the shape of its input. *)
Lemma decrypt_cases (repo : HostRepository.t) (k value : bytes) :
  let s := NewHostService repo k in
  match DecodeString value with
  | Err e => decrypt s value = Err e
  | Ok ciphertextBytes =>
      if (length ciphertextBytes <? BlockSize)%nat
      then decrypt s value = Err (str "ciphertext too short")
      else exists p, decrypt s value = Ok p
  end.
Proof.
  intros s. unfold HostService.decrypt.
  destruct (DecodeString value) as [bs|e]; [|reflexivity].
  unfold s. rewrite NewCipher_ok.
  destruct (length bs <? BlockSize)%nat; [reflexivity|].
  eexists. reflexivity.
Qed.

Lemma decrypt_field_cases (repo : HostRepository.t) (k what value : bytes) :
  let s := NewHostService repo k in
  match classify value with
  | Empty | Legacy => decrypt_field s what value = Ok value
  | TooShort => exists e, decrypt_field s what value = Err e
  | Cipher => exists p, decrypt_field s what value = Ok p
  end.
Proof.
  intros s. unfold classify, HostService.decrypt_field.
  destruct value as [|c value]; [reflexivity|].
  pose proof (decrypt_cases repo k (c :: value)) as H. cbv zeta in H.
  fold s in H.
  destruct (DecodeString (c :: value)) as [bs|e] eqn:E.
  - destruct (length bs <? BlockSize)%nat.
    + rewrite H. eexists. reflexivity.
    + destruct H as [p ->]. eexists. reflexivity.
  - rewrite H, (DecodeString_error _ _ E). reflexivity.
Qed.

Lemma encrypt_then_decrypt (repo : HostRepository.t) (k p iv : bytes) :
  length iv = 16%nat ->
  let s := NewHostService repo k in
  exists c, encrypt s iv p = Ok c /\ c <> [] /\ decrypt s c = Ok p.
Proof.
  intros Hiv s.
  unfold HostService.encrypt, HostService.decrypt. unfold s.
  rewrite NewCipher_ok. eexists. split; [reflexivity|].
  split.
  { destruct iv as [|i0 [|i1 [|i2 iv']]]; try discriminate Hiv.
    cbn [app EncodeToString]. destruct (split3 i0 i1 i2) as [[[s0 s1] s2] s3].
    discriminate. }
  rewrite DecodeString_EncodeToString.
  assert (Hlen : (length (iv ++ XORKeyStream
                    (NewCFBEncrypter (aes_Encrypt (encryptKey (NewHostService repo k))) iv) p)
                  <? BlockSize)%nat = false).
  { apply Nat.ltb_ge. rewrite length_app, Hiv. unfold BlockSize. lia. }
  rewrite Hlen.
  unfold BlockSize. rewrite <- Hiv.
  rewrite firstn_app, skipn_app, Nat.sub_diag, firstn_all, skipn_all.
  rewrite app_nil_r, skipn_O. cbn [app].
  rewrite CFB_roundtrip. reflexivity.
Qed.

(** C3. With the key derived from the configured string [k] (its
    bytes padded with zeros on the right, or cut, to 32 bytes), and
    for every 16-byte IV, [encrypt] succeeds and [decrypt] gives the
    plaintext back, byte for byte. *)
Theorem encrypt_decrypt_roundtrip (repo : HostRepository.t) (k p iv : bytes) :
  length iv = 16%nat ->
  let s := NewHostService repo k in
  (length (encryptKey s) = 32%nat /\
   ((length k <= 32)%nat -> encryptKey s = k ++ repeat zero (32 - length k)) /\
   ((32 <= length k)%nat -> encryptKey s = firstn 32 k)) /\
  exists c, encrypt s iv p = Ok c /\ decrypt s c = Ok p.
Proof.
  intros Hiv s. split; [apply NewHostService_key|].
  destruct (encrypt_then_decrypt repo k p iv Hiv) as (c & He & _ & Hd).
  exists c. split; assumption.
Qed.

(** A host comes back from [EncryptSensitiveData] and
    [DecryptSensitiveData] as it was. *)
Lemma field_roundtrip (repo : HostRepository.t) (k what iv value : bytes) :
  length iv = 16%nat ->
  let s := NewHostService repo k in
  exists c, HostService.encrypt_field aes_Encrypt s iv value = Ok c /\
            decrypt_field s what c = Ok value.
Proof.
  intros Hiv s. unfold HostService.encrypt_field, HostService.decrypt_field.
  destruct value as [|v0 value]; [exists []; split; reflexivity|].
  destruct (encrypt_then_decrypt repo k (v0 :: value) iv Hiv) as (c & He & Hne & Hd).
  fold s in He, Hd. exists c. split; [exact He|].
  destruct c as [|c0 c]; [contradiction|]. rewrite Hd. reflexivity.
Qed.

Lemma host_secrets_roundtrip (repo : HostRepository.t) (k iv1 iv2 iv3 : bytes)
      (host : Host.t) :
  length iv1 = 16%nat -> length iv2 = 16%nat -> length iv3 = 16%nat ->
  let s := NewHostService repo k in
  exists stored,
    HostService.EncryptSensitiveData aes_Encrypt s iv1 iv2 iv3 host = (stored, None) /\
    DecryptSensitiveData s stored = (host, None).
Proof.
  intros H1 H2 H3 s. destruct host as [id nm hn pt us au pw pk kp pp st].
  unfold HostService.EncryptSensitiveData, HostService.DecryptSensitiveData.
  cbn [Host.Password Host.PrivateKey Host.Passphrase Host.set_Password
       Host.set_PrivateKey Host.set_Passphrase].
  destruct (field_roundtrip repo k (str "password") iv1 pw H1) as (c1 & E1 & D1).
  destruct (field_roundtrip repo k (str "private key") iv2 pk H2) as (c2 & E2 & D2).
  destruct (field_roundtrip repo k (str "passphrase") iv3 pp H3) as (c3 & E3 & D3).
  fold s in E1, E2, E3, D1, D2, D3. rewrite E1.
  cbn [Host.Password Host.PrivateKey Host.Passphrase Host.set_Password
       Host.set_PrivateKey Host.set_Passphrase]. rewrite E2.
  cbn [Host.Password Host.PrivateKey Host.Passphrase Host.set_Password
       Host.set_PrivateKey Host.set_Passphrase]. rewrite E3.
  eexists. split; [reflexivity|].
  cbn [Host.Password Host.PrivateKey Host.Passphrase Host.set_Password
       Host.set_PrivateKey Host.set_Passphrase]. rewrite D1.
  cbn [Host.Password Host.PrivateKey Host.Passphrase Host.set_Password
       Host.set_PrivateKey Host.set_Passphrase]. rewrite D2.
  cbn [Host.Password Host.PrivateKey Host.Passphrase Host.set_Password
       Host.set_PrivateKey Host.set_Passphrase]. rewrite D3.
  reflexivity.
Qed.

Lemma decrypt_field_spec (repo : HostRepository.t) (k what value : bytes) :
  let s := NewHostService repo k in
  (is_short value = true /\ exists e, decrypt_field s what value = Err e) \/
  (is_short value = false /\
   exists v, decrypt_field s what value = Ok v /\
             (classify value = Legacy -> v = value)).
Proof.
  intros s. pose proof (decrypt_field_cases repo k what value) as H.
  cbv zeta in H. fold s in H. unfold is_short.
  destruct (classify value).
  - right. split; [reflexivity|]. exists value. split; [exact H | reflexivity].
  - right. split; [reflexivity|]. exists value. split; [exact H | reflexivity].
  - left. split; [reflexivity | exact H].
  - right. split; [reflexivity|]. destruct H as [p H]. exists p.
    split; [exact H | discriminate].
Qed.

(** [DecryptSensitiveData] returns an error exactly when a field is
    too short, and never touches a legacy field. *)
Lemma DecryptSensitiveData_cases (repo : HostRepository.t) (k : bytes)
      (host : Host.t) :
  let s := NewHostService repo k in
  legacy_kept host (fst (DecryptSensitiveData s host)) /\
  (has_too_short host = true <-> snd (DecryptSensitiveData s host) <> None).
Proof.
  intros s. unfold HostService.DecryptSensitiveData, legacy_kept,
    has_too_short, secret_fields. cbn [existsb].
  destruct (decrypt_field_spec repo k (str "password") (Host.Password host))
    as [[S1 [e1 E1]] | [S1 (v1 & E1 & L1)]]; fold s in E1; rewrite E1, S1.
  { cbn [fst snd orb]. repeat split; congruence. }
  destruct host as [id nm hn pt us au pw pk kp pp st].
  cbn [Host.Password Host.PrivateKey Host.Passphrase Host.set_Password
       Host.set_PrivateKey Host.set_Passphrase] in *.
  destruct (decrypt_field_spec repo k (str "private key") pk)
    as [[S2 [e2 E2]] | [S2 (v2 & E2 & L2)]]; fold s in E2; rewrite E2, S2.
  { cbn [fst snd orb Host.Password Host.PrivateKey Host.Passphrase].
    repeat split; intuition congruence. }
  cbn [Host.Password Host.PrivateKey Host.Passphrase Host.set_Password
       Host.set_PrivateKey Host.set_Passphrase] in *.
  destruct (decrypt_field_spec repo k (str "passphrase") pp)
    as [[S3 [e3 E3]] | [S3 (v3 & E3 & L3)]]; fold s in E3; rewrite E3, S3;
    cbn [fst snd orb Host.Password Host.PrivateKey Host.Passphrase];
    repeat split; intuition congruence.
Qed.

(** A field that is not too short is read. *)
Lemma decrypt_field_read (repo : HostRepository.t) (k what value : bytes) :
  let s := NewHostService repo k in
  if is_short value
  then exists e, decrypt_field s what value = Err e
  else decrypt_field s what value = Ok (read_field s value).
Proof.
  intros s. pose proof (decrypt_field_cases repo k what value) as H.
  cbv zeta in H. fold s in H. unfold is_short, HostService.read_field.
  destruct (classify value) eqn:Ec; try exact H.
  destruct H as [p Hp]. rewrite Hp. f_equal.
  unfold HostService.decrypt_field in Hp.
  destruct value as [|c value]; [discriminate Ec|].
  destruct (decrypt s (c :: value)) as [d|e] eqn:Edec; [congruence|].
  exfalso. unfold classify in Ec.
  pose proof (decrypt_cases repo k (c :: value)) as Hd. cbv zeta in Hd. fold s in Hd.
  destruct (DecodeString (c :: value)) as [bs|e'] eqn:Ed; [|discriminate Ec].
  destruct (length bs <? BlockSize)%nat; [discriminate Ec|].
  destruct Hd as [p' Hd]. congruence.
Qed.

(** [DecryptSensitiveData] leaves the host as the words of
    [as_decryption_leaves] say. *)
Lemma DecryptSensitiveData_leaves (repo : HostRepository.t) (k : bytes)
      (host : Host.t) :
  let s := NewHostService repo k in
  fst (DecryptSensitiveData s host) = as_decryption_leaves s host.
Proof.
  intros s. unfold HostService.DecryptSensitiveData,
    HostService.as_decryption_leaves.
  destruct host as [id nm hn pt us au pw pk kp pp st].
  cbn [Host.Password Host.PrivateKey Host.Passphrase Host.set_Password
       Host.set_PrivateKey Host.set_Passphrase].
  pose proof (decrypt_field_read repo k (str "password") pw) as H1.
  cbv zeta in H1. fold s in H1.
  destruct (is_short pw); [destruct H1 as [e ->]; reflexivity | rewrite H1].
  cbn [Host.Password Host.PrivateKey Host.Passphrase Host.set_Password
       Host.set_PrivateKey Host.set_Passphrase].
  pose proof (decrypt_field_read repo k (str "private key") pk) as H2.
  cbv zeta in H2. fold s in H2.
  destruct (is_short pk); [destruct H2 as [e ->]; reflexivity | rewrite H2].
  cbn [Host.Password Host.PrivateKey Host.Passphrase Host.set_Password
       Host.set_PrivateKey Host.set_Passphrase].
  pose proof (decrypt_field_read repo k (str "passphrase") pp) as H3.
  cbv zeta in H3. fold s in H3.
  destruct (is_short pp); [destruct H3 as [e ->]; reflexivity | rewrite H3].
  reflexivity.
Qed.

Lemma GetHost_cases (repo : HostRepository.t) (k : bytes) (id : N) (host : Host.t) :
  let s := NewHostService repo k in
  HostRepository.GetByID repo id = Ok host ->
  (has_too_short host = true -> exists e, GetHost s id = Err e) /\
  (has_too_short host = false ->
   exists host', GetHost s id = Ok host' /\ legacy_kept host host' /\
                 host' = as_decryption_leaves s host).
Proof.
  intros s Hget. unfold HostService.GetHost. cbn [hostRepo s NewHostService].
  rewrite Hget.
  destruct (DecryptSensitiveData_cases repo k host) as [Hk Herr].
  pose proof (DecryptSensitiveData_leaves repo k host) as Hleft.
  cbv zeta in Hleft. fold s in Hk, Herr, Hleft.
  destruct (DecryptSensitiveData s host) as [host' [e|]]; cbn [fst snd] in *.
  - split; [intros _; eexists; reflexivity|].
    intros H. exfalso. destruct Herr as [_ Herr].
    rewrite Herr in H; [discriminate H | discriminate].
  - split.
    + intros H. apply Herr in H. contradiction.
    + intros _. exists host'. split; [reflexivity|]. split; [exact Hk | exact Hleft].
Qed.

Lemma GetAllHosts_cases (repo : HostRepository.t) (k : bytes) :
  let s := NewHostService repo k in
  exists hosts,
    GetAllHosts s = Ok hosts /\
    Forall2 legacy_kept (HostRepository.GetAll repo) hosts /\
    hosts = map (as_decryption_leaves s) (HostRepository.GetAll repo).
Proof.
  intros s. eexists. split; [reflexivity|].
  cbn [hostRepo s NewHostService HostService.NewHostService].
  split.
  - induction (HostRepository.GetAll repo) as [|h hs IH]; simpl; constructor.
    + apply (DecryptSensitiveData_cases repo k h).
    + exact IH.
  - apply map_ext. intros h. apply (DecryptSensitiveData_leaves repo k h).
Qed.

(** C6, as the code has it.  With the service made by
    [NewHostService], a stored field fails to decrypt either because
    the base64 decoder refuses it (a legacy field) or because it
    decodes to fewer than 16 bytes.
    - [GetHost] returns an error when a non-empty secret field of the
      stored host decodes to fewer than 16 bytes; otherwise it
      succeeds, and every legacy field is passed through unchanged.
    - [GetAllHosts] always succeeds and passes every legacy field
      through unchanged; a host with a field that is too short is
      returned all the same.
    - What is returned is the stored host as the decryption leaves
      it ([as_decryption_leaves]): the fields are read in the order
      password, private key, passphrase -- a ciphertext as its
      plaintext, an empty or legacy field as it is -- up to the
      first field that is too short; that field and the fields
      after it are as they are stored. *)
Theorem secrets_on_the_way_out (repo : HostRepository.t) (k : bytes) :
  let s := NewHostService repo k in
  (forall value e,
     decrypt s value = Err e ->
     (DecodeString value = Err e /\
      Contains e (str "illegal base64 data") = true) \/
     ((exists raw, DecodeString value = Ok raw /\ (length raw < 16)%nat) /\
      e = str "ciphertext too short" /\
      Contains e (str "illegal base64 data") = false)) /\
  (forall id host,
     HostRepository.GetByID repo id = Ok host ->
     (has_too_short host = true -> exists e, GetHost s id = Err e) /\
     (has_too_short host = false ->
      exists host', GetHost s id = Ok host' /\ legacy_kept host host' /\
                    host' = as_decryption_leaves s host)) /\
  (exists hosts,
     GetAllHosts s = Ok hosts /\
     Forall2 legacy_kept (HostRepository.GetAll repo) hosts /\
     hosts = map (as_decryption_leaves s) (HostRepository.GetAll repo)).
Proof.
  intros s. split; [|split].
  - intros value e He. pose proof (decrypt_cases repo k value) as H.
    cbv zeta in H. fold s in H.
    destruct (DecodeString value) as [raw|e'] eqn:Ed.
    + destruct (Nat.ltb_spec (length raw) BlockSize) as [Hlt|Hge].
      * right. rewrite H in He. injection He as <-.
        split; [exists raw; split; [reflexivity | exact Hlt]|].
        split; reflexivity.
      * destruct H as [p H]. congruence.
    + left. rewrite H in He. injection He as <-.
      split; [reflexivity | eapply DecodeString_error; exact Ed].
  - intros id host. apply GetHost_cases.
  - apply GetAllHosts_cases.
Qed.

End WithAES.

(** Scenario S1: the key ["key"], the plaintext ["hunter2"]. *)
Lemma encrypt_decrypt_roundtrip_witness :
  let s := HostService.NewHostService [] (str "key") in
  (length (encryptKey s) = 32%nat /\
   ((length (str "key") <= 32)%nat ->
    encryptKey s = str "key" ++ repeat zero (32 - length (str "key"))) /\
   ((32 <= length (str "key"))%nat -> encryptKey s = firstn 32 (str "key"))) /\
  exists c,
    HostService.encrypt toy_block s (repeat "i" 16) (str "hunter2") = Ok c /\
    HostService.decrypt toy_block s c = Ok (str "hunter2").
Proof.
  apply (encrypt_decrypt_roundtrip toy_block [] (str "key") (str "hunter2")
                                   (repeat "i" 16)).
  reflexivity.
Defined.

(** A legacy password passes through [GetHost]. *)
Lemma secrets_on_the_way_out_witness :
  exists host',
    HostService.GetHost toy_block (HostService.NewHostService [legacy_host] (str "key")) 2
    = Ok host' /\
    legacy_kept legacy_host host' /\
    host' = as_decryption_leaves toy_block
              (HostService.NewHostService [legacy_host] (str "key")) legacy_host.
Proof.
  destruct (secrets_on_the_way_out toy_block [legacy_host] (str "key")) as (_ & H & _).
  apply (H 2%N legacy_host eq_refl). reflexivity.
Defined.

Example legacy_password_kept :
  HostService.GetHost toy_block (HostService.NewHostService [legacy_host] (str "key")) 2
  = Ok legacy_host.
Proof. reflexivity. Qed.

(** C6 as stated fails for [GetAllHosts]: the password [AAAA] is valid
    base64 of three bytes, [decrypt] fails on it with an error that is
    not a base64 error, [GetHost] returns an error, and [GetAllHosts]
    succeeds and returns the host as stored. *)
Lemma GetAllHosts_swallows_counterexample :
  let s := HostService.NewHostService [short_host] (str "key") in
  HostService.decrypt toy_block s (Host.Password short_host)
  = Err (str "ciphertext too short") /\
  Contains (str "ciphertext too short") (str "illegal base64 data") = false /\
  is_Ok (HostService.GetHost toy_block s 1) = false /\
  HostService.GetAllHosts toy_block s = Ok [short_host].
Proof. repeat split. Qed.

End HostServiceFacts.

(* ================================================================== *)
(** * The SOCKS5 server *)

Module Socks5Facts.
Import GoStringsFacts Socks5.

Lemma byte_val_range (c : ascii) : (0 <= byte_val c < 256)%Z.
Proof. unfold byte_val. pose proof (N_ascii_bounded c). lia. Qed.

(** The port is read big-endian. *)
Lemma BigEndian_Uint16_value (hi lo : ascii) :
  BigEndian_Uint16 [hi; lo] = (256 * byte_val hi + byte_val lo)%Z.
Proof.
  unfold BigEndian_Uint16, at_. cbn [nth].
  pose proof (byte_val_range lo) as Hlo.
  rewrite <- Z.add_nocarry_lor.
  - rewrite Z.shiftl_mul_pow2 by lia. change (2 ^ 8)%Z with 256%Z. lia.
  - apply Z.bits_inj'. intros n Hn. rewrite Z.land_spec, Z.bits_0.
    destruct (Z.lt_ge_cases n 8) as [Hlt|Hge].
    + rewrite Z.shiftl_spec_low by exact Hlt. apply andb_false_r.
    + rewrite <- (Z.mod_small (byte_val lo) (2 ^ 8)) by (change (2 ^ 8)%Z with 256%Z; lia).
      rewrite Z.mod_pow2_bits_high by lia. reflexivity.
Qed.

(** Reading a message that fits the buffer. *)
Lemma conn_Read_data (data : bytes) more wr ev :
  (length data <= 256)%nat ->
  conn_Read (mkConn (Ok data :: more) wr ev) =
  (Ok (data ++ repeat zero (256 - length data), length data), mkConn more wr ev).
Proof.
  intros H. unfold conn_Read. cbn [to_read write_results events].
  rewrite firstn_all2 by exact H. reflexivity.
Qed.

Lemma at_buf (data pad : bytes) (i : nat) :
  (i < length data)%nat -> at_ (data ++ pad) i = at_ data i.
Proof. intros H. unfold at_. apply app_nth1. exact H. Qed.

Lemma conn_Write_events (conn : Conn) (data : bytes) :
  conn_Write conn data =
  (next_write (write_results conn),
   mkConn (to_read conn) (tl (write_results conn)) (events conn ++ [Write data])).
Proof. unfold conn_Write. destruct (write_results conn); reflexivity. Qed.

Lemma offered_iff (data pad : bytes) (x : ascii) :
  (2 + nat_of_ascii (at_ data 1) <= length data)%nat ->
  existsb (fun i => byte_eqb (at_ (data ++ pad) (2 + i)) x)
          (seq 0 (nat_of_ascii (at_ data 1))) = true
  <-> In x (offered_methods data).
Proof.
  intros Hlen. unfold offered_methods, slice.
  set (k := nat_of_ascii (at_ data 1)) in *.
  replace (2 + k - 2)%nat with k by lia.
  rewrite existsb_exists. split.
  - intros (i & Hi & E). apply in_seq in Hi. apply byte_eqb_eq in E.
    rewrite at_buf in E by lia. subst x.
    unfold at_. rewrite <- nth_skipn.
    assert (Hn : nth i (skipn 2 data) zero = nth i (firstn k (skipn 2 data)) zero).
    { rewrite nth_firstn. destruct (Nat.ltb_spec i k); [reflexivity | lia]. }
    rewrite Hn. apply nth_In. rewrite length_firstn, length_skipn. lia.
  - intros H. apply (In_nth _ _ zero) in H as (i & Hi & E).
    rewrite length_firstn, length_skipn in Hi.
    exists i. split; [apply in_seq; lia|].
    apply byte_eqb_eq. rewrite at_buf by lia.
    rewrite nth_firstn in E. destruct (Nat.ltb_spec i k); [|lia].
    rewrite nth_skipn in E. exact E.
Qed.

Lemma handleAuth_wf (data : bytes) more wr ev :
  wf_method_selection data ->
  handleAuth (mkConn (Ok data :: more) wr ev) =
  if existsb (byte_eqb AuthMethodNoAuth) (offered_methods data)
  then (next_write wr,
        mkConn more (tl wr) (ev ++ [Write [Socks5Version; AuthMethodNoAuth]]))
  else (match next_write wr with
        | Some err => Some err
        | None => Some (str "no acceptable authentication method")
        end,
        mkConn more (tl wr) (ev ++ [Write [Socks5Version; AuthMethodNoAcceptable]])).
Proof.
  intros ([Hlo Hhi] & Hver & Hn). unfold handleAuth.
  rewrite conn_Read_data by exact Hhi.
  rewrite !at_buf by lia. rewrite Hver, byte_eqb_refl.
  destruct (Nat.ltb_spec (length data) 2) as [|_]; [lia|].
  destruct (Nat.ltb_spec (length data) (2 + nat_of_ascii (at_ data 1))) as [|_]; [lia|].
  cbn [orb negb].
  pose proof (offered_iff data (repeat zero (256 - length data)) AuthMethodNoAuth Hn) as Hoff.
  destruct (existsb (fun i => byte_eqb (at_ (data ++ _) (2 + i)) AuthMethodNoAuth) _) eqn:E.
  - assert (E' : existsb (byte_eqb AuthMethodNoAuth) (offered_methods data) = true).
    { apply existsb_exists. exists AuthMethodNoAuth.
      split; [apply Hoff; reflexivity | apply byte_eqb_refl]. }
    rewrite E', conn_Write_events. cbn [write_results to_read events negb].
    destruct (next_write wr); reflexivity.
  - assert (E' : existsb (byte_eqb AuthMethodNoAuth) (offered_methods data) = false).
    { destruct (existsb (byte_eqb AuthMethodNoAuth) (offered_methods data)) eqn:E';
        [|reflexivity].
      apply existsb_exists in E' as (x & Hx & Ex). apply byte_eqb_eq in Ex. subst x.
      apply Hoff in Hx. congruence. }
    rewrite E', conn_Write_events. cbn [write_results to_read events negb].
    destruct (next_write wr); reflexivity.
Qed.


Section WithIP.
Variable IP_String : bytes -> bytes.

Abbreviation parse_dest := (Socks5.parse_dest IP_String).
Abbreviation handleRequest := (Socks5.handleRequest IP_String).
Abbreviation HandleConnection := (Socks5.HandleConnection IP_String).
Abbreviation dest_target := (Socks5.dest_target IP_String).

(** [handleRequest] once the head of the request has been checked. *)
Lemma handleRequest_head (s : SOCKS5Server) (data : bytes) more wr ev :
  wf_request_head data ->
  handleRequest s (mkConn (Ok data :: more) wr ev) =
  let buf := data ++ repeat zero (256 - length data) in
  let conn := mkConn more wr ev in
  if negb (byte_eqb (at_ data 1) CmdConnect) then
    (Some (str "unsupported command: " ++ Itoa (byte_val (at_ data 1))),
     snd (conn_Write conn (reply RepCommandNotSupported)))
  else
    match parse_dest buf (length data) (at_ data 3) with
    | inl (true, err) =>
        (Some err, snd (conn_Write conn (reply RepAddressNotSupported)))
    | inl (false, err) => (Some err, conn)
    | inr (destAddr, destPort) =>
        let target := JoinHostPort destAddr (Itoa destPort) in
        let conn := emit conn (Dial (str "tcp") target) in
        match sshClient_Dial s (str "tcp") target with
        | Some err =>
            (Some (str "failed to connect to " ++ target ++ str ": " ++ err),
             snd (conn_Write conn (reply RepHostUnreachable)))
        | None =>
            match conn_Write conn (reply RepSuccess) with
            | (Some err, conn) => (Some err, emit conn RemoteClose)
            | (None, conn) => (relay_result s, emit (emit conn Relay) RemoteClose)
            end
        end
    end.
Proof.
  intros ([Hlo Hhi] & Hver). unfold Socks5.handleRequest.
  rewrite conn_Read_data by exact Hhi.
  rewrite !at_buf by lia. rewrite Hver, byte_eqb_refl.
  destruct (Nat.ltb_spec (length data) 4) as [|_]; [lia|].
  cbn [orb negb].
  destruct (negb (byte_eqb (at_ data 1) CmdConnect)).
  - destruct (conn_Write _ _). reflexivity.
  - destruct (Socks5.parse_dest _ _ _ _) as [[[|] err]|[destAddr destPort]].
    + destruct (conn_Write _ _). reflexivity.
    + reflexivity.
    + cbv zeta. destruct (sshClient_Dial s _ _).
      * destruct (conn_Write _ _). reflexivity.
      * reflexivity.
Qed.

Lemma parse_dest_unknown (buf : bytes) (n : nat) (atyp : ascii) :
  ~ In atyp [AtypIPV4; AtypDomain; AtypIPV6] ->
  parse_dest buf n atyp =
  inl (true, str "unsupported address type: " ++ Itoa (byte_val atyp)).
Proof.
  intros H. unfold Socks5.parse_dest.
  destruct (byte_eqb atyp AtypIPV4) eqn:E1;
    [apply byte_eqb_eq in E1; exfalso; apply H; simpl; auto|].
  destruct (byte_eqb atyp AtypDomain) eqn:E2;
    [apply byte_eqb_eq in E2; exfalso; apply H; simpl; auto|].
  destruct (byte_eqb atyp AtypIPV6) eqn:E3;
    [apply byte_eqb_eq in E3; exfalso; apply H; simpl; auto|].
  reflexivity.
Qed.

Lemma request_bytes_wf (dst : destination) (hi lo : ascii) :
  wf_destination dst ->
  let data := request_bytes dst hi lo in
  wf_request_head data /\ at_ data 1 = CmdConnect.
Proof.
  intros Hwf. destruct dst as [a b c d | name | ip]; cbn [request_bytes];
    unfold wf_request_head; cbn [wf_destination] in Hwf.
  - repeat split; simpl; lia.
  - repeat split; try reflexivity; cbn [length app];
      rewrite length_app; cbn [length]; lia.
  - repeat split; try reflexivity; cbn [length app];
      rewrite length_app; cbn [length]; lia.
Qed.

Lemma parse_dest_request (dst : destination) (hi lo : ascii) (pad : bytes) :
  wf_destination dst ->
  let data := request_bytes dst hi lo in
  parse_dest (data ++ pad) (length data) (at_ data 3) =
  inr (dest_host IP_String dst, (256 * byte_val hi + byte_val lo)%Z).
Proof.
  intros Hwf. destruct dst as [a b c d | name | ip]; cbn [request_bytes dest_host];
    cbn [wf_destination] in Hwf; unfold Socks5.parse_dest.
  - change (at_ _ 3) with AtypIPV4. rewrite byte_eqb_refl.
    cbn [length Nat.add Nat.ltb Nat.leb app].
    change (slice _ 8 10) with [hi; lo].
    rewrite BigEndian_Uint16_value. reflexivity.
  - change (at_ _ 3) with AtypDomain.
    change (byte_eqb AtypDomain AtypIPV4) with false.
    rewrite byte_eqb_refl. cbv iota.
    change (at_ _ 4) with (ascii_of_nat (length name)).
    rewrite nat_ascii_embedding by lia.
    cbn [length app]. rewrite length_app. cbn [length].
    destruct (Nat.ltb_spec (S (S (S (S (S (length name + 2)))))) (4 + 1)) as [|_]; [lia|].
    destruct (Nat.ltb_spec (S (S (S (S (S (length name + 2))))))
                           (4 + 1 + length name + 2)) as [|_]; [lia|].
    unfold slice.
    replace (4 + 1 + length name - (4 + 1))%nat with (length name) by lia.
    replace (4 + 1 + length name + 2 - (4 + 1 + length name))%nat with 2%nat by lia.
    replace (4 + 1 + length name)%nat with (length name + 5)%nat by lia.
    rewrite <- (skipn_skipn (length name) 5).
    change (skipn (4 + 1) ?l) with (skipn 5 l).
    change (skipn 5 (_ :: _ :: _ :: _ :: _ :: ?l)) with l.
    rewrite <- app_assoc, firstn_length_app, skipn_length_app.
    cbn [app firstn]. rewrite BigEndian_Uint16_value. reflexivity.
  - change (at_ _ 3) with AtypIPV6.
    change (byte_eqb AtypIPV6 AtypIPV4) with false.
    change (byte_eqb AtypIPV6 AtypDomain) with false.
    rewrite byte_eqb_refl. cbv iota.
    cbn [length app]. rewrite length_app, Hwf. cbn [length Nat.add Nat.ltb Nat.leb].
    unfold slice. cbn [Nat.add Nat.sub].
    change 20%nat with (16 + 4)%nat. rewrite <- (skipn_skipn 16 4).
    change (skipn 4 (_ :: _ :: _ :: _ :: ?l)) with l.
    rewrite <- app_assoc, <- Hwf, firstn_length_app, skipn_length_app.
    cbn [app firstn]. rewrite BigEndian_Uint16_value. reflexivity.
Qed.


Lemma HandleConnection_closes (s : SOCKS5Server) (conn : Conn) :
  exists evs, events (snd (HandleConnection s conn)) = evs ++ [Close].
Proof.
  unfold Socks5.HandleConnection.
  destruct (handleAuth conn) as [[e|] c].
  - eexists. reflexivity.
  - destruct (Socks5.handleRequest IP_String s c) as [[e|] c']; eexists; reflexivity.
Qed.

(** The two handlers on a connection whose next read returns [data];
    [ev] are the events before it and [wr] what the next writes
    return. *)
Lemma handlers_contract (s : SOCKS5Server) (data : bytes)
        (more : list (result bytes)) (wr : list (option error)) (ev : list event) :
  let conn := mkConn (Ok data :: more) wr ev in
  let after := fun written => mkConn more (tl wr) (ev ++ written) in
  (wf_method_selection data ->
   (In AuthMethodNoAuth (offered_methods data) ->
    handleAuth conn =
    (next_write wr, after [Write [ascii_of_nat 5; ascii_of_nat 0]])) /\
   (~ In AuthMethodNoAuth (offered_methods data) ->
    exists err,
      handleAuth conn =
      (Some err, after [Write [ascii_of_nat 5; ascii_of_nat 255]]))) /\
  (wf_request_head data -> at_ data 1 <> CmdConnect ->
   exists err,
     handleRequest s conn =
     (Some err, after [Write (reply (ascii_of_nat 7))])) /\
  (wf_request_head data -> at_ data 1 = CmdConnect ->
   ~ In (at_ data 3) [AtypIPV4; AtypDomain; AtypIPV6] ->
   exists err,
     handleRequest s conn =
     (Some err, after [Write (reply (ascii_of_nat 8))])) /\
  (forall dst hi lo,
     wf_destination dst -> data = request_bytes dst hi lo ->
     let target := dest_target dst hi lo in
     (forall e, sshClient_Dial s (str "tcp") target = Some e ->
        exists err,
          handleRequest s conn =
          (Some err,
           after [Dial (str "tcp") target; Write (reply (ascii_of_nat 4))])) /\
     (sshClient_Dial s (str "tcp") target = None ->
      reply (ascii_of_nat 0) =
        map ascii_of_nat [5; 0; 0; 1; 0; 0; 0; 0; 0; 0]%nat /\
      handleRequest s conn =
      match next_write wr with
      | Some err =>
          (Some err,
           after [Dial (str "tcp") target; Write (reply (ascii_of_nat 0));
                  RemoteClose])
      | None =>
          (relay_result s,
           after [Dial (str "tcp") target; Write (reply (ascii_of_nat 0));
                  Relay; RemoteClose])
      end)) /\
  (exists evs, events (snd (HandleConnection s conn)) = evs ++ [Close]).
Proof.
  intros conn after. unfold conn, after. repeat apply conj.
  - intros Hwf. rewrite (handleAuth_wf data more wr ev Hwf). split.
    + intros Hin.
      assert (E : existsb (byte_eqb AuthMethodNoAuth) (offered_methods data) = true).
      { apply existsb_exists. exists AuthMethodNoAuth.
        split; [exact Hin | apply byte_eqb_refl]. }
      rewrite E. reflexivity.
    + intros Hnin.
      assert (E : existsb (byte_eqb AuthMethodNoAuth) (offered_methods data) = false).
      { destruct (existsb _ _) eqn:E; [|reflexivity].
        apply existsb_exists in E as (x & Hx & Ex).
        apply byte_eqb_eq in Ex. subst x. contradiction. }
      rewrite E. destruct (next_write wr); eexists; reflexivity.
  - intros Hwf Hcmd. rewrite (handleRequest_head s data more wr ev Hwf).
    cbv zeta. apply byte_eqb_neq in Hcmd. rewrite Hcmd. cbn [negb].
    rewrite conn_Write_events. eexists. reflexivity.
  - intros Hwf Hcmd Hatyp. rewrite (handleRequest_head s data more wr ev Hwf).
    cbv zeta. rewrite Hcmd, byte_eqb_refl. cbn [negb].
    rewrite parse_dest_unknown by exact Hatyp.
    rewrite conn_Write_events. eexists. reflexivity.
  - intros dst hi lo Hwf Hdata. subst data.
    set (target := dest_target dst hi lo). cbv zeta.
    destruct (request_bytes_wf dst hi lo Hwf) as [Hhead Hcmd].
    rewrite (handleRequest_head s _ more wr ev Hhead).
    cbv zeta. rewrite Hcmd, byte_eqb_refl. cbn [negb].
    rewrite (parse_dest_request dst hi lo _ Hwf).
    fold (Socks5.dest_target IP_String dst hi lo). fold target. split.
    + intros e He. rewrite He, conn_Write_events. eexists.
      cbn [snd emit to_read write_results events].
      rewrite <- app_assoc. reflexivity.
    + intros He. split; [reflexivity|]. rewrite He, conn_Write_events.
      cbn [emit to_read write_results events].
      destruct (next_write wr); unfold emit;
        cbn [to_read write_results events];
        rewrite <- !app_assoc; reflexivity.
  - apply HandleConnection_closes.
Qed.

Lemma handleRequest_extends (s : SOCKS5Server) (conn : Conn) :
  exists evs, events (snd (handleRequest s conn)) = events conn ++ evs.
Proof.
  unfold Socks5.handleRequest, conn_Read.
  assert (Hw : forall c data, exists evs,
             events (snd (conn_Write c data)) = events c ++ evs).
  { intros c data. rewrite conn_Write_events. eexists. reflexivity. }
  destruct (to_read conn) as [|[data|e] rest]; cbn [snd fst];
    [exists []; rewrite app_nil_r; reflexivity | |
     exists []; cbn [events]; rewrite app_nil_r; reflexivity].
  set (c := mkConn rest (write_results conn) (events conn)).
  change (events conn) with (events c).
  assert (H0 : exists evs, events c = events c ++ evs)
    by (exists []; rewrite app_nil_r; reflexivity).
  destruct (_ || _); [apply H0|].
  destruct (negb _).
  { destruct (Hw c (reply RepCommandNotSupported)) as [evs Hevs].
    destruct (conn_Write c _) as [r c']. exists evs. exact Hevs. }
  destruct (Socks5.parse_dest _ _ _ _) as [[[|] err]|[destAddr destPort]].
  - destruct (Hw c (reply RepAddressNotSupported)) as [evs Hevs].
    destruct (conn_Write c _) as [r c']. exists evs. exact Hevs.
  - apply H0.
  - cbv zeta.
    set (d := emit c (Dial (str "tcp") (JoinHostPort destAddr (Itoa destPort)))).
    assert (Hd : events d = events c ++ [Dial (str "tcp")
                                           (JoinHostPort destAddr (Itoa destPort))])
      by reflexivity.
    destruct (sshClient_Dial s _ _).
    + destruct (Hw d (reply RepHostUnreachable)) as [evs Hevs].
      destruct (conn_Write d _) as [r c']. cbn [snd] in *.
      rewrite Hevs, Hd, <- app_assoc. eexists. reflexivity.
    + destruct (Hw d (reply RepSuccess)) as [evs Hevs].
      destruct (conn_Write d _) as [[e|] c']; cbn [snd emit events] in *;
        rewrite Hevs, Hd, <- !app_assoc; eexists; reflexivity.
Qed.

(** C4, as the code has it.  [conn] is a connection whose first read
    returns a complete method selection [sel]; [ev] are the events
    before it, [wr] what the writes return.
    - A selection that does not offer 0x00 is answered [05 FF];
      the server returns an error and closes the connection.
    - A selection that offers 0x00 is answered [05 00] first.  When
      that write succeeds and the next read returns a request with
      the head [05 CMD RSV ATYP]:
      a command other than CONNECT is answered
      [05 07 00 01 00 00 00 00 00 00], and a CONNECT request with an
      unknown address type [05 08 00 01 00 00 00 00 00 00], with an
      error, and nothing else is written, dialled or relayed;
      for a complete CONNECT request to an IPv4, domain or IPv6
      destination the server dials the host with the port read
      big-endian; when the dial fails it answers
      [05 04 00 01 00 00 00 00 00 00] and returns an error, when it
      succeeds it writes [05 00 00 01 00 00 00 00 00 00] and only
      then relays, and closes the target.
    - In every case [conn.Close()] comes last. *)
Theorem socks5_contract (s : SOCKS5Server) (sel : bytes)
        (reads : list (result bytes)) (wr : list (option error)) (ev : list event) :
  wf_method_selection sel ->
  let conn := mkConn (Ok sel :: reads) wr ev in
  let err := fst (HandleConnection s conn) in
  let done := events (snd (HandleConnection s conn)) in
  let b := map ascii_of_nat in
  (~ In (ascii_of_nat 0) (offered_methods sel) ->
   err <> None /\ done = ev ++ [Write (b [5; 255]%nat); Close]) /\
  (In (ascii_of_nat 0) (offered_methods sel) ->
   (exists rest, done = ev ++ Write (b [5; 0]%nat) :: rest) /\
   forall req more,
     reads = Ok req :: more -> next_write wr = None -> wf_request_head req ->
     (at_ req 1 <> ascii_of_nat 1 ->
      err <> None /\
      done = ev ++ [Write (b [5; 0]%nat);
                    Write (b [5; 7; 0; 1; 0; 0; 0; 0; 0; 0]%nat); Close]) /\
     (at_ req 1 = ascii_of_nat 1 ->
      ~ In (at_ req 3) [ascii_of_nat 1; ascii_of_nat 3; ascii_of_nat 4] ->
      err <> None /\
      done = ev ++ [Write (b [5; 0]%nat);
                    Write (b [5; 8; 0; 1; 0; 0; 0; 0; 0; 0]%nat); Close]) /\
     (forall dst hi lo,
        wf_destination dst -> req = request_bytes dst hi lo ->
        let target := dest_target dst hi lo in
        (sshClient_Dial s (str "tcp") target <> None ->
         err <> None /\
         done = ev ++ [Write (b [5; 0]%nat); Dial (str "tcp") target;
                       Write (b [5; 4; 0; 1; 0; 0; 0; 0; 0; 0]%nat); Close]) /\
        (sshClient_Dial s (str "tcp") target = None ->
         match next_write (tl wr) with
         | Some _ =>
             err <> None /\
             done = ev ++ [Write (b [5; 0]%nat); Dial (str "tcp") target;
                           Write (b [5; 0; 0; 1; 0; 0; 0; 0; 0; 0]%nat);
                           RemoteClose; Close]
         | None =>
             (err = None <-> relay_result s = None) /\
             done = ev ++ [Write (b [5; 0]%nat); Dial (str "tcp") target;
                           Write (b [5; 0; 0; 1; 0; 0; 0; 0; 0; 0]%nat);
                           Relay; RemoteClose; Close]
         end))).
Proof.
  intros Hwf conn err done b. unfold err, done, conn, b. clear err done conn b.
  unfold Socks5.HandleConnection. rewrite (handleAuth_wf sel reads wr ev Hwf).
  split.
  - intros Hnin.
    assert (E : existsb (byte_eqb AuthMethodNoAuth) (offered_methods sel) = false).
    { destruct (existsb _ _) eqn:E; [|reflexivity].
      apply existsb_exists in E as (x & Hx & Ex).
      apply byte_eqb_eq in Ex. subst x. contradiction. }
    rewrite E. destruct (next_write wr); cbn [fst snd emit events];
      rewrite <- app_assoc; split; [discriminate | reflexivity | discriminate
                                    | reflexivity].
  - intros Hin.
    assert (E : existsb (byte_eqb AuthMethodNoAuth) (offered_methods sel) = true).
    { apply existsb_exists. exists AuthMethodNoAuth.
      split; [exact Hin | apply byte_eqb_refl]. }
    rewrite E. split.
    + destruct (next_write wr) as [e|].
      * cbn [snd emit events]. rewrite <- app_assoc. eexists. reflexivity.
      * destruct (handleRequest_extends s
                    (mkConn reads (tl wr)
                            (ev ++ [Write [Socks5Version; AuthMethodNoAuth]])))
          as [evs Hevs].
        destruct (Socks5.handleRequest IP_String s _) as [[e|] c'];
          cbn [snd emit events] in *; rewrite Hevs, <- !app_assoc;
          eexists; reflexivity.
    + intros req more -> Hwr Hhead. rewrite Hwr.
      pose proof (handlers_contract s req more (tl wr)
                    (ev ++ [Write [Socks5Version; AuthMethodNoAuth]]))
        as (_ & Hcmd & Hatyp & Hdst & _).
      cbv zeta in Hcmd, Hatyp, Hdst.
      split; [|split].
      * intros Hc. destruct (Hcmd Hhead Hc) as [e He]. rewrite He.
        cbn [fst snd emit events]. rewrite <- !app_assoc.
        split; [discriminate | reflexivity].
      * intros Hc Ha. destruct (Hatyp Hhead Hc Ha) as [e He]. rewrite He.
        cbn [fst snd emit events]. rewrite <- !app_assoc.
        split; [discriminate | reflexivity].
      * intros dst hi lo Hd Hreq. cbv zeta.
        set (target := dest_target dst hi lo).
        destruct (Hdst dst hi lo Hd Hreq) as [Hfail Hok]. fold target in Hfail, Hok.
        split.
        -- intros Hdial.
           destruct (sshClient_Dial s (str "tcp") target) as [e|] eqn:Ed;
             [|contradiction].
           destruct (Hfail e eq_refl) as [e' He]. rewrite He.
           cbn [fst snd emit events]. rewrite <- !app_assoc.
           split; [discriminate | reflexivity].
        -- intros Hdial. destruct (Hok Hdial) as [_ He]. rewrite He.
           destruct (next_write (tl wr)) as [e|].
           ++ cbn [fst snd emit events]. rewrite <- !app_assoc.
              split; [discriminate | reflexivity].
           ++ destruct (relay_result s) as [e|];
                cbn [fst snd emit events]; rewrite <- !app_assoc;
                (split; [split; intros H; discriminate H || reflexivity
                        | reflexivity]).
Qed.

End WithIP.

(** Scenario S2: the client sends [05 01 00], then a CONNECT to
    127.0.0.1:80, and is relayed. *)
Lemma socks5_contract_witness :
  let s := mkServer (fun _ _ => None) None in
  let conn := mkConn [Ok (map ascii_of_nat [5; 1; 0]%nat);
                      Ok (map ascii_of_nat [5; 1; 0; 1; 127; 0; 0; 1; 0; 80]%nat)]
                     [] [] in
  wf_method_selection (map ascii_of_nat [5; 1; 0]%nat) /\
  fst (Socks5.HandleConnection IPv4_String s conn) = None /\
  events (snd (Socks5.HandleConnection IPv4_String s conn)) =
  [Write (map ascii_of_nat [5; 0]%nat); Dial (str "tcp") (str "127.0.0.1:80");
   Write (map ascii_of_nat [5; 0; 0; 1; 0; 0; 0; 0; 0; 0]%nat);
   Relay; RemoteClose; Close].
Proof.
  intros s conn.
  assert (Hwf : wf_method_selection (map ascii_of_nat [5; 1; 0]%nat))
    by (vm_compute; repeat split; try reflexivity; lia).
  split; [exact Hwf|].
  pose proof (socks5_contract IPv4_String s (map ascii_of_nat [5; 1; 0]%nat)
                [Ok (map ascii_of_nat [5; 1; 0; 1; 127; 0; 0; 1; 0; 80]%nat)]
                [] [] Hwf) as [_ H].
  cbv zeta in H. destruct (H (or_introl eq_refl)) as [_ Hreq].
  destruct (Hreq _ [] eq_refl eq_refl) as (_ & _ & Hdst).
  { vm_compute. repeat split; try reflexivity; lia. }
  destruct (Hdst (DestIPv4 (ascii_of_nat 127) zero zero (ascii_of_nat 1))
                 zero (ascii_of_nat 80) I eq_refl) as [_ Hok].
  destruct (Hok eq_refl) as [[_ Herr] Hev].
  split; [apply Herr; reflexivity | exact Hev].
Defined.

(** C4 as stated fails for a method selection that does not arrive
    complete in one read of 256 bytes.  A selection of 257 bytes (255
    methods, all 0x00) can never be read whole, and a selection
    [05 01 00] can arrive as [05] followed by [01 00]: both offer 0x00,
    and the server closes the connection without a reply. *)
Lemma split_selection_counterexample :
  let s := mkServer (fun _ _ => None) None in
  let long := map ascii_of_nat ([5; 255]%nat ++ repeat 0%nat 255) in
  In (ascii_of_nat 0) (skipn 2 long) /\
  Socks5.HandleConnection IPv4_String s
    (mkConn [Ok (firstn 256 long); Ok (skipn 256 long)] [] [])
  = (Some (str "authentication failed: invalid authentication request"),
     mkConn [Ok (skipn 256 long)] [] [Close]) /\
  Socks5.HandleConnection IPv4_String s
    (mkConn [Ok (map ascii_of_nat [5]%nat); Ok (map ascii_of_nat [1; 0]%nat)] [] [])
  = (Some (str "authentication failed: invalid SOCKS5 version"),
     mkConn [Ok (map ascii_of_nat [1; 0]%nat)] [] [Close]).
Proof.
  intros s long. split; [left; reflexivity|]. split; vm_compute; reflexivity.
Qed.

(** Scenario S3: only the password method is offered. *)
Example socks5_reject :
  Socks5.HandleConnection IPv4_String (mkServer (fun _ _ => None) None)
    (mkConn [Ok (map ascii_of_nat [5; 1; 2]%nat)] [] []) =
  (Some (str "authentication failed: no acceptable authentication method"),
   mkConn [] [] [Write (map ascii_of_nat [5; 255]%nat); Close]).
Proof. reflexivity. Qed.

End Socks5Facts.

(* ================================================================== *)
(** * The tunnel service *)

Module EngineFacts.
Import GoStringsFacts Engine.

(** ** The repository *)

Lemma GetByID_In (r : TunnelRepository.t) (id : N) (x : Tunnel.t) :
  TunnelRepository.GetByID r id = Ok x ->
  Tunnel.ID x = id /\ In x (TunnelRepository.GetAll r).
Proof.
  unfold TunnelRepository.GetByID.
  destruct (find _ _) as [y|] eqn:E; intros H; [|discriminate H].
  injection H as ->. apply find_some in E as [Hin Hid].
  apply N.eqb_eq in Hid. split; assumption.
Qed.

(** ** Calls that leave the registry alone *)

Lemma active_checkPortAvailability w tunnel s :
  activeTunnels (snd (checkPortAvailability w tunnel s)) = activeTunnels s.
Proof. unfold checkPortAvailability. destruct (net_Listen w _); reflexivity. Qed.

Lemma active_CreateTunnel w tunnel s :
  activeTunnels (snd (CreateTunnel w tunnel s)) = activeTunnels s.
Proof.
  unfold CreateTunnel. destruct (validateTunnelConfig tunnel) as [t|e]; [|reflexivity].
  pose proof (active_checkPortAvailability w t s) as H.
  destruct (checkPortAvailability w t s) as [[e|] s1]; cbn [snd] in *; [exact H|].
  destruct (TunnelRepository.Create _ _) as [r repo]. exact H.
Qed.

Lemma active_create_each w hostID services s :
  activeTunnels (snd (create_each w hostID services s)) = activeTunnels s.
Proof.
  revert s; induction services as [|svc rest IH]; intros s; cbn [create_each];
    [reflexivity|].
  match goal with |- context [CreateTunnel w ?t s] =>
    pose proof (active_CreateTunnel w t s) as H;
    destruct (CreateTunnel w t s) as [[t'|e] s1] end; cbn [snd] in H;
    specialize (IH s1);
    destruct (create_each w hostID rest s1) as [[created errors] s2];
    cbn [snd] in *; congruence.
Qed.

Lemma active_CreateMultipleLocalForwards w hostID services s :
  activeTunnels (snd (CreateMultipleLocalForwards w hostID services s))
  = activeTunnels s.
Proof.
  unfold CreateMultipleLocalForwards.
  pose proof (active_create_each w hostID services s) as H.
  destruct (create_each w hostID services s) as [[created errors] s1].
  destruct (0 <? length errors)%nat; exact H.
Qed.

Lemma active_CreateDynamicSOCKS5Tunnel w hostID name description autoStart s :
  activeTunnels (snd (CreateDynamicSOCKS5Tunnel w hostID name description autoStart s))
  = activeTunnels s.
Proof.
  unfold CreateDynamicSOCKS5Tunnel.
  destruct (find_socks_port w) as [port|e]; [|reflexivity].
  match goal with |- context [CreateTunnel w ?t s] =>
    pose proof (active_CreateTunnel w t s) as H;
    destruct (CreateTunnel w t s) as [[t'|e] s1] end; exact H.
Qed.

(** ** The start routines store no listener

    The entry of the tunnel is not in the registry yet when they run. *)

Lemma save_listener_absent id l s :
  activeTunnels s !! id = None -> save_listener id l s = s.
Proof. unfold save_listener. intros ->. reflexivity. Qed.

Lemma start_forward_absent w tunnel c s r s' :
  activeTunnels s !! Tunnel.ID tunnel = None ->
  start_forward w tunnel c s = Some (r, s') ->
  activeTunnels s' = activeTunnels s /\ tunnelRepo s' = tunnelRepo s /\
  (forall e, In e (effects_of s s') -> is_listener_close e = false).
Proof.
  intros Habs. unfold start_forward, startLocalForward, startRemoteForward,
    startDynamicForward.
  assert (Hnone : forall e, In e (effects_of s s) -> is_listener_close e = false).
  { unfold effects_of. rewrite skipn_all. intros e []. }
  assert (Hgo : forall l e,
             In e (effects_of s (do_effect (EGoAccept (Tunnel.ID tunnel) l) s)) ->
             is_listener_close e = false).
  { intros l e. unfold effects_of, do_effect. cbn [effects].
    rewrite skipn_length_app. intros [<-|[]]. reflexivity. }
  destruct (bytes_eqb (Tunnel.Type_ tunnel) TunnelTypeLocalForward);
    [|destruct (bytes_eqb (Tunnel.Type_ tunnel) TunnelTypeRemoteForward);
      [|destruct (bytes_eqb (Tunnel.Type_ tunnel) TunnelTypeDynamic);
        [|discriminate]]].
  all: match goal with
       | |- context [match ?listen with Ok _ => _ | Err _ => _ end] =>
           destruct listen as [l|e]
       end;
    try rewrite (save_listener_absent _ _ _ Habs);
    intros H; injection H as <- <-; repeat split; auto; apply Hgo.
Qed.

(** ** The registry invariant *)

Lemma StartTunnel_registry w id s :
  registry_ok s -> registry_ok (snd (StartTunnel w id s)).
Proof.
  intros Hs. unfold StartTunnel.
  destruct (TunnelRepository.GetByID (tunnelRepo s) id) as [tunnel|e] eqn:Eget;
    [|exact Hs].
  apply GetByID_In in Eget as [Hid _].
  destruct (activeTunnels s !! id) eqn:Eact; [exact Hs|].
  destruct (hostService_GetHost w _) as [host|e]; [|exact Hs].
  destruct (createSSHConnection w host) as [c|e]; [|exact Hs].
  destruct (start_forward w tunnel c s) as [[r s1]|] eqn:Estart; [|exact Hs].
  rewrite <- Hid in Eact.
  destruct (start_forward_absent w tunnel c s r s1 Eact Estart) as (Ha & _ & _).
  destruct r as [e|]; unfold registry_ok; cbn [snd activeTunnels UpdateStatus
    addConnectionLog do_effect set_repo set_active]; rewrite Ha; [exact Hs|].
  apply map_Forall_insert_2; [|exact Hs].
  split; [reflexivity | eexists; reflexivity].
Qed.

Lemma StopTunnel_registry id s :
  registry_ok s -> registry_ok (snd (StopTunnel id s)).
Proof.
  intros Hs. unfold StopTunnel.
  destruct (activeTunnels s !! id) as [a|]; [|exact Hs].
  unfold registry_ok.
  destruct (listener a), (sshClient a); cbn; apply map_Forall_delete, Hs.
Qed.

Lemma registry_set_repo s repo : registry_ok s -> registry_ok (set_repo s repo).
Proof. trivial. Qed.

Lemma registry_do_effect s e : registry_ok s -> registry_ok (do_effect e s).
Proof. trivial. Qed.

Lemma UpdateTunnel_registry w tunnel s :
  registry_ok s -> registry_ok (snd (UpdateTunnel w tunnel s)).
Proof.
  intros Hs. unfold UpdateTunnel.
  destruct (validateTunnelConfig tunnel) as [t|e]; [|exact Hs].
  destruct (activeTunnels s !! Tunnel.ID t).
  - pose proof (StopTunnel_registry (Tunnel.ID t) s Hs) as H1.
    destruct (StopTunnel (Tunnel.ID t) s) as [[e|] s1]; cbn [snd] in *; [exact H1|].
    destruct (TunnelRepository.Update _ _) as [[e|] repo]; cbn [snd]; [exact H1|].
    apply StartTunnel_registry. exact H1.
  - destruct (TunnelRepository.Update _ _) as [e repo]. exact Hs.
Qed.

Lemma start_each_registry w ids s :
  registry_ok s -> registry_ok (start_each w ids s).
Proof.
  revert s; induction ids as [|id ids IH]; intros s Hs; cbn [start_each];
    [exact Hs|]. apply IH, StartTunnel_registry, Hs.
Qed.

Lemma stop_each_registry ids s :
  registry_ok s -> registry_ok (stop_each ids s).
Proof.
  revert s; induction ids as [|id ids IH]; intros s Hs; cbn [stop_each];
    [exact Hs|]. apply IH, StopTunnel_registry, Hs.
Qed.

Lemma run_registry w c s : registry_ok s -> registry_ok (run w c s).
Proof.
  intros Hs. destruct c; cbn [run].
  - unfold registry_ok. rewrite active_CreateTunnel. exact Hs.
  - unfold registry_ok. rewrite active_CreateMultipleLocalForwards. exact Hs.
  - unfold registry_ok. rewrite active_CreateDynamicSOCKS5Tunnel. exact Hs.
  - apply UpdateTunnel_registry, Hs.
  - unfold DeleteTunnel. pose proof (StopTunnel_registry id s Hs) as H.
    destruct (StopTunnel id s) as [e s1]. exact H.
  - apply StartTunnel_registry, Hs.
  - apply StopTunnel_registry, Hs.
  - unfold RestartTunnel. pose proof (StopTunnel_registry id s Hs) as H.
    destruct (StopTunnel id s) as [[e|] s1]; cbn [snd] in H.
    + destruct (bytes_eqb e _); [|exact H].
      apply StartTunnel_registry. exact H.
    + apply StartTunnel_registry. exact H.
  - apply start_each_registry, Hs.
  - apply stop_each_registry, Hs.
Qed.

Lemma reachable_registry s : reachable s -> registry_ok s.
Proof.
  induction 1 as [repo | w c s _ IH].
  - apply map_Forall_empty.
  - apply run_registry, IH.
Qed.

(** ** The registry when calls overlap *)

Lemma no_new_listener_refl s : Overlap.no_new_listener s s.
Proof. intros id a H. right. exact H. Qed.

Lemma no_new_listener_trans s1 s2 s3 :
  Overlap.no_new_listener s1 s2 -> Overlap.no_new_listener s2 s3 ->
  Overlap.no_new_listener s1 s3.
Proof.
  intros H12 H23 id a H. destruct (H23 id a H) as [Hn|H2]; [left; exact Hn|].
  apply (H12 id a H2).
Qed.

Lemma no_new_listener_same s s' :
  activeTunnels s' = activeTunnels s -> Overlap.no_new_listener s s'.
Proof. intros E id a H. right. rewrite <- E. exact H. Qed.

Lemma StartTunnel_no_new_listener w id s :
  Overlap.no_new_listener s (snd (StartTunnel w id s)).
Proof.
  unfold StartTunnel.
  destruct (TunnelRepository.GetByID (tunnelRepo s) id) as [tunnel|e] eqn:Eget;
    [|apply no_new_listener_refl].
  apply GetByID_In in Eget as [Hid _].
  destruct (activeTunnels s !! id) eqn:Eact; [apply no_new_listener_refl|].
  destruct (hostService_GetHost w _) as [host|e]; [|apply no_new_listener_refl].
  destruct (createSSHConnection w host) as [c|e];
    [|apply no_new_listener_same; reflexivity].
  destruct (start_forward w tunnel c s) as [[r s1]|] eqn:Estart;
    [|apply no_new_listener_same; reflexivity].
  rewrite <- Hid in Eact.
  destruct (start_forward_absent w tunnel c s r s1 Eact Estart) as (Ha & _ & _).
  destruct r as [e|]; [apply no_new_listener_same; exact Ha|].
  intros j a. cbn [snd activeTunnels UpdateStatus addConnectionLog do_effect
                   set_repo set_active]. rewrite Ha.
  destruct (N.eq_dec id j) as [->|Hne].
  - rewrite lookup_insert_eq. intros [= <-]. left. reflexivity.
  - rewrite lookup_insert_ne by exact Hne. intros H. right. exact H.
Qed.

Lemma StopTunnel_no_new_listener id s :
  Overlap.no_new_listener s (snd (StopTunnel id s)).
Proof.
  unfold StopTunnel.
  destruct (activeTunnels s !! id) as [a|]; [|apply no_new_listener_refl].
  intros j b.
  destruct (listener a), (sshClient a);
    cbn [snd activeTunnels UpdateStatus addConnectionLog do_effect set_repo
         set_active];
    intros H; right; apply lookup_delete_Some in H; tauto.
Qed.

Lemma UpdateTunnel_no_new_listener w tunnel s :
  Overlap.no_new_listener s (snd (UpdateTunnel w tunnel s)).
Proof.
  unfold UpdateTunnel.
  destruct (validateTunnelConfig tunnel) as [t|e]; [|apply no_new_listener_refl].
  destruct (activeTunnels s !! Tunnel.ID t).
  - pose proof (StopTunnel_no_new_listener (Tunnel.ID t) s) as H1.
    destruct (StopTunnel (Tunnel.ID t) s) as [[e|] s1]; cbn [snd] in *; [exact H1|].
    destruct (TunnelRepository.Update _ _) as [[e|] repo]; cbn [snd]; [exact H1|].
    eapply no_new_listener_trans; [exact H1|].
    apply (StartTunnel_no_new_listener w (Tunnel.ID t) (set_repo s1 repo)).
  - destruct (TunnelRepository.Update _ _) as [e repo].
    apply no_new_listener_same. reflexivity.
Qed.

Lemma start_each_no_new_listener w ids :
  forall s, Overlap.no_new_listener s (start_each w ids s).
Proof.
  induction ids as [|id ids IH]; intros s; cbn [start_each];
    [apply no_new_listener_refl|].
  eapply no_new_listener_trans; [apply (StartTunnel_no_new_listener w id s) | apply IH].
Qed.

Lemma stop_each_no_new_listener ids :
  forall s, Overlap.no_new_listener s (stop_each ids s).
Proof.
  induction ids as [|id ids IH]; intros s; cbn [stop_each];
    [apply no_new_listener_refl|].
  eapply no_new_listener_trans; [apply (StopTunnel_no_new_listener id s) | apply IH].
Qed.

(** A whole call registers handles without a listener only. *)
Lemma run_no_new_listener w c s : Overlap.no_new_listener s (run w c s).
Proof.
  destruct c; cbn [run].
  - apply no_new_listener_same, active_CreateTunnel.
  - apply no_new_listener_same, active_CreateMultipleLocalForwards.
  - apply no_new_listener_same, active_CreateDynamicSOCKS5Tunnel.
  - apply UpdateTunnel_no_new_listener.
  - unfold DeleteTunnel. pose proof (StopTunnel_no_new_listener id s) as H.
    destruct (StopTunnel id s) as [e s1]. exact H.
  - apply StartTunnel_no_new_listener.
  - apply StopTunnel_no_new_listener.
  - unfold RestartTunnel. pose proof (StopTunnel_no_new_listener id s) as H.
    destruct (StopTunnel id s) as [[e|] s1]; cbn [snd] in H.
    + destruct (bytes_eqb e _); [|exact H].
      eapply no_new_listener_trans; [exact H|].
      apply (StartTunnel_no_new_listener w id (do_effect (ESleep 1000) s1)).
    + eapply no_new_listener_trans; [exact H|].
      apply (StartTunnel_no_new_listener w id (do_effect (ESleep 1000) s1)).
  - apply start_each_no_new_listener.
  - apply stop_each_no_new_listener.
Qed.

Lemma start_forward_failed w tunnel c s e s' :
  start_forward w tunnel c s = Some (Some e, s') -> s' = s.
Proof.
  unfold start_forward, startLocalForward, startRemoteForward, startDynamicForward.
  destruct (bytes_eqb (Tunnel.Type_ tunnel) TunnelTypeLocalForward);
    [|destruct (bytes_eqb (Tunnel.Type_ tunnel) TunnelTypeRemoteForward);
      [|destruct (bytes_eqb (Tunnel.Type_ tunnel) TunnelTypeDynamic);
        [|discriminate]]].
  all: match goal with
       | |- context [match ?listen with Ok _ => _ | Err _ => _ end] =>
           destruct listen as [l|e']
       end;
    intros H; first [discriminate H | injection H as _ <-; reflexivity].
Qed.

(** The start routine of a call writes to the handle of its own
    tunnel only. *)
Lemma start_forward_registry w tunnel c s r s' :
  start_forward w tunnel c s = Some (r, s') ->
  forall id a, activeTunnels s' !! id = Some a ->
               id = Tunnel.ID tunnel \/ activeTunnels s !! id = Some a.
Proof.
  assert (Hsave : forall l id a,
            activeTunnels (do_effect (EGoAccept (Tunnel.ID tunnel) l)
                             (save_listener (Tunnel.ID tunnel) l s)) !! id = Some a ->
            id = Tunnel.ID tunnel \/ activeTunnels s !! id = Some a).
  { intros l id a. unfold save_listener, do_effect.
    destruct (activeTunnels s !! Tunnel.ID tunnel) as [b|]; cbn [activeTunnels set_active].
    - destruct (N.eq_dec (Tunnel.ID tunnel) id) as [->|Hne]; [left; reflexivity|].
      rewrite lookup_insert_ne by exact Hne. intros H. right. exact H.
    - intros H. right. exact H. }
  unfold start_forward, startLocalForward, startRemoteForward, startDynamicForward.
  destruct (bytes_eqb (Tunnel.Type_ tunnel) TunnelTypeLocalForward);
    [|destruct (bytes_eqb (Tunnel.Type_ tunnel) TunnelTypeRemoteForward);
      [|destruct (bytes_eqb (Tunnel.Type_ tunnel) TunnelTypeDynamic);
        [|discriminate]]].
  all: match goal with
       | |- context [match ?listen with Ok _ => _ | Err _ => _ end] =>
           destruct listen as [l|e]
       end;
    intros H; injection H as <- <-; intros id a Ha;
    first [apply (Hsave l id a Ha) | right; exact Ha].
Qed.

(** ** The calls that are under way *)

Lemma registering_other (m : Overlap.machine) (s : tunnelService) (i : nat)
      (id id' : N) (p p' : Overlap.start_point) :
  Overlap.starting m !! i = Some (id, p) ->
  (id <> id' \/ forall t c, p <> Overlap.AtRegister t c) ->
  Overlap.registering m id' ->
  Overlap.registering
    (Overlap.mkMachine s (<[i := (id, p')]> (Overlap.starting m))) id'.
Proof.
  intros Hi Hne (j & t & c & Hj). exists j, t, c. cbn [Overlap.starting].
  destruct (Nat.eq_dec i j) as [->|Hij].
  - rewrite Hi in Hj. injection Hj as -> ->.
    destruct Hne as [Hne|Hne]; [contradiction | exfalso; exact (Hne t c eq_refl)].
  - rewrite list_lookup_insert_ne by exact Hij. exact Hj.
Qed.

Lemma starts_ok_insert (m : Overlap.machine) (s : tunnelService) (i : nat)
      (id : N) (p p' : Overlap.start_point) :
  Overlap.starting m !! i = Some (id, p) ->
  (forall t, Overlap.point_tunnel p' = Some t -> Tunnel.ID t = id) ->
  Overlap.starts_ok m ->
  Overlap.starts_ok (Overlap.mkMachine s (<[i := (id, p')]> (Overlap.starting m))).
Proof.
  intros Hi Hp Hm j id' q t. cbn [Overlap.starting].
  destruct (Nat.eq_dec i j) as [->|Hij].
  - rewrite list_lookup_insert_eq by (apply lookup_lt_Some in Hi; exact Hi).
    intros [= <- <-]. apply Hp.
  - rewrite list_lookup_insert_ne by exact Hij. apply Hm.
Qed.

(** One call goes to its next point. *)
Lemma advance_ok (w : World) (i : nat) (m : Overlap.machine) :
  Overlap.starts_ok m -> Overlap.listeners_ok m ->
  Overlap.starts_ok (Overlap.do_move (Overlap.Advance w i) m) /\
  Overlap.listeners_ok (Overlap.do_move (Overlap.Advance w i) m).
Proof.
  intros Hs Hl. cbn [Overlap.do_move].
  destruct (Overlap.starting m !! i) as [[id p]|] eqn:Hi; [|split; assumption].
  assert (Hkeep : forall s' p',
            activeTunnels s' = activeTunnels (Overlap.service m) ->
            (forall t c, p <> Overlap.AtRegister t c) ->
            Overlap.listeners_ok
              (Overlap.mkMachine s' (<[i := (id, p')]> (Overlap.starting m)))).
  { intros s' p' Ha Hp j a. cbn [Overlap.service]. rewrite Ha. intros Hj Hn.
    apply (registering_other m s' i id j p p' Hi); [right; exact Hp|].
    apply (Hl j a Hj Hn). }
  assert (Hid : forall t, Overlap.point_tunnel p = Some t -> Tunnel.ID t = id).
  { intros t. apply (Hs i id p t Hi). }
  destruct p as [|t|t|t c|t c|t|err]; cbn [Overlap.start_step].
  - (* the row is read *)
    destruct (TunnelRepository.GetByID _ id) as [t|e] eqn:Eget.
    + apply GetByID_In in Eget as [Et _]. split.
      * apply (starts_ok_insert m _ i id _ _ Hi); [|exact Hs].
        intros t' [= <-]. exact Et.
      * apply Hkeep; [reflexivity | discriminate].
    + split.
      * apply (starts_ok_insert m _ i id _ _ Hi); [discriminate | exact Hs].
      * apply Hkeep; [reflexivity | discriminate].
  - (* the handle is looked up *)
    destruct (activeTunnels (Overlap.service m) !! id); split;
      first [ apply (starts_ok_insert m _ i id _ _ Hi);
              [first [discriminate | intros t' [= <-]; apply Hid; reflexivity]
              | exact Hs]
            | apply Hkeep; [reflexivity | discriminate] ].
  - (* the connection *)
    destruct (hostService_GetHost w _) as [host|e];
      [destruct (createSSHConnection w host) as [c|e]|]; split;
      first [ apply (starts_ok_insert m _ i id _ _ Hi);
              [first [discriminate | intros t' [= <-]; apply Hid; reflexivity]
              | exact Hs]
            | apply Hkeep; [reflexivity | discriminate] ].
  - (* the start routine *)
    destruct (start_forward w t c (Overlap.service m)) as [[[e|] s1]|] eqn:Estart.
    + pose proof (start_forward_failed w t c _ _ _ Estart) as ->. split.
      * apply (starts_ok_insert m _ i id _ _ Hi); [discriminate | exact Hs].
      * apply Hkeep; [reflexivity | discriminate].
    + split.
      * apply (starts_ok_insert m _ i id _ _ Hi); [|exact Hs].
        intros t' [= <-]. apply Hid. reflexivity.
      * intros j a. cbn [Overlap.service]. intros Hj Hn.
        destruct (start_forward_registry w t c _ _ _ Estart j a Hj) as [->|Hold].
        -- rewrite (Hid t eq_refl). exists i, t, c. cbn [Overlap.starting].
           apply list_lookup_insert_eq. apply lookup_lt_Some in Hi. exact Hi.
        -- apply (registering_other m s1 i id j _ _ Hi); [right; discriminate|].
           apply (Hl j a Hold Hn).
    + split.
      * apply (starts_ok_insert m _ i id _ _ Hi); [discriminate | exact Hs].
      * apply Hkeep; [reflexivity | discriminate].
  - (* the handle is written *)
    split.
    + apply (starts_ok_insert m _ i id _ _ Hi); [|exact Hs].
      intros t' [= <-]. apply Hid. reflexivity.
    + intros j a. cbn [Overlap.service activeTunnels set_active].
      destruct (N.eq_dec id j) as [->|Hne].
      * rewrite lookup_insert_eq. intros [= <-] Hn. exfalso. apply Hn. reflexivity.
      * rewrite lookup_insert_ne by exact Hne. intros Hj Hn.
        apply (registering_other m _ i id j _ _ Hi); [left; exact Hne|].
        apply (Hl j a Hj Hn).
  - (* the status and the log *)
    split.
    + apply (starts_ok_insert m _ i id _ _ Hi); [discriminate | exact Hs].
    + apply Hkeep; [reflexivity | discriminate].
  - split.
    + apply (starts_ok_insert m _ i id _ _ Hi); [discriminate | exact Hs].
    + apply Hkeep; [reflexivity | discriminate].
Qed.

Lemma move_ok (mv : Overlap.move) (m : Overlap.machine) :
  Overlap.starts_ok m -> Overlap.listeners_ok m ->
  Overlap.starts_ok (Overlap.do_move mv m) /\
  Overlap.listeners_ok (Overlap.do_move mv m).
Proof.
  intros Hs Hl. destruct mv as [w c | id | w i | repo].
  - split; [exact Hs|]. intros id a. cbn [Overlap.do_move Overlap.service].
    intros Ha Hn.
    destruct (run_no_new_listener w c (Overlap.service m) id a Ha) as [E|Hold];
      [contradiction|].
    destruct (Hl id a Hold Hn) as (j & t & c' & Hj). exists j, t, c'. exact Hj.
  - cbn [Overlap.do_move]. split.
    + intros j id' p t. cbn [Overlap.starting]. intros Hj Hp.
      apply lookup_app_Some in Hj as [Hj|[_ Hj]]; [apply (Hs j id' p t Hj Hp)|].
      apply list_lookup_singleton_Some in Hj as [_ [= <- <-]]. discriminate Hp.
    + intros id' a. cbn [Overlap.service]. intros Ha Hn.
      destruct (Hl id' a Ha Hn) as (j & t & c & Hj). exists j, t, c.
      cbn [Overlap.starting]. apply lookup_app_l_Some. exact Hj.
  - apply advance_ok; assumption.
  - split; [exact Hs|]. intros id a. cbn [Overlap.do_move Overlap.service].
    intros Ha Hn. destruct (Hl id a Ha Hn) as (j & t & c & Hj).
    exists j, t, c. exact Hj.
Qed.

Lemma reachable_overlap_ok (m : Overlap.machine) :
  Overlap.reachable m -> Overlap.starts_ok m /\ Overlap.listeners_ok m.
Proof.
  induction 1 as [repo | mv m _ [Hs Hl]].
  - split.
    + intros i id p t H. discriminate H.
    + intros id a H. cbn in H. rewrite lookup_empty in H. discriminate H.
  - apply move_ok; assumption.
Qed.

Lemma reachable_play (moves : list Overlap.move) :
  forall m, Overlap.reachable m -> Overlap.reachable (Overlap.play moves m).
Proof.
  unfold Overlap.play. induction moves as [|mv moves IH]; intros m Hm; [exact Hm|].
  cbn [fold_left]. apply IH, Overlap.reachable_move, Hm.
Qed.

(** The steps of a call, with nothing between them, are
    [StartTunnel]. *)
Lemma start_steps_StartTunnel (w : World) (id : N) (s : tunnelService) :
  Overlap.start_steps w id 6 Overlap.AtRead s
  = (Overlap.Returned (fst (StartTunnel w id s)), snd (StartTunnel w id s)).
Proof.
  unfold StartTunnel. cbn [Overlap.start_steps Overlap.start_step].
  destruct (TunnelRepository.GetByID (tunnelRepo s) id) as [tunnel|e];
    cbn [Overlap.start_steps Overlap.start_step]; [|reflexivity].
  destruct (activeTunnels s !! id);
    cbn [Overlap.start_steps Overlap.start_step]; [reflexivity|].
  destruct (hostService_GetHost w _) as [host|e];
    cbn [Overlap.start_steps Overlap.start_step]; [|reflexivity].
  destruct (createSSHConnection w host) as [c|e];
    cbn [Overlap.start_steps Overlap.start_step]; [|reflexivity].
  destruct (start_forward w tunnel c s) as [[[e|] s1]|];
    cbn [Overlap.start_steps Overlap.start_step]; reflexivity.
Qed.

(** The states of calls taken one at a time are among those of
    overlapping calls. *)
Lemma reachable_overlap (s : tunnelService) :
  reachable s -> Overlap.reachable (Overlap.mkMachine s []).
Proof.
  induction 1 as [repo | w c s _ IH]; [constructor|].
  apply (Overlap.reachable_move (Overlap.Whole w c) _ IH).
Qed.

(** C10, as the code has it.  When the calls of the service are taken
    one at a time, every handle of the registry has a nil listener in
    every state: the start routines find no entry to write the
    listener to, and [StartTunnel] registers the handle without one.
    When calls overlap, a handle holds a listener only while another
    call of [StartTunnel] for the same tunnel stands between its start
    routine, which has found the handle and written the listener to
    it, and the write of its own handle. *)
Theorem registry_listener_nil :
  (forall s, reachable s ->
     forall id a, activeTunnels s !! id = Some a -> listener a = None) /\
  (forall m, Overlap.reachable m ->
     forall id a, activeTunnels (Overlap.service m) !! id = Some a ->
                  listener a <> None -> Overlap.registering m id).
Proof.
  split.
  - intros s Hs id a Ha. apply reachable_registry in Hs. apply (Hs id a Ha).
  - intros m Hm. apply (reachable_overlap_ok m Hm).
Qed.

Lemma example_running_reachable : reachable example_running.
Proof.
  apply (reachable_run example_world (CallStartTunnel 1)), reachable_new.
Qed.

Lemma registry_listener_nil_witness :
  exists a, activeTunnels example_running !! 1%N = Some a /\ listener a = None.
Proof.
  eexists. split.
  - vm_compute. reflexivity.
  - apply (proj1 registry_listener_nil example_running example_running_reachable 1%N).
    vm_compute. reflexivity.
Defined.

(** C10 as stated fails when calls overlap.  A call of
    [StartTunnel(1)] reads the tunnel, on the port 9000, and finds no
    handle; [UpdateTunnel] moves the tunnel to the port 9002 and
    another [StartTunnel(1)] starts it there; the first call then binds
    the port 9000, finds the handle of the other call and writes its
    listener to it. *)
Lemma overlapping_starts_counterexample :
  let m := Overlap.play Overlap.stale_start (Overlap.mkMachine example_service []) in
  Overlap.reachable m /\
  exists a,
    activeTunnels (Overlap.service m) !! 1%N = Some a /\
    Tunnel.LocalPort (tunnel a) = 9002%Z /\
    listener a = Some (LocalListener (str "127.0.0.1:9000")).
Proof.
  intros m. split.
  - apply reachable_play. constructor.
  - eexists. split; [vm_compute; reflexivity|]. split; reflexivity.
Qed.


(** ** Stopping a tunnel *)

Lemma StopTunnel_not_running id s :
  activeTunnels s !! id = None ->
  StopTunnel id s = (Some (str "tunnel is not running"), s).
Proof. unfold StopTunnel. intros ->. reflexivity. Qed.

(** What [StopTunnel] does to a registered handle, in order. *)
Lemma StopTunnel_running id s a :
  activeTunnels s !! id = Some a ->
  exists s',
    StopTunnel id s = (None, s') /\
    effects s' = effects s ++ stop_effects id a /\
    activeTunnels s' = delete id (activeTunnels s) /\
    tunnelRepo s' =
      TunnelRepository.AddConnectionLog
        (TunnelRepository.UpdateStatus (tunnelRepo s) id TunnelStatusInactive)
        (ConnectionLog.mk id LogEventStop (str "Tunnel stopped and port released")).
Proof.
  unfold StopTunnel, stop_effects. intros ->. eexists. split; [reflexivity|].
  destruct (listener a), (sshClient a);
    cbn [effects activeTunnels tunnelRepo UpdateStatus addConnectionLog do_effect
         set_repo set_active app];
    repeat split; rewrite <- ?app_assoc; reflexivity.
Qed.

(** C1, on the code.  A tunnel with no handle cannot be stopped.  For a
    running tunnel of a reachable state [StopTunnel] succeeds, removes
    the handle and has these effects, in this order: cancel the
    context, close the SSH client, sleep 200 ms, set the status to
    inactive, log a [stop] event.  It closes no listener: the handle
    holds none. *)
Theorem StopTunnel_closes_no_listener (s : tunnelService) (id : N) :
  reachable s ->
  (activeTunnels s !! id = None ->
   StopTunnel id s = (Some (str "tunnel is not running"), s)) /\
  (is_Some (activeTunnels s !! id) ->
   exists c s',
     StopTunnel id s = (None, s') /\
     activeTunnels s' !! id = None /\
     effects_of s s' =
       [ECancel id; ESSHClose c; ESleep 200;
        EUpdateStatus id TunnelStatusInactive;
        EAddConnectionLog id LogEventStop (str "Tunnel stopped and port released")] /\
     forallb (fun e => negb (is_listener_close e)) (effects_of s s') = true).
Proof.
  intros Hs. split; [apply StopTunnel_not_running|].
  intros [a Ha].
  destruct (reachable_registry s Hs id a Ha) as [Hl [c Hc]].
  destruct (StopTunnel_running id s a Ha) as (s' & Hstop & Heff & Hact & _).
  exists c, s'. split; [exact Hstop|].
  split; [rewrite Hact; apply lookup_delete_eq|].
  unfold effects_of. rewrite Heff, skipn_length_app.
  unfold stop_effects. rewrite Hl, Hc. split; reflexivity.
Qed.

Lemma StopTunnel_closes_no_listener_witness :
  exists c s',
    StopTunnel 1 example_running = (None, s') /\
    activeTunnels s' !! 1%N = None /\
    effects_of example_running s' =
      [ECancel 1; ESSHClose c; ESleep 200;
       EUpdateStatus 1 TunnelStatusInactive;
       EAddConnectionLog 1 LogEventStop (str "Tunnel stopped and port released")] /\
    forallb (fun e => negb (is_listener_close e)) (effects_of example_running s') = true.
Proof.
  apply (StopTunnel_closes_no_listener example_running 1 example_running_reachable).
  vm_compute. eexists. reflexivity.
Defined.

(** The listener bound by [StartTunnel(1)] is handed to the accept
    loop only. *)
Example example_running_effects :
  effects example_running =
  [EGoAccept 1 (LocalListener (str "127.0.0.1:9000"));
   EUpdateStatus 1 TunnelStatusActive;
   EAddConnectionLog 1 LogEventStart (str "Tunnel started successfully")].
Proof. reflexivity. Qed.


(** ** Starting a tunnel *)

Lemma find_map_same {A} (p : A -> bool) (f : A -> A) (l : list A) :
  (forall y, p (f y) = p y) ->
  find p (map f l) = option_map f (find p l).
Proof.
  intros Hp. induction l as [|y l IH]; simpl; [reflexivity|].
  rewrite Hp. destruct (p y); [reflexivity | exact IH].
Qed.

Lemma filter_map_same {A} (p : A -> bool) (f : A -> A) (l : list A) :
  (forall y, p (f y) = p y) ->
  List.filter p (map f l) = map f (List.filter p l).
Proof.
  intros Hp. induction l as [|y l IH]; simpl; [reflexivity|].
  rewrite Hp. destruct (p y); simpl; congruence.
Qed.

Lemma GetByID_UpdateStatus (r : TunnelRepository.t) (id : N) (status : bytes)
      (x : Tunnel.t) :
  TunnelRepository.GetByID r id = Ok x ->
  TunnelRepository.GetByID (TunnelRepository.UpdateStatus r id status) id
  = Ok (Tunnel.set_Status x status).
Proof.
  unfold TunnelRepository.GetByID, TunnelRepository.GetAll,
    TunnelRepository.UpdateStatus. cbn [TunnelRepository.tunnels].
  set (f := fun y => if (Tunnel.ID y =? id)%N && TunnelRepository.live y
                     then Tunnel.set_Status y status else y).
  assert (Hlive : forall y, TunnelRepository.live (f y) = TunnelRepository.live y).
  { intros y. unfold f. destruct (_ && _); reflexivity. }
  assert (Hid : forall y, (Tunnel.ID (f y) =? id)%N = (Tunnel.ID y =? id)%N).
  { intros y. unfold f. destruct (_ && _); reflexivity. }
  rewrite (filter_map_same _ f _ Hlive), (find_map_same _ f _ Hid).
  destruct (find _ _) as [y|] eqn:E; intros H; [|discriminate H].
  injection H as ->. apply find_some in E as [Hin Hy].
  apply filter_In in Hin as [_ Hl]. cbn [option_map]. unfold f.
  rewrite Hy, Hl. reflexivity.
Qed.

Lemma persisted_status_set (s : tunnelService) (id : N) (status : bytes) (x : Tunnel.t) :
  TunnelRepository.GetByID (tunnelRepo s) id = Ok x ->
  persisted_status (UpdateStatus id status s) id = Some status.
Proof.
  intros H. unfold persisted_status, UpdateStatus. cbn [tunnelRepo do_effect set_repo].
  rewrite (GetByID_UpdateStatus _ _ _ _ H). reflexivity.
Qed.

Lemma persisted_status_log (s : tunnelService) (id id' : N) (e m : bytes) :
  persisted_status (addConnectionLog id' e m s) id = persisted_status s id.
Proof. reflexivity. Qed.

Lemma GetByID_log (s : tunnelService) (id id' : N) (e m : bytes) :
  TunnelRepository.GetByID (tunnelRepo (addConnectionLog id' e m s)) id
  = TunnelRepository.GetByID (tunnelRepo s) id.
Proof. reflexivity. Qed.

Lemma logged_add (s : tunnelService) (id : N) (e m : bytes) :
  logged (addConnectionLog id e m s) id e.
Proof.
  exists m. unfold addConnectionLog. cbn. apply in_or_app. right. left. reflexivity.
Qed.

Lemma logged_UpdateStatus (s : tunnelService) (id id' : N) (st e : bytes) :
  logged s id e -> logged (UpdateStatus id' st s) id e.
Proof. trivial. Qed.



(** A start that fails on the host lookup leaves the status alone. *)
Example StartTunnel_orphan :
  exists e s',
    StartTunnel example_world 1 example_orphan = (Some e, s') /\
    persisted_status s' 1 = Some TunnelStatusInactive /\
    TunnelRepository.connection_logs (tunnelRepo s') = [].
Proof. eexists. eexists. repeat split. Qed.


(** ** Looking for a free port *)








(** ** Creating a tunnel *)

Lemma validateTunnelConfig_Ok (t t1 : Tunnel.t) :
  validateTunnelConfig t = Ok t1 ->
  Tunnel.Name t <> [] /\ Tunnel.HostID t <> 0%N /\ Tunnel.LocalPort t <> 0%Z /\
  (t1 = t \/ t1 = Tunnel.set_RemoteAddress t (str "0.0.0.0")).
Proof.
  unfold validateTunnelConfig.
  destruct (Tunnel.Name t) as [|c nm] eqn:En; [discriminate|].
  destruct (N.eqb_spec (Tunnel.HostID t) 0); [discriminate|].
  destruct (Z.eqb_spec (Tunnel.LocalPort t) 0); [discriminate|].
  intros H.
  assert (Hgoal : t1 = t \/ t1 = Tunnel.set_RemoteAddress t (str "0.0.0.0")).
  { destruct (bytes_eqb (Tunnel.Type_ t) TunnelTypeLocalForward).
    - destruct (Tunnel.RemoteAddress t); [discriminate|].
      destruct (Tunnel.RemotePort t =? 0)%Z; [discriminate|].
      injection H as <-. left. reflexivity.
    - destruct (bytes_eqb (Tunnel.Type_ t) TunnelTypeRemoteForward).
      + destruct (Tunnel.RemoteAddress t) eqn:Er.
        * destruct (Tunnel.RemotePort _ =? 0)%Z; [discriminate|].
          injection H as <-. right. reflexivity.
        * destruct (Tunnel.RemotePort t =? 0)%Z; [discriminate|].
          injection H as <-. left. reflexivity.
      + destruct (bytes_eqb (Tunnel.Type_ t) TunnelTypeDynamic); [|discriminate].
        injection H as <-. left. reflexivity. }
  repeat split; try assumption. discriminate.
Qed.

Lemma check_conflicts_None (t : Tunnel.t) (l : list Tunnel.t) :
  check_conflicts t l = None ->
  forall e, In e l -> Tunnel.ID e <> Tunnel.ID t ->
    ~ same_local e t /\
    (Tunnel.Type_ e = TunnelTypeRemoteForward ->
     Tunnel.Type_ t = TunnelTypeRemoteForward -> ~ same_remote e t).
Proof.
  induction l as [|x l IH]; cbn [check_conflicts]; [intros _ e []|].
  destruct (N.eqb_spec (Tunnel.ID x) (Tunnel.ID t)) as [Hid|Hid].
  - intros H e [<-|He] Hne; [contradiction | apply IH; assumption].
  - destruct (_ && _) eqn:E1; [discriminate|].
    destruct (_ && _ && _ && _ && _) eqn:E2 in |- *; [discriminate|].
    intros H e [<-|He] Hne; [|apply IH; assumption].
    split.
    + intros [Ha Hp]. rewrite Ha, Hp, Z.eqb_refl, bytes_eqb_refl in E1.
      discriminate E1.
    + intros Te Tt (Hh & Hra & Hrp).
      rewrite Te, Tt, Hh, Hra, Hrp, !bytes_eqb_refl, N.eqb_refl, Z.eqb_refl in E2.
      discriminate E2.
Qed.


Lemma Create_cases (r : TunnelRepository.t) (x : Tunnel.t) :
  match TunnelRepository.Create r x with
  | (Ok t', r') =>
      created_row r x t' /\
      r' = TunnelRepository.mk (TunnelRepository.tunnels r ++ [t'])
                               (TunnelRepository.connection_logs r)
  | (Err _, r') => r' = r
  end.
Proof.
  unfold TunnelRepository.Create, created_row. cbv zeta.
  destruct (N.eqb_spec (Tunnel.ID (TunnelRepository.with_defaults x)) 0) as [E|E].
  - split; [left; split; [exact E | reflexivity] | reflexivity].
  - destruct (TunnelRepository.has_row r _) eqn:Eh; [reflexivity|].
    split; [right; repeat split; assumption | reflexivity].
Qed.

Lemma CreateTunnel_cases w t s :
  match CreateTunnel w t s with
  | (Ok t', s') =>
      exists t1,
        validateTunnelConfig t = Ok t1 /\
        free w (Tunnel.LocalAddress t1) (Tunnel.LocalPort t1) = true /\
        check_conflicts t1 (TunnelRepository.GetAll (tunnelRepo s)) = None /\
        created_row (tunnelRepo s) (Tunnel.set_Status t1 TunnelStatusInactive) t' /\
        tunnelRepo s' =
          TunnelRepository.mk (TunnelRepository.tunnels (tunnelRepo s) ++ [t'])
                              (TunnelRepository.connection_logs (tunnelRepo s))
  | (Err _, s') => tunnelRepo s' = tunnelRepo s
  end.
Proof.
  unfold CreateTunnel.
  destruct (validateTunnelConfig t) as [t1|e]; [|reflexivity].
  unfold checkPortAvailability.
  destruct (net_Listen w _) as [l|e] eqn:El; [|reflexivity].
  cbn [do_effect tunnelRepo].
  destruct (check_conflicts t1 _) eqn:Ec; [reflexivity|].
  pose proof (Create_cases (tunnelRepo s) (Tunnel.set_Status t1 TunnelStatusInactive)) as H.
  cbn [tunnelRepo] in *.
  destruct (TunnelRepository.Create _ _) as [[t'|e] repo]; cbn [tunnelRepo set_repo].
  - destruct H as [Hrow ->]. exists t1. repeat split; try assumption.
    unfold free. rewrite El. reflexivity.
  - exact H.
Qed.


Lemma with_defaults_id (y : Tunnel.t) :
  Tunnel.LocalAddress y <> [] -> Tunnel.Status y <> [] ->
  TunnelRepository.with_defaults y = y.
Proof.
  unfold TunnelRepository.with_defaults.
  destruct (Tunnel.LocalAddress y); [contradiction|].
  destruct (Tunnel.Status y); [contradiction|]. reflexivity.
Qed.

Lemma next_id_fresh (r : TunnelRepository.t) (y : Tunnel.t) :
  In y (TunnelRepository.tunnels r) ->
  (Tunnel.ID y < TunnelRepository.next_id r)%N.
Proof.
  unfold TunnelRepository.next_id.
  induction (TunnelRepository.tunnels r) as [|x l IH]; [intros []|].
  cbn [map fold_right]. intros [->|H]; [lia|]. specialize (IH H). lia.
Qed.

Lemma has_row_false (r : TunnelRepository.t) (id : N) (y : Tunnel.t) :
  TunnelRepository.has_row r id = false ->
  In y (TunnelRepository.tunnels r) -> Tunnel.ID y <> id.
Proof.
  unfold TunnelRepository.has_row. intros H Hy E.
  assert (Hex : existsb (fun x => (Tunnel.ID x =? id)%N) (TunnelRepository.tunnels r) = true).
  { apply existsb_exists. exists y. split; [exact Hy | apply N.eqb_eq, E]. }
  congruence.
Qed.

Lemma GetAll_In (r : TunnelRepository.t) (y : Tunnel.t) :
  In y (TunnelRepository.GetAll r) -> In y (TunnelRepository.tunnels r).
Proof. unfold TunnelRepository.GetAll. intros H. apply filter_In in H. tauto. Qed.

Lemma GetAll_snoc (rows : list Tunnel.t) logs (t' y : Tunnel.t) :
  In y (TunnelRepository.GetAll (TunnelRepository.mk (rows ++ [t']) logs)) ->
  In y (TunnelRepository.GetAll (TunnelRepository.mk rows logs)) \/ y = t'.
Proof.
  unfold TunnelRepository.GetAll. cbn [TunnelRepository.tunnels].
  rewrite List.filter_app. intros H. apply in_app_or in H as [H|H]; [left; exact H|].
  apply filter_In in H as [[<-|[]] _]. right. reflexivity.
Qed.

Lemma same_local_sym a b : same_local a b -> same_local b a.
Proof. intros [H1 H2]. split; congruence. Qed.

Lemma same_remote_sym a b : same_remote a b -> same_remote b a.
Proof. intros (H1 & H2 & H3). repeat split; congruence. Qed.

(** A created row is new, and it keeps the ports of the tunnel. *)
Lemma created_row_fresh (r : TunnelRepository.t) (t1 t' : Tunnel.t) :
  keys_unique r ->
  Tunnel.LocalAddress t1 <> [] ->
  created_row r (Tunnel.set_Status t1 TunnelStatusInactive) t' ->
  (forall y, In y (TunnelRepository.tunnels r) ->
             Tunnel.ID y <> Tunnel.ID t' /\ Tunnel.ID y <> Tunnel.ID t1) /\
  Tunnel.ID t' <> 0%N /\
  Tunnel.LocalAddress t' = Tunnel.LocalAddress t1 /\
  Tunnel.LocalPort t' = Tunnel.LocalPort t1 /\
  Tunnel.Type_ t' = Tunnel.Type_ t1 /\
  Tunnel.HostID t' = Tunnel.HostID t1 /\
  Tunnel.RemoteAddress t' = Tunnel.RemoteAddress t1 /\
  Tunnel.RemotePort t' = Tunnel.RemotePort t1 /\
  Tunnel.DeletedAt t' = Tunnel.DeletedAt t1.
Proof.
  intros [Hnd Hz] Ha. unfold created_row. cbv zeta.
  rewrite with_defaults_id by (destruct t1; cbn in *; first [exact Ha | discriminate]).
  intros [[E ->] | (E & Hrow & ->)]; destruct t1; cbn in *;
    (split; [|repeat split; try reflexivity]).
  - intros y Hy. split.
    + apply next_id_fresh in Hy. lia.
    + subst. intros E. apply Hz. rewrite <- E. apply in_map. exact Hy.
  - unfold TunnelRepository.next_id. lia.
  - intros y Hy. pose proof (has_row_false _ _ _ Hrow Hy). split; assumption.
  - exact E.
Qed.

Lemma CreateTunnel_preserves w t s :
  Tunnel.LocalAddress t <> [] ->
  table_ok (tunnelRepo s) ->
  table_ok (tunnelRepo (snd (CreateTunnel w t s))).
Proof.
  intros Ha [Hk Hp]. pose proof (CreateTunnel_cases w t s) as H.
  destruct (CreateTunnel w t s) as [[t'|e] s']; cbn [snd];
    [|rewrite H; split; assumption].
  destruct H as (t1 & Hv & _ & Hc & Hrow & ->).
  assert (Ha1 : Tunnel.LocalAddress t1 <> []).
  { apply validateTunnelConfig_Ok in Hv as (_ & _ & _ & [->| ->]); exact Ha. }
  destruct (created_row_fresh _ _ _ Hk Ha1 Hrow)
    as (Hfresh & Hnz & Ela & Elp & Ety & Eh & Era & Erp & _).
  destruct (tunnelRepo s) as [rows logs]. cbn [TunnelRepository.tunnels] in *.
  assert (Hnew : forall e, In e (TunnelRepository.GetAll (TunnelRepository.mk rows logs)) ->
             ~ same_local e t' /\
             (Tunnel.Type_ e = TunnelTypeRemoteForward ->
              Tunnel.Type_ t' = TunnelTypeRemoteForward -> ~ same_remote e t')).
  { intros e He.
    destruct (check_conflicts_None _ _ Hc e He) as [Hl Hr].
    { apply (Hfresh e). apply (GetAll_In (TunnelRepository.mk rows logs)), He. }
    split.
    - intros [H1 H2]. apply Hl. split; congruence.
    - intros Te Tt (H1 & H2 & H3). apply Hr; [exact Te | congruence |].
      repeat split; congruence. }
  split.
  - destruct Hk as [Hnd Hz]. split; cbn [TunnelRepository.tunnels];
      rewrite List.map_app; cbn [map].
    + apply List.NoDup_app; [exact Hnd | repeat constructor; intros [] |].
      intros id Hid [<-|[]]. apply in_map_iff in Hid as (y & Ey & Hy).
      apply (proj1 (Hfresh y Hy)). exact Ey.
    + intros Hin. apply in_app_or in Hin as [Hin|[Hin|[]]]; [exact (Hz Hin)|].
      exact (Hnz Hin).
  - intros a b Hina Hinb Hne.
    apply GetAll_snoc in Hina as [Hina | ->], Hinb as [Hinb | ->].
    + apply Hp; assumption.
    + apply Hnew, Hina.
    + destruct (Hnew b Hinb) as [Hl Hr]. split.
      * intros H. apply Hl, same_local_sym, H.
      * intros Ta Tb H. apply (Hr Tb Ta), same_remote_sym, H.
    + contradiction.
Qed.

Lemma create_each_preserves w hostID services s :
  Forall (fun svc => svc_LocalAddress svc <> []) services ->
  table_ok (tunnelRepo s) ->
  table_ok (tunnelRepo (snd (create_each w hostID services s))).
Proof.
  intros Hall. revert s. induction Hall as [|svc rest Hsvc _ IH]; intros s Hs;
    cbn [create_each]; [exact Hs|].
  match goal with |- context [CreateTunnel w ?t s] =>
    pose proof (CreateTunnel_preserves w t s Hsvc Hs) as H;
    destruct (CreateTunnel w t s) as [[t'|e] s1] end; cbn [snd] in H;
    specialize (IH s1 H);
    destruct (create_each w hostID rest s1) as [[created errors] s2];
    exact IH.
Qed.

(** The three creating calls keep the table well-formed, when the local
    address is given. *)
Lemma creating_calls_preserve w s :
  table_ok (tunnelRepo s) ->
  (forall t, Tunnel.LocalAddress t <> [] ->
     table_ok (tunnelRepo (snd (CreateTunnel w t s)))) /\
  (forall hostID services,
     Forall (fun svc => svc_LocalAddress svc <> []) services ->
     table_ok (tunnelRepo (snd (CreateMultipleLocalForwards w hostID services s)))) /\
  (forall hostID name description autoStart,
     table_ok (tunnelRepo
                 (snd (CreateDynamicSOCKS5Tunnel w hostID name description autoStart s)))).
Proof.
  intros Hs. split; [|split].
  - intros t Ht. apply CreateTunnel_preserves; assumption.
  - intros hostID services Hall. unfold CreateMultipleLocalForwards.
    pose proof (create_each_preserves w hostID services s Hall Hs) as H.
    destruct (create_each w hostID services s) as [[created errors] s1].
    destruct (0 <? length errors)%nat; exact H.
  - intros hostID name description autoStart. unfold CreateDynamicSOCKS5Tunnel.
    destruct (find_socks_port w) as [port|e]; [|exact Hs].
    match goal with |- context [CreateTunnel w ?t s] =>
      assert (Ha : Tunnel.LocalAddress t <> []) by discriminate;
      pose proof (CreateTunnel_preserves w t s Ha Hs) as H;
      destruct (CreateTunnel w t s) as [[t'|e] s1] end; exact H.
Qed.

Lemma example_service_ok : table_ok (tunnelRepo example_service).
Proof.
  split; [split|].
  - cbn. repeat constructor; cbn; intuition discriminate.
  - cbn. intuition discriminate.
  - intros a b Ha Hb Hne. cbn in Ha, Hb.
    destruct Ha as [<-|[<-|[]]], Hb as [<-|[<-|[]]];
      try (exfalso; apply Hne; reflexivity);
      (split; [intros [_ H]; discriminate H | intros H; discriminate H]).
Qed.

(** C5, on the code: [UpdateTunnel] persists without the check that
    [CreateTunnel] makes.  The table of [example_service] is
    well-formed; moving tunnel 2 to the port of tunnel 1 is accepted and
    leaves two live tunnels on 127.0.0.1:9000. *)
Theorem UpdateTunnel_breaks_port_uniqueness :
  table_ok (tunnelRepo example_service) /\
  exists s',
    UpdateTunnel example_world (example_forward 2 9000) example_service = (None, s') /\
    TunnelRepository.GetAll (tunnelRepo s')
    = [example_forward 1 9000; example_forward 2 9000] /\
    ~ ports_unique (tunnelRepo s').
Proof.
  split; [apply example_service_ok|].
  eexists. split; [reflexivity|]. split; [reflexivity|].
  intros H.
  destruct (H (example_forward 1 9000) (example_forward 2 9000)) as [Hl _].
  - left. reflexivity.
  - right. left. reflexivity.
  - discriminate.
  - apply Hl. split; reflexivity.
Qed.

(** A blank local address passes the check of [CreateTunnel] next to a
    tunnel on 127.0.0.1, and the row is then stored with the column
    default 127.0.0.1. *)
Example CreateTunnel_blank_address :
  exists t s',
    CreateTunnel example_world
      (Tunnel.mk 0 1 (str "web") TunnelTypeLocalForward [] 9000
                 (str "10.0.0.5") 80 [] [] false false)
      example_service = (Ok t, s') /\
    Tunnel.LocalAddress t = str "127.0.0.1" /\
    ~ ports_unique (tunnelRepo s').
Proof.
  eexists. eexists. split; [reflexivity|]. split; [reflexivity|].
  intros H.
  match type of H with ports_unique ?r =>
    destruct (H (nth 0 (TunnelRepository.GetAll r) (example_forward 0 0))
                (nth 2 (TunnelRepository.GetAll r) (example_forward 0 0)))
      as [Hl _]
  end.
  - left. reflexivity.
  - right. right. left. reflexivity.
  - discriminate.
  - apply Hl. split; reflexivity.
Qed.

(** [CreateTunnel] refuses the same move. *)
Example CreateTunnel_refuses_clash :
  exists e,
    fst (CreateTunnel example_world (example_forward 0 9000) example_service) = Err e.
Proof. eexists. reflexivity. Qed.


(** ** Creating a dynamic tunnel *)











End EngineFacts.

(* ================================================================== *)
(** * The host service: creating, updating, deleting and testing hosts *)

Module HostServiceOpsFacts.
Import GoStringsFacts Base64 Base64Facts CFB CFBFacts HostService HostServiceFacts.
Import HostServiceOps.

Lemma find_snoc {A} (f : A -> bool) (l : list A) (x : A) :
  find f l = None -> find f (l ++ [x]) = if f x then Some x else None.
Proof.
  induction l as [|y l IH]; [reflexivity|]. simpl.
  destruct (f y); [discriminate | exact IH].
Qed.

Lemma existsb_find_none {A} (f : A -> bool) (l : list A) :
  existsb f l = false <-> find f l = None.
Proof.
  induction l as [|y l IH]; [split; reflexivity|]. simpl.
  destruct (f y); simpl; [split; discriminate | exact IH].
Qed.

Lemma GetByID_snoc (r : HostRepository.t) (h : Host.t) :
  HostRepository.has_id r (Host.ID h) = false ->
  HostRepository.GetByID (r ++ [h]) (Host.ID h) = Ok h.
Proof.
  intros H. unfold HostRepository.GetByID.
  rewrite find_snoc by (apply existsb_find_none; exact H).
  rewrite N.eqb_refl. reflexivity.
Qed.

Lemma GetByName_name_taken (r : HostRepository.t) (name : bytes) (id : N) (e : list ascii) :
  HostRepository.GetByName r name = Err e ->
  HostRepository.name_taken r name id = false.
Proof.
  unfold HostRepository.GetByName, HostRepository.name_taken.
  destruct (find _ r) eqn:E; [discriminate|]. intros _.
  apply existsb_find_none in E.
  induction r as [|h r IH]; [reflexivity|].
  simpl in *. apply orb_false_iff in E. destruct E as [E1 E2].
  rewrite E1, (IH E2). reflexivity.
Qed.

Section WithAES.
Variable aes_Encrypt : bytes -> bytes -> bytes.

Abbreviation encrypt := (HostService.encrypt aes_Encrypt).
Abbreviation decrypt := (HostService.decrypt aes_Encrypt).
Abbreviation encrypt_field := (HostService.encrypt_field aes_Encrypt).
Abbreviation decrypt_field := (HostService.decrypt_field aes_Encrypt).
Abbreviation EncryptSensitiveData := (HostService.EncryptSensitiveData aes_Encrypt).
Abbreviation DecryptSensitiveData := (HostService.DecryptSensitiveData aes_Encrypt).
Abbreviation GetHost := (HostService.GetHost aes_Encrypt).
Abbreviation CreateHost := (HostServiceOps.CreateHost aes_Encrypt).
Abbreviation UpdateHost := (HostServiceOps.UpdateHost aes_Encrypt).

(** A service whose key has 32 bytes is one [NewHostService] makes. *)
Lemma service_eta (s : hostService) :
  length (encryptKey s) = 32%nat ->
  HostService.NewHostService (hostRepo s) (encryptKey s) = s.
Proof.
  destruct s as [r k]. cbn [hostRepo encryptKey]. intros H.
  unfold HostService.NewHostService. rewrite H. reflexivity.
Qed.

(** The cipher uses the key of the service only. *)
Lemma encrypt_key (s s' : hostService) (iv p : bytes) :
  encryptKey s = encryptKey s' -> encrypt s iv p = encrypt s' iv p.
Proof. intros H. unfold HostService.encrypt. rewrite H. reflexivity. Qed.

Lemma decrypt_key (s s' : hostService) (c : bytes) :
  encryptKey s = encryptKey s' -> decrypt s c = decrypt s' c.
Proof. intros H. unfold HostService.decrypt. rewrite H. reflexivity. Qed.

Lemma decrypt_field_key (s s' : hostService) (what c : bytes) :
  encryptKey s = encryptKey s' -> decrypt_field s what c = decrypt_field s' what c.
Proof.
  intros H. unfold HostService.decrypt_field.
  destruct c; [reflexivity|]. rewrite (decrypt_key s s' _ H). reflexivity.
Qed.

Lemma decrypt_sensitive_key (s s' : hostService) (host : Host.t) :
  encryptKey s = encryptKey s' ->
  DecryptSensitiveData s host = DecryptSensitiveData s' host.
Proof.
  intros H. unfold HostService.DecryptSensitiveData.
  rewrite (decrypt_field_key s s' _ _ H).
  destruct (decrypt_field s' (str "password") (Host.Password host)); [|reflexivity].
  rewrite (decrypt_field_key s s' _ _ H).
  destruct (decrypt_field s' (str "private key") _); [|reflexivity].
  rewrite (decrypt_field_key s s' _ _ H). reflexivity.
Qed.

Lemma encrypt_decrypt_key (s s' : hostService) (iv p : bytes) :
  length (encryptKey s) = 32%nat -> encryptKey s' = encryptKey s ->
  length iv = 16%nat ->
  exists c, encrypt s iv p = Ok c /\ c <> [] /\ decrypt s' c = Ok p.
Proof.
  intros Hk Hs Hiv.
  destruct (encrypt_then_decrypt aes_Encrypt (hostRepo s) (encryptKey s) p iv Hiv)
    as (c & He & Hne & Hd).
  rewrite (service_eta s Hk) in He, Hd.
  exists c. split; [exact He|]. split; [exact Hne|].
  rewrite (decrypt_key s' s c Hs). exact Hd.
Qed.

Lemma field_roundtrip_key (s s' : hostService) (what iv value : bytes) :
  length (encryptKey s) = 32%nat -> encryptKey s' = encryptKey s ->
  length iv = 16%nat ->
  exists c, encrypt_field s iv value = Ok c /\
            decrypt_field s' what c = Ok value /\
            (value = [] <-> c = []).
Proof.
  intros Hk Hs Hiv. unfold HostService.encrypt_field, HostService.decrypt_field.
  destruct value as [|v0 value].
  { exists []. repeat split; reflexivity. }
  destruct (encrypt_decrypt_key s s' iv (v0 :: value) Hk Hs Hiv)
    as (c & He & Hne & Hd).
  exists c. split; [exact He|].
  destruct c as [|c0 c]; [contradiction|]. rewrite Hd.
  repeat split; discriminate.
Qed.

Ltac host_fields :=
  cbn [Host.ID Host.Name Host.Hostname Host.Port Host.Username Host.AuthType
       Host.Password Host.PrivateKey Host.KeyPath Host.Passphrase Host.Status
       Host.set_Password Host.set_PrivateKey Host.set_Passphrase
       Host.set_Status Host.set_ID Host.set_Port] in *.

(** [EncryptSensitiveData] under a 32-byte key never fails, and
    [DecryptSensitiveData] under the same key undoes it, whatever
    the other fields are set to in between. *)
Lemma secrets_roundtrip_key (s s' : hostService) (iv1 iv2 iv3 : bytes)
      (id : N) (nm hn : bytes) (pt : Z) (us au pw pk kp pp st : bytes) :
  length (encryptKey s) = 32%nat -> encryptKey s' = encryptKey s ->
  length iv1 = 16%nat -> length iv2 = 16%nat -> length iv3 = 16%nat ->
  exists c1 c2 c3,
    EncryptSensitiveData s iv1 iv2 iv3 (Host.mk id nm hn pt us au pw pk kp pp st)
    = (Host.mk id nm hn pt us au c1 c2 kp c3 st, None) /\
    (pw = [] <-> c1 = []) /\ (pk = [] <-> c2 = []) /\ (pp = [] <-> c3 = []) /\
    (encrypt_field s iv1 pw = Ok c1 /\ encrypt_field s iv2 pk = Ok c2 /\
     encrypt_field s iv3 pp = Ok c3) /\
    forall id' pt' st',
      DecryptSensitiveData s' (Host.mk id' nm hn pt' us au c1 c2 kp c3 st')
      = (Host.mk id' nm hn pt' us au pw pk kp pp st', None).
Proof.
  intros Hk Hs H1 H2 H3.
  destruct (field_roundtrip_key s s' (str "password") iv1 pw Hk Hs H1)
    as (c1 & E1 & D1 & N1).
  destruct (field_roundtrip_key s s' (str "private key") iv2 pk Hk Hs H2)
    as (c2 & E2 & D2 & N2).
  destruct (field_roundtrip_key s s' (str "passphrase") iv3 pp Hk Hs H3)
    as (c3 & E3 & D3 & N3).
  exists c1, c2, c3.
  unfold HostService.EncryptSensitiveData, HostService.DecryptSensitiveData.
  host_fields. rewrite E1. host_fields. rewrite E2. host_fields. rewrite E3.
  split; [reflexivity|]. split; [exact N1|]. split; [exact N2|].
  split; [exact N3|]. split; [repeat split; assumption|]. intros id' pt' st'.
  host_fields. rewrite D1. host_fields. rewrite D2. host_fields. rewrite D3.
  reflexivity.
Qed.

Lemma Create_fresh (r : HostRepository.t) (newID : N) (host : Host.t) :
  Host.ID host = 0%N ->
  HostRepository.name_taken r (Host.Name host) newID = false ->
  HostRepository.has_id r newID = false ->
  HostRepository.Create r newID (Host.set_Status host HostStatusInactive)
  = (Ok (row_of newID host), r ++ [row_of newID host]).
Proof.
  intros Hid Hname Hfresh. destruct host as [id nm hn pt us au pw pk kp pp st].
  host_fields. subst id.
  unfold HostRepository.Create, HostRepository.insert,
    HostRepository.with_defaults, row_of, Host.set_Status, Host.set_Port,
    Host.set_ID, HostStatusInactive, str.
  cbn [list_ascii_of_string Host.ID Host.Name Host.Hostname Host.Port
       Host.Username Host.AuthType Host.Password Host.PrivateKey
       Host.KeyPath Host.Passphrase Host.Status].
  destruct (Z.eqb pt 0);
    cbn [list_ascii_of_string Host.ID Host.Name Host.Hostname Host.Port
         Host.Username Host.AuthType Host.Password Host.PrivateKey
         Host.KeyPath Host.Passphrase Host.Status N.eqb];
    rewrite Hname, Hfresh; reflexivity.
Qed.

Lemma encrypt_field_filled (s : hostService) (iv value c : bytes) :
  encrypt_field s iv value = Ok c -> value <> [] -> encrypt s iv value = Ok c.
Proof.
  unfold HostService.encrypt_field. destruct value; [contradiction | trivial].
Qed.

(** X1. A host that [CreateHost] accepts is stored with its secrets
    encrypted -- each secret that is not empty is stored as what
    [encrypt] makes of it with the IV drawn for it, an empty one
    stays empty, and the other columns are those of the request
    with the new key, the status [inactive] and the default port --
    and [GetHost] gives the submitted secrets back. *)
Theorem CreateHost_then_GetHost (s : hostService) (iv1 iv2 iv3 : bytes)
        (newID : N) (host : Host.t) :
  length (encryptKey s) = 32%nat ->
  length iv1 = 16%nat -> length iv2 = 16%nat -> length iv3 = 16%nat ->
  HostRepository.has_id (hostRepo s) newID = false ->
  Host.ID host = 0%N ->
  HostRepository.GetByName (hostRepo s) (Host.Name host) = Err record_not_found ->
  validateAuthConfig host = None ->
  exists stored s',
    CreateHost s iv1 iv2 iv3 newID host = ((stored, None), s') /\
    hostRepo s' = hostRepo s ++ [stored] /\
    encryptKey s' = encryptKey s /\
    Host.ID stored = newID /\
    (Host.Password host = [] <-> Host.Password stored = []) /\
    (Host.PrivateKey host = [] <-> Host.PrivateKey stored = []) /\
    (Host.Passphrase host = [] <-> Host.Passphrase stored = []) /\
    (Host.Password host <> [] ->
     encrypt s iv1 (Host.Password host) = Ok (Host.Password stored)) /\
    (Host.PrivateKey host <> [] ->
     encrypt s iv2 (Host.PrivateKey host) = Ok (Host.PrivateKey stored)) /\
    (Host.Passphrase host <> [] ->
     encrypt s iv3 (Host.Passphrase host) = Ok (Host.Passphrase stored)) /\
    Host.set_Passphrase
      (Host.set_PrivateKey (Host.set_Password stored (Host.Password host))
                           (Host.PrivateKey host))
      (Host.Passphrase host) = row_of newID host /\
    GetHost s' newID = Ok (row_of newID host).
Proof.
  intros Hk H1 H2 H3 Hfresh Hid Hname Hvalid.
  destruct host as [id nm hn pt us au pw pk kp pp st]. host_fields. subst id.
  destruct (secrets_roundtrip_key s s iv1 iv2 iv3 0%N nm hn pt us au pw pk kp pp st
                                  Hk eq_refl H1 H2 H3)
    as (c1 & c2 & c3 & He & N1 & N2 & N3 & (F1 & F2 & F3) & Hd).
  unfold HostServiceOps.CreateHost. host_fields.
  rewrite Hname, Hvalid, He.
  rewrite Create_fresh;
    [|reflexivity | exact (GetByName_name_taken _ _ newID _ Hname) | exact Hfresh].
  eexists. eexists. split; [reflexivity|].
  cbn [hostRepo encryptKey set_repo]. unfold row_of. host_fields.
  split; [reflexivity|]. split; [reflexivity|]. split; [reflexivity|].
  split; [exact N1|]. split; [exact N2|]. split; [exact N3|].
  split; [apply encrypt_field_filled, F1|].
  split; [apply encrypt_field_filled, F2|].
  split; [apply encrypt_field_filled, F3|].
  split; [reflexivity|].
  unfold HostService.GetHost, set_repo. cbn [hostRepo encryptKey].
  lazymatch goal with
  | |- context [HostRepository.GetByID (_ ++ [?h]) newID] =>
      assert (Hg : HostRepository.GetByID (hostRepo s ++ [h]) newID = Ok h)
        by (apply (GetByID_snoc (hostRepo s) h); exact Hfresh)
  end.
  rewrite Hg.
  lazymatch goal with
  | |- context [DecryptSensitiveData ?s' _] =>
      rewrite (decrypt_sensitive_key s' s) by reflexivity
  end.
  rewrite Hd. reflexivity.
Qed.

Lemma set_repo_same (s : hostService) : set_repo s (hostRepo s) = s.
Proof. destruct s; reflexivity. Qed.

Lemma insert_Err (r r' : HostRepository.t) (newID : N) (host : Host.t) (e : list ascii) :
  HostRepository.insert r newID host = (Err e, r') -> r' = r.
Proof.
  unfold HostRepository.insert.
  destruct (HostRepository.name_taken _ _ _); [intros H; injection H; auto|].
  destruct (HostRepository.has_id _ _); [intros H; injection H; auto|].
  discriminate.
Qed.

(** X2. [CreateHost] refuses a name that is in use before it looks
    at anything else, and a refused call leaves the service as it
    was. *)
Theorem CreateHost_all_or_nothing (s : hostService) (iv1 iv2 iv3 : bytes)
        (newID : N) (host : Host.t) :
  (is_Ok (HostRepository.GetByName (hostRepo s) (Host.Name host)) = true ->
   CreateHost s iv1 iv2 iv3 newID host
   = ((host, Some (str "host name already exists")), s)) /\
  (snd (fst (CreateHost s iv1 iv2 iv3 newID host)) <> None ->
   snd (CreateHost s iv1 iv2 iv3 newID host) = s).
Proof.
  unfold HostServiceOps.CreateHost. split.
  - destruct (HostRepository.GetByName _ _); [reflexivity | discriminate].
  - destruct (HostRepository.GetByName _ _) as [h0|e0]; [reflexivity|].
    destruct (validateAuthConfig host); [reflexivity|].
    destruct (EncryptSensitiveData s iv1 iv2 iv3 host) as [host' [e1|]];
      [reflexivity|].
    unfold HostRepository.Create.
    destruct (HostRepository.insert _ _ _) as [[h|e] r] eqn:E; cbn [fst snd].
    + intros H. contradiction.
    + intros _. apply insert_Err in E. subst r. apply set_repo_same.
Qed.

Lemma DecryptSensitiveData_others (s : hostService) (host : Host.t) :
  let host' := fst (DecryptSensitiveData s host) in
  Host.ID host' = Host.ID host /\ Host.Name host' = Host.Name host /\
  Host.Hostname host' = Host.Hostname host /\ Host.Port host' = Host.Port host /\
  Host.Username host' = Host.Username host /\
  Host.AuthType host' = Host.AuthType host /\
  Host.KeyPath host' = Host.KeyPath host /\ Host.Status host' = Host.Status host /\
  (Host.PrivateKey host = [] -> Host.PrivateKey host' = []).
Proof.
  destruct host as [id nm hn pt us au pw pk kp pp st].
  unfold HostService.DecryptSensitiveData. host_fields.
  destruct (decrypt_field s (str "password") pw) as [v1|e1];
    [|cbn; repeat split; auto].
  host_fields.
  destruct (decrypt_field s (str "private key") pk) as [v2|e2] eqn:E2;
    [|cbn; repeat split; auto].
  host_fields.
  assert (Hpk : pk = [] -> v2 = []).
  { intros ->. cbn in E2. injection E2 as <-. reflexivity. }
  destruct (decrypt_field s (str "passphrase") pp) as [v3|e3];
    cbn; repeat split; auto.
Qed.

(** X3. A host with key authentication that gives a key path and
    no key passes [validateAuthConfig], yet no connection to it is
    ever tried: [TestConnection] stops at
    [key file reading not implemented yet] and leaves the status
    alone, and the tunnel service, which decrypts the host once
    more, stops there or at [private key is required]. *)
Theorem key_path_only_never_connects (w : Engine.World) (sh : Shell)
        (s : hostService) (id : N) (host : Host.t) :
  HostRepository.GetByID (hostRepo s) id = Ok host ->
  snd (DecryptSensitiveData s host) = None ->
  Host.AuthType host = AuthTypeKey \/
  (Host.AuthType host = AuthTypeKeyPassword /\ Host.Passphrase host <> []) ->
  Host.PrivateKey host = [] -> Host.KeyPath host <> [] ->
  let host' := fst (DecryptSensitiveData s host) in
  validateAuthConfig host = None /\
  TestConnection aes_Encrypt w sh s id
  = ((Some (str "failed to create SSH config: key file reading not implemented yet"),
      s), []) /\
  GetHost s id = Ok host' /\
  Engine.createSSHConnection (world_of aes_Encrypt s w) host'
  = match snd (DecryptSensitiveData s host') with
    | None => Err (str "private key is required")
    | Some err => Err (str "failed to decrypt host data: " ++ err)
    end.
Proof.
  intros Hget Hdec Hauth Hpk Hkp host'.
  pose proof (DecryptSensitiveData_others s host) as Ho. cbv zeta in Ho.
  fold host' in Ho.
  destruct Ho as (_ & _ & _ & _ & _ & Hau & Hkp' & _ & Hpk').
  specialize (Hpk' Hpk).
  split; [|split; [|split]].
  - unfold validateAuthConfig. rewrite Hpk.
    destruct (Host.KeyPath host) as [|k kp]; [contradiction|].
    destruct Hauth as [-> | [-> Hpp]]; cbn.
    + reflexivity.
    + destruct (Host.Passphrase host); [contradiction | reflexivity].
  - unfold HostServiceOps.TestConnection. rewrite Hget. unfold host' in *.
    destruct (DecryptSensitiveData s host) as [h1 [e1|]] eqn:Ed;
      cbn [fst snd] in *; [discriminate|].
    unfold createSSHConfig. rewrite Hau, Hpk', Hkp'.
    destruct (Host.KeyPath host) as [|k kp]; [contradiction|].
    destruct Hauth as [-> | [-> Hpp]]; reflexivity.
  - unfold HostService.GetHost. rewrite Hget. unfold host'.
    destruct (DecryptSensitiveData s host) as [h1 [e1|]];
      cbn [fst snd] in *; [discriminate | reflexivity].
  - unfold Engine.createSSHConnection, world_of.
    cbn [Engine.hostService_DecryptSensitiveData].
    pose proof (DecryptSensitiveData_others s host') as Ho. cbv zeta in Ho.
    destruct Ho as (_ & _ & _ & _ & _ & Hau2 & _ & _ & Hpk2).
    specialize (Hpk2 Hpk').
    destruct (DecryptSensitiveData s host') as [h2 [e2|]] eqn:Ed2;
      cbn [fst snd] in *; [reflexivity|].
    unfold Engine.createSSHConfig. rewrite Hau2, Hau, Hpk2.
    destruct Hauth as [-> | [-> Hpp]]; reflexivity.
Qed.

Lemma GetByID_filter_out (r : HostRepository.t) (id id' : N) :
  HostRepository.GetByID
    (List.filter (fun h => negb (N.eqb (Host.ID h) id)) r) id'
  = if N.eqb id' id then Err record_not_found else HostRepository.GetByID r id'.
Proof.
  unfold HostRepository.GetByID.
  induction r as [|h r IH]; simpl.
  - destruct (N.eqb id' id); reflexivity.
  - destruct (N.eqb_spec (Host.ID h) id) as [E|E]; simpl.
    + rewrite IH. destruct (N.eqb_spec id' id) as [E'|E']; [reflexivity|].
      destruct (N.eqb_spec (Host.ID h) id') as [E2|E2]; [congruence|].
      reflexivity.
    + destruct (N.eqb_spec (Host.ID h) id') as [E2|E2].
      * destruct (N.eqb_spec id' id) as [E'|E']; [congruence | reflexivity].
      * exact IH.
Qed.

(** X4. [DeleteHost] refuses, and changes nothing, exactly while a
    tunnel that is not deleted names the host, whether that tunnel
    runs or not; otherwise the host is gone for good and the other
    hosts stay. *)
Theorem DeleteHost_guard (s : hostService) (tunnels : list Tunnel.t) (id : N) :
  ((exists x, In x tunnels /\ Tunnel.HostID x = id /\ Tunnel.DeletedAt x = false) ->
   DeleteHost s tunnels id
   = (Some (str "cannot delete host with active tunnels"), s)) /\
  ((forall x, In x tunnels -> Tunnel.HostID x = id -> Tunnel.DeletedAt x = true) ->
   fst (DeleteHost s tunnels id) = None /\
   encryptKey (snd (DeleteHost s tunnels id)) = encryptKey s /\
   GetHost (snd (DeleteHost s tunnels id)) id = Err record_not_found /\
   forall id', id' <> id ->
     HostRepository.GetByID (hostRepo (snd (DeleteHost s tunnels id))) id'
     = HostRepository.GetByID (hostRepo s) id').
Proof.
  unfold HostServiceOps.DeleteHost, HostRepository.Delete.
  set (f := fun x : Tunnel.t => N.eqb (Tunnel.HostID x) id && negb (Tunnel.DeletedAt x)).
  split.
  - intros (x & Hin & Hh & Hd).
    assert (Hx : In x (List.filter f tunnels)).
    { apply filter_In. split; [exact Hin|]. unfold f.
      rewrite Hh, Hd, N.eqb_refl. reflexivity. }
    destruct (List.filter f tunnels) as [|y l]; [destruct Hx|].
    cbn [length Nat.ltb Nat.leb]. rewrite set_repo_same. reflexivity.
  - intros Hnone.
    assert (Hf : List.filter f tunnels = []).
    { destruct (List.filter f tunnels) as [|y l] eqn:E; [reflexivity|].
      assert (Hy : In y (List.filter f tunnels)) by (rewrite E; left; reflexivity).
      apply filter_In in Hy. destruct Hy as [Hin Hy]. unfold f in Hy.
      apply andb_true_iff in Hy. destruct Hy as [Hh Hd].
      apply N.eqb_eq in Hh. rewrite (Hnone y Hin Hh) in Hd. discriminate. }
    rewrite Hf. cbn [length Nat.ltb Nat.leb fst snd].
    split; [reflexivity|]. split; [destruct s; reflexivity|].
    split.
    + unfold HostService.GetHost, set_repo. cbn [hostRepo].
      rewrite GetByID_filter_out, N.eqb_refl. reflexivity.
    + intros id' Hne. unfold set_repo. cbn [hostRepo].
      rewrite GetByID_filter_out.
      rewrite (proj2 (N.eqb_neq id' id) Hne). reflexivity.
Qed.

Lemma GetByID_replace (r : HostRepository.t) (x : Host.t) (id' : N) :
  HostRepository.GetByID
    (map (fun h => if N.eqb (Host.ID h) (Host.ID x) then x else h) r) id'
  = if N.eqb id' (Host.ID x)
    then (if HostRepository.has_id r (Host.ID x) then Ok x
          else Err record_not_found)
    else HostRepository.GetByID r id'.
Proof.
  unfold HostRepository.GetByID, HostRepository.has_id.
  induction r as [|h r IH]; simpl.
  - destruct (N.eqb id' (Host.ID x)); reflexivity.
  - destruct (N.eqb_spec (Host.ID h) (Host.ID x)) as [E|E]; simpl.
    + destruct (N.eqb_spec (Host.ID x) id') as [E1|E1].
      * destruct (N.eqb_spec id' (Host.ID x)); [reflexivity | congruence].
      * rewrite IH.
        destruct (N.eqb_spec id' (Host.ID x)) as [E2|E2]; [congruence|].
        destruct (N.eqb_spec (Host.ID h) id'); [congruence | reflexivity].
    + destruct (N.eqb_spec (Host.ID h) id') as [E1|E1].
      * destruct (N.eqb_spec id' (Host.ID x)); [congruence | reflexivity].
      * exact IH.
Qed.

(** X5. [UpdateHost] of a host that exists, under a name no other
    host has, writes every column of the request -- status and port
    included -- with the secrets encrypted anew: the row of the
    host is now the request, where each secret that is not empty
    is what [encrypt] makes of it with the IV drawn for it.
    [GetHost] then returns the request as it was submitted, and the
    other hosts are as before. *)
Theorem UpdateHost_then_GetHost (s : hostService) (iv1 iv2 iv3 : bytes)
        (newID : N) (host : Host.t) :
  length (encryptKey s) = 32%nat ->
  length iv1 = 16%nat -> length iv2 = 16%nat -> length iv3 = 16%nat ->
  Host.ID host <> 0%N ->
  HostRepository.has_id (hostRepo s) (Host.ID host) = true ->
  HostRepository.name_taken (hostRepo s) (Host.Name host) (Host.ID host) = false ->
  validateAuthConfig host = None ->
  exists stored s',
    UpdateHost s iv1 iv2 iv3 newID host = ((stored, None), s') /\
    encryptKey s' = encryptKey s /\
    length (hostRepo s') = length (hostRepo s) /\
    HostRepository.GetByID (hostRepo s') (Host.ID host) = Ok stored /\
    (Host.Password host = [] <-> Host.Password stored = []) /\
    (Host.PrivateKey host = [] <-> Host.PrivateKey stored = []) /\
    (Host.Passphrase host = [] <-> Host.Passphrase stored = []) /\
    (Host.Password host <> [] ->
     encrypt s iv1 (Host.Password host) = Ok (Host.Password stored)) /\
    (Host.PrivateKey host <> [] ->
     encrypt s iv2 (Host.PrivateKey host) = Ok (Host.PrivateKey stored)) /\
    (Host.Passphrase host <> [] ->
     encrypt s iv3 (Host.Passphrase host) = Ok (Host.Passphrase stored)) /\
    Host.set_Passphrase
      (Host.set_PrivateKey (Host.set_Password stored (Host.Password host))
                           (Host.PrivateKey host))
      (Host.Passphrase host) = host /\
    GetHost s' (Host.ID host) = Ok host /\
    forall id', id' <> Host.ID host ->
      HostRepository.GetByID (hostRepo s') id'
      = HostRepository.GetByID (hostRepo s) id'.
Proof.
  intros Hk H1 H2 H3 Hid Hhas Hname Hvalid.
  destruct host as [id nm hn pt us au pw pk kp pp st]. host_fields.
  destruct (secrets_roundtrip_key s s iv1 iv2 iv3 id nm hn pt us au pw pk kp pp st
                                  Hk eq_refl H1 H2 H3)
    as (c1 & c2 & c3 & He & N1 & N2 & N3 & (F1 & F2 & F3) & Hd).
  unfold HostServiceOps.UpdateHost. rewrite Hvalid, He.
  unfold HostRepository.Update. host_fields.
  rewrite (proj2 (N.eqb_neq id 0) Hid), Hhas, Hname. cbn [negb andb].
  eexists. eexists. split; [reflexivity|].
  unfold set_repo. cbn [hostRepo encryptKey].
  split; [reflexivity|]. split; [apply length_map|].
  set (stored := Host.mk id nm hn pt us au c1 c2 kp c3 st).
  split.
  { pose proof (GetByID_replace (hostRepo s) stored id) as Hg.
    cbn [Host.ID stored] in Hg. rewrite N.eqb_refl, Hhas in Hg. exact Hg. }
  unfold stored at 1 2 3 4 5 6 7. host_fields.
  split; [exact N1|]. split; [exact N2|]. split; [exact N3|].
  split; [apply encrypt_field_filled, F1|].
  split; [apply encrypt_field_filled, F2|].
  split; [apply encrypt_field_filled, F3|].
  split; [reflexivity|].
  split.
  - unfold HostService.GetHost. cbn [hostRepo].
    pose proof (GetByID_replace (hostRepo s) stored id) as Hg.
    cbn [Host.ID stored] in Hg. rewrite N.eqb_refl, Hhas in Hg. rewrite Hg.
    lazymatch goal with
    | |- context [DecryptSensitiveData ?s' _] =>
        rewrite (decrypt_sensitive_key s' s) by reflexivity
    end.
    unfold stored. rewrite Hd. reflexivity.
  - intros id' Hne.
    pose proof (GetByID_replace (hostRepo s) stored id') as Hg.
    cbn [Host.ID stored] in Hg.
    rewrite (proj2 (N.eqb_neq id' id) Hne) in Hg. exact Hg.
Qed.




End WithAES.

(** ** The theorems at work on a small store *)

Lemma CreateHost_then_GetHost_witness :
  exists stored s',
    HostServiceOps.CreateHost toy_block empty_service example_iv example_iv
                              example_iv 1 new_host = ((stored, None), s') /\
    hostRepo s' = hostRepo empty_service ++ [stored] /\
    encryptKey s' = encryptKey empty_service /\
    Host.ID stored = 1%N /\
    (Host.Password new_host = [] <-> Host.Password stored = []) /\
    (Host.PrivateKey new_host = [] <-> Host.PrivateKey stored = []) /\
    (Host.Passphrase new_host = [] <-> Host.Passphrase stored = []) /\
    (Host.Password new_host <> [] ->
     HostService.encrypt toy_block empty_service example_iv (Host.Password new_host)
     = Ok (Host.Password stored)) /\
    (Host.PrivateKey new_host <> [] ->
     HostService.encrypt toy_block empty_service example_iv (Host.PrivateKey new_host)
     = Ok (Host.PrivateKey stored)) /\
    (Host.Passphrase new_host <> [] ->
     HostService.encrypt toy_block empty_service example_iv (Host.Passphrase new_host)
     = Ok (Host.Passphrase stored)) /\
    Host.set_Passphrase
      (Host.set_PrivateKey (Host.set_Password stored (Host.Password new_host))
                           (Host.PrivateKey new_host))
      (Host.Passphrase new_host) = row_of 1 new_host /\
    HostService.GetHost toy_block s' 1 = Ok (row_of 1 new_host).
Proof.
  apply (CreateHost_then_GetHost toy_block empty_service example_iv example_iv
                                 example_iv 1 new_host); reflexivity.
Defined.

Lemma CreateHost_all_or_nothing_witness :
  HostServiceOps.CreateHost toy_block home_service example_iv example_iv
                            example_iv 2 new_host
  = ((new_host, Some (str "host name already exists")), home_service).
Proof.
  apply (proj1 (CreateHost_all_or_nothing toy_block home_service example_iv
                  example_iv example_iv 2 new_host)).
  reflexivity.
Defined.

Lemma key_path_only_never_connects_witness :
  let host := row_of 1 key_path_host in
  let host' := fst (HostService.DecryptSensitiveData toy_block vault_service host) in
  validateAuthConfig host = None /\
  TestConnection toy_block Engine.example_world example_shell vault_service 1
  = ((Some (str "failed to create SSH config: key file reading not implemented yet"),
      vault_service), []) /\
  HostService.GetHost toy_block vault_service 1 = Ok host' /\
  Engine.createSSHConnection
    (world_of toy_block vault_service Engine.example_world) host'
  = match snd (HostService.DecryptSensitiveData toy_block vault_service host') with
    | None => Err (str "private key is required")
    | Some err => Err (str "failed to decrypt host data: " ++ err)
    end.
Proof.
  apply (key_path_only_never_connects toy_block Engine.example_world example_shell
           vault_service 1 (row_of 1 key_path_host)).
  - reflexivity.
  - reflexivity.
  - left. reflexivity.
  - reflexivity.
  - discriminate.
Defined.

Lemma DeleteHost_guard_witness :
  DeleteHost home_service [Engine.example_forward 1 9000] 1
  = (Some (str "cannot delete host with active tunnels"), home_service).
Proof.
  apply (proj1 (DeleteHost_guard toy_block home_service
                  [Engine.example_forward 1 9000] 1)).
  exists (Engine.example_forward 1 9000).
  split; [left; reflexivity|]. split; reflexivity.
Defined.

Lemma UpdateHost_then_GetHost_witness :
  let host := Host.mk 1 (str "home") (str "example.net") 2222 (str "admin")
                      AuthTypePassword (str "hunter2") [] [] [] (str "active") in
  exists stored s',
    HostServiceOps.UpdateHost toy_block home_service example_iv example_iv
                              example_iv 2 host = ((stored, None), s') /\
    encryptKey s' = encryptKey home_service /\
    length (hostRepo s') = length (hostRepo home_service) /\
    HostRepository.GetByID (hostRepo s') (Host.ID host) = Ok stored /\
    (Host.Password host = [] <-> Host.Password stored = []) /\
    (Host.PrivateKey host = [] <-> Host.PrivateKey stored = []) /\
    (Host.Passphrase host = [] <-> Host.Passphrase stored = []) /\
    (Host.Password host <> [] ->
     HostService.encrypt toy_block home_service example_iv (Host.Password host)
     = Ok (Host.Password stored)) /\
    (Host.PrivateKey host <> [] ->
     HostService.encrypt toy_block home_service example_iv (Host.PrivateKey host)
     = Ok (Host.PrivateKey stored)) /\
    (Host.Passphrase host <> [] ->
     HostService.encrypt toy_block home_service example_iv (Host.Passphrase host)
     = Ok (Host.Passphrase stored)) /\
    Host.set_Passphrase
      (Host.set_PrivateKey (Host.set_Password stored (Host.Password host))
                           (Host.PrivateKey host))
      (Host.Passphrase host) = host /\
    HostService.GetHost toy_block s' (Host.ID host) = Ok host /\
    forall id', id' <> Host.ID host ->
      HostRepository.GetByID (hostRepo s') id'
      = HostRepository.GetByID (hostRepo home_service) id'.
Proof.
  apply (UpdateHost_then_GetHost toy_block home_service example_iv example_iv
           example_iv 2
           (Host.mk 1 (str "home") (str "example.net") 2222 (str "admin")
                    AuthTypePassword (str "hunter2") [] [] [] (str "active")));
    first [reflexivity | discriminate].
Defined.


End HostServiceOpsFacts.

(* ================================================================== *)
(** * The stored form of a secret *)

Module SecretStoreFacts.
Import GoStringsFacts Base64 Base64Facts CFB CFBFacts HostService HostServiceFacts.
Import HostServiceOps HostServiceOpsFacts.

Lemma XORKeyStream_length (src : bytes) :
  forall x, length (XORKeyStream x src) = length src.
Proof.
  induction src as [|c src IH]; intros x; [reflexivity|].
  cbn [XORKeyStream length]. rewrite IH. reflexivity.
Qed.

Lemma sextet_index_lt (s : sextet) : (sextet_index s < 64)%nat.
Proof.
  destruct s as [[[[[b5 b4] b3] b2] b1] b0].
  destruct b5, b4, b3, b2, b1, b0; cbn; lia.
Qed.

Lemma encode_sextet_In (s : sextet) : In (encode_sextet s) encodeURL.
Proof.
  unfold encode_sextet. apply nth_In.
  change (length encodeURL) with 64%nat. apply sextet_index_lt.
Qed.

Lemma EncodeToString_chars (src : bytes) : Forall base64_char (EncodeToString src).
Proof.
  assert (He : forall s, base64_char (encode_sextet s))
    by (intros s; left; apply encode_sextet_In).
  assert (Hp : base64_char padChar) by (right; reflexivity).
  induction src as [ | x | x y | x y z rest IH] using bytes_ind3;
    cbn [EncodeToString].
  - constructor.
  - destruct (split3 x zero zero) as [[[s0 s1] s2] s3].
    repeat (constructor; [first [apply He | exact Hp]|]). constructor.
  - destruct (split3 x y zero) as [[[s0 s1] s2] s3].
    repeat (constructor; [first [apply He | exact Hp]|]). constructor.
  - destruct (split3 x y z) as [[[s0 s1] s2] s3].
    repeat (constructor; [apply He|]). exact IH.
Qed.

Lemma EncodeToString_length (src : bytes) :
  length (EncodeToString src) = (4 * ((length src + 2) / 3))%nat.
Proof.
  induction src as [ | x | x y | x y z rest IH] using bytes_ind3;
    cbn [EncodeToString].
  - reflexivity.
  - destruct (split3 x zero zero) as [[[s0 s1] s2] s3]. reflexivity.
  - destruct (split3 x y zero) as [[[s0 s1] s2] s3]. reflexivity.
  - destruct (split3 x y z) as [[[s0 s1] s2] s3].
    cbn [length]. rewrite IH.
    replace (S (S (S (length rest))) + 2)%nat with ((length rest + 2) + 1 * 3)%nat by lia.
    rewrite Nat.div_add by discriminate. lia.
Qed.

Lemma EncodeToString_inj (a b : bytes) :
  EncodeToString a = EncodeToString b -> a = b.
Proof.
  intros H. pose proof (DecodeString_EncodeToString a) as Ha.
  rewrite H, DecodeString_EncodeToString in Ha. congruence.
Qed.

Lemma bytes_of_sextets_length (d : list sextet) :
  (length (bytes_of_sextets d) <= length d)%nat.
Proof. destruct d as [|a [|b [|c [|e [|f d]]]]]; cbn; lia. Qed.

Lemma finish_padded_length rest si dbuf out bs :
  finish_padded rest si dbuf out = Ok bs ->
  (length bs <= length out + length dbuf)%nat.
Proof.
  unfold finish_padded. destruct (skip_newlines rest si) as [[|c r] si'];
    intros H; [|discriminate H]. injection H as <-.
  rewrite length_app. pose proof (bytes_of_sextets_length dbuf). lia.
Qed.

Lemma decode_from_length (total : nat) (src : bytes) :
  forall si dbuf out bs,
    decode_from total src si dbuf out = Ok bs ->
    (length bs <= length out + length dbuf + length src)%nat.
Proof.
  induction src as [|c rest IH]; intros si dbuf out bs; cbn [decode_from].
  - destruct dbuf; intros H; [|discriminate H]. injection H as <-. cbn. lia.
  - destruct (decodeMap c) as [s|].
    + destruct (length dbuf =? 3)%nat eqn:E3; intros H; apply IH in H.
      * apply Nat.eqb_eq in E3. rewrite length_app in H.
        pose proof (bytes_of_sextets_length (dbuf ++ [s])) as Hb.
        rewrite length_app in Hb. cbn [length] in *. lia.
      * rewrite length_app in H. cbn [length] in *. lia.
    + destruct (is_newline c).
      { intros H. apply IH in H. cbn [length]. lia. }
      destruct (negb (byte_eqb c padChar)); [discriminate|].
      destruct (length dbuf) as [|[|[|k]]] eqn:El; try discriminate.
      * destruct (skip_newlines rest (S si)) as [[|c2 r2] si']; [discriminate|].
        destruct (negb (byte_eqb c2 padChar)); [discriminate|].
        intros H. apply finish_padded_length in H. cbn [length]. lia.
      * intros H. apply finish_padded_length in H. cbn [length]. lia.
Qed.

Lemma DecodeString_length (s bs : bytes) :
  DecodeString s = Ok bs -> (length bs <= length s)%nat.
Proof.
  intros H. apply decode_from_length in H. cbn [length] in H. lia.
Qed.

Section WithAES.
Variable aes_Encrypt : bytes -> bytes -> bytes.

Abbreviation encrypt := (HostService.encrypt aes_Encrypt).
Abbreviation decrypt := (HostService.decrypt aes_Encrypt).

(** What [decrypt] gives for a value that decodes to 16 bytes or
    more: always a result, shorter than the value. *)
Lemma decrypt_Cipher (s : hostService) (value : bytes) :
  length (encryptKey s) = 32%nat ->
  classify value = Cipher ->
  exists p, decrypt s value = Ok p /\ (length p < length value)%nat.
Proof.
  intros Hk Hc. unfold classify in Hc.
  destruct value as [|v0 value]; [discriminate|].
  unfold HostService.decrypt.
  destruct (DecodeString (v0 :: value)) as [bs|e] eqn:Ed; [|discriminate].
  rewrite <- (service_eta s Hk), NewCipher_ok. rewrite (service_eta s Hk).
  destruct (length bs <? BlockSize)%nat eqn:El; [discriminate|].
  eexists. split; [reflexivity|].
  rewrite XORKeyStream_length, length_skipn.
  apply Nat.ltb_ge in El. unfold BlockSize in *.
  apply DecodeString_length in Ed. lia.
Qed.

Lemma decrypt_TooShort (s : hostService) (value : bytes) :
  length (encryptKey s) = 32%nat ->
  classify value = TooShort ->
  decrypt s value = Err (str "ciphertext too short").
Proof.
  intros Hk Hc. unfold classify in Hc.
  destruct value as [|v0 value]; [discriminate|].
  unfold HostService.decrypt.
  destruct (DecodeString (v0 :: value)) as [bs|e] eqn:Ed; [|discriminate].
  rewrite <- (service_eta s Hk), NewCipher_ok. rewrite (service_eta s Hk).
  destruct (length bs <? BlockSize)%nat eqn:El; [reflexivity | discriminate].
Qed.

Lemma decrypt_Legacy (s : hostService) (value : bytes) :
  classify value = Legacy ->
  exists e, decrypt s value = Err e /\
            Contains e (str "illegal base64 data") = true.
Proof.
  intros Hc. unfold classify in Hc.
  destruct value as [|v0 value]; [discriminate|].
  unfold HostService.decrypt.
  destruct (DecodeString (v0 :: value)) as [bs|e] eqn:Ed.
  - destruct (length bs <? BlockSize)%nat; discriminate.
  - exists e. split; [reflexivity | eapply DecodeString_error; exact Ed].
Qed.

(** X7. Whatever the configured key string, [encrypt] succeeds for
    a 16-byte IV; the stored text has [4 * ceil((16 + n) / 3)]
    characters for a secret of [n] bytes, all of the URL-safe
    alphabet or [=], and it always reads back as a ciphertext,
    never as a legacy plaintext. *)
Theorem encrypt_stored_form (repo : HostRepository.t) (k iv p : bytes) :
  length iv = 16%nat ->
  let s := HostService.NewHostService repo k in
  exists c,
    encrypt s iv p = Ok c /\
    length c = (4 * ((16 + length p + 2) / 3))%nat /\
    Forall base64_char c /\
    classify c = Cipher.
Proof.
  intros Hiv s. unfold HostService.encrypt. unfold s. rewrite NewCipher_ok.
  eexists. split; [reflexivity|].
  split; [|split].
  - rewrite EncodeToString_length, length_app, XORKeyStream_length, Hiv.
    reflexivity.
  - apply EncodeToString_chars.
  - unfold classify. rewrite DecodeString_EncodeToString.
    destruct iv as [|i0 [|i1 [|i2 iv']]]; try discriminate Hiv.
    cbn [app EncodeToString]. destruct (split3 i0 i1 i2) as [[[s0 s1] s2] s3].
    cbn [length] in *.
    lazymatch goal with
    | |- (if (?n <? _)%nat then _ else _) = _ =>
        assert (E : (n <? BlockSize)%nat = false)
          by (apply Nat.ltb_ge; unfold BlockSize; rewrite length_app; lia)
    end.
    cbn [length] in E. rewrite E. reflexivity.
Qed.

(** X8. The stored text determines the IV and the secret: two calls
    of [encrypt] give the same text only for the same IV and the
    same plaintext. *)
Theorem encrypt_injective (s : hostService) (iv1 iv2 p1 p2 c : bytes) :
  length iv1 = 16%nat -> length iv2 = 16%nat ->
  encrypt s iv1 p1 = Ok c -> encrypt s iv2 p2 = Ok c ->
  iv1 = iv2 /\ p1 = p2.
Proof.
  intros H1 H2. unfold HostService.encrypt.
  destruct (aes_NewCipher aes_Encrypt (encryptKey s)) as [block|e]; [|discriminate].
  intros E1 E2. injection E1 as E1. injection E2 as E2.
  rewrite <- E2 in E1. apply EncodeToString_inj in E1.
  apply app_inj_1 in E1; [|congruence].
  destruct E1 as [-> E]. split; [reflexivity|].
  apply (f_equal (XORKeyStream (NewCFBDecrypter block iv2))) in E.
  rewrite !CFB_roundtrip in E. exact E.
Qed.

End WithAES.

Lemma encrypt_stored_form_witness :
  exists c,
    HostService.encrypt toy_block empty_service example_iv (str "hunter2") = Ok c /\
    length c = 32%nat /\ Forall base64_char c /\ classify c = Cipher.
Proof.
  exact (encrypt_stored_form toy_block [] (str "key") example_iv (str "hunter2")
                             eq_refl).
Defined.

Lemma encrypt_injective_witness :
  exists c,
    HostService.encrypt toy_block empty_service example_iv (str "hunter2") = Ok c /\
    (example_iv = example_iv /\ str "hunter2" = str "hunter2").
Proof.
  destruct (HostService.encrypt toy_block empty_service example_iv (str "hunter2"))
    as [c|e] eqn:Hc.
  - exists c. split; [reflexivity|].
    exact (encrypt_injective toy_block empty_service example_iv example_iv
             (str "hunter2") (str "hunter2") c eq_refl eq_refl Hc Hc).
  - vm_compute in Hc. discriminate Hc.
Defined.

End SecretStoreFacts.

(* ================================================================== *)
(** * The tunnel service over the host service: the second decryption *)

Module WiringFacts.
Import GoStringsFacts Base64 Base64Facts CFB CFBFacts HostService HostServiceFacts.
Import HostServiceOps HostServiceOpsFacts SecretStoreFacts Engine EngineFacts.

Section WithAES.
Variable aes_Encrypt : bytes -> bytes -> bytes.

Abbreviation decrypt := (HostService.decrypt aes_Encrypt).
Abbreviation decrypt_field := (HostService.decrypt_field aes_Encrypt).
Abbreviation DecryptSensitiveData := (HostService.DecryptSensitiveData aes_Encrypt).
Abbreviation GetHost := (HostService.GetHost aes_Encrypt).
Abbreviation world_of := (HostServiceOps.world_of aes_Encrypt).

Lemma decrypt_field_password (s : hostService) (value : bytes) :
  length (encryptKey s) = 32%nat ->
  match classify value with
  | Empty | Legacy => decrypt_field s (str "password") value = Ok value
  | TooShort =>
      decrypt_field s (str "password") value
      = Err (str "failed to decrypt password: ciphertext too short")
  | Cipher =>
      exists p, decrypt s value = Ok p /\ (length p < length value)%nat /\
                decrypt_field s (str "password") value = Ok p
  end.
Proof.
  intros Hk. destruct (classify value) eqn:Ec.
  - unfold classify in Ec. destruct value; [reflexivity|].
    destruct (DecodeString _); [destruct (_ <? _)%nat|]; discriminate.
  - destruct (decrypt_Legacy aes_Encrypt s value Ec) as (e & He & Hc).
    unfold HostService.decrypt_field.
    destruct value; [reflexivity|]. rewrite He, Hc. reflexivity.
  - pose proof (decrypt_TooShort aes_Encrypt s value Hk Ec) as He.
    unfold HostService.decrypt_field.
    destruct value; [discriminate Ec|]. rewrite He. reflexivity.
  - destruct (decrypt_Cipher aes_Encrypt s value Hk Ec) as (p & Hp & Hlen).
    exists p. split; [exact Hp|]. split; [exact Hlen|].
    unfold HostService.decrypt_field.
    destruct value; [discriminate Ec|]. rewrite Hp. reflexivity.
Qed.

(** X9. [StartTunnel] decrypts the host twice, once in [GetHost] and
    once in [createSSHConnection].  For a host with password
    authentication, as [GetHost] returns it, the connection is
    dialled with the password itself only when the password is not
    valid base64; a password that is base64 of fewer than 16 bytes
    stops the start with [ciphertext too short], and one that is
    base64 of 16 bytes or more is replaced by a shorter byte
    string. *)
Theorem createSSHConnection_decrypts_again (w : World) (s : hostService)
        (host : Host.t) :
  length (encryptKey s) = 32%nat ->
  Host.AuthType host = AuthTypePassword ->
  Host.PrivateKey host = [] -> Host.Passphrase host = [] ->
  let dial password :=
    ssh_Dial w (addr_port (Host.Hostname host) (Host.Port host))
             (mkConfig (Host.Username host) [Password password] 30) in
  match classify (Host.Password host) with
  | Empty | Legacy =>
      createSSHConnection (world_of s w) host = dial (Host.Password host)
  | TooShort =>
      createSSHConnection (world_of s w) host
      = Err (str "failed to decrypt host data: failed to decrypt password: ciphertext too short")
  | Cipher =>
      exists password,
        decrypt s (Host.Password host) = Ok password /\
        (length password < length (Host.Password host))%nat /\
        createSSHConnection (world_of s w) host = dial password
  end.
Proof.
  intros Hk Hau Hpk Hpp dial.
  destruct host as [id nm hn pt us au pw pk kp pp st].
  cbn [Host.AuthType Host.PrivateKey Host.Passphrase Host.Password
       Host.Hostname Host.Port Host.Username] in *.
  subst au pk pp.
  pose proof (decrypt_field_password s pw Hk) as Hf.
  unfold createSSHConnection, HostServiceOps.world_of.
  cbn [hostService_DecryptSensitiveData].
  unfold HostService.DecryptSensitiveData.
  cbn [Host.Password Host.PrivateKey Host.Passphrase Host.set_Password
       Host.set_PrivateKey Host.set_Passphrase HostService.decrypt_field].
  destruct (classify pw).
  - rewrite Hf. reflexivity.
  - rewrite Hf. reflexivity.
  - rewrite Hf. reflexivity.
  - destruct Hf as (p & Hp & Hlen & Hf). exists p.
    split; [exact Hp|]. split; [exact Hlen|]. rewrite Hf. reflexivity.
Qed.

(** X10. A host whose password, once decrypted by [GetHost], is
    itself valid base64 of fewer than 16 bytes -- [password],
    [12345678], [root] -- never gets a tunnel started: every
    [StartTunnel] fails at the second decryption, logs the error
    and sets the tunnel to [error]. *)
Theorem StartTunnel_base64_password (w : World) (hs : hostService)
        (s : tunnelService) (id : N) (tunnel : Tunnel.t) (host : Host.t) :
  length (encryptKey hs) = 32%nat ->
  TunnelRepository.GetByID (tunnelRepo s) id = Ok tunnel ->
  activeTunnels s !! id = None ->
  GetHost hs (Tunnel.HostID tunnel) = Ok host ->
  is_short (Host.Password host) = true ->
  fst (StartTunnel (world_of hs w) id s)
  = Some (str "failed to create SSH connection: failed to decrypt host data: failed to decrypt password: ciphertext too short") /\
  start_failed (snd (StartTunnel (world_of hs w) id s)) id.
Proof.
  intros Hk Hget Hact Hhost Hshort.
  destruct (GetByID_In _ _ _ Hget) as [Hid _].
  assert (Hconn : createSSHConnection (world_of hs w) host
                  = Err (str "failed to decrypt host data: failed to decrypt password: ciphertext too short")).
  { unfold createSSHConnection, HostServiceOps.world_of.
    cbn [hostService_DecryptSensitiveData].
    unfold HostService.DecryptSensitiveData.
    pose proof (decrypt_field_password hs (Host.Password host) Hk) as Hf.
    unfold is_short in Hshort.
    destruct (classify (Host.Password host)); try discriminate Hshort.
    rewrite Hf. reflexivity. }
  assert (Hh : hostService_GetHost (world_of hs w) (Tunnel.HostID tunnel) = Ok host)
    by exact Hhost.
  unfold StartTunnel. rewrite Hget, Hact, Hh, Hconn.
  cbn [fst snd]. split; [reflexivity|].
  split; [exact Hact|]. split.
  - apply (persisted_status_set _ _ _ tunnel). rewrite GetByID_log. exact Hget.
  - apply logged_UpdateStatus. rewrite Hid. apply logged_add.
Qed.

End WithAES.

(** The host [home] with the password [password]: the tunnel service
    cannot connect to it. *)
Lemma createSSHConnection_decrypts_again_witness :
  createSSHConnection (HostServiceOps.world_of toy_block home_service example_world)
                      (row_of 1 new_host)
  = Err (str "failed to decrypt host data: failed to decrypt password: ciphertext too short").
Proof.
  apply (createSSHConnection_decrypts_again toy_block example_world home_service
           (row_of 1 new_host)); reflexivity.
Defined.

Lemma StartTunnel_base64_password_witness :
  let w := HostServiceOps.world_of toy_block home_service example_world in
  HostService.GetHost toy_block home_service 1 = Ok (row_of 1 new_host) /\
  fst (StartTunnel w 1 example_service)
  = Some (str "failed to create SSH connection: failed to decrypt host data: failed to decrypt password: ciphertext too short") /\
  start_failed (snd (StartTunnel w 1 example_service)) 1.
Proof.
  split; [reflexivity|].
  apply (StartTunnel_base64_password toy_block example_world home_service
           example_service 1 (example_forward 1 9000) (row_of 1 new_host));
    reflexivity.
Defined.

End WiringFacts.

(* ================================================================== *)
(** * The tunnel service: deleting, restarting, stopping all, and the
    status of the running tunnels *)

Module EngineMoreFacts.
Import GoStringsFacts Engine EngineFacts EngineStates.

(** ** Lookups that a write leaves alone *)

Lemma find_live_map_other (f : Tunnel.t -> Tunnel.t) (j id : N) (rows : list Tunnel.t) :
  (forall y, Tunnel.ID (f y) = Tunnel.ID y) ->
  (forall y, Tunnel.ID y <> j -> f y = y) ->
  id <> j ->
  find (fun x => N.eqb (Tunnel.ID x) id)
       (List.filter TunnelRepository.live (map f rows))
  = find (fun x => N.eqb (Tunnel.ID x) id)
         (List.filter TunnelRepository.live rows).
Proof.
  intros Hid Hf Hne. induction rows as [|y rows IH]; [reflexivity|].
  cbn [map List.filter].
  destruct (N.eq_dec (Tunnel.ID y) j) as [E|E].
  - assert (E1 : N.eqb (Tunnel.ID (f y)) id = false)
      by (apply N.eqb_neq; rewrite Hid; congruence).
    assert (E2 : N.eqb (Tunnel.ID y) id = false)
      by (apply N.eqb_neq; congruence).
    destruct (TunnelRepository.live (f y)), (TunnelRepository.live y);
      cbn [find]; rewrite ?E1, ?E2; exact IH.
  - rewrite (Hf y E). destruct (TunnelRepository.live y); [|exact IH].
    cbn [find]. rewrite IH. reflexivity.
Qed.

Lemma GetByID_UpdateStatus_other (r : TunnelRepository.t) (j id : N) (status : bytes) :
  id <> j ->
  TunnelRepository.GetByID (TunnelRepository.UpdateStatus r j status) id
  = TunnelRepository.GetByID r id.
Proof.
  intros Hne. unfold TunnelRepository.GetByID, TunnelRepository.GetAll,
    TunnelRepository.UpdateStatus. cbn [TunnelRepository.tunnels].
  rewrite (find_live_map_other _ j id); [reflexivity| | |exact Hne].
  - intros y. destruct (_ && _); reflexivity.
  - intros y Hy. rewrite (proj2 (N.eqb_neq _ _) Hy). reflexivity.
Qed.

Lemma GetByID_Delete_other (r : TunnelRepository.t) (j id : N) :
  id <> j ->
  TunnelRepository.GetByID (TunnelRepository.Delete r j) id
  = TunnelRepository.GetByID r id.
Proof.
  intros Hne. unfold TunnelRepository.GetByID, TunnelRepository.GetAll,
    TunnelRepository.Delete. cbn [TunnelRepository.tunnels].
  rewrite (find_live_map_other _ j id); [reflexivity| | |exact Hne].
  - intros y. destruct (_ && _); reflexivity.
  - intros y Hy. rewrite (proj2 (N.eqb_neq _ _) Hy). reflexivity.
Qed.

Lemma GetAll_Delete (r : TunnelRepository.t) (j : N) (x : Tunnel.t) :
  In x (TunnelRepository.GetAll (TunnelRepository.Delete r j)) ->
  Tunnel.ID x <> j /\ In x (TunnelRepository.GetAll r).
Proof.
  unfold TunnelRepository.GetAll, TunnelRepository.Delete.
  cbn [TunnelRepository.tunnels]. intros H.
  apply filter_In in H. destruct H as [Hin Hl].
  apply in_map_iff in Hin. destruct Hin as (y & Hy & Hin).
  destruct (N.eqb_spec (Tunnel.ID y) j) as [E|E]; cbn [andb] in Hy.
  - destruct (TunnelRepository.live y) eqn:El.
    + subst x. unfold TunnelRepository.live in Hl. destruct y; discriminate Hl.
    + subst x. rewrite El in Hl. discriminate.
  - subst x. split; [exact E|]. apply filter_In. split; assumption.
Qed.

Lemma GetByID_Delete_same (r : TunnelRepository.t) (j : N) :
  TunnelRepository.GetByID (TunnelRepository.Delete r j) j = Err record_not_found.
Proof.
  unfold TunnelRepository.GetByID.
  destruct (find _ _) as [x|] eqn:E; [|reflexivity].
  apply find_some in E. destruct E as [Hin Hid].
  apply GetAll_Delete in Hin. apply N.eqb_eq in Hid. tauto.
Qed.

Lemma find_app_Some {A} (p : A -> bool) (l l' : list A) (x : A) :
  find p l = Some x -> find p (l ++ l') = Some x.
Proof.
  induction l as [|y l IH]; [discriminate|]. cbn [find app].
  destruct (p y); [trivial | exact IH].
Qed.

Lemma GetByID_snoc_Ok (rows : list Tunnel.t) logs logs' (t x : Tunnel.t) (id : N) :
  TunnelRepository.GetByID (TunnelRepository.mk rows logs) id = Ok x ->
  TunnelRepository.GetByID (TunnelRepository.mk (rows ++ [t]) logs') id = Ok x.
Proof.
  unfold TunnelRepository.GetByID, TunnelRepository.GetAll.
  cbn [TunnelRepository.tunnels]. rewrite List.filter_app.
  destruct (find _ (List.filter _ rows)) as [y|] eqn:E; [|discriminate].
  intros H. rewrite (find_app_Some _ _ _ _ E). exact H.
Qed.

Lemma GetByID_Create (r : TunnelRepository.t) (t x : Tunnel.t) (id : N) :
  TunnelRepository.GetByID r id = Ok x ->
  TunnelRepository.GetByID (snd (TunnelRepository.Create r t)) id = Ok x.
Proof.
  intros H. pose proof (Create_cases r t) as Hc.
  destruct (TunnelRepository.Create r t) as [[t'|e] r']; cbn [snd].
  - destruct Hc as [_ ->]. destruct r as [rows logs].
    eapply GetByID_snoc_Ok. exact H.
  - subst r'. exact H.
Qed.

Lemma GetByID_replace_other (r : TunnelRepository.t) (t : Tunnel.t) (id : N) :
  id <> Tunnel.ID t ->
  TunnelRepository.GetByID
    (TunnelRepository.mk (TunnelRepository.replace_row t (TunnelRepository.tunnels r))
                         (TunnelRepository.connection_logs r)) id
  = TunnelRepository.GetByID r id.
Proof.
  intros Hne. unfold TunnelRepository.GetByID, TunnelRepository.GetAll,
    TunnelRepository.replace_row. cbn [TunnelRepository.tunnels].
  rewrite (find_live_map_other _ (Tunnel.ID t) id); [reflexivity| | |exact Hne].
  - intros y. destruct (N.eqb_spec (Tunnel.ID y) (Tunnel.ID t)); congruence.
  - intros y Hy. rewrite (proj2 (N.eqb_neq _ _) Hy). reflexivity.
Qed.

Lemma with_defaults_ID (t : Tunnel.t) :
  Tunnel.ID (TunnelRepository.with_defaults t) = Tunnel.ID t.
Proof.
  unfold TunnelRepository.with_defaults.
  destruct (Tunnel.LocalAddress t); destruct t; cbn;
    match goal with |- context [match ?s with [] => _ | _ => _ end] =>
      destruct s end; reflexivity.
Qed.

Lemma GetByID_Update (r : TunnelRepository.t) (t x : Tunnel.t) (id : N) :
  id <> Tunnel.ID t ->
  TunnelRepository.GetByID r id = Ok x ->
  TunnelRepository.GetByID (snd (TunnelRepository.Update r t)) id = Ok x.
Proof.
  intros Hne H. unfold TunnelRepository.Update.
  destruct (N.eqb (Tunnel.ID t) 0).
  { pose proof (GetByID_Create r t x id H) as Hc.
    destruct (TunnelRepository.Create r t) as [[t'|e] r']; exact Hc. }
  destruct (TunnelRepository.has_live_row r (Tunnel.ID t)); cbn [snd].
  { rewrite GetByID_replace_other; assumption. }
  destruct (TunnelRepository.has_row r (Tunnel.ID t)); cbn [snd].
  - rewrite <- (with_defaults_ID t) in Hne.
    pose proof (GetByID_replace_other r (TunnelRepository.with_defaults t) id Hne) as Hr.
    rewrite Hr. exact H.
  - destruct r as [rows logs]. eapply GetByID_snoc_Ok. exact H.
Qed.

(** ** One call and the other tunnels *)

Lemma untouched_refl s id : untouched s s id.
Proof. split; [reflexivity | trivial]. Qed.

Lemma untouched_trans s1 s2 s3 id :
  untouched s1 s2 id -> untouched s2 s3 id -> untouched s1 s3 id.
Proof.
  intros [A1 G1] [A2 G2]. split; [congruence|]. intros x H. apply G2, G1, H.
Qed.

Lemma untouched_do_effect s e id : untouched s (do_effect e s) id.
Proof. split; [reflexivity | trivial]. Qed.

Lemma untouched_log s j ev m id : untouched s (addConnectionLog j ev m s) id.
Proof. split; [reflexivity | trivial]. Qed.

Lemma untouched_UpdateStatus s j st id :
  id <> j -> untouched s (UpdateStatus j st s) id.
Proof.
  intros Hne. split; [reflexivity|]. intros x H.
  unfold UpdateStatus. cbn [tunnelRepo do_effect set_repo].
  rewrite GetByID_UpdateStatus_other by exact Hne. exact H.
Qed.

Ltac untouched_chain :=
  repeat first
    [ apply untouched_refl
    | eapply untouched_trans;
      [|first [ apply untouched_UpdateStatus; congruence
              | apply untouched_log
              | apply untouched_do_effect ]] ].

Lemma untouched_CreateTunnel w t s id : untouched s (snd (CreateTunnel w t s)) id.
Proof.
  split; [rewrite active_CreateTunnel; reflexivity|]. intros x H. unfold CreateTunnel.
  destruct (validateTunnelConfig t) as [t1|e]; [|exact H].
  unfold checkPortAvailability.
  destruct (net_Listen w _) as [l|e]; [|exact H].
  cbn [do_effect tunnelRepo].
  destruct (check_conflicts t1 _); [exact H|].
  pose proof (GetByID_Create (tunnelRepo s) (Tunnel.set_Status t1 TunnelStatusInactive)
                             x id H) as Hc.
  cbn [tunnelRepo] in *.
  destruct (TunnelRepository.Create _ _) as [r repo]. exact Hc.
Qed.

Lemma untouched_create_each w hostID services :
  forall s id, untouched s (snd (create_each w hostID services s)) id.
Proof.
  induction services as [|svc rest IH]; intros s id; cbn [create_each].
  - apply untouched_refl.
  - match goal with |- context [CreateTunnel w ?t s] =>
      pose proof (untouched_CreateTunnel w t s id) as H1;
      destruct (CreateTunnel w t s) as [[t'|e] s1] end; cbn [snd] in H1;
      specialize (IH s1 id);
      destruct (create_each w hostID rest s1) as [[created errors] s2];
      cbn [snd] in *; eapply untouched_trans; eassumption.
Qed.

Lemma untouched_StartTunnel w j s id :
  id <> j -> untouched s (snd (StartTunnel w j s)) id.
Proof.
  intros Hne. unfold StartTunnel.
  destruct (TunnelRepository.GetByID (tunnelRepo s) j) as [tunnel|e] eqn:Eget;
    [|apply untouched_refl].
  destruct (GetByID_In _ _ _ Eget) as [Hid _].
  destruct (activeTunnels s !! j) eqn:Eact; [apply untouched_refl|].
  destruct (hostService_GetHost w _) as [host|e]; [|apply untouched_refl].
  destruct (createSSHConnection w host) as [c|e]; cbn [snd].
  2:{ untouched_chain. }
  rewrite <- Hid in Eact.
  destruct (start_forward w tunnel c s) as [[r s1]|] eqn:Estart;
    [|cbn [snd]; untouched_chain].
  destruct (start_forward_absent w tunnel c s r s1 Eact Estart) as (Ha & Hr & _).
  assert (H1 : untouched s s1 id).
  { split; [rewrite Ha; reflexivity | rewrite Hr; trivial]. }
  destruct r as [e|]; cbn [snd].
  - eapply untouched_trans; [exact H1|]. untouched_chain.
  - eapply untouched_trans; [exact H1|].
    eapply untouched_trans; [|apply untouched_log].
    eapply untouched_trans; [|apply untouched_UpdateStatus, Hne].
    split; [|trivial]. cbn [activeTunnels set_active].
    apply lookup_insert_ne. congruence.
Qed.

Lemma untouched_StopTunnel j s id :
  id <> j -> untouched s (snd (StopTunnel j s)) id.
Proof.
  intros Hne. destruct (activeTunnels s !! j) as [a|] eqn:E.
  - destruct (StopTunnel_running j s a E) as (s' & Hs & _ & Ha & Hr).
    rewrite Hs. cbn [snd]. split.
    + rewrite Ha. apply lookup_delete_ne. congruence.
    + intros x H. rewrite Hr.
      unfold TunnelRepository.GetByID, TunnelRepository.GetAll,
        TunnelRepository.AddConnectionLog. cbn [TunnelRepository.tunnels].
      pose proof (GetByID_UpdateStatus_other (tunnelRepo s) j id
                    TunnelStatusInactive Hne) as Hu.
      unfold TunnelRepository.GetByID, TunnelRepository.GetAll in Hu, H.
      rewrite Hu. exact H.
  - rewrite (StopTunnel_not_running j s E). apply untouched_refl.
Qed.

Lemma validate_ID (t t1 : Tunnel.t) :
  validateTunnelConfig t = Ok t1 -> Tunnel.ID t1 = Tunnel.ID t.
Proof.
  intros H. apply validateTunnelConfig_Ok in H.
  destruct H as (_ & _ & _ & [-> | ->]); reflexivity.
Qed.

Lemma untouched_Update s t id :
  id <> Tunnel.ID t ->
  untouched s (set_repo s (snd (TunnelRepository.Update (tunnelRepo s) t))) id.
Proof.
  intros Hne. split; [reflexivity|]. intros x H. cbn [tunnelRepo set_repo].
  apply GetByID_Update; assumption.
Qed.

Lemma untouched_UpdateTunnel w t s id :
  id <> Tunnel.ID t -> untouched s (snd (UpdateTunnel w t s)) id.
Proof.
  intros Hne. unfold UpdateTunnel.
  destruct (validateTunnelConfig t) as [t1|e] eqn:Ev; [|apply untouched_refl].
  rewrite <- (validate_ID _ _ Ev) in Hne.
  destruct (activeTunnels s !! Tunnel.ID t1).
  - pose proof (untouched_StopTunnel (Tunnel.ID t1) s id Hne) as H1.
    destruct (StopTunnel (Tunnel.ID t1) s) as [[e|] s1]; cbn [snd] in *; [exact H1|].
    pose proof (untouched_Update s1 t1 id Hne) as H2.
    destruct (TunnelRepository.Update (tunnelRepo s1) t1) as [[e|] repo];
      cbn [snd] in *.
    + eapply untouched_trans; eassumption.
    + eapply untouched_trans; [exact H1|].
      eapply untouched_trans; [exact H2|].
      apply untouched_StartTunnel, Hne.
  - pose proof (untouched_Update s t1 id Hne) as H2.
    destruct (TunnelRepository.Update (tunnelRepo s) t1) as [e repo]. exact H2.
Qed.

Lemma untouched_DeleteTunnel j s id :
  id <> j -> untouched s (snd (DeleteTunnel j s)) id.
Proof.
  intros Hne. unfold DeleteTunnel.
  pose proof (untouched_StopTunnel j s id Hne) as H1.
  destruct (StopTunnel j s) as [e s1]. cbn [snd] in *.
  eapply untouched_trans; [exact H1|].
  split; [reflexivity|]. intros x H. cbn [tunnelRepo set_repo].
  rewrite GetByID_Delete_other by exact Hne. exact H.
Qed.

Lemma untouched_start_each w ids :
  forall s id, ~ In id ids -> untouched s (start_each w ids s) id.
Proof.
  induction ids as [|j ids IH]; intros s id Hn; cbn [start_each].
  - apply untouched_refl.
  - eapply untouched_trans.
    + apply (untouched_StartTunnel w j s id). intros ->. apply Hn. left. reflexivity.
    + apply IH. intros H. apply Hn. right. exact H.
Qed.

Lemma untouched_stop_each ids :
  forall s id, ~ In id ids -> untouched s (stop_each ids s) id.
Proof.
  induction ids as [|j ids IH]; intros s id Hn; cbn [stop_each].
  - apply untouched_refl.
  - eapply untouched_trans.
    + apply (untouched_StopTunnel j s id). intros ->. apply Hn. left. reflexivity.
    + apply IH. intros H. apply Hn. right. exact H.
Qed.

(** ** One call and the logs of the other tunnels *)

Lemma logs_of_repo s s' id : tunnelRepo s' = tunnelRepo s -> logs_of s' id = logs_of s id.
Proof. unfold logs_of. intros ->. reflexivity. Qed.

Lemma logs_of_do_effect s e id : logs_of (do_effect e s) id = logs_of s id.
Proof. reflexivity. Qed.

Lemma logs_of_UpdateStatus s j st id : logs_of (UpdateStatus j st s) id = logs_of s id.
Proof. reflexivity. Qed.

Lemma logs_of_log s j ev m id :
  id <> j -> logs_of (addConnectionLog j ev m s) id = logs_of s id.
Proof.
  intros Hne. unfold logs_of, addConnectionLog.
  cbn [tunnelRepo do_effect set_repo TunnelRepository.AddConnectionLog
       TunnelRepository.connection_logs].
  rewrite List.filter_app. cbn [List.filter ConnectionLog.TunnelID].
  rewrite (proj2 (N.eqb_neq j id)) by congruence. apply app_nil_r.
Qed.

Ltac logs_chain :=
  repeat first
    [ rewrite logs_of_log by congruence
    | rewrite logs_of_UpdateStatus
    | rewrite logs_of_do_effect ];
  try reflexivity.

Lemma logs_of_StartTunnel w j s id :
  id <> j -> logs_of (snd (StartTunnel w j s)) id = logs_of s id.
Proof.
  intros Hne. unfold StartTunnel.
  destruct (TunnelRepository.GetByID (tunnelRepo s) j) as [tunnel|e] eqn:Eget;
    [|reflexivity].
  destruct (GetByID_In _ _ _ Eget) as [Hid _].
  destruct (activeTunnels s !! j) eqn:Eact; [reflexivity|].
  destruct (hostService_GetHost w _) as [host|e]; [|reflexivity].
  destruct (createSSHConnection w host) as [c|e]; cbn [snd].
  2:{ logs_chain. }
  rewrite <- Hid in Eact.
  destruct (start_forward w tunnel c s) as [[r s1]|] eqn:Estart;
    [|cbn [snd]; logs_chain].
  destruct (start_forward_absent w tunnel c s r s1 Eact Estart) as (_ & Hr & _).
  destruct r as [e|]; cbn [snd]; logs_chain; apply logs_of_repo; exact Hr.
Qed.

Lemma logs_of_StopTunnel j s id :
  id <> j -> logs_of (snd (StopTunnel j s)) id = logs_of s id.
Proof.
  intros Hne. destruct (activeTunnels s !! j) as [a|] eqn:E.
  - destruct (StopTunnel_running j s a E) as (s' & Hs & _ & _ & Hr).
    rewrite Hs. cbn [snd]. unfold logs_of. rewrite Hr.
    cbn [TunnelRepository.AddConnectionLog TunnelRepository.UpdateStatus
         TunnelRepository.connection_logs].
    rewrite List.filter_app. cbn [List.filter ConnectionLog.TunnelID].
    rewrite (proj2 (N.eqb_neq j id)) by congruence. apply app_nil_r.
  - rewrite (StopTunnel_not_running j s E). reflexivity.
Qed.

Lemma logs_of_Delete (r : TunnelRepository.t) (j id : N) :
  id <> j ->
  List.filter (fun l => N.eqb (ConnectionLog.TunnelID l) id)
              (TunnelRepository.connection_logs (TunnelRepository.Delete r j))
  = List.filter (fun l => N.eqb (ConnectionLog.TunnelID l) id)
                (TunnelRepository.connection_logs r).
Proof.
  intros Hne. unfold TunnelRepository.Delete. cbn [TunnelRepository.connection_logs].
  induction (TunnelRepository.connection_logs r) as [|l logs IH]; [reflexivity|].
  cbn [List.filter].
  destruct (N.eqb (ConnectionLog.TunnelID l) j) eqn:Ej; cbn [negb].
  - apply N.eqb_eq in Ej.
    rewrite (proj2 (N.eqb_neq (ConnectionLog.TunnelID l) id)) by congruence.
    exact IH.
  - cbn [List.filter]. rewrite IH. reflexivity.
Qed.

Lemma logs_of_DeleteTunnel j s id :
  id <> j -> logs_of (snd (DeleteTunnel j s)) id = logs_of s id.
Proof.
  intros Hne. unfold DeleteTunnel.
  pose proof (logs_of_StopTunnel j s id Hne) as H1.
  destruct (StopTunnel j s) as [e s1]. cbn [snd] in *.
  rewrite <- H1. unfold logs_of. cbn [tunnelRepo set_repo].
  apply logs_of_Delete, Hne.
Qed.

Lemma logs_of_start_each w ids :
  forall s id, ~ In id ids -> logs_of (start_each w ids s) id = logs_of s id.
Proof.
  induction ids as [|j ids IH]; intros s id Hn; cbn [start_each]; [reflexivity|].
  rewrite IH by (intros H; apply Hn; right; exact H).
  apply logs_of_StartTunnel. intros ->. apply Hn. left. reflexivity.
Qed.

(** ** Deleting a tunnel *)

Lemma StopTunnel_self j s : activeTunnels (snd (StopTunnel j s)) !! j = None.
Proof.
  destruct (activeTunnels s !! j) as [a|] eqn:E.
  - destruct (StopTunnel_running j s a E) as (s' & Hs & _ & Ha & _).
    rewrite Hs. cbn [snd]. rewrite Ha. apply lookup_delete_eq.
  - rewrite (StopTunnel_not_running j s E). exact E.
Qed.

(** X11. [DeleteTunnel] always returns nil, for an unknown tunnel too.
    After it the tunnel has no handle, no row that can be read, no
    status and no connection log -- the [stop] event [StopTunnel]
    has just written is deleted with the rest -- and every other
    tunnel is as before: its handle, its row and its connection
    log. *)
Theorem DeleteTunnel_removes (id : N) (s : tunnelService) :
  let s' := snd (DeleteTunnel id s) in
  fst (DeleteTunnel id s) = None /\
  activeTunnels s' !! id = None /\
  TunnelRepository.GetByID (tunnelRepo s') id = Err record_not_found /\
  GetTunnelStatus id s' = Err record_not_found /\
  (forall l, In l (TunnelRepository.connection_logs (tunnelRepo s')) ->
             ConnectionLog.TunnelID l <> id) /\
  (forall x, In x (TunnelRepository.GetAll (tunnelRepo s')) -> Tunnel.ID x <> id) /\
  (forall j, j <> id -> untouched s s' j /\ logs_of s' j = logs_of s j).
Proof.
  intros s'.
  pose proof (fun j H => conj (untouched_DeleteTunnel id s j H)
                              (logs_of_DeleteTunnel id s j H)) as Hother.
  fold s' in Hother. unfold s' in *. clear s'. unfold DeleteTunnel in *.
  pose proof (StopTunnel_self id s) as Hself.
  destruct (StopTunnel id s) as [e s1]. cbn [fst snd tunnelRepo set_repo activeTunnels] in *.
  assert (Hget : TunnelRepository.GetByID
                   (TunnelRepository.Delete (tunnelRepo s1) id) id
                 = Err record_not_found) by apply GetByID_Delete_same.
  split; [reflexivity|]. split; [exact Hself|]. split; [exact Hget|].
  split; [|split; [|split]].
  - unfold GetTunnelStatus. cbn [activeTunnels tunnelRepo set_repo].
    rewrite Hself, Hget. reflexivity.
  - intros l Hl. unfold TunnelRepository.Delete in Hl.
    cbn [TunnelRepository.connection_logs] in Hl.
    apply filter_In in Hl. destruct Hl as [_ Hl].
    apply negb_true_iff, N.eqb_neq in Hl. exact Hl.
  - intros x Hx. apply GetAll_Delete in Hx. tauto.
  - exact Hother.
Qed.

(** ** Restarting a tunnel *)

(** X12. [RestartTunnel] is [StopTunnel], a sleep of one second and
    [StartTunnel], whether the tunnel was running or not: the only
    error of [StopTunnel] is the one [RestartTunnel] ignores. *)
Theorem RestartTunnel_stop_sleep_start (w : World) (id : N) (s : tunnelService) :
  RestartTunnel w id s
  = StartTunnel w id (do_effect (ESleep 1000) (snd (StopTunnel id s))) /\
  (activeTunnels s !! id = None ->
   RestartTunnel w id s = StartTunnel w id (do_effect (ESleep 1000) s)).
Proof.
  unfold RestartTunnel.
  destruct (activeTunnels s !! id) as [a|] eqn:E.
  - destruct (StopTunnel_running id s a E) as (s' & Hs & _).
    rewrite Hs. split; [reflexivity | discriminate].
  - rewrite (StopTunnel_not_running id s E). cbn [snd].
    split; [reflexivity | intros _; reflexivity].
Qed.

(** ** Stopping every tunnel *)

Lemma logged_StopTunnel j s id e :
  logged s id e -> logged (snd (StopTunnel j s)) id e.
Proof.
  intros [m Hm]. exists m.
  destruct (activeTunnels s !! j) as [a|] eqn:E.
  - destruct (StopTunnel_running j s a E) as (s' & Hs & _ & _ & Hr).
    rewrite Hs. cbn [snd]. rewrite Hr. cbn. apply in_or_app. left. exact Hm.
  - rewrite (StopTunnel_not_running j s E). exact Hm.
Qed.

Lemma logged_stop_each ids :
  forall s id e, logged s id e -> logged (stop_each ids s) id e.
Proof.
  induction ids as [|j ids IH]; intros s id e H; cbn [stop_each]; [exact H|].
  apply IH, logged_StopTunnel, H.
Qed.

Lemma stop_each_registry_at ids :
  forall s id,
    activeTunnels (stop_each ids s) !! id
    = if existsb (N.eqb id) ids then None else activeTunnels s !! id.
Proof.
  induction ids as [|j ids IH]; intros s id; cbn [stop_each existsb];
    [reflexivity|].
  rewrite IH. destruct (existsb (N.eqb id) ids); [rewrite orb_true_r; reflexivity|].
  rewrite orb_false_r. destruct (N.eqb_spec id j) as [->|Hne].
  - apply StopTunnel_self.
  - apply (untouched_StopTunnel j s id Hne).
Qed.

Lemma stop_each_stopped ids :
  forall s, List.NoDup ids ->
    forall id, In id ids -> is_Some (activeTunnels s !! id) ->
      (persisted_status s id <> None ->
       persisted_status (stop_each ids s) id = Some TunnelStatusInactive) /\
      logged (stop_each ids s) id LogEventStop.
Proof.
  induction ids as [|j ids IH]; intros s Hnd id Hin Hreg; [destruct Hin|].
  apply List.NoDup_cons_iff in Hnd. destruct Hnd as [Hj Hnd].
  cbn [stop_each]. destruct Hin as [->|Hin].
  - destruct Hreg as [a Ha].
    destruct (StopTunnel_running id s a Ha) as (s1 & Hs & _ & _ & Hr).
    rewrite Hs. cbn [snd].
    pose proof (untouched_stop_each ids s1 id Hj) as [_ Hu].
    split.
    + intros Hp. unfold persisted_status in *.
      destruct (TunnelRepository.GetByID (tunnelRepo s) id) as [x|e] eqn:Ex;
        [|contradiction].
      rewrite (Hu (Tunnel.set_Status x TunnelStatusInactive)); [reflexivity|].
      rewrite Hr.
      change (TunnelRepository.GetByID
                (TunnelRepository.UpdateStatus (tunnelRepo s) id TunnelStatusInactive)
                id = Ok (Tunnel.set_Status x TunnelStatusInactive)).
      apply GetByID_UpdateStatus. exact Ex.
    + apply logged_stop_each. exists (str "Tunnel stopped and port released").
      rewrite Hr. cbn. apply in_or_app. right. left. reflexivity.
  - assert (Hne : id <> j) by (intros ->; contradiction).
    pose proof (untouched_StopTunnel j s id Hne) as [Ha Hg].
    destruct (IH (snd (StopTunnel j s)) Hnd id Hin) as [H1 H2].
    { rewrite Ha. exact Hreg. }
    split; [|exact H2]. intros Hp. apply H1.
    unfold persisted_status in *.
    destruct (TunnelRepository.GetByID (tunnelRepo s) id) as [x|e] eqn:Ex;
      [|contradiction].
    rewrite (Hg x eq_refl). discriminate.
Qed.

(** X13. [StopAllTunnels] returns nil and leaves the registry empty.
    Every tunnel that was running is [inactive] in the table, if it
    still has a row, and has a [stop] event in its log; the rows of
    the other tunnels are as before. *)
Theorem StopAllTunnels_clears (s : tunnelService) :
  let s' := snd (StopAllTunnels s) in
  fst (StopAllTunnels s) = None /\
  activeTunnels s' = ∅ /\
  (forall id, is_Some (activeTunnels s !! id) ->
     (persisted_status s id <> None ->
      persisted_status s' id = Some TunnelStatusInactive) /\
     logged s' id LogEventStop) /\
  (forall id x, activeTunnels s !! id = None ->
     TunnelRepository.GetByID (tunnelRepo s) id = Ok x ->
     TunnelRepository.GetByID (tunnelRepo s') id = Ok x).
Proof.
  intros s'. unfold s', StopAllTunnels. cbn [fst snd]. clear s'.
  set (ids := map fst (map_to_list (activeTunnels s))).
  assert (Hnd : List.NoDup ids).
  { apply NoDup_ListNoDup. apply NoDup_fst_map_to_list. }
  assert (Hin : forall id, In id ids <-> is_Some (activeTunnels s !! id)).
  { intros id. unfold ids. rewrite <- list_elem_of_In.
    rewrite list_elem_of_fmap. split.
    - intros ([k a] & -> & Hka). apply elem_of_map_to_list in Hka. eexists. exact Hka.
    - intros [a Ha]. exists (id, a). split; [reflexivity|].
      apply elem_of_map_to_list. exact Ha. }
  split; [reflexivity|]. split; [|split].
  - apply map_eq. intros id. rewrite lookup_empty, stop_each_registry_at.
    destruct (existsb (N.eqb id) ids) eqn:E; [reflexivity|].
    destruct (activeTunnels s !! id) as [a|] eqn:Ea; [|reflexivity].
    exfalso. assert (Hi : In id ids) by (apply Hin; exists a; exact Ea).
    assert (Hex : existsb (N.eqb id) ids = true).
    { apply existsb_exists. exists id. split; [exact Hi | apply N.eqb_refl]. }
    congruence.
  - intros id Hreg. apply stop_each_stopped; [exact Hnd | apply Hin; exact Hreg | exact Hreg].
  - intros id x Hnone Hx.
    apply (untouched_stop_each ids s id); [|exact Hx].
    intros Hi. apply Hin in Hi. rewrite Hnone in Hi. destruct Hi as [? Hi].
    discriminate Hi.
Qed.

(** ** The status of the running tunnels *)

Lemma active_untouched s s' id :
  untouched s s' id ->
  persisted_status s id = Some TunnelStatusActive ->
  persisted_status s' id = Some TunnelStatusActive.
Proof.
  intros [_ Hg]. unfold persisted_status.
  destruct (TunnelRepository.GetByID (tunnelRepo s) id) as [x|e]; [|discriminate].
  rewrite (Hg x eq_refl). trivial.
Qed.

Lemma running_step s s' j :
  running_is_active s ->
  (forall id, id <> j -> untouched s s' id) ->
  (is_Some (activeTunnels s' !! j) -> persisted_status s' j = Some TunnelStatusActive) ->
  running_is_active s'.
Proof.
  intros Hs Hother Hj id Hreg. destruct (N.eq_dec id j) as [->|Hne].
  - apply Hj, Hreg.
  - pose proof (Hother id Hne) as Hu. apply (active_untouched s s' id Hu).
    apply Hs. rewrite <- (proj1 Hu). exact Hreg.
Qed.

Lemma running_all s s' :
  running_is_active s -> (forall id, untouched s s' id) -> running_is_active s'.
Proof.
  intros Hs Hu id Hreg. apply (active_untouched s s' id (Hu id)).
  apply Hs. rewrite <- (proj1 (Hu id)). exact Hreg.
Qed.

(** A tunnel that [StartTunnel] registers is [active] in the table. *)
Lemma StartTunnel_self w j s :
  activeTunnels s !! j = None ->
  is_Some (activeTunnels (snd (StartTunnel w j s)) !! j) ->
  persisted_status (snd (StartTunnel w j s)) j = Some TunnelStatusActive.
Proof.
  intros Hnone. unfold StartTunnel.
  destruct (TunnelRepository.GetByID (tunnelRepo s) j) as [tunnel|e] eqn:Eget;
    cbn [snd]; [|rewrite Hnone; intros [? H]; discriminate H].
  destruct (GetByID_In _ _ _ Eget) as [Hid _].
  rewrite Hnone.
  destruct (hostService_GetHost w _) as [host|e];
    cbn [snd]; [|rewrite Hnone; intros [? H]; discriminate H].
  destruct (createSSHConnection w host) as [c|e]; cbn [snd].
  2:{ cbn [activeTunnels UpdateStatus addConnectionLog do_effect set_repo].
      rewrite Hnone. intros [? H]; discriminate H. }
  assert (Eact : activeTunnels s !! Tunnel.ID tunnel = None) by (rewrite Hid; exact Hnone).
  destruct (start_forward w tunnel c s) as [[r s1]|] eqn:Estart; cbn [snd].
  2:{ cbn [activeTunnels do_effect]. rewrite Hnone. intros [? H]; discriminate H. }
  destruct (start_forward_absent w tunnel c s r s1 Eact Estart) as (Ha & Hr & _).
  destruct r as [e|]; cbn [snd].
  - cbn [activeTunnels UpdateStatus addConnectionLog do_effect set_repo].
    rewrite Ha, Hnone. intros [? H]; discriminate H.
  - intros _. rewrite persisted_status_log.
    apply (persisted_status_set _ _ _ tunnel).
    cbn [tunnelRepo set_active]. rewrite Hr. exact Eget.
Qed.

Lemma running_StartTunnel w j s :
  running_is_active s -> running_is_active (snd (StartTunnel w j s)).
Proof.
  intros Hs. destruct (activeTunnels s !! j) as [a|] eqn:E.
  - assert (Hsame : snd (StartTunnel w j s) = s).
    { unfold StartTunnel.
      destruct (TunnelRepository.GetByID (tunnelRepo s) j); [|reflexivity].
      rewrite E. reflexivity. }
    rewrite Hsame. exact Hs.
  - apply (running_step s _ j Hs).
    + intros id Hne. apply untouched_StartTunnel, Hne.
    + apply StartTunnel_self, E.
Qed.

Lemma running_StopTunnel j s :
  running_is_active s -> running_is_active (snd (StopTunnel j s)).
Proof.
  intros Hs. apply (running_step s _ j Hs).
  - intros id Hne. apply untouched_StopTunnel, Hne.
  - rewrite StopTunnel_self. intros [? H]; discriminate H.
Qed.

Lemma running_UpdateTunnel w t s :
  running_is_active s -> running_is_active (snd (UpdateTunnel w t s)).
Proof.
  intros Hs. apply (running_step s _ (Tunnel.ID t) Hs).
  - intros id Hne. apply untouched_UpdateTunnel, Hne.
  - unfold UpdateTunnel.
    destruct (validateTunnelConfig t) as [t1|e] eqn:Ev; cbn [snd]; [|apply Hs].
    rewrite <- (validate_ID _ _ Ev).
    destruct (activeTunnels s !! Tunnel.ID t1) eqn:Ereg.
    + pose proof (StopTunnel_self (Tunnel.ID t1) s) as Hself.
      destruct (StopTunnel (Tunnel.ID t1) s) as [[e|] s1]; cbn [snd] in *.
      { rewrite Hself. intros [? H]; discriminate H. }
      destruct (TunnelRepository.Update (tunnelRepo s1) t1) as [[e|] repo];
        cbn [snd].
      { cbn [activeTunnels set_repo]. rewrite Hself. intros [? H]; discriminate H. }
      apply StartTunnel_self. exact Hself.
    + destruct (TunnelRepository.Update (tunnelRepo s) t1) as [e repo].
      cbn [snd activeTunnels set_repo]. rewrite Ereg. intros [? H]; discriminate H.
Qed.

Lemma running_start_each w ids :
  forall s, running_is_active s -> running_is_active (start_each w ids s).
Proof.
  induction ids as [|j ids IH]; intros s Hs; cbn [start_each]; [exact Hs|].
  apply IH, running_StartTunnel, Hs.
Qed.

Lemma running_stop_each ids :
  forall s, running_is_active s -> running_is_active (stop_each ids s).
Proof.
  induction ids as [|j ids IH]; intros s Hs; cbn [stop_each]; [exact Hs|].
  apply IH, running_StopTunnel, Hs.
Qed.

Lemma running_run w c s : running_is_active s -> running_is_active (run w c s).
Proof.
  intros Hs. destruct c; cbn [run].
  - apply (running_all s _ Hs). intros id. apply untouched_CreateTunnel.
  - apply (running_all s _ Hs). intros id. unfold CreateMultipleLocalForwards.
    pose proof (untouched_create_each w hostID localServices s id) as H.
    destruct (create_each w hostID localServices s) as [[created errors] s1].
    destruct (0 <? length errors)%nat; exact H.
  - apply (running_all s _ Hs). intros id. unfold CreateDynamicSOCKS5Tunnel.
    destruct (find_socks_port w) as [port|e]; [|apply untouched_refl].
    match goal with |- context [CreateTunnel w ?t s] =>
      pose proof (untouched_CreateTunnel w t s id) as H;
      destruct (CreateTunnel w t s) as [[t'|e] s1] end; exact H.
  - apply running_UpdateTunnel, Hs.
  - unfold DeleteTunnel.
    pose proof (running_StopTunnel id s Hs) as H1.
    destruct (StopTunnel id s) as [e s1] eqn:Es. cbn [snd] in *.
    apply (running_step s1 _ id H1).
    + intros j Hne. split; [reflexivity|]. intros x H. cbn [tunnelRepo set_repo].
      rewrite GetByID_Delete_other by exact Hne. exact H.
    + cbn [activeTunnels set_repo].
      pose proof (StopTunnel_self id s) as Hself. rewrite Es in Hself.
      cbn [snd] in Hself. rewrite Hself. intros [? H]; discriminate H.
  - apply running_StartTunnel, Hs.
  - apply running_StopTunnel, Hs.
  - unfold RestartTunnel.
    pose proof (running_StopTunnel id s Hs) as H1.
    destruct (StopTunnel id s) as [[e|] s1]; cbn [snd] in H1.
    + destruct (bytes_eqb e _); [|exact H1].
      apply running_StartTunnel. exact H1.
    + apply running_StartTunnel. exact H1.
  - apply running_start_each, Hs.
  - apply running_stop_each, Hs.
Qed.

Lemma reachable_running s : reachable s -> running_is_active s.
Proof.
  induction 1 as [repo | w c s _ IH].
  - intros id [a Ha]. cbn in Ha. rewrite lookup_empty in Ha. discriminate Ha.
  - apply running_run, IH.
Qed.

(** X14. While the calls of the service are taken one at a time, a
    tunnel that has a handle in the registry is [active] in the table
    too: for a running tunnel [GetTunnelStatus] and the persisted
    status agree.  Two [StartTunnel] calls of one tunnel that overlap
    break this: both pass the registry check, the first registers its
    handle and writes [active], the bind of the second then fails and
    writes [error]; [GetTunnelStatus] answers [active] for a tunnel
    whose row says [error]. *)
Theorem running_tunnels_are_active :
  (forall s id,
     reachable s ->
     is_Some (activeTunnels s !! id) ->
     persisted_status s id = Some TunnelStatusActive /\
     GetTunnelStatus id s = Ok TunnelStatusActive) /\
  (let m := Overlap.play Overlap.double_start (Overlap.mkMachine example_service []) in
   Overlap.reachable m /\
   Overlap.starting m
   = [(1%N, Overlap.Returned
              (Some (str "failed to start tunnel: failed to listen on 127.0.0.1:9000: bind: address already in use")))] /\
   is_Some (activeTunnels (Overlap.service m) !! 1%N) /\
   persisted_status (Overlap.service m) 1 = Some TunnelStatusError /\
   GetTunnelStatus 1 (Overlap.service m) = Ok TunnelStatusActive).
Proof.
  split.
  - intros s id Hs Hreg. split; [apply (reachable_running s Hs id Hreg)|].
    unfold GetTunnelStatus. destruct Hreg as [a ->]. reflexivity.
  - intros m. split; [apply reachable_play; constructor|].
    split; [vm_compute; reflexivity|].
    split; [vm_compute; eexists; reflexivity|].
    split; vm_compute; reflexivity.
Qed.

Lemma running_tunnels_are_active_witness :
  persisted_status example_running 1 = Some TunnelStatusActive /\
  GetTunnelStatus 1 example_running = Ok TunnelStatusActive.
Proof.
  apply (proj1 running_tunnels_are_active example_running 1%N example_running_reachable).
  vm_compute. eexists. reflexivity.
Defined.

(** ** Starting the auto-start tunnels *)

(** X15. [StartAutoTunnels] returns nil whatever happens to the single
    starts, and it leaves alone every tunnel that is not a live row
    marked [auto_start] -- its handle, its row and its connection
    log: only tunnels so marked can be new in the registry. *)
Theorem StartAutoTunnels_only_auto (w : World) (s : tunnelService) :
  let s' := snd (StartAutoTunnels w s) in
  fst (StartAutoTunnels w s) = None /\
  (forall id,
     (forall t, In t (TunnelRepository.GetAll (tunnelRepo s)) ->
                Tunnel.ID t = id -> Tunnel.AutoStart t = false) ->
     untouched s s' id /\ logs_of s' id = logs_of s id) /\
  (forall id, is_Some (activeTunnels s' !! id) ->
     is_Some (activeTunnels s !! id) \/
     exists t, In t (TunnelRepository.GetAll (tunnelRepo s)) /\
               Tunnel.ID t = id /\ Tunnel.AutoStart t = true).
Proof.
  intros s'. unfold s', StartAutoTunnels. cbn [fst snd]. clear s'.
  set (ids := map Tunnel.ID (TunnelRepository.GetAutoStartTunnels (tunnelRepo s))).
  assert (Hids : forall id, In id ids <->
            exists t, In t (TunnelRepository.GetAll (tunnelRepo s)) /\
                      Tunnel.ID t = id /\ Tunnel.AutoStart t = true).
  { intros id. unfold ids, TunnelRepository.GetAutoStartTunnels.
    rewrite in_map_iff. split.
    - intros (t & Hid & Hin). apply filter_In in Hin. exists t. tauto.
    - intros (t & Hin & Hid & Ha). exists t. split; [exact Hid|].
      apply filter_In. tauto. }
  split; [reflexivity|]. split.
  - intros id Hno.
    assert (Hout : ~ In id ids).
    { intros Hin. apply Hids in Hin. destruct Hin as (t & Hin & Hid & Ha).
      rewrite (Hno t Hin Hid) in Ha. discriminate Ha. }
    split; [apply untouched_start_each | apply logs_of_start_each]; exact Hout.
  - intros id Hreg.
    destruct (in_dec N.eq_dec id ids) as [Hin|Hout].
    + right. apply Hids. exact Hin.
    + left. rewrite <- (proj1 (untouched_start_each w ids s id Hout)). exact Hreg.
Qed.

(** ** Creating tunnels *)

Ltac tunnel_fields :=
  cbn [Tunnel.ID Tunnel.HostID Tunnel.Name Tunnel.Type_ Tunnel.LocalAddress
       Tunnel.LocalPort Tunnel.RemoteAddress Tunnel.RemotePort Tunnel.Description
       Tunnel.Status Tunnel.AutoStart Tunnel.DeletedAt
       Tunnel.set_ID Tunnel.set_LocalAddress Tunnel.set_RemoteAddress
       Tunnel.set_Status Tunnel.set_DeletedAt] in *.

(** What [validateTunnelConfig] lets through. *)
Lemma validate_shape (t t1 : Tunnel.t) :
  validateTunnelConfig t = Ok t1 ->
  known_type (Tunnel.Type_ t1) /\
  (Tunnel.Type_ t1 <> TunnelTypeDynamic ->
   Tunnel.RemoteAddress t1 <> [] /\ Tunnel.RemotePort t1 <> 0%Z) /\
  Tunnel.ID t1 = Tunnel.ID t /\ Tunnel.HostID t1 = Tunnel.HostID t /\
  Tunnel.Name t1 = Tunnel.Name t /\ Tunnel.Type_ t1 = Tunnel.Type_ t /\
  Tunnel.LocalAddress t1 = Tunnel.LocalAddress t /\
  Tunnel.LocalPort t1 = Tunnel.LocalPort t /\
  Tunnel.RemotePort t1 = Tunnel.RemotePort t /\
  Tunnel.AutoStart t1 = Tunnel.AutoStart t /\
  Tunnel.DeletedAt t1 = Tunnel.DeletedAt t.
Proof.
  unfold validateTunnelConfig, known_type.
  destruct t as [id hid nm ty la lp ra rp de st au del]. tunnel_fields.
  destruct nm as [|c nm]; [discriminate|].
  destruct (N.eqb hid 0); [discriminate|].
  destruct (Z.eqb lp 0); [discriminate|].
  destruct (bytes_eqb ty TunnelTypeLocalForward) eqn:E1.
  { apply bytes_eqb_eq in E1. destruct ra as [|r ra]; [discriminate|].
    destruct (Z.eqb_spec rp 0); [discriminate|].
    intros H. injection H as <-. tunnel_fields.
    repeat split; auto; discriminate. }
  destruct (bytes_eqb ty TunnelTypeRemoteForward) eqn:E2.
  { apply bytes_eqb_eq in E2. destruct ra as [|r ra]; tunnel_fields;
      (destruct (Z.eqb_spec rp 0); [discriminate|]);
      intros H; injection H as <-; tunnel_fields;
      repeat split; auto; discriminate. }
  destruct (bytes_eqb ty TunnelTypeDynamic) eqn:E3; [|discriminate].
  apply bytes_eqb_eq in E3. intros H. injection H as <-. tunnel_fields.
  repeat split; auto; contradiction.
Qed.

Lemma find_none_snoc (id : N) (rows : list Tunnel.t) (t : Tunnel.t) :
  (forall y, In y rows -> Tunnel.ID y <> id) ->
  Tunnel.ID t = id -> Tunnel.DeletedAt t = false ->
  find (fun x => N.eqb (Tunnel.ID x) id)
       (List.filter TunnelRepository.live (rows ++ [t])) = Some t.
Proof.
  intros Hrows Hid Hlive. rewrite List.filter_app.
  cbn [List.filter]. unfold TunnelRepository.live at 2. rewrite Hlive. cbn [negb].
  induction rows as [|y rows IH]; cbn [List.filter app find].
  - rewrite Hid, N.eqb_refl. reflexivity.
  - assert (Hy : N.eqb (Tunnel.ID y) id = false)
      by (apply N.eqb_neq, Hrows; left; reflexivity).
    destruct (TunnelRepository.live y); cbn [find app]; rewrite ?Hy;
      apply IH; intros z Hz; apply Hrows; right; exact Hz.
Qed.

Lemma next_id_nonzero (r : TunnelRepository.t) : TunnelRepository.next_id r <> 0%N.
Proof. unfold TunnelRepository.next_id. lia. Qed.

(** The row [db.Create] writes can be read back. *)
Lemma created_row_readable (r : TunnelRepository.t) (x t' : Tunnel.t) :
  Tunnel.DeletedAt x = false ->
  created_row r x t' ->
  Tunnel.ID t' <> 0%N /\
  (Tunnel.ID x <> 0%N -> Tunnel.ID t' = Tunnel.ID x) /\
  t' = Tunnel.set_ID (TunnelRepository.with_defaults x) (Tunnel.ID t') /\
  TunnelRepository.GetByID
    (TunnelRepository.mk (TunnelRepository.tunnels r ++ [t'])
                         (TunnelRepository.connection_logs r)) (Tunnel.ID t')
  = Ok t'.
Proof.
  intros Hdel. unfold created_row. cbv zeta.
  pose proof (with_defaults_ID x) as Hwid.
  assert (Hwdel : Tunnel.DeletedAt (TunnelRepository.with_defaults x) = false).
  { unfold TunnelRepository.with_defaults.
    destruct (Tunnel.LocalAddress x); destruct x; tunnel_fields;
      match goal with |- context [match ?s with [] => _ | _ => _ end] =>
        destruct s end; exact Hdel. }
  unfold TunnelRepository.GetByID, TunnelRepository.GetAll.
  cbn [TunnelRepository.tunnels].
  intros [[E ->] | (E & Hrow & ->)].
  - split; [apply next_id_nonzero|]. split; [rewrite <- Hwid; contradiction|].
    split; [destruct (TunnelRepository.with_defaults x); reflexivity|].
    rewrite find_none_snoc; [reflexivity| | |].
    + intros y Hy. apply next_id_fresh in Hy.
      destruct (TunnelRepository.with_defaults x); tunnel_fields. lia.
    + reflexivity.
    + destruct (TunnelRepository.with_defaults x); exact Hwdel.
  - split; [exact E|]. split; [intros _; exact Hwid|].
    split; [destruct (TunnelRepository.with_defaults x); reflexivity|].
    rewrite find_none_snoc; [reflexivity| | |].
    + intros y Hy. apply (has_row_false _ _ _ Hrow Hy).
    + reflexivity.
    + exact Hwdel.
Qed.

Lemma CreateTunnel_row (w : World) (tunnel : Tunnel.t) (s : tunnelService)
        (t' : Tunnel.t) (s' : tunnelService) :
  Tunnel.DeletedAt tunnel = false ->
  CreateTunnel w tunnel s = (Ok t', s') ->
  TunnelRepository.GetByID (tunnelRepo s') (Tunnel.ID t') = Ok t' /\
  TunnelRepository.tunnels (tunnelRepo s')
  = TunnelRepository.tunnels (tunnelRepo s) ++ [t'] /\
  activeTunnels s' = activeTunnels s /\
  Tunnel.ID t' <> 0%N /\
  (Tunnel.ID tunnel <> 0%N -> Tunnel.ID t' = Tunnel.ID tunnel) /\
  Tunnel.Status t' = TunnelStatusInactive /\
  Tunnel.Name t' = Tunnel.Name tunnel /\ Tunnel.Name t' <> [] /\
  Tunnel.HostID t' = Tunnel.HostID tunnel /\ Tunnel.HostID t' <> 0%N /\
  Tunnel.LocalPort t' = Tunnel.LocalPort tunnel /\ Tunnel.LocalPort t' <> 0%Z /\
  Tunnel.LocalAddress t'
  = match Tunnel.LocalAddress tunnel with
    | [] => str "127.0.0.1"
    | _ :: _ => Tunnel.LocalAddress tunnel
    end /\
  Tunnel.Type_ t' = Tunnel.Type_ tunnel /\ known_type (Tunnel.Type_ t') /\
  (Tunnel.Type_ t' <> TunnelTypeDynamic ->
   Tunnel.RemoteAddress t' <> [] /\ Tunnel.RemotePort t' <> 0%Z).
Proof.
  intros Hdel Hc.
  pose proof (CreateTunnel_cases w tunnel s) as H. rewrite Hc in H.
  destruct H as (t1 & Hv & _ & _ & Hrow & Hrepo).
  pose proof (active_CreateTunnel w tunnel s) as Hact. rewrite Hc in Hact.
  cbn [snd] in Hact.
  destruct (validateTunnelConfig_Ok _ _ Hv) as (Hname & Hhost & Hport & _).
  destruct (validate_shape _ _ Hv)
    as (Hty & Hrem & Hid & Hhid & Hnm & Htype & Hla & Hlp & Hrp & Hau & Hd).
  destruct (created_row_readable (tunnelRepo s)
              (Tunnel.set_Status t1 TunnelStatusInactive) t') as (Hnz & He & Hshape & Hread).
  { destruct t1; tunnel_fields. congruence. }
  { exact Hrow. }
  rewrite Hrepo. split; [exact Hread|]. split; [reflexivity|].
  split; [exact Hact|]. split; [exact Hnz|].
  split. { intros Hne. rewrite <- Hid. apply He. destruct t1; tunnel_fields. congruence. }
  clear Hread Hrow Hrepo He Hv Hc Hact.
  destruct t1 as [id1 hid1 nm1 ty1 la1 lp1 ra1 rp1 de1 st1 au1 del1].
  destruct tunnel as [id hid nm ty la lp ra rp de st au del]. tunnel_fields.
  subst id1 hid1 nm1 ty1 la1 lp1 rp1 au1 del1.
  rewrite Hshape. unfold TunnelRepository.with_defaults. tunnel_fields.
  destruct la as [|a la]; tunnel_fields;
    change (Tunnel.Status _) with (str "inactive") at 1;
    unfold TunnelStatusInactive, str; cbn [list_ascii_of_string]; tunnel_fields;
    repeat split; auto; apply Hrem; assumption.
Qed.

Lemma create_each_spec w hostID services :
  forall s,
    let '((created, errors), s') := create_each w hostID services s in
    (length created + length errors = length services)%nat /\
    TunnelRepository.tunnels (tunnelRepo s')
    = TunnelRepository.tunnels (tunnelRepo s) ++ created /\
    Forall (fun t => Tunnel.Type_ t = TunnelTypeRemoteForward /\
                     Tunnel.HostID t = hostID /\
                     Tunnel.Status t = TunnelStatusInactive /\
                     Tunnel.ID t <> 0%N) created.
Proof.
  induction services as [|svc rest IH]; intros s; cbn [create_each].
  - rewrite app_nil_r. repeat split. constructor.
  - match goal with |- context [CreateTunnel w ?t s] => set (tunnel := t) end.
    pose proof (CreateTunnel_cases w tunnel s) as Hc.
    destruct (CreateTunnel w tunnel s) as [[t'|e] s1] eqn:Ec.
    + pose proof (CreateTunnel_row w tunnel s t' s1 eq_refl Ec)
        as (_ & Hrows & _ & Hnz & _ & Hst & _ & _ & Hhid & _ & _ & _ & _ & Hty & _).
      specialize (IH s1).
      destruct (create_each w hostID rest s1) as [[created errors] s2].
      destruct IH as (Hlen & Hrows2 & Hall).
      split; [cbn [length]; lia|]. split.
      * rewrite Hrows2, Hrows, <- app_assoc. reflexivity.
      * constructor; [|exact Hall]. repeat split; assumption.
    + specialize (IH s1).
      destruct (create_each w hostID rest s1) as [[created errors] s2].
      destruct IH as (Hlen & Hrows2 & Hall).
      split; [cbn [length]; lia|]. split; [|exact Hall].
      rewrite Hrows2, Hc. reflexivity.
Qed.

(** X16. What [CreateTunnel] stores.  The tunnel it returns can be read
    back under its key, which is not zero; it is [inactive] whatever
    the request said, and no tunnel is started.  The row has a name,
    a host, a local port and a local address (127.0.0.1 when the
    request gave none), its kind is one of the three, and unless it
    is dynamic it has a remote address (0.0.0.0 by default for a
    remote forward) and a remote port. *)
Theorem CreateTunnel_stores (w : World) (tunnel : Tunnel.t) (s : tunnelService)
        (t' : Tunnel.t) (s' : tunnelService) :
  Tunnel.DeletedAt tunnel = false ->
  CreateTunnel w tunnel s = (Ok t', s') ->
  TunnelRepository.GetByID (tunnelRepo s') (Tunnel.ID t') = Ok t' /\
  TunnelRepository.tunnels (tunnelRepo s')
  = TunnelRepository.tunnels (tunnelRepo s) ++ [t'] /\
  activeTunnels s' = activeTunnels s /\
  Tunnel.ID t' <> 0%N /\
  (Tunnel.ID tunnel <> 0%N -> Tunnel.ID t' = Tunnel.ID tunnel) /\
  Tunnel.Status t' = TunnelStatusInactive /\
  Tunnel.Name t' = Tunnel.Name tunnel /\ Tunnel.Name t' <> [] /\
  Tunnel.HostID t' = Tunnel.HostID tunnel /\ Tunnel.HostID t' <> 0%N /\
  Tunnel.LocalPort t' = Tunnel.LocalPort tunnel /\ Tunnel.LocalPort t' <> 0%Z /\
  Tunnel.LocalAddress t'
  = match Tunnel.LocalAddress tunnel with
    | [] => str "127.0.0.1"
    | _ :: _ => Tunnel.LocalAddress tunnel
    end /\
  Tunnel.Type_ t' = Tunnel.Type_ tunnel /\ known_type (Tunnel.Type_ t') /\
  (Tunnel.Type_ t' <> TunnelTypeDynamic ->
   Tunnel.RemoteAddress t' <> [] /\ Tunnel.RemotePort t' <> 0%Z).
Proof.
  intros Hdel Hc. exact (CreateTunnel_row w tunnel s t' s' Hdel Hc).
Qed.

Lemma CreateTunnel_stores_witness :
  exists t' s',
    CreateTunnel example_world (example_forward 0 9002) example_service = (Ok t', s') /\
    TunnelRepository.GetByID (tunnelRepo s') (Tunnel.ID t') = Ok t' /\
    Tunnel.ID t' = 3%N /\ Tunnel.Status t' = TunnelStatusInactive.
Proof.
  eexists. eexists. split; [vm_compute; reflexivity|].
  split; [|split; reflexivity].
  apply (CreateTunnel_stores example_world (example_forward 0 9002) example_service);
    [reflexivity | vm_compute; reflexivity].
Defined.

(** X17. [CreateMultipleLocalForwards] creates the mappings one by
    one and keeps what it created when a later one fails: the rows
    appended to the table are exactly the tunnels it returns, each a
    remote forward of the host, [inactive]; the error is nil
    exactly when every mapping was created, and no tunnel is
    started. *)
Theorem CreateMultipleLocalForwards_accounting (w : World) (hostID : N)
        (services : list LocalServiceMapping) (s : tunnelService) :
  let '((created, err), s') := CreateMultipleLocalForwards w hostID services s in
  TunnelRepository.tunnels (tunnelRepo s')
  = TunnelRepository.tunnels (tunnelRepo s) ++ created /\
  (length created <= length services)%nat /\
  (err = None <-> length created = length services) /\
  Forall (fun t => Tunnel.Type_ t = TunnelTypeRemoteForward /\
                   Tunnel.HostID t = hostID /\
                   Tunnel.Status t = TunnelStatusInactive /\
                   Tunnel.ID t <> 0%N) created /\
  activeTunnels s' = activeTunnels s.
Proof.
  pose proof (active_CreateMultipleLocalForwards w hostID services s) as Hact.
  unfold CreateMultipleLocalForwards in *.
  pose proof (create_each_spec w hostID services s) as H.
  destruct (create_each w hostID services s) as [[created errors] s1].
  destruct H as (Hlen & Hrows & Hall).
  destruct errors as [|e errors]; cbn [length Nat.ltb Nat.leb] in *.
  - split; [exact Hrows|]. split; [lia|]. split; [|split; assumption].
    split; [intros _; lia | reflexivity].
  - split; [exact Hrows|]. split; [lia|]. split; [|split; assumption].
    split; [discriminate | intros; lia].
Qed.

(** Two mappings, the second without a remote port: the first is
    created and stays, and the call reports an error. *)
Lemma CreateMultipleLocalForwards_accounting_witness :
  let '((created, err), s') :=
    CreateMultipleLocalForwards example_world 1 example_mappings example_service in
  length created = 1%nat /\ err <> None /\
  TunnelRepository.tunnels (tunnelRepo s')
  = TunnelRepository.tunnels (tunnelRepo example_service) ++ created.
Proof.
  pose proof (CreateMultipleLocalForwards_accounting example_world 1
                example_mappings example_service) as H.
  destruct (CreateMultipleLocalForwards example_world 1 example_mappings
              example_service) as [[created err] s'] eqn:E.
  destruct H as (Hrows & _ & Herr & _ & _).
  vm_compute in E. injection E as <- <- <-.
  split; [reflexivity|]. split; [|exact Hrows].
  intros Hn. apply Herr in Hn. discriminate Hn.
Defined.

End EngineMoreFacts.

(* ================================================================== *)
(** * The SOCKS5 server: the shape of a session *)

Module Socks5SessionFacts.
Import GoStringsFacts Socks5 Socks5Facts Socks5Sessions.

Lemma conn_Read_events (conn : Conn) :
  events (snd (conn_Read conn)) = events conn.
Proof.
  unfold conn_Read. destruct (to_read conn) as [|[data|e] rest]; reflexivity.
Qed.

Lemma conn_Write_appends (conn : Conn) (data : bytes) :
  events (snd (conn_Write conn data)) = events conn ++ [Write data].
Proof. rewrite conn_Write_events. reflexivity. Qed.

(** The events of [handleAuth]: nothing, or one greeting. *)
Lemma handleAuth_session (conn : Conn) :
  let (r, c) := handleAuth conn in
  (events c = events conn /\ r <> None) \/
  (events c = events conn ++ [Write refuse] /\ r <> None) \/
  events c = events conn ++ [Write accept].
Proof.
  unfold handleAuth. pose proof (conn_Read_events conn) as Hr.
  destruct (conn_Read conn) as [[[buf n]|e] c]; cbn [snd] in Hr.
  2:{ left. split; [exact Hr | discriminate]. }
  destruct ((n <? 2)%nat || negb (byte_eqb (at_ buf 0) Socks5Version)).
  { left. split; [exact Hr | discriminate]. }
  destruct (n <? 2 + nat_of_ascii (at_ buf 1))%nat.
  { left. split; [exact Hr | discriminate]. }
  destruct (existsb _ _).
  - pose proof (conn_Write_appends c [Socks5Version; AuthMethodNoAuth]) as Hw.
    destruct (conn_Write c _) as [[e|] c']; cbn [snd negb] in *;
      right; right; rewrite Hw, Hr; reflexivity.
  - pose proof (conn_Write_appends c [Socks5Version; AuthMethodNoAcceptable]) as Hw.
    destruct (conn_Write c _) as [[e|] c']; cbn [snd negb] in *;
      right; left; rewrite Hw, Hr; split; try reflexivity; discriminate.
Qed.

Section WithIP.
Variable IP_String : bytes -> bytes.

Abbreviation handleRequest := (Socks5.handleRequest IP_String).
Abbreviation HandleConnection := (Socks5.HandleConnection IP_String).

(** The events of [handleRequest], with [Write accept] before and
    [Close] after them. *)
Lemma handleRequest_session (s : SOCKS5Server) (conn : Conn) :
  exists evs,
    events (snd (handleRequest s conn)) = events conn ++ evs /\
    session ([Write accept] ++ evs ++ [Close]).
Proof.
  unfold Socks5.handleRequest. pose proof (conn_Read_events conn) as Hr.
  destruct (conn_Read conn) as [[[buf n]|e] c]; cbn [snd] in Hr.
  2:{ exists []. cbn [snd]. rewrite app_nil_r. split; [exact Hr | constructor]. }
  destruct ((n <? 4)%nat || negb (byte_eqb (at_ buf 0) Socks5Version)).
  { exists []. cbn [snd]. rewrite app_nil_r. split; [exact Hr | constructor]. }
  destruct (negb (byte_eqb (at_ buf 1) CmdConnect)).
  { pose proof (conn_Write_appends c (reply RepCommandNotSupported)) as Hw.
    destruct (conn_Write c _) as [r c']. cbn [snd] in *.
    exists [Write (reply RepCommandNotSupported)].
    rewrite Hw, Hr. split; [reflexivity|].
    apply session_refused. left. reflexivity. }
  destruct (Socks5.parse_dest IP_String buf n (at_ buf 3))
    as [[[|] err]|[destAddr destPort]].
  - pose proof (conn_Write_appends c (reply RepAddressNotSupported)) as Hw.
    destruct (conn_Write c _) as [r c']. cbn [snd] in *.
    exists [Write (reply RepAddressNotSupported)].
    rewrite Hw, Hr. split; [reflexivity|].
    apply session_refused. right. reflexivity.
  - exists []. cbn [snd]. rewrite app_nil_r. split; [exact Hr | constructor].
  - cbv zeta.
    set (target := JoinHostPort destAddr (Itoa destPort)).
    destruct (sshClient_Dial s (str "tcp") target).
    + pose proof (conn_Write_appends (emit c (Dial (str "tcp") target))
                                     (reply RepHostUnreachable)) as Hw.
      destruct (conn_Write _ _) as [r c']. cbn [snd] in *.
      exists [Dial (str "tcp") target; Write (reply RepHostUnreachable)].
      rewrite Hw. unfold emit. cbn [events]. rewrite Hr, <- app_assoc.
      split; [reflexivity | apply session_unreachable].
    + pose proof (conn_Write_appends (emit c (Dial (str "tcp") target))
                                     (reply RepSuccess)) as Hw.
      destruct (conn_Write _ _) as [[e|] c']; cbn [snd] in *;
        unfold emit in *; cbn [events] in *; rewrite Hw, Hr.
      * exists [Dial (str "tcp") target; Write (reply RepSuccess); RemoteClose].
        rewrite <- !app_assoc. split; [reflexivity | apply session_reply_lost].
      * exists [Dial (str "tcp") target; Write (reply RepSuccess); Relay;
                RemoteClose].
        rewrite <- !app_assoc. split; [reflexivity | apply session_relayed].
Qed.

(** X18. Every connection of the SOCKS5 server runs one of seven
    sessions.  The server writes at most two messages and dials at
    most once, and only after it has accepted the no-auth method;
    it relays only after the success reply went out; a target it
    reached is closed again; and [conn.Close()] is its last act,
    once. *)
Theorem HandleConnection_session (s : SOCKS5Server) (conn : Conn) :
  exists evs,
    events (snd (HandleConnection s conn)) = events conn ++ evs /\
    session evs.
Proof.
  unfold Socks5.HandleConnection.
  pose proof (handleAuth_session conn) as Ha.
  destruct (handleAuth conn) as [[e|] c]; cbn [snd].
  - unfold emit. cbn [events].
    destruct Ha as [[Ha _] | [[Ha _] | Ha]]; rewrite Ha.
    + exists [Close]. split; [reflexivity | constructor].
    + exists [Write refuse; Close]. rewrite <- app_assoc.
      split; [reflexivity | constructor].
    + exists [Write accept; Close]. rewrite <- app_assoc.
      split; [reflexivity | constructor].
  - destruct Ha as [[_ Ha] | [[_ Ha] | Ha]]; try contradiction.
    destruct (handleRequest_session s c) as (evs & He & Hs).
    destruct (handleRequest s c) as [[e|] c']; cbn [snd] in *;
      unfold emit; cbn [events]; rewrite He, Ha;
      exists ([Write accept] ++ evs ++ [Close]);
      rewrite <- !app_assoc; (split; [reflexivity | exact Hs]).
Qed.

(** X19. A CONNECT request that is cut short -- fewer than ten bytes
    for an IPv4 destination, fewer than the name and the port need
    for a domain, fewer than twenty-two for IPv6 -- is dropped:
    [handleRequest] returns an error and has written nothing and
    dialled nothing. *)
Theorem truncated_request_no_reply (s : SOCKS5Server) (data : bytes)
        (more : list (result bytes)) (wr : list (option error)) (ev : list event) :
  wf_request_head data ->
  at_ data 1 = CmdConnect ->
  truncated data ->
  exists e,
    handleRequest s (mkConn (Ok data :: more) wr ev)
    = (Some e, mkConn more wr ev).
Proof.
  intros Hwf Hcmd Htr.
  rewrite (handleRequest_head IP_String s data more wr ev Hwf). cbv zeta.
  rewrite Hcmd, byte_eqb_refl. cbn [negb].
  destruct Hwf as ([Hlo Hhi] & _).
  unfold Socks5.parse_dest.
  destruct Htr as [[Hty Hlen] | [[Hty Hlen] | [Hty Hlen]]]; rewrite Hty.
  - change (byte_eqb AtypIPV4 AtypIPV4) with true. cbv iota.
    destruct (Nat.ltb_spec (length data) (4 + 6)) as [_|H]; [|lia].
    eexists. reflexivity.
  - change (byte_eqb AtypDomain AtypIPV4) with false.
    change (byte_eqb AtypDomain AtypDomain) with true. cbv iota.
    destruct (Nat.ltb_spec (length data) (4 + 1)) as [_|H1];
      [eexists; reflexivity|].
    rewrite at_buf by lia.
    destruct (Nat.ltb_spec (length data) (4 + 1 + nat_of_ascii (at_ data 4) + 2))
      as [_|H2]; [eexists; reflexivity | lia].
  - change (byte_eqb AtypIPV6 AtypIPV4) with false.
    change (byte_eqb AtypIPV6 AtypDomain) with false.
    change (byte_eqb AtypIPV6 AtypIPV6) with true. cbv iota.
    destruct (Nat.ltb_spec (length data) (4 + 18)) as [_|H]; [|lia].
    eexists. reflexivity.
Qed.

End WithIP.

(** A CONNECT to 127.0.0.1 whose port is missing. *)
Lemma truncated_request_no_reply_witness :
  exists e,
    Socks5.handleRequest IPv4_String (mkServer (fun _ _ => None) None)
      (mkConn [Ok (map ascii_of_nat [5; 1; 0; 1; 127; 0; 0; 1]%nat)] [] [])
    = (Some e, mkConn [] [] []).
Proof.
  apply (truncated_request_no_reply IPv4_String (mkServer (fun _ _ => None) None)
           (map ascii_of_nat [5; 1; 0; 1; 127; 0; 0; 1]%nat) [] [] []).
  - vm_compute. repeat split; try reflexivity; lia.
  - reflexivity.
  - left. split; [reflexivity | vm_compute; lia].
Defined.

End Socks5SessionFacts.

(* ================================================================== *)
(** * The traffic service: counters *)

Module TrafficFacts.
Import Traffic.
Local Open Scope Z_scope.

Lemma wrap64_range (x : Z) : - 2 ^ 63 <= wrap64 x < 2 ^ 63.
Proof.
  unfold wrap64. pose proof (Z.mod_pos_bound (x + 2 ^ 63) (2 ^ 64) eq_refl). lia.
Qed.

Lemma wrap64_id (x : Z) : - 2 ^ 63 <= x < 2 ^ 63 -> wrap64 x = x.
Proof.
  intros H. unfold wrap64. rewrite Z.mod_small; lia.
Qed.

Lemma wrap64_add (a b : Z) : wrap64 (wrap64 a + b) = wrap64 (a + b).
Proof.
  unfold wrap64.
  replace ((a + 2 ^ 63) mod 2 ^ 64 - 2 ^ 63 + b + 2 ^ 63)
    with ((a + 2 ^ 63) mod 2 ^ 64 + b) by lia.
  rewrite Zplus_mod_idemp_l.
  replace (a + 2 ^ 63 + b) with (a + b + 2 ^ 63) by lia. reflexivity.
Qed.

Section WithFloat.

Variable float64 : Type.
Variable float_zero : float64.
Variable per_second : Z -> Z -> float64.


(** What one call adds to the inbound counter of [id]. *)
Lemma bytes_in_run (c : call) (s : trafficService float64) (id : N) :
  bytes_in float64 (run float64 float_zero per_second c s) id =
  match c with
  | CallLogTraffic id' bytesIn _ _ _ =>
      if N.eqb id' id then wrap64 (bytes_in float64 s id + bytesIn)
      else bytes_in float64 s id
  | _ => bytes_in float64 s id
  end.
Proof.
  unfold Traffic.bytes_in.
  destruct c as [id' bi bo t0 now | id' t0 | id']; cbn [Traffic.run].
  - unfold LogTraffic. cbn [Traffic.realtimeStats].
    destruct (N.eqb_spec id' id) as [->|Hne].
    + rewrite lookup_insert_eq. destruct (realtimeStats float64 s !! id); reflexivity.
    + rewrite lookup_insert_ne by exact Hne. reflexivity.
  - unfold IncrementConnection. cbn [Traffic.realtimeStats].
    destruct (N.eqb_spec id' id) as [->|Hne].
    + rewrite lookup_insert_eq. destruct (realtimeStats float64 s !! id); reflexivity.
    + rewrite lookup_insert_ne by exact Hne. reflexivity.
  - unfold DecrementConnection.
    destruct (realtimeStats float64 s !! id') as [st|] eqn:E; [|reflexivity].
    destruct (0 <? ActiveConnections float64 st); [|reflexivity].
    cbn [Traffic.realtimeStats].
    destruct (N.eqb_spec id' id) as [->|Hne].
    + rewrite lookup_insert_eq, E. reflexivity.
    + rewrite lookup_insert_ne by exact Hne. reflexivity.
Qed.

Lemma bytes_out_run (c : call) (s : trafficService float64) (id : N) :
  bytes_out float64 (run float64 float_zero per_second c s) id =
  match c with
  | CallLogTraffic id' _ bytesOut _ _ =>
      if N.eqb id' id then wrap64 (bytes_out float64 s id + bytesOut)
      else bytes_out float64 s id
  | _ => bytes_out float64 s id
  end.
Proof.
  unfold Traffic.bytes_out.
  destruct c as [id' bi bo t0 now | id' t0 | id']; cbn [Traffic.run].
  - unfold LogTraffic. cbn [Traffic.realtimeStats].
    destruct (N.eqb_spec id' id) as [->|Hne].
    + rewrite lookup_insert_eq. destruct (realtimeStats float64 s !! id); reflexivity.
    + rewrite lookup_insert_ne by exact Hne. reflexivity.
  - unfold IncrementConnection. cbn [Traffic.realtimeStats].
    destruct (N.eqb_spec id' id) as [->|Hne].
    + rewrite lookup_insert_eq. destruct (realtimeStats float64 s !! id); reflexivity.
    + rewrite lookup_insert_ne by exact Hne. reflexivity.
  - unfold DecrementConnection.
    destruct (realtimeStats float64 s !! id') as [st|] eqn:E; [|reflexivity].
    destruct (0 <? ActiveConnections float64 st); [|reflexivity].
    cbn [Traffic.realtimeStats].
    destruct (N.eqb_spec id' id) as [->|Hne].
    + rewrite lookup_insert_eq, E. reflexivity.
    + rewrite lookup_insert_ne by exact Hne. reflexivity.
Qed.

Lemma bytes_in_fold (cs : list call) (s : trafficService float64) (id : N) :
  - 2 ^ 63 <= bytes_in float64 s id < 2 ^ 63 ->
  bytes_in float64 (fold_left (fun s c => run float64 float_zero per_second c s) cs s) id =
  wrap64 (bytes_in float64 s id + logged_in id cs).
Proof.
  revert s. induction cs as [|c cs IH]; intros s Hr; cbn [fold_left logged_in fold_right].
  - rewrite Z.add_0_r, wrap64_id by exact Hr. reflexivity.
  - pose proof (bytes_in_run c s id) as Hc.
    assert (Hr' : - 2 ^ 63
                  <= bytes_in float64 (run float64 float_zero per_second c s) id
                  < 2 ^ 63).
    { rewrite Hc. destruct c as [id' bi bo t0 now | |]; try exact Hr.
      destruct (N.eqb id' id); [apply wrap64_range | exact Hr]. }
    rewrite (IH _ Hr'), Hc. fold (logged_in id cs).
    destruct c as [id' bi bo t0 now | |]; try reflexivity.
    destruct (N.eqb id' id); [|reflexivity].
    rewrite wrap64_add. f_equal. lia.
Qed.

Lemma bytes_out_fold (cs : list call) (s : trafficService float64) (id : N) :
  - 2 ^ 63 <= bytes_out float64 s id < 2 ^ 63 ->
  bytes_out float64 (fold_left (fun s c => run float64 float_zero per_second c s) cs s) id =
  wrap64 (bytes_out float64 s id + logged_out id cs).
Proof.
  revert s. induction cs as [|c cs IH]; intros s Hr; cbn [fold_left logged_out fold_right].
  - rewrite Z.add_0_r, wrap64_id by exact Hr. reflexivity.
  - pose proof (bytes_out_run c s id) as Hc.
    assert (Hr' : - 2 ^ 63
                  <= bytes_out float64 (run float64 float_zero per_second c s) id
                  < 2 ^ 63).
    { rewrite Hc. destruct c as [id' bi bo t0 now | |]; try exact Hr.
      destruct (N.eqb id' id); [apply wrap64_range | exact Hr]. }
    rewrite (IH _ Hr'), Hc. fold (logged_out id cs).
    destruct c as [id' bi bo t0 now | |]; try reflexivity.
    destruct (N.eqb id' id); [|reflexivity].
    rewrite wrap64_add. f_equal. lia.
Qed.

(** X20. The byte counters of a tunnel are the sums of what [LogTraffic]
    was given for that tunnel since the service was made, as an
    [int64] (they wrap around).  Traffic logged for other tunnels and
    the calls that count connections leave them alone; a tunnel that
    never logged reads 0. *)
Theorem byte_counters_are_sums (cs : list call) (id : N) (now : Z) :
  exists stats,
    GetRealtimeStats float64 float_zero id now
      (after float64 float_zero per_second cs) = Ok stats /\
    CurrentBytesIn float64 stats = wrap64 (logged_in id cs) /\
    CurrentBytesOut float64 stats = wrap64 (logged_out id cs).
Proof.
  assert (Hi0 : bytes_in float64 (NewTrafficService float64) id = 0) by reflexivity.
  assert (Ho0 : bytes_out float64 (NewTrafficService float64) id = 0) by reflexivity.
  pose proof (bytes_in_fold cs (NewTrafficService float64) id) as Hi.
  pose proof (bytes_out_fold cs (NewTrafficService float64) id) as Ho.
  rewrite Hi0 in Hi. rewrite Ho0 in Ho.
  specialize (Hi ltac:(lia)). specialize (Ho ltac:(lia)).
  rewrite Z.add_0_l in Hi, Ho. fold (after float64 float_zero per_second cs) in Hi, Ho.
  unfold Traffic.bytes_in in Hi. unfold Traffic.bytes_out in Ho.
  unfold GetRealtimeStats.
  destruct (realtimeStats float64 (after float64 float_zero per_second cs) !! id) as [st|].
  - exists st. repeat split; assumption.
  - eexists. split; [reflexivity|]. cbn [CurrentBytesIn CurrentBytesOut].
    split; assumption.
Qed.

Lemma counted_run (n : Z) (c : call) (s : trafficService float64) :
  0 <= n -> n + 1 < 2 ^ 63 -> counted float64 n s ->
  counted float64 (n + 1) (run float64 float_zero per_second c s).
Proof.
  unfold counted. intros Hn Hb Hs id st.
  destruct c as [id' bi bo t0 now | id' t0 | id']; cbn [Traffic.run].
  - unfold LogTraffic. cbn [Traffic.realtimeStats].
    destruct (N.eq_dec id' id) as [->|Hne].
    + rewrite lookup_insert_eq. intros [= <-].
      cbn [TunnelID ActiveConnections].
      destruct (realtimeStats float64 s !! id) as [st0|] eqn:E.
      * destruct (Hs _ _ E). split; [assumption | lia].
      * cbn [TunnelID ActiveConnections]. split; [reflexivity | lia].
    + rewrite lookup_insert_ne by exact Hne. intros E.
      destruct (Hs _ _ E). split; [assumption | lia].
  - unfold IncrementConnection. cbn [Traffic.realtimeStats].
    destruct (N.eq_dec id' id) as [->|Hne].
    + rewrite lookup_insert_eq. intros [= <-].
      cbn [TunnelID ActiveConnections].
      destruct (realtimeStats float64 s !! id) as [st0|] eqn:E.
      * destruct (Hs _ _ E). rewrite wrap64_id by lia. split; [assumption | lia].
      * cbn [TunnelID ActiveConnections]. rewrite wrap64_id by lia.
        split; [reflexivity | lia].
    + rewrite lookup_insert_ne by exact Hne. intros E.
      destruct (Hs _ _ E). split; [assumption | lia].
  - unfold DecrementConnection.
    destruct (realtimeStats float64 s !! id') as [st0|] eqn:E0.
    2:{ intros E. destruct (Hs _ _ E). split; [assumption | lia]. }
    destruct (Z.ltb_spec 0 (ActiveConnections float64 st0)) as [Hpos|Hle].
    2:{ intros E. destruct (Hs _ _ E). split; [assumption | lia]. }
    cbn [Traffic.realtimeStats].
    destruct (N.eq_dec id' id) as [->|Hne].
    + rewrite lookup_insert_eq. intros [= <-].
      cbn [TunnelID ActiveConnections].
      destruct (Hs _ _ E0). rewrite wrap64_id by lia. split; [assumption | lia].
    + rewrite lookup_insert_ne by exact Hne. intros E.
      destruct (Hs _ _ E). split; [assumption | lia].
Qed.

Lemma counted_fold (cs : list call) (n : Z) (s : trafficService float64) :
  0 <= n -> n + Z.of_nat (length cs) < 2 ^ 63 -> counted float64 n s ->
  counted float64 (n + Z.of_nat (length cs))
          (fold_left (fun s c => run float64 float_zero per_second c s) cs s).
Proof.
  revert n s. induction cs as [|c cs IH]; intros n s Hn Hb Hs.
  - cbn [fold_left length]. rewrite Z.add_0_r. exact Hs.
  - cbn [fold_left]. cbn [length] in *.
    replace (n + Z.of_nat (S (length cs))) with (n + 1 + Z.of_nat (length cs)) in * by lia.
    apply IH; [lia | exact Hb |]. apply counted_run; [exact Hn | lia | exact Hs].
Qed.

(** X21. As long as fewer than 2^63 calls were made, the number of
    active connections the service reports for a tunnel is never
    negative and never more than the number of calls:
    [DecrementConnection] stops at 0. *)
Theorem connections_never_negative (cs : list call) (id : N) (now : Z) :
  Z.of_nat (length cs) < 2 ^ 63 ->
  exists stats,
    GetRealtimeStats float64 float_zero id now
      (after float64 float_zero per_second cs) = Ok stats /\
    TunnelID float64 stats = id /\
    0 <= ActiveConnections float64 stats <= Z.of_nat (length cs).
Proof.
  intros Hb.
  assert (H0 : counted float64 0 (NewTrafficService float64)).
  { intros i st. unfold NewTrafficService. cbn [Traffic.realtimeStats].
    rewrite lookup_empty. discriminate. }
  pose proof (counted_fold cs 0 _ ltac:(lia) ltac:(lia) H0) as Hc.
  rewrite Z.add_0_l in Hc.
  unfold GetRealtimeStats. fold (after float64 float_zero per_second cs) in Hc.
  destruct (realtimeStats float64 (after float64 float_zero per_second cs) !! id) as [st|] eqn:E.
  - exists st. split; [reflexivity|]. exact (Hc _ _ E).
  - eexists. split; [reflexivity|]. cbn [TunnelID ActiveConnections].
    split; [reflexivity | lia].
Qed.

End WithFloat.

Lemma connections_never_negative_witness :
  exists stats,
    GetRealtimeStats Z 0 7 50
      (after Z 0 Z.div
         [CallDecrementConnection 7; CallIncrementConnection 7 10;
          CallLogTraffic 7 100 20 11 12; CallDecrementConnection 7;
          CallDecrementConnection 7]) = Ok stats /\
    TunnelID Z stats = 7%N /\
    0 <= ActiveConnections Z stats <= 5.
Proof.
  exact (connections_never_negative Z 0 Z.div
           [CallDecrementConnection 7; CallIncrementConnection 7 10;
            CallLogTraffic 7 100 20 11 12; CallDecrementConnection 7;
            CallDecrementConnection 7] 7%N 50 eq_refl).
Defined.

End TrafficFacts.

(* ================================================================== *)
(** * One SOCKS5 connection of a dynamic tunnel *)

Module Socks5TunnelFacts.
Import Socks5 Socks5Facts Traffic TrafficFacts Socks5Tunnel.
Local Open Scope Z_scope.

Section WithOutside.

Variable float64 : Type.
Variable float_zero : float64.
Variable per_second : Z -> Z -> float64.
Variable IP_String : bytes -> bytes.

Lemma connections_Increment (id id' : N) (t0 : Z) (ts : trafficService float64) :
  connections float64 (IncrementConnection float64 float_zero id t0 ts) id' =
  if N.eqb id id' then wrap64 (connections float64 ts id' + 1)
  else connections float64 ts id'.
Proof.
  unfold Traffic.connections, IncrementConnection. cbn [realtimeStats].
  destruct (N.eqb_spec id id') as [->|Hne].
  - rewrite lookup_insert_eq. destruct (realtimeStats float64 ts !! id'); reflexivity.
  - rewrite lookup_insert_ne by exact Hne. reflexivity.
Qed.

Lemma connections_LogTraffic (id id' : N) (bytesIn bytesOut t0 now : Z)
      (ts : trafficService float64) :
  realtimeStats float64 ts !! id <> None ->
  connections float64 (LogTraffic float64 float_zero per_second id bytesIn bytesOut
                                  t0 now ts) id' =
  connections float64 ts id'.
Proof.
  intros Hk. unfold Traffic.connections, LogTraffic. cbn [realtimeStats].
  destruct (N.eq_dec id id') as [->|Hne].
  - rewrite lookup_insert_eq.
    destruct (realtimeStats float64 ts !! id'); [reflexivity | contradiction].
  - rewrite lookup_insert_ne by exact Hne. reflexivity.
Qed.

Lemma connections_Decrement (id id' : N) (ts : trafficService float64) :
  connections float64 (DecrementConnection float64 id ts) id' =
  if N.eqb id id' && (0 <? connections float64 ts id')
  then wrap64 (connections float64 ts id' - 1)
  else connections float64 ts id'.
Proof.
  unfold Traffic.connections, DecrementConnection.
  destruct (N.eqb_spec id id') as [->|Hne]; cbn [andb].
  - destruct (realtimeStats float64 ts !! id') as [st|] eqn:E; [|rewrite E; reflexivity].
    destruct (0 <? ActiveConnections float64 st); [|rewrite E; reflexivity].
    cbn [realtimeStats]. rewrite lookup_insert_eq. reflexivity.
  - destruct (realtimeStats float64 ts !! id) as [st|]; [|reflexivity].
    destruct (0 <? ActiveConnections float64 st); [|reflexivity].
    cbn [realtimeStats]. rewrite lookup_insert_ne by exact Hne. reflexivity.
Qed.

Lemma Increment_known (id : N) (t0 : Z) (ts : trafficService float64) :
  realtimeStats float64 (IncrementConnection float64 float_zero id t0 ts) !! id <> None.
Proof.
  unfold IncrementConnection. cbn [realtimeStats]. rewrite lookup_insert_eq. discriminate.
Qed.

(** X22. The handler of one SOCKS5 connection of a tunnel, run on its
    own, with fewer than 2^63 - 1 connections counted for the tunnel
    before it.  It logs [connect] first and [disconnect] last, and
    between them one [error] exactly when the SOCKS5 server returned
    an error; it leaves the registry of running tunnels alone; the
    connection count of the tunnel is afterwards what it was before;
    and the connection is closed twice, by the server and by the
    handler. *)
Theorem handleSOCKS5_bookkeeping (tunnel : Tunnel.t) (socksServer : SOCKS5Server)
        (remoteAddr : bytes) (bytesIn bytesOut t0 t1 now : Z)
        (s : Engine.tunnelService) (ts : trafficService float64) (conn : Conn) :
  0 <= connections float64 ts (Tunnel.ID tunnel) < 2 ^ 63 - 1 ->
  let id := Tunnel.ID tunnel in
  let '(s', ts', conn') :=
    handleSOCKS5 float64 float_zero per_second IP_String tunnel socksServer
                 remoteAddr bytesIn bytesOut t0 t1 now s ts conn in
  Engine.effects s' =
    Engine.effects s ++
    [Engine.EAddConnectionLog id LogEventConnect
       (str "SOCKS5 connection from " ++ remoteAddr)] ++
    match fst (HandleConnection IP_String socksServer conn) with
    | Some err =>
        [Engine.EAddConnectionLog id LogEventError
           (str "SOCKS5 connection error: " ++ err)]
    | None => []
    end ++
    [Engine.EAddConnectionLog id LogEventDisconnect (str "SOCKS5 connection closed")] /\
  Engine.activeTunnels s' = Engine.activeTunnels s /\
  connections float64 ts' id = connections float64 ts id /\
  exists evs, events conn' = evs ++ [Close; Close].
Proof.
  intros Hc id. fold id in Hc. unfold handleSOCKS5. fold id.
  pose proof (HandleConnection_closes IP_String socksServer conn) as [evs Hev].
  destruct (HandleConnection IP_String socksServer conn) as [r conn'] eqn:EH.
  cbn [fst snd] in *.
  split; [|split; [|split]].
  - destruct r as [err|]; unfold Engine.addConnectionLog, Engine.do_effect,
      Engine.set_repo; cbn [Engine.effects Engine.tunnelRepo Engine.activeTunnels];
      rewrite <- ?app_assoc; reflexivity.
  - destruct r as [err|]; reflexivity.
  - rewrite connections_Decrement, N.eqb_refl. cbn [andb].
    assert (Hl : connections float64
                   (if relayed conn conn'
                    then logger_LogTraffic float64 float_zero per_second
                           (NewTunnelTrafficLogger id) bytesIn bytesOut t1 now
                           (IncrementConnection float64 float_zero id t0 ts)
                    else IncrementConnection float64 float_zero id t0 ts) id
                 = connections float64 ts id + 1).
    { destruct (relayed conn conn').
      - unfold logger_LogTraffic, NewTunnelTrafficLogger. cbn [logger_tunnelID].
        rewrite connections_LogTraffic by apply Increment_known.
        rewrite connections_Increment, N.eqb_refl. apply wrap64_id. lia.
      - rewrite connections_Increment, N.eqb_refl. apply wrap64_id. lia. }
    rewrite Hl.
    destruct (Z.ltb_spec 0 (connections float64 ts id + 1)); [|lia].
    rewrite wrap64_id by lia. lia.
  - exists evs. unfold emit. cbn [events]. rewrite Hev, <- app_assoc. reflexivity.
Qed.

End WithOutside.

(** A client of the tunnel 1 asks for 127.0.0.1:80 and is relayed. *)
Lemma handleSOCKS5_bookkeeping_witness :
  let tunnel := Clash.example_tunnel 1 1080 in
  let conn := mkConn [Ok (map ascii_of_nat [5; 1; 0]%nat);
                      Ok (map ascii_of_nat [5; 1; 0; 1; 127; 0; 0; 1; 0; 80]%nat)]
                     [] [] in
  let ts := NewTrafficService Z in
  0 <= connections Z ts 1 < 2 ^ 63 - 1 /\
  let '(s', ts', conn') :=
    handleSOCKS5 Z 0 Z.div IPv4_String tunnel (mkServer (fun _ _ => None) None)
                 (str "10.0.0.9:5555") 100 20 1 2 3 Engine.example_service ts conn in
  Engine.activeTunnels s' = Engine.activeTunnels Engine.example_service /\
  connections Z ts' 1 = 0 /\
  exists evs, events conn' = evs ++ [Close; Close].
Proof.
  intros tunnel conn ts.
  assert (Hc : 0 <= connections Z ts (Tunnel.ID tunnel) < 2 ^ 63 - 1)
    by (vm_compute; split; [discriminate | reflexivity]).
  split; [exact Hc|].
  pose proof (handleSOCKS5_bookkeeping Z 0 Z.div IPv4_String tunnel
                (mkServer (fun _ _ => None) None) (str "10.0.0.9:5555")
                100 20 1 2 3 Engine.example_service ts conn Hc) as H.
  cbv zeta in H.
  destruct (handleSOCKS5 Z 0 Z.div IPv4_String tunnel (mkServer (fun _ _ => None) None)
                         (str "10.0.0.9:5555") 100 20 1 2 3 Engine.example_service
                         ts conn) as [[s' ts'] conn'].
  destruct H as (_ & Ha & Hn & Hv).
  split; [exact Ha | split; [exact Hn | exact Hv]].
Defined.

End Socks5TunnelFacts.


(* ================================================================== *)
(** * The Clash exporter: missing hosts and proxy names *)

Module ClashNameFacts.
Import GoStringsFacts Sanitize Clash ClashFacts.

(** The proxies are made for the tunnels whose host can be read. *)
Lemma make_proxies_ports (s : clashExportService) (ts : list Tunnel.t) :
  map proxy_Port (make_proxies s ts) =
  map Tunnel.LocalPort
      (List.filter (fun t => is_Ok (HostRepository.GetByID (hostRepo s) (Tunnel.HostID t)))
                   ts).
Proof.
  induction ts as [|t ts IH]; cbn [make_proxies List.filter map]; [reflexivity|].
  destruct (HostRepository.GetByID (hostRepo s) (Tunnel.HostID t)) as [host|e];
    cbn [is_Ok map proxy_Port]; rewrite IH; reflexivity.
Qed.

Lemma make_proxies_none (s : clashExportService) (ts : list Tunnel.t) :
  make_proxies s ts = [] <->
  forall t, In t ts ->
            is_Ok (HostRepository.GetByID (hostRepo s) (Tunnel.HostID t)) = false.
Proof.
  induction ts as [|t ts IH]; cbn [make_proxies].
  - split; [intros _ t [] | reflexivity].
  - destruct (HostRepository.GetByID (hostRepo s) (Tunnel.HostID t)) as [host|e] eqn:E.
    + split; [discriminate|].
      intros H. specialize (H t (or_introl eq_refl)). rewrite E in H. discriminate H.
    + rewrite IH. split.
      * intros H t' [<-|Ht']; [rewrite E; reflexivity | apply H, Ht'].
      * intros H t' Ht'. apply H. right. exact Ht'.
Qed.

(** X23. When there are active dynamic tunnels, the configuration is
    generated even if hosts cannot be read: the proxies are those of the
    tunnels whose host can be read, in the order of the tunnels.  When no
    host can be read the configuration has no proxy and no group at all,
    and its last rule still sends the traffic to the group [Proxy]. *)
Theorem GenerateClashConfig_missing_hosts (s : clashExportService) :
  List.filter is_active_socks5 (TunnelRepository.GetAll (tunnelRepo s)) <> [] ->
  exists c ts,
    GenerateClashConfig s = Ok c /\ GetActiveSocks5Tunnels s = Ok ts /\
    map proxy_Port (Proxies c) =
      map Tunnel.LocalPort
          (List.filter (fun t => is_Ok (HostRepository.GetByID (hostRepo s)
                                                               (Tunnel.HostID t))) ts) /\
    ((forall t, In t ts ->
                is_Ok (HostRepository.GetByID (hostRepo s) (Tunnel.HostID t)) = false) ->
     Proxies c = [] /\ ProxyGroups c = [] /\
     List.last (Rules c) [] = str "MATCH,Proxy").
Proof.
  intros Hne. unfold GenerateClashConfig.
  destruct (GetActiveSocks5Tunnels_spec s) as (ts & Hts & Hperm & _).
  rewrite Hts.
  destruct ts as [|t ts].
  { apply Permutation_nil in Hperm. contradiction. }
  cbn [length Nat.eqb]. eexists. exists (t :: ts).
  split; [reflexivity|]. split; [reflexivity|]. cbn [Proxies ProxyGroups Rules].
  split; [apply make_proxies_ports|].
  intros Hnone. apply make_proxies_none in Hnone. rewrite Hnone.
  split; [reflexivity|]. split; reflexivity.
Qed.

(** ** Proxy names *)

Lemma last_dash (a b d1 d2 : bytes) :
  a ++ "-" :: d1 = b ++ "-" :: d2 -> ~ In "-" d1 -> ~ In "-" d2 -> d1 = d2.
Proof.
  revert b. induction a as [|x a IH]; intros [|y b] H H1 H2; cbn [app] in H.
  - congruence.
  - injection H as _ H. exfalso. apply H1. rewrite H. apply in_or_app. right. left.
    reflexivity.
  - injection H as _ H. exfalso. apply H2. rewrite <- H. apply in_or_app. right. left.
    reflexivity.
  - injection H as _ H. exact (IH b H H1 H2).
Qed.

Lemma string_of_uint_digits (d : Decimal.uint) :
  ~ In "-" (str (NilEmpty.string_of_uint d)).
Proof.
  unfold str.
  induction d; cbn [NilEmpty.string_of_uint list_ascii_of_string In];
    [tauto | intros [Hd|Hd]; [discriminate Hd | exact (IHd Hd)] ..].
Qed.

Lemma Itoa_digits (n : Z) : (0 <= n)%Z -> ~ In "-" (Itoa n).
Proof.
  intros Hn. unfold Itoa.
  destruct n as [|p|p]; [| |lia]; cbn [Z.to_int NilZero.string_of_int].
  - unfold str. cbn. intros [H|[]]. discriminate H.
  - unfold NilZero.string_of_uint.
    pose proof (DecimalPos.Unsigned.to_uint_nonnil p) as Hp.
    pose proof (string_of_uint_digits (Pos.to_uint p)) as Hd.
    destruct (Pos.to_uint p); [contradiction | exact Hd ..].
Qed.

Lemma Itoa_inj (n m : Z) : Itoa n = Itoa m -> n = m.
Proof.
  unfold Itoa, str. intros H.
  apply (f_equal string_of_list_ascii) in H.
  rewrite !string_of_list_ascii_of_string in H.
  apply (f_equal NilZero.int_of_string) in H.
  assert (Hz : forall z, NilZero.int_of_string (NilZero.string_of_int (Z.to_int z))
                         = Some (Z.to_int z)).
  { intros z. apply NilZero.isi; destruct z; cbn [Z.to_int]; try discriminate;
      intros [= Hp]; exact (DecimalPos.Unsigned.to_uint_nonnil _ Hp). }
  rewrite !Hz in H. injection H as H. apply DecimalZ.to_int_inj. exact H.
Qed.

Lemma proxy_name_port (h1 h2 : Host.t) (t1 t2 : Tunnel.t) :
  (0 <= Tunnel.LocalPort t1)%Z -> (0 <= Tunnel.LocalPort t2)%Z ->
  proxy_name h1 t1 = proxy_name h2 t2 -> Tunnel.LocalPort t1 = Tunnel.LocalPort t2.
Proof.
  intros H1 H2 H. unfold proxy_name in H.
  apply app_inv_head in H.
  change (str "-") with ["-"] in H. cbn [app] in H.
  apply Itoa_inj. eapply last_dash; [exact H | apply Itoa_digits, H1 | apply Itoa_digits, H2].
Qed.

Lemma make_proxies_In (s : clashExportService) (ts : list Tunnel.t) (p : ClashProxy) :
  In p (make_proxies s ts) ->
  exists t host, In t ts /\ proxy_Name p = proxy_name host t.
Proof.
  induction ts as [|t ts IH]; cbn [make_proxies]; [intros []|].
  destruct (HostRepository.GetByID (hostRepo s) (Tunnel.HostID t)) as [host|e].
  - intros [<-|Hp].
    + exists t, host. split; [left; reflexivity | reflexivity].
    + destruct (IH Hp) as (t' & h' & Ht' & Hn). exists t', h'. split; [right|]; assumption.
  - intros Hp. destruct (IH Hp) as (t' & h' & Ht' & Hn).
    exists t', h'. split; [right|]; assumption.
Qed.

Lemma make_proxies_NoDup (s : clashExportService) (ts : list Tunnel.t) :
  (forall t, In t ts -> (0 <= Tunnel.LocalPort t)%Z) ->
  List.NoDup (map Tunnel.LocalPort ts) ->
  List.NoDup (map proxy_Name (make_proxies s ts)).
Proof.
  induction ts as [|t ts IH]; intros Hpos Hnd; cbn [make_proxies map]; [constructor|].
  cbn [map] in Hnd. inversion Hnd as [|? ? Hnotin Hnd']; subst.
  assert (Hrest : List.NoDup (map proxy_Name (make_proxies s ts))).
  { apply IH; [|exact Hnd']. intros t' Ht'. apply Hpos. right. exact Ht'. }
  destruct (HostRepository.GetByID (hostRepo s) (Tunnel.HostID t)) as [host|e];
    [|exact Hrest].
  cbn [map proxy_Name]. constructor; [|exact Hrest].
  intros Hin. apply in_map_iff in Hin as (p & Hname & Hp).
  destruct (make_proxies_In s ts p Hp) as (t' & h' & Ht' & Hn).
  apply Hnotin. apply in_map_iff. exists t'. split; [|exact Ht'].
  symmetry. apply (proxy_name_port host h' t t').
  - apply Hpos. left. reflexivity.
  - apply Hpos. right. exact Ht'.
  - rewrite <- Hn. symmetry. exact Hname.
Qed.

(** X24. When the active dynamic tunnels listen on different ports, none
    of them negative, the proxies of the generated configuration have
    different names, whatever the names of the hosts are. *)
Theorem proxy_names_distinct (s : clashExportService) (c : ClashConfig)
        (ts : list Tunnel.t) :
  GetActiveSocks5Tunnels s = Ok ts ->
  (forall t, In t ts -> (0 <= Tunnel.LocalPort t)%Z) ->
  List.NoDup (map Tunnel.LocalPort ts) ->
  GenerateClashConfig s = Ok c ->
  List.NoDup (map proxy_Name (Proxies c)).
Proof.
  intros Hts Hpos Hnd Hc. unfold GenerateClashConfig in Hc. rewrite Hts in Hc.
  destruct (length ts =? 0)%nat; [discriminate Hc|].
  injection Hc as <-. cbn [Proxies]. apply make_proxies_NoDup; assumption.
Qed.

(** An active dynamic tunnel whose host is gone. *)
Lemma GenerateClashConfig_missing_hosts_witness :
  let s := Clash.mkService (TunnelRepository.mk [example_tunnel 1 1080] []) [] in
  exists c,
    GenerateClashConfig s = Ok c /\ Proxies c = [] /\ ProxyGroups c = [] /\
    List.last (Rules c) [] = str "MATCH,Proxy".
Proof.
  intros s.
  assert (Hne : List.filter is_active_socks5 (TunnelRepository.GetAll (tunnelRepo s)) <> [])
    by (vm_compute; discriminate).
  destruct (GenerateClashConfig_missing_hosts s Hne) as (c & ts & Hc & Hts & _ & Hnone).
  exists c. split; [exact Hc|]. apply Hnone.
  injection Hts as <-. intros t Ht. vm_compute in Ht.
  destruct Ht as [<-|[]]. reflexivity.
Defined.

(** The two tunnels of [example_two], on the ports 1080 and 1081. *)
Lemma proxy_names_distinct_witness :
  exists c,
    GenerateClashConfig example_two = Ok c /\
    List.NoDup (map proxy_Name (Proxies c)).
Proof.
  eexists. split; [reflexivity|].
  eapply (proxy_names_distinct example_two _ _ eq_refl); [| |reflexivity].
  - intros t Ht. vm_compute in Ht. destruct Ht as [<-|[<-|[]]]; vm_compute; discriminate.
  - vm_compute. constructor; [intros [H|[]]; discriminate H|].
    constructor; [intros []|]. constructor.
Defined.

End ClashNameFacts.
